(** * Appleseed: qualification, outreach, payout and daily-ledger rules

    A shallow embedding of the decision logic of the Appleseed pipeline
    (src/qualifier.ts, src/wallet.ts, src/db.ts, src/outreach.ts,
    src/airdrop.ts) together with the properties its specification states.

    Conventions of the embedding:
    - JavaScript numbers that the code only uses as integers (scores, star
      counts, satoshi amounts, counters, row ids, epoch milliseconds) are [Z];
      a number that [parseInt] reads from a text is a [Js.Number]: an
      integer, NaN or an infinity;
    - a timestamp string is represented by what [new Date(s).getTime()]
      yields for it: [Some ms], or [None] for an invalid date (NaN);
    - strings are [string]; [toLowerCase] acts on the ASCII letters;
    - the SQLite tables are explicit state: the [prospects] table is the list
      of its rows in the order the queries return them
      ([ORDER BY created_at DESC]), the [daily_limits] table is a finite map
      keyed by its primary key [date], the [activity_log] table is a list;
    - everything outside the process (GitHub, the Stacks API, the clock) is
      an explicit environment argument, and the external calls a run makes
      are recorded in the state. *)

From Stdlib Require Import ZArith Lia Bool List String Ascii.
From stdpp Require Import base option list gmap strings pretty.

Local Open Scope string_scope.
Local Open Scope Z_scope.

(** ** JavaScript string primitives *)

Module Js.

(** [c.toLowerCase()] for one ASCII character. *)
Definition lower_ascii (c : ascii) : ascii :=
  let n := N_of_ascii c in
  if ((65 <=? n) && (n <=? 90))%N then ascii_of_N (n + 32) else c.

(** [s.toLowerCase()]. *)
Fixpoint toLowerCase (s : string) : string :=
  match s with
  | EmptyString => EmptyString
  | String c s' => String (lower_ascii c) (toLowerCase s')
  end.

(** [s.startsWith(t)]. *)
Fixpoint startsWith (s t : string) : bool :=
  match t, s with
  | EmptyString, _ => true
  | String _ _, EmptyString => false
  | String b t', String a s' => if Ascii.eqb a b then startsWith s' t' else false
  end.

(** [s.includes(t)]: [t] occurs somewhere in [s]. *)
Fixpoint includes (s t : string) : bool :=
  if startsWith s t then true
  else match s with
       | EmptyString => false
       | String _ s' => includes s' t
       end.

(** Truthiness of a string: the empty string is falsy. *)
Definition truthy_string (s : string) : bool :=
  match s with EmptyString => false | _ => true end.

(** Truthiness of an integer-valued number: 0 is falsy. *)
Definition truthy_num (n : Z) : bool := negb (n =? 0).

(** [a.slice(0, e)] on an array, for an integer [e]: a negative [e] counts
    from the end of the array. *)
Definition slice0 {A} (l : list A) (e : Z) : list A :=
  if e <? 0
  then firstn (Z.to_nat (Z.max (Z.of_nat (List.length l) + e) 0)) l
  else firstn (Z.to_nat e) l.

(** [new Date(s).getTime()]: [None] stands for NaN (an invalid date). *)
Definition Time := option Z.

(** [a > b] and [a >= b] on times; any comparison with NaN is false. *)
Definition time_gt (a b : Time) : bool :=
  match a, b with Some x, Some y => x >? y | _, _ => false end.
Definition time_ge (a b : Time) : bool :=
  match a, b with Some x, Some y => x >=? y | _, _ => false end.

(** What [parseInt(s, 10)] gives: an integer; NaN when [s] does not start
    with one; an infinity when the integer is beyond the range of the
    doubles. *)
Inductive Number :=
  | Num (z : Z)
  | NaN
  | Infinity
  | NegInfinity.

(** [x - a] for an integer [a]. Beyond 2^53 the difference of two doubles
    is rounded; the rounding is monotone and the code only compares the
    difference with an integer that a double holds, so that the exact
    difference decides the same. *)
Definition minus (x : Number) (a : Z) : Number :=
  match x with Num z => Num (z - a) | _ => x end.

(** [x < c] and [x >= c] for an integer [c]; any comparison with NaN is
    false. *)
Definition lt (x : Number) (c : Z) : bool :=
  match x with
  | Num z => z <? c
  | NegInfinity => true
  | NaN | Infinity => false
  end.
Definition ge (x : Number) (c : Z) : bool :=
  match x with
  | Num z => z >=? c
  | Infinity => true
  | NaN | NegInfinity => false
  end.

(** The double nearest to the integer [z >= 0], ties to the even mantissa:
    [z] itself up to 2^53, above it the 53 leading bits of [z] rounded, and
    Infinity when that reaches 2^1024. *)
Definition toDouble (z : Z) : Number :=
  if z <=? 2 ^ 53 then Num z
  else
    let e := Z.log2 z - 52 in
    let q := Z.shiftr z e in
    let r := Z.land z (Z.ones e) in
    let half := 2 ^ (e - 1) in
    let q' := if (r >? half) || ((r =? half) && Z.odd q) then q + 1 else q in
    if Z.shiftl q' e >=? 2 ^ 1024 then Infinity else Num (Z.shiftl q' e).

End Js.

(** An integer is read as a number where one is expected. *)
Coercion Js.Num : Z >-> Js.Number.

(** ** Types (src/types.ts) *)

Inductive Tier := A | B | C | D.

Inductive OutreachStatus :=
  | OutreachPending | PrOpened | PrMerged | PrClosed | Declined.

Inductive AirdropStatus :=
  | AirdropPending | AirdropSent | AirdropConfirmed | AirdropFailed.

#[global] Instance Tier_eq_dec : EqDecision Tier.
Proof. solve_decision. Defined.
#[global] Instance OutreachStatus_eq_dec : EqDecision OutreachStatus.
Proof. solve_decision. Defined.
#[global] Instance AirdropStatus_eq_dec : EqDecision AirdropStatus.
Proof. solve_decision. Defined.

Record MatchedRepo := {
  name : string;
  fullName : string;
  url : string;
  stars : Z;
  description : option string;
  language : option string;
  lastUpdated : Js.Time;
  matchedQuery : string
}.

(** The fields of a [Prospect] that the modelled modules read or write
    ([githubId], [email], [discoveredVia], the yield fields and [createdAt]
    are carried by the real rows and never touched by them). *)
Record Prospect := {
  id : Z;
  githubUsername : string;
  repos : list MatchedRepo;
  score : Z;
  tier : option Tier;
  outreachStatus : OutreachStatus;
  targetRepo : option string;
  prUrl : option string;
  prNumber : option Z;
  prOpenedAt : option string;
  stacksAddress : option string;
  addressValid : bool;
  verifiedAt : option string;
  airdropStatus : AirdropStatus;
  airdropTxid : option string;
  airdropAmountSats : option Z;
  airdropSentAt : option string;
  updatedAt : string
}.

Record ScoringBreakdown := {
  claudeMcp : Z;
  aiAgent : Z;
  sb_stars : Z;
  activity : Z;
  followers : Z;
  crypto : Z
}.

Record QualificationResult := {
  qr_score : Z;
  qr_tier : Tier;
  breakdown : ScoringBreakdown;
  personalizationHooks : list string
}.

Record Config := {
  maxDailyPRs : Z;
  maxDailyAirdrops : Z;
  airdropTierA : Z;
  airdropTierB : Z;
  airdropTierC : Z
}.

(** ** Qualifier (src/qualifier.ts) *)

Module Qualifier.

Module WEIGHTS.
Definition CLAUDE_MCP : Z := 30.
Definition AI_AGENT : Z := 25.
Definition STARS : Z := 15.
Definition ACTIVITY : Z := 15.
Definition FOLLOWERS : Z := 10.
Definition CRYPTO : Z := 5.
End WEIGHTS.

(** [(repo.description || "")] *)
Definition descOrEmpty (repo : MatchedRepo) : string :=
  match description repo with Some d => d | None => "" end.

(** [`${query} ${name} ${desc}`] of the lower-cased fields. *)
Definition combined (repo : MatchedRepo) : string :=
  Js.toLowerCase (matchedQuery repo) ++ " " ++ Js.toLowerCase (name repo)
    ++ " " ++ Js.toLowerCase (descOrEmpty repo).

Definition mcpIndicators : list string :=
  ["mcp.json"; "@modelcontextprotocol"; "claude-mcp";
   "model-context-protocol"; "anthropic"].

(** The two nested loops leave with [score = WEIGHTS.CLAUDE_MCP] at the
    first repo and indicator that match, and with 0 when none does. *)
Definition scoreClaudeMcp (prospect : Prospect) : Z :=
  if existsb (fun repo =>
       let query := Js.toLowerCase (matchedQuery repo) in
       let name := Js.toLowerCase (name repo) in
       let desc := Js.toLowerCase (descOrEmpty repo) in
       existsb (fun indicator =>
         Js.includes query indicator || Js.includes name indicator
           || Js.includes desc indicator) mcpIndicators)
     (repos prospect)
  then WEIGHTS.CLAUDE_MCP else 0.

Definition agentIndicators : list (string * Z) :=
  [("langchain", 25); ("autogpt", 25); ("crewai", 25); ("agent", 15);
   ("autonomous", 10); ("tool_calling", 15); ("function_call", 15)].

Definition scoreAiAgent (prospect : Prospect) : Z :=
  let maxScore :=
    fold_left (fun maxScore repo =>
      fold_left (fun maxScore '(pattern, points) =>
        if Js.includes (combined repo) pattern
        then Z.max maxScore points else maxScore)
        agentIndicators maxScore)
      (repos prospect) 0 in
  Z.min maxScore WEIGHTS.AI_AGENT.

(** [prospect.repos.reduce((sum, repo) => sum + repo.stars, 0)] *)
Definition totalStars (prospect : Prospect) : Z :=
  fold_left (fun sum repo => sum + stars repo) (repos prospect) 0.

Definition scoreStars (prospect : Prospect) : Z :=
  Z.min (totalStars prospect / 10) WEIGHTS.STARS.

Definition DAY_MS : Z := 24 * 60 * 60 * 1000.

(** The loop of [scoreActivity]: [None] is the initial [null]. *)
Definition mostRecentUpdate (prospect : Prospect) : option Js.Time :=
  fold_left (fun mostRecent repo =>
    let updated := lastUpdated repo in
    match mostRecent with
    | None => Some updated
    | Some m => if Js.time_gt updated m then Some updated else mostRecent
    end) (repos prospect) None.

(** [now] is [new Date().getTime()] at the call. *)
Definition scoreActivity (now : Z) (prospect : Prospect) : Z :=
  let thirtyDaysAgo := Some (now - 30 * DAY_MS) in
  let ninetyDaysAgo := Some (now - 90 * DAY_MS) in
  let oneEightyDaysAgo := Some (now - 180 * DAY_MS) in
  match mostRecentUpdate prospect with
  | None => 0
  | Some m =>
      if Js.time_ge m thirtyDaysAgo then WEIGHTS.ACTIVITY
      else if Js.time_ge m ninetyDaysAgo then 10
      else if Js.time_ge m oneEightyDaysAgo then 5
      else 0
  end.

Definition scoreFollowers (_prospect : Prospect) : Z := 0.

Definition cryptoIndicators : list string :=
  ["bitcoin"; "btc"; "ethereum"; "eth"; "stacks"; "sbtc"; "web3";
   "blockchain"; "crypto"; "defi"; "nft"; "clarity"; "solidity"; "rust"].

Definition scoreCrypto (prospect : Prospect) : Z :=
  if existsb (fun repo =>
       existsb (fun indicator => Js.includes (combined repo) indicator)
         cryptoIndicators) (repos prospect)
  then WEIGHTS.CRYPTO else 0.

(** The framework loop of [generatePersonalizationHooks]: the first repo
    that names a framework decides, LangChain before CrewAI before
    AutoGPT inside one repo. *)
Fixpoint frameworkHook (rs : list MatchedRepo) : list string :=
  match rs with
  | [] => []
  | repo :: rs' =>
      let combined :=
        Js.toLowerCase (matchedQuery repo ++ " " ++ name repo ++ " "
                        ++ descOrEmpty repo) in
      if Js.includes combined "langchain" then ["LangChain developer"]
      else if Js.includes combined "crewai" then ["CrewAI builder"]
      else if Js.includes combined "autogpt" then ["AutoGPT contributor"]
      else frameworkHook rs'
  end.

(** [repos.reduce((best, repo) => repo.stars > (best?.stars ?? 0) ? repo : best,
    repos[0])]; [None] is [undefined]. *)
Definition topRepo (prospect : Prospect) : option MatchedRepo :=
  fold_left (fun best repo =>
    if stars repo >? (match best with Some b => stars b | None => 0 end)
    then Some repo else best)
    (repos prospect) (head (repos prospect)).

Definition generatePersonalizationHooks
    (prospect : Prospect) (breakdown : ScoringBreakdown) : list string :=
  (if claudeMcp breakdown >? 0 then ["Works with Claude MCP"] else [])
  ++ (if aiAgent breakdown >=? 25 then frameworkHook (repos prospect) else [])
  ++ (if crypto breakdown >? 0
      then ["Already working in crypto/blockchain"] else [])
  ++ (if sb_stars breakdown >=? 10
      then [pretty (totalStars prospect) ++ "+ stars on AI projects"] else [])
  ++ (match topRepo prospect with
      | Some r => ["Built " ++ name r]
      | None => []
      end).

Definition getTier (score : Z) : Tier :=
  if score >=? 70 then A
  else if score >=? 40 then B
  else if score >=? 20 then C
  else D.

Definition qualifyProspect (now : Z) (prospect : Prospect) : QualificationResult :=
  let breakdown := {|
    claudeMcp := scoreClaudeMcp prospect;
    aiAgent := scoreAiAgent prospect;
    sb_stars := scoreStars prospect;
    activity := scoreActivity now prospect;
    followers := scoreFollowers prospect;
    crypto := scoreCrypto prospect |} in
  let score :=
    claudeMcp breakdown + aiAgent breakdown + sb_stars breakdown
    + activity breakdown + followers breakdown + crypto breakdown in
  let tier := getTier score in
  let personalizationHooks := generatePersonalizationHooks prospect breakdown in
  {| qr_score := score; qr_tier := tier; breakdown := breakdown;
     personalizationHooks := personalizationHooks |}.

End Qualifier.

(** ** Wallet (src/wallet.ts) *)

Module Wallet.

(** The character class [[0-9A-HJ-NP-Z]]. *)
Definition c32_class (c : ascii) : bool :=
  let n := N_of_ascii c in
  (((48 <=? n) && (n <=? 57))       (* 0-9 *)
   || ((65 <=? n) && (n <=? 72))    (* A-H *)
   || ((74 <=? n) && (n <=? 78))    (* J-N *)
   || ((80 <=? n) && (n <=? 90)))%N (* P-Z *).

Definition chars (s : string) : list ascii := list_ascii_of_string s.

(** [/^<prefix>[0-9A-HJ-NP-Z]{38,39}$/.test(address)] for a two-letter
    prefix: the whole string is the prefix followed by 38 or 39
    characters of the class. *)
Definition test_prefixed (p1 p2 : ascii) (address : string) : bool :=
  match address with
  | String a (String b rest) =>
      Ascii.eqb a p1 && Ascii.eqb b p2
      && forallb c32_class (chars rest)
      && ((String.length rest =? 38)%nat || (String.length rest =? 39)%nat)
  | _ => false
  end.

Definition mainnetRegex : string -> bool := test_prefixed "S" "P".
Definition testnetRegex : string -> bool := test_prefixed "S" "T".

Definition isValidStacksAddress (address : string) : bool :=
  mainnetRegex address || testnetRegex address.

(** The characters of the class [[0-9A-HJ-NP-Z]], written out: the digits
    and the capital letters other than I and O. *)
Definition classAlphabet : list ascii :=
  list_ascii_of_string "0123456789ABCDEFGHJKLMNPQRSTUVWXYZ".

End Wallet.

(** ** Database (src/db.ts) and the world around it *)

(** One row of [daily_limits]; the key [date] is the key of the map. *)
Record DailyLimitsRow := {
  prs_opened : Z;
  airdrops_sent : Z
}.

Record DailyLimits := {
  date : string;
  prsOpened : Z;
  airdropsSent : Z
}.

(** The [details] object of an activity-log entry. *)
Inductive LogDetails :=
  | ScoredDetails (score : Z) (tier : Tier) (breakdown : ScoringBreakdown)
  | PrCreatedDetails (prUrl : string) (tier : Tier)
  | OutreachFailedDetails (error : string)
  | AirdropFailedDetails (error : string) (amount : Z)
  | AirdropConfirmedDetails (txid : string) (amount : Z) (blockHeight : option Z).

Record ActivityLogEntry := {
  action : string;
  prospectId : Z;
  details : LogDetails
}.

(** Calls that leave the process. [SendSbtc] is labelled with the id of the
    prospect whose [processAirdrop] makes it. *)
Inductive ExternalCall :=
  | CheckAuth
  | GetAuthenticatedUser
  | ForkRepo (owner repo : string)
  | CreateBranch (repo : string)
  | CreateFile (repo : string)
  | CreatePR (owner repo : string)
  | GetWalletAddress
  | GetWalletInfo
  | SendSbtc (forProspect : Z) (recipient : string) (amountSats : Z)
  | WaitForConfirmation (txid : string)
  | PostPRComment (owner repo : string) (prNumber : Js.Number).

Record World := {
  prospects : list Prospect;
  daily_limits : gmap string DailyLimitsRow;
  activity_log : list ActivityLogEntry;
  calls : list ExternalCall
}.

(** Readings of the system clock: [startDate] is [getTodayDate()] when a
    run starts; the others are the readings while the prospect with the
    given id is being handled, [nowIso i k] being the [k]-th time stamp
    taken for it. *)
Record Clock := {
  startDate : string;
  nowMs : Z -> Z;             (* new Date().getTime() *)
  nowIso : Z -> nat -> string; (* new Date().toISOString(), datetime('now') *)
  todayDate : Z -> string     (* getTodayDate() *)
}.

Module Db.

Definition with_prospects (w : World) (ps : list Prospect) : World :=
  {| prospects := ps; daily_limits := daily_limits w;
     activity_log := activity_log w; calls := calls w |}.

Definition with_daily_limits (w : World) (m : gmap string DailyLimitsRow) : World :=
  {| prospects := prospects w; daily_limits := m;
     activity_log := activity_log w; calls := calls w |}.

Definition call (c : ExternalCall) (w : World) : World :=
  {| prospects := prospects w; daily_limits := daily_limits w;
     activity_log := activity_log w; calls := calls w ++ [c] |}.

(** [SELECT * FROM prospects WHERE id = ?] with [.get]: the first row. *)
Definition getProspectById (id' : Z) (w : World) : option Prospect :=
  List.find (fun p => id p =? id') (prospects w).

Record Filters := {
  f_tier : option Tier;
  f_outreachStatus : option OutreachStatus;
  f_airdropStatus : option AirdropStatus;
  f_pendingQualification : bool;
  f_limit : option Z
}.

Definition noFilters : Filters :=
  {| f_tier := None; f_outreachStatus := None; f_airdropStatus := None;
     f_pendingQualification := false; f_limit := None |}.

(** The [WHERE] clause built by [getProspects]. *)
Definition matches (f : Filters) (p : Prospect) : bool :=
  (match f_tier f with
   | Some t => bool_decide (tier p = Some t) | None => true end)
  && (match f_outreachStatus f with
      | Some s => bool_decide (outreachStatus p = s) | None => true end)
  && (match f_airdropStatus f with
      | Some s => bool_decide (airdropStatus p = s) | None => true end)
  && (if f_pendingQualification f
      then bool_decide (tier p = None) else true).

(** [LIMIT ?] is added only for a truthy limit; SQLite reads a negative
    limit as no limit. *)
Definition sql_limit (limit : option Z) (rows : list Prospect) : list Prospect :=
  match limit with
  | Some n => if Js.truthy_num n
              then (if n <? 0 then rows else firstn (Z.to_nat n) rows)
              else rows
  | None => rows
  end.

Definition getProspects (f : Filters) (w : World) : list Prospect :=
  sql_limit (f_limit f) (List.filter (matches f) (prospects w)).

(** [UPDATE prospects SET ... WHERE id = ?] *)
Definition update_where_id (id' : Z) (upd : Prospect -> Prospect) (w : World) : World :=
  with_prospects w
    (List.map (fun p => if id p =? id' then upd p else p) (prospects w)).

Definition set_score (score' : Z) (tier' : Tier) (stamp : string) (p : Prospect) : Prospect :=
  {| id := id p; githubUsername := githubUsername p; repos := repos p;
     score := score'; tier := Some tier';
     outreachStatus := outreachStatus p; targetRepo := targetRepo p;
     prUrl := prUrl p; prNumber := prNumber p; prOpenedAt := prOpenedAt p;
     stacksAddress := stacksAddress p; addressValid := addressValid p;
     verifiedAt := verifiedAt p; airdropStatus := airdropStatus p;
     airdropTxid := airdropTxid p; airdropAmountSats := airdropAmountSats p;
     airdropSentAt := airdropSentAt p; updatedAt := stamp |}.

Definition updateProspectScore (id' score' : Z) (tier' : Tier) (stamp : string)
    (w : World) : World :=
  update_where_id id' (set_score score' tier' stamp) w.

(** [COALESCE(?, column)] *)
Definition coalesce {T} (new old : option T) : option T :=
  match new with Some v => Some v | None => old end.

Record OutreachUpdate := {
  u_outreachStatus : OutreachStatus;
  u_targetRepo : option string;
  u_prUrl : option string;
  u_prNumber : option Z;
  u_prOpenedAt : option string
}.

Definition set_outreach (d : OutreachUpdate) (stamp : string) (p : Prospect) : Prospect :=
  {| id := id p; githubUsername := githubUsername p; repos := repos p;
     score := score p; tier := tier p;
     outreachStatus := u_outreachStatus d;
     targetRepo := coalesce (u_targetRepo d) (targetRepo p);
     prUrl := coalesce (u_prUrl d) (prUrl p);
     prNumber := coalesce (u_prNumber d) (prNumber p);
     prOpenedAt := coalesce (u_prOpenedAt d) (prOpenedAt p);
     stacksAddress := stacksAddress p; addressValid := addressValid p;
     verifiedAt := verifiedAt p; airdropStatus := airdropStatus p;
     airdropTxid := airdropTxid p; airdropAmountSats := airdropAmountSats p;
     airdropSentAt := airdropSentAt p; updatedAt := stamp |}.

Definition updateProspectOutreach (id' : Z) (d : OutreachUpdate) (stamp : string)
    (w : World) : World :=
  update_where_id id' (set_outreach d stamp) w.

Record AirdropUpdate := {
  u_airdropStatus : AirdropStatus;
  u_airdropTxid : option string;
  u_airdropAmountSats : option Z;
  u_airdropSentAt : option string
}.

Definition set_airdrop (d : AirdropUpdate) (stamp : string) (p : Prospect) : Prospect :=
  {| id := id p; githubUsername := githubUsername p; repos := repos p;
     score := score p; tier := tier p;
     outreachStatus := outreachStatus p; targetRepo := targetRepo p;
     prUrl := prUrl p; prNumber := prNumber p; prOpenedAt := prOpenedAt p;
     stacksAddress := stacksAddress p; addressValid := addressValid p;
     verifiedAt := verifiedAt p;
     airdropStatus := u_airdropStatus d;
     airdropTxid := coalesce (u_airdropTxid d) (airdropTxid p);
     airdropAmountSats := coalesce (u_airdropAmountSats d) (airdropAmountSats p);
     airdropSentAt := coalesce (u_airdropSentAt d) (airdropSentAt p);
     updatedAt := stamp |}.

Definition updateProspectAirdrop (id' : Z) (d : AirdropUpdate) (stamp : string)
    (w : World) : World :=
  update_where_id id' (set_airdrop d stamp) w.

(** [INSERT INTO activity_log (action, prospect_id, details)] *)
Definition logActivity (action' : string) (prospectId' : Z) (details' : LogDetails)
    (w : World) : World :=
  {| prospects := prospects w; daily_limits := daily_limits w;
     activity_log := activity_log w
       ++ [{| action := action'; prospectId := prospectId'; details := details' |}];
     calls := calls w |}.

(** *** Daily limits. [today] is what [getTodayDate()] returns at the call. *)

(** The row [INSERT INTO daily_limits (date) VALUES (?)] creates: both
    counters take their [DEFAULT 0]. *)
Definition freshRow : DailyLimitsRow := {| prs_opened := 0; airdrops_sent := 0 |}.

Definition getDailyLimits (today : string) (w : World) : DailyLimits * World :=
  match daily_limits w !! today with
  | Some row =>
      ({| date := today; prsOpened := prs_opened row;
          airdropsSent := airdrops_sent row |}, w)
  | None =>
      ({| date := today; prsOpened := prs_opened freshRow;
          airdropsSent := airdrops_sent freshRow |},
       with_daily_limits w (<[today := freshRow]> (daily_limits w)))
  end.

(** [UPDATE daily_limits SET prs_opened = prs_opened + 1 WHERE date = ?] *)
Definition bump_prs (row : DailyLimitsRow) : DailyLimitsRow :=
  {| prs_opened := prs_opened row + 1; airdrops_sent := airdrops_sent row |}.

(** [UPDATE daily_limits SET airdrops_sent = airdrops_sent + 1 WHERE date = ?] *)
Definition bump_airdrops (row : DailyLimitsRow) : DailyLimitsRow :=
  {| prs_opened := prs_opened row; airdrops_sent := airdrops_sent row + 1 |}.

(** The value returned is the counter read back after the update; a
    missing row (impossible after [getDailyLimits]) would read as 0 here. *)
Definition incrementDailyPRs (today : string) (w : World) : Z * World :=
  let w1 := snd (getDailyLimits today w) in
  let m := alter bump_prs today (daily_limits w1) in
  (match m !! today with Some row => prs_opened row | None => 0 end,
   with_daily_limits w1 m).

Definition incrementDailyAirdrops (today : string) (w : World) : Z * World :=
  let w1 := snd (getDailyLimits today w) in
  let m := alter bump_airdrops today (daily_limits w1) in
  (match m !! today with Some row => airdrops_sent row | None => 0 end,
   with_daily_limits w1 m).

(** The operations of the ledger, for statements about all of them. *)
Inductive LedgerOp := GetDailyLimits | IncrementDailyPRs | IncrementDailyAirdrops.

Definition run_op (op : LedgerOp) (today : string) (w : World) : World :=
  match op with
  | GetDailyLimits => snd (getDailyLimits today w)
  | IncrementDailyPRs => snd (incrementDailyPRs today w)
  | IncrementDailyAirdrops => snd (incrementDailyAirdrops today w)
  end.

(** The counters of a date as the code reads them: those of its row. *)
Definition prsOpenedOn (d : string) (w : World) : option Z :=
  prs_opened <$> daily_limits w !! d.
Definition airdropsSentOn (d : string) (w : World) : option Z :=
  airdrops_sent <$> daily_limits w !! d.

End Db.

(** ** URL parsing (src/github.ts) *)

Module Github.

Definition slash : ascii := "/"%char.

(** The longest run matched by [[^/]+] at the start of [s], and the rest. *)
Fixpoint takeNonSlash (s : string) : string * string :=
  match s with
  | EmptyString => (EmptyString, EmptyString)
  | String c s' =>
      if Ascii.eqb c slash then (EmptyString, s)
      else let '(run, rest) := takeNonSlash s' in (String c run, rest)
  end.

Definition isDigit (c : ascii) : bool :=
  let n := N_of_ascii c in ((48 <=? n) && (n <=? 57))%N.

(** The longest run matched by [\d+] at the start of [s]. *)
Fixpoint takeDigits (s : string) : string :=
  match s with
  | String c s' => if isDigit c then String c (takeDigits s') else EmptyString
  | EmptyString => EmptyString
  end.

(** The integer that a run of decimal digits denotes. *)
Definition valueOf (s : string) : Z :=
  fold_left (fun acc c => 10 * acc + (Z.of_N (N_of_ascii c) - 48))
    (list_ascii_of_string s) 0.

(** [parseInt(digits, 10)] for a run of decimal digits: the double nearest
    to the integer they denote. *)
Definition parseDigits (s : string) : Js.Number :=
  Js.toDouble (valueOf s).

(** [s] without the prefix [p], when it starts with it. *)
Fixpoint stripPrefix (p s : string) : option string :=
  match p, s with
  | EmptyString, _ => Some s
  | String a p', String b s' => if Ascii.eqb a b then stripPrefix p' s' else None
  | String _ _, EmptyString => None
  end.

(** [([^/]+)\/([^/]+)] right after [github.com/]: both runs are maximal,
    since the first must be followed by a slash and the second is greedy.
    Returns the two groups and what follows them. *)
Definition ownerRepoAt (s : string) : option (string * string * string) :=
  let '(owner, r1) := takeNonSlash s in
  match owner, r1 with
  | String _ _, String _ r2 =>
      let '(repo, r3) := takeNonSlash r2 in
      match repo with
      | String _ _ => Some (owner, repo, r3)
      | EmptyString => None
      end
  | _, _ => None
  end.

(** [s.replace(/\.git$/, "")] *)
Fixpoint dropDotGit (s : string) : string :=
  match s with
  | EmptyString => EmptyString
  | String c s' => if String.eqb s ".git" then EmptyString else String c (dropDotGit s')
  end.

(** [url.match(/github\.com\/([^/]+)\/([^/]+)/)]: the leftmost position
    where the pattern matches. *)
Fixpoint parseRepoUrl (url : string) : option (string * string) :=
  let here :=
    match stripPrefix "github.com/" url with
    | Some s =>
        match ownerRepoAt s with
        | Some (owner, repo, _) => Some (owner, dropDotGit repo)
        | None => None
        end
    | None => None
    end in
  match here, url with
  | Some r, _ => Some r
  | None, String _ url' => parseRepoUrl url'
  | None, EmptyString => None
  end.

(** [url.match(/github\.com\/([^/]+)\/([^/]+)\/pull\/(\d+)/)] *)
Fixpoint parsePRUrl (url : string) : option (string * string * Js.Number) :=
  let here :=
    match stripPrefix "github.com/" url with
    | Some s =>
        match ownerRepoAt s with
        | Some (owner, repo, rest) =>
            match stripPrefix "/pull/" rest with
            | Some d =>
                match takeDigits d with
                | EmptyString => None
                | digits => Some (owner, repo, parseDigits digits)
                end
            | None => None
            end
        | None => None
        end
    | None => None
    end in
  match here, url with
  | Some r, _ => Some r
  | None, String _ url' => parsePRUrl url'
  | None, EmptyString => None
  end.

(** [s.split("/")] *)
Fixpoint splitSlash (s : string) : list string :=
  match s with
  | EmptyString => [EmptyString]
  | String c s' =>
      if Ascii.eqb c slash then EmptyString :: splitSlash s'
      else match splitSlash s' with
           | part :: parts => String c part :: parts
           | [] => [String c EmptyString]
           end
  end.

End Github.

(** ** Batch qualification ([qualify] of src/qualifier.ts) *)

Module Qualify.

Record QualifyOptions := {
  o_pending : bool;              (* [options.pending], falsy when absent *)
  o_prospectId : option Z;
  o_minTier : option Tier
}.

Record QualifyResult := {
  qualified : Z;
  skipped : Z;
  results : list (Prospect * QualificationResult)
}.

(** [if (options.prospectId)]: given and not 0. *)
Definition hasProspectId (options : QualifyOptions) : bool :=
  match o_prospectId options with Some i => Js.truthy_num i | None => false end.

Definition tierOrder (t : Tier) : Z :=
  match t with A => 0 | B => 1 | C => 2 | D => 3 end.

Definition pendingFilter : Db.Filters :=
  {| Db.f_tier := None; Db.f_outreachStatus := None; Db.f_airdropStatus := None;
     Db.f_pendingQualification := true; Db.f_limit := None |}.

Definition candidates (options : QualifyOptions) (w : World) : list Prospect :=
  if hasProspectId options
  then match o_prospectId options with
       | Some i => match Db.getProspectById i w with Some p => [p] | None => [] end
       | None => []
       end
  else if o_pending options
       then Db.getProspects pendingFilter w
       else Db.getProspects Db.noFilters w.

(** The [minTier] test of the loop: the result is strictly below the
    requested tier. *)
Definition belowMinTier (options : QualifyOptions) (result : QualificationResult) : bool :=
  match o_minTier options with
  | Some minTier => tierOrder (qr_tier result) >? tierOrder minTier
  | None => false
  end.

(** One turn of the [for] loop. *)
Definition iteration (clock : Clock) (options : QualifyOptions)
    (prospect : Prospect) (acc : QualifyResult * World) : QualifyResult * World :=
  let '(r, w) := acc in
  let skip := ({| qualified := qualified r; skipped := skipped r + 1;
                  results := results r |}, w) in
  if bool_decide (tier prospect <> None) && negb (hasProspectId options)
  then skip
  else
    let result := Qualifier.qualifyProspect (nowMs clock (id prospect)) prospect in
    if belowMinTier options result
    then skip
    else
      let w1 := Db.updateProspectScore (id prospect) (qr_score result)
                  (qr_tier result) (nowIso clock (id prospect) 0) w in
      let w2 := Db.logActivity "qualify:scored" (id prospect)
                  (ScoredDetails (qr_score result) (qr_tier result)
                     (breakdown result)) w1 in
      ({| qualified := qualified r + 1; skipped := skipped r;
          results := results r ++ [(prospect, result)] |}, w2).

Definition loop (clock : Clock) (options : QualifyOptions)
    (ps : list Prospect) (acc : QualifyResult * World) : QualifyResult * World :=
  fold_left (fun acc prospect => iteration clock options prospect acc) ps acc.

Definition qualify (clock : Clock) (options : QualifyOptions) (w : World)
    : QualifyResult * World :=
  loop clock options (candidates options w)
    ({| qualified := 0; skipped := 0; results := [] |}, w).

(** Whether the turn of the loop for [prospect] persists its result. *)
Definition persisted (clock : Clock) (options : QualifyOptions) (prospect : Prospect)
    : bool :=
  negb (bool_decide (tier prospect <> None) && negb (hasProspectId options))
  && negb (belowMinTier options
             (Qualifier.qualifyProspect (nowMs clock (id prospect)) prospect)).

End Qualify.

(** ** Outreach (src/outreach.ts) *)

Module Outreach.

Definition OUTREACH_WEEK_MS : Z := 7 * 24 * 60 * 60 * 1000.

(** The comparator handed to [sort] in [selectTargetRepo]. With an invalid
    date [Math.abs(aDate - bDate)] is NaN and the recency test is false. *)
Definition compareRepos (a b : MatchedRepo) : Z :=
  let aQuery := if Js.truthy_string (matchedQuery a) then 1 else 0 in
  let bQuery := if Js.truthy_string (matchedQuery b) then 1 else 0 in
  if negb (aQuery =? bQuery) then bQuery - aQuery
  else
    match lastUpdated a, lastUpdated b with
    | Some aDate, Some bDate =>
        if Z.abs (aDate - bDate) >? OUTREACH_WEEK_MS then bDate - aDate
        else stars b - stars a
    | _, _ => stars b - stars a
    end.

(** [Array.prototype.sort] with a comparator is stable; it is modelled as
    a stable insertion sort ([x] stays before [y] unless the comparator puts
    [y] first). On a list that the comparator orders consistently (two
    repositories always are) the sorted list is fixed by the comparator and
    stability, and this is it. [compareRepos] is not transitive: on three
    or more repositories that it orders in a cycle JavaScript leaves the
    order to the engine, and the first element of this sort then stands for
    one possible choice, not for the choice of a given engine. *)
Fixpoint insertSorted (cmp : MatchedRepo -> MatchedRepo -> Z)
    (x : MatchedRepo) (l : list MatchedRepo) : list MatchedRepo :=
  match l with
  | [] => [x]
  | y :: l' => if cmp x y <=? 0 then x :: l else y :: insertSorted cmp x l'
  end.

Definition sort (cmp : MatchedRepo -> MatchedRepo -> Z)
    (l : list MatchedRepo) : list MatchedRepo :=
  fold_right (insertSorted cmp) [] l.

(** [sorted[0]] *)
Definition bestRepo (prospect : Prospect) : option MatchedRepo :=
  head (sort compareRepos (repos prospect)).

(** What [selectTargetRepo] returns once [best] is chosen. *)
Definition targetOf (best : MatchedRepo) : option (string * string) :=
  match Github.parseRepoUrl (url best) with
  | Some parsed => Some parsed
  | None =>
      match Github.splitSlash (fullName best) with
      | [owner; repo] => Some (owner, repo)
      | _ => None
      end
  end.

Definition selectTargetRepo (prospect : Prospect) : option (string * string) :=
  match bestRepo prospect with
  | None => None                      (* prospect.repos.length === 0 *)
  | Some best => targetOf best
  end.

Inductive RecordStatus := RecPending | RecDelivered | RecFailed | RecRateLimited.

Record OutreachRecord := {
  rec_prospectId : Z;
  rec_githubUsername : string;
  rec_targetRepo : string;
  rec_prUrl : option string;
  rec_prNumber : option Z;
  rec_status : RecordStatus;
  personalizationUsed : list string;
  deliveredAt : option string;
  errorMessage : option string
}.

Record OutreachOptions := {
  o_tier : option Tier;
  o_limit : option Z;          (* default 10 *)
  o_dryRun : option bool;      (* default false *)
  o_prospectId : option Z
}.

Record OutreachResult := {
  sent : Z;
  failed : Z;
  skipped : Z;
  records : list OutreachRecord
}.

(** The GitHub calls of one delivery, in the order they are awaited. *)
Inductive Step := AuthUserStep | ForkStep | BranchStep | FileStep | PrStep.

(** What GitHub answers to one delivery: some step throws, or the pull
    request is created. *)
Inductive Delivery :=
  | Throws (step : Step) (message : string)
  | Created (authUser : string) (html_url : string) (number : Z).

Record Env := {
  clock : Clock;
  checkAuth : bool;
  github : Prospect -> Delivery
}.

Definition stepCall (owner repo : string) (s : Step) : ExternalCall :=
  match s with
  | AuthUserStep => GetAuthenticatedUser
  | ForkStep => ForkRepo owner repo
  | BranchStep => CreateBranch repo
  | FileStep => CreateFile repo
  | PrStep => CreatePR owner repo
  end.

Definition allSteps : list Step :=
  [AuthUserStep; ForkStep; BranchStep; FileStep; PrStep].

(** The steps awaited before and including [s]. *)
Definition stepsUpTo (s : Step) : list Step :=
  match s with
  | AuthUserStep => [AuthUserStep]
  | ForkStep => [AuthUserStep; ForkStep]
  | BranchStep => [AuthUserStep; ForkStep; BranchStep]
  | FileStep => [AuthUserStep; ForkStep; BranchStep; FileStep]
  | PrStep => allSteps
  end.

Definition callAll (cs : list ExternalCall) (w : World) : World :=
  fold_left (fun w c => Db.call c w) cs w.

Definition sendOutreach (env : Env) (prospect : Prospect) (dryRun : bool)
    (w : World) : OutreachRecord * World :=
  let record targetRepo' prUrl' prNumber' status' hooks delivered error := {|
    rec_prospectId := id prospect;
    rec_githubUsername := githubUsername prospect;
    rec_targetRepo := targetRepo';
    rec_prUrl := prUrl'; rec_prNumber := prNumber';
    rec_status := status';
    personalizationUsed := hooks;
    deliveredAt := delivered;
    errorMessage := error |} in
  match selectTargetRepo prospect with
  | None =>
      (record "" None None RecFailed [] None (Some "No suitable repository found"), w)
  | Some (owner, repo) =>
      let targetRepo' := owner ++ "/" ++ repo in
      let qualification :=
        Qualifier.qualifyProspect (nowMs (clock env) (id prospect)) prospect in
      let hooks := personalizationHooks qualification in
      if dryRun
      then (record targetRepo' None None RecPending hooks None None, w)
      else
        match github env prospect with
        | Throws step message =>
            let w1 := callAll (List.map (stepCall owner repo) (stepsUpTo step)) w in
            let w2 := Db.logActivity "outreach:failed" (id prospect)
                        (OutreachFailedDetails message) w1 in
            (record targetRepo' None None RecFailed hooks None (Some message), w2)
        | Created authUser html_url number =>
            let w1 := callAll (List.map (stepCall owner repo) allSteps) w in
            let deliveredAt' := nowIso (clock env) (id prospect) 0 in
            let w2 := Db.updateProspectOutreach (id prospect)
                        {| Db.u_outreachStatus := PrOpened;
                           Db.u_targetRepo := Some targetRepo';
                           Db.u_prUrl := Some html_url;
                           Db.u_prNumber := Some number;
                           Db.u_prOpenedAt := Some deliveredAt' |}
                        (nowIso (clock env) (id prospect) 1) w1 in
            let w3 := snd (Db.incrementDailyPRs
                             (todayDate (clock env) (id prospect)) w2) in
            let w4 := Db.logActivity "outreach:pr_created" (id prospect)
                        (PrCreatedDetails html_url (qr_tier qualification)) w3 in
            (record targetRepo' (Some html_url) (Some number) RecDelivered hooks
               (Some deliveredAt') None, w4)
        end
  end.

(** [p.tier && p.tier !== "D"] *)
Definition qualifiedTier (p : Prospect) : bool :=
  match tier p with
  | Some t => negb (bool_decide (t = D))
  | None => false
  end.

(** One turn of the [for] loop over the filtered prospects. *)
Definition iteration (env : Env) (dryRun : bool) (prospect : Prospect)
    (acc : OutreachResult * World) : OutreachResult * World :=
  let '(r, w) := acc in
  if negb (bool_decide (outreachStatus prospect = OutreachPending))
  then ({| sent := sent r; failed := failed r; skipped := skipped r + 1;
           records := records r |}, w)
  else
    let '(record, w') := sendOutreach env prospect dryRun w in
    ({| sent := match rec_status record with
                | RecDelivered => sent r + 1 | _ => sent r end;
        failed := match rec_status record with
                  | RecFailed => failed r + 1 | _ => failed r end;
        skipped := skipped r;
        records := records r ++ [record] |}, w').

Definition loop (env : Env) (dryRun : bool) (ps : list Prospect)
    (acc : OutreachResult * World) : OutreachResult * World :=
  fold_left (fun acc prospect => iteration env dryRun prospect acc) ps acc.

(** [if (prospectId)]: given and not 0. *)
Definition hasProspectId (options : OutreachOptions) : bool :=
  match o_prospectId options with Some i => Js.truthy_num i | None => false end.

(** The prospects the loop runs over. *)
Definition selected (options : OutreachOptions) (effectiveLimit : Z) (w : World)
    : list Prospect :=
  let prospects :=
    if hasProspectId options
    then match o_prospectId options with
         | Some i => match Db.getProspectById i w with Some p => [p] | None => [] end
         | None => []
         end
    else Db.getProspects
           {| Db.f_tier := o_tier options;
              Db.f_outreachStatus := Some OutreachPending;
              Db.f_airdropStatus := None;
              Db.f_pendingQualification := false;
              Db.f_limit := Some effectiveLimit |} w in
  List.filter qualifiedTier prospects.

Definition emptyResult : OutreachResult :=
  {| sent := 0; failed := 0; skipped := 0; records := [] |}.

(** [None] as result: the call throws (GitHub CLI not authenticated). *)
Definition outreach (env : Env) (options : OutreachOptions) (config : Config)
    (w : World) : option OutreachResult * World :=
  let limit := default 10 (o_limit options) in
  let dryRun := default false (o_dryRun options) in
  let w0 := if dryRun then w else Db.call CheckAuth w in
  if negb dryRun && negb (checkAuth env)
  then (None, w0)
  else
    let '(dailyLimits, w1) := Db.getDailyLimits (startDate (clock env)) w0 in
    let remaining := maxDailyPRs config - prsOpened dailyLimits in
    if negb dryRun && (remaining <=? 0)
    then (Some emptyResult, w1)
    else
      let effectiveLimit := if dryRun then limit else Z.min limit remaining in
      let '(r, w2) :=
        loop env dryRun (selected options effectiveLimit w1) (emptyResult, w1) in
      (Some r, w2).

End Outreach.

(** ** Airdrop (src/airdrop.ts, [getAirdropAmount] of src/config.ts) *)

Module Airdrop.

(** Minimum treasury balance to maintain (in satoshis). *)
Definition MIN_TREASURY_BALANCE : Z := 100000.

Definition getAirdropAmount (config : Config) (t : Tier) : Z :=
  match t with
  | A => airdropTierA config
  | B => airdropTierB config
  | _ => airdropTierC config      (* never called with D *)
  end.

Record AirdropOptions := {
  o_pending : option bool;     (* default true *)
  o_limit : option Z;          (* default 5 *)
  o_prospectId : option Z;
  o_amount : option Z
}.

Record AirdropTransaction := {
  tx_prospectId : Z;
  recipient : string;
  amountSats : Z;
  memo : string;
  txid : option string;
  status : AirdropStatus;
  broadcastAt : option string;
  confirmedAt : option string;
  blockHeight : option Z
}.

Record AirdropResult := {
  sent : Z;
  confirmed : Z;
  failed : Z;
  skipped : Z;
  transactions : list AirdropTransaction
}.

(** What [sendSbtc] resolves to. *)
Inductive SendResult :=
  | Txid (txid : string)
  | Error (error : string).

(** What [waitForConfirmation] resolves to. *)
Record Confirmation := {
  is_confirmed : bool;
  conf_blockHeight : option Z
}.

(** The treasury lookup: [getWalletAddress] throws, [getWalletInfo]
    throws, or [parseInt(treasuryInfo.sbtcBalance, 10)], which is NaN when
    the balance reported is no number. *)
Inductive Treasury :=
  | AddressThrows
  | InfoThrows
  | Balance (sats : Js.Number).

(** The world outside; the answers of the network are given per prospect
    whose transfer is being processed. *)
Record Env := {
  clock : Clock;
  treasury : Treasury;
  sendSbtc : Prospect -> Z -> SendResult;
  waitForConfirmation : Prospect -> string -> Confirmation
}.

Definition MEMO : string := "Appleseed airdrop - welcome to Bitcoin agents!".

(** The best-effort comment on the prospect's pull request. *)
Definition postComment (prospect : Prospect) (w : World) : World :=
  match prUrl prospect with
  | Some u =>
      if Js.truthy_string u
      then match Github.parsePRUrl u with
           | Some (owner, repo, prNumber) =>
               Db.call (PostPRComment owner repo prNumber) w
           | None => w
           end
      else w
  | None => w
  end.

Definition processAirdrop (env : Env) (prospect : Prospect) (amount : Z)
    (w : World) : AirdropTransaction * World :=
  let recipient' := default "" (stacksAddress prospect) in
  let stamp := nowIso (clock env) (id prospect) in
  let w0 := Db.call (SendSbtc (id prospect) recipient' amount) w in
  match sendSbtc env prospect amount with
  | Error error =>
      let w1 := Db.updateProspectAirdrop (id prospect)
                  {| Db.u_airdropStatus := AirdropFailed;
                     Db.u_airdropTxid := None;
                     Db.u_airdropAmountSats := None;
                     Db.u_airdropSentAt := None |} (stamp 0%nat) w0 in
      let w2 := Db.logActivity "airdrop:failed" (id prospect)
                  (AirdropFailedDetails error amount) w1 in
      let w3 := postComment prospect w2 in
      ({| tx_prospectId := id prospect; recipient := recipient';
          amountSats := amount; memo := MEMO; txid := None;
          status := AirdropFailed; broadcastAt := None;
          confirmedAt := None; blockHeight := None |}, w3)
  | Txid txid' =>
      let w1 := Db.updateProspectAirdrop (id prospect)
                  {| Db.u_airdropStatus := AirdropSent;
                     Db.u_airdropTxid := Some txid';
                     Db.u_airdropAmountSats := Some amount;
                     Db.u_airdropSentAt := Some (stamp 0%nat) |} (stamp 1%nat) w0 in
      let w2 := Db.call (WaitForConfirmation txid') w1 in
      let confirmation := waitForConfirmation env prospect txid' in
      if is_confirmed confirmation
      then
        let w3 := Db.updateProspectAirdrop (id prospect)
                    {| Db.u_airdropStatus := AirdropConfirmed;
                       Db.u_airdropTxid := None;
                       Db.u_airdropAmountSats := None;
                       Db.u_airdropSentAt := None |} (stamp 3%nat) w2 in
        let w4 := Db.logActivity "airdrop:confirmed" (id prospect)
                    (AirdropConfirmedDetails txid' amount
                       (conf_blockHeight confirmation)) w3 in
        let w5 := postComment prospect w4 in
        ({| tx_prospectId := id prospect; recipient := recipient';
            amountSats := amount; memo := MEMO; txid := Some txid';
            status := AirdropConfirmed; broadcastAt := Some (stamp 0%nat);
            confirmedAt := Some (stamp 2%nat);
            blockHeight := conf_blockHeight confirmation |}, w5)
      else
        ({| tx_prospectId := id prospect; recipient := recipient';
            amountSats := amount; memo := MEMO; txid := Some txid';
            status := AirdropSent; broadcastAt := Some (stamp 0%nat);
            confirmedAt := None; blockHeight := None |}, w2)
  end.

(** [!amount] for [amount : number | undefined] *)
Definition noAmount (amount : option Z) : bool :=
  match amount with Some a => negb (Js.truthy_num a) | None => true end.

(** "Determine amount": the override, else the amount of the tier, else
    that of tier C. *)
Definition determineAmount (config : Config) (overrideAmount : option Z)
    (prospect : Prospect) : Z :=
  let amount :=
    if noAmount overrideAmount
    then match tier prospect with
         | Some t => if bool_decide (t <> D)
                     then Some (getAirdropAmount config t) else overrideAmount
         | None => overrideAmount
         end
    else overrideAmount in
  if noAmount amount then airdropTierC config else default 0 amount.

(** [!prospect.stacksAddress || !prospect.addressValid] *)
Definition noValidAddress (prospect : Prospect) : bool :=
  negb (match stacksAddress prospect with
        | Some a => Js.truthy_string a | None => false end)
  || negb (addressValid prospect).

Definition skip (r : AirdropResult) : AirdropResult :=
  {| sent := sent r; confirmed := confirmed r; failed := failed r;
     skipped := skipped r + 1; transactions := transactions r |}.

(** One turn of the [for] loop. *)
Definition iteration (env : Env) (config : Config) (overrideAmount : option Z)
    (treasuryBalance : Js.Number) (prospect : Prospect)
    (acc : AirdropResult * World) : AirdropResult * World :=
  let '(r, w) := acc in
  if noValidAddress prospect then (skip r, w)
  else if negb (bool_decide (airdropStatus prospect = AirdropPending))
  then (skip r, w)
  else
    let amount := determineAmount config overrideAmount prospect in
    if Js.lt (Js.minus treasuryBalance amount) MIN_TREASURY_BALANCE
    then (skip r, w)
    else
      let '(tx, w1) := processAirdrop env prospect amount w in
      let today := todayDate (clock env) (id prospect) in
      match status tx with
      | AirdropConfirmed =>
          ({| sent := sent r + 1; confirmed := confirmed r + 1;
              failed := failed r; skipped := skipped r;
              transactions := transactions r ++ [tx] |},
           snd (Db.incrementDailyAirdrops today w1))
      | AirdropSent =>
          ({| sent := sent r + 1; confirmed := confirmed r;
              failed := failed r; skipped := skipped r;
              transactions := transactions r ++ [tx] |},
           snd (Db.incrementDailyAirdrops today w1))
      | _ =>
          ({| sent := sent r; confirmed := confirmed r;
              failed := failed r + 1; skipped := skipped r;
              transactions := transactions r ++ [tx] |}, w1)
      end.

(** Whether the turn of the loop for [prospect] reaches [processAirdrop]. *)
Definition processes (config : Config) (overrideAmount : option Z)
    (treasuryBalance : Js.Number) (prospect : Prospect) : bool :=
  negb (noValidAddress prospect)
  && bool_decide (airdropStatus prospect = AirdropPending)
  && negb (Js.lt (Js.minus treasuryBalance
                    (determineAmount config overrideAmount prospect))
             MIN_TREASURY_BALANCE).

(** The [sendSbtc] calls made for the prospect with id [i]. *)
Definition sendsFor (i : Z) (c : ExternalCall) : bool :=
  match c with SendSbtc j _ _ => j =? i | _ => false end.

(** The payout counter of date [d] as [getDailyLimits] reads it: that of the
    row, 0 for a date that has none yet. *)
Definition airdropsOn (d : string) (w : World) : Z :=
  airdrops_sent (default Db.freshRow (daily_limits w !! d)).

(** What a step of the run may do to the world, seen from outside the
    prospect with id [c]: rows of other ids stay, no [sendSbtc] is made for
    another id, and the ledger is not touched. *)
Definition only_for (c : Z) (w w' : World) : Prop :=
  (forall (k : nat) row, prospects w !! k = Some row -> id row <> c ->
     prospects w' !! k = Some row)
  /\ (forall i, i <> c ->
        List.filter (sendsFor i) (calls w') = List.filter (sendsFor i) (calls w))
  /\ daily_limits w' = daily_limits w.

Definition loop (env : Env) (config : Config) (overrideAmount : option Z)
    (treasuryBalance : Js.Number) (ps : list Prospect)
    (acc : AirdropResult * World) : AirdropResult * World :=
  fold_left
    (fun acc prospect =>
       iteration env config overrideAmount treasuryBalance prospect acc)
    ps acc.

Definition pendingFilter : Db.Filters :=
  {| Db.f_tier := None; Db.f_outreachStatus := None;
     Db.f_airdropStatus := Some AirdropPending;
     Db.f_pendingQualification := false; Db.f_limit := None |}.

(** [p.addressValid && p.stacksAddress] *)
Definition verified (p : Prospect) : bool :=
  addressValid p
  && match stacksAddress p with Some a => Js.truthy_string a | None => false end.

(** [if (prospectId)]: given and not 0. *)
Definition hasProspectId (options : AirdropOptions) : bool :=
  match o_prospectId options with Some i => Js.truthy_num i | None => false end.

(** "Get prospects", before the cut to the effective limit. *)
Definition gathered (options : AirdropOptions) (w : World) : list Prospect :=
  if hasProspectId options
  then match o_prospectId options with
       | Some i => match Db.getProspectById i w with Some p => [p] | None => [] end
       | None => []
       end
  else if default true (o_pending options)
       then List.filter verified (Db.getProspects pendingFilter w)
       else [].

Definition emptyResult : AirdropResult :=
  {| sent := 0; confirmed := 0; failed := 0; skipped := 0; transactions := [] |}.

(** The prospects the loop runs over, given the effective limit. *)
Definition selected (options : AirdropOptions) (effectiveLimit : Z) (w : World)
    : list Prospect :=
  Js.slice0 (gathered options w) effectiveLimit.

(** [None] as result: the call throws (the wallet lookup failed). *)
Definition airdrop (env : Env) (options : AirdropOptions) (config : Config)
    (w : World) : option AirdropResult * World :=
  let limit := default 5 (o_limit options) in
  let overrideAmount := o_amount options in
  let '(dailyLimits, w1) := Db.getDailyLimits (startDate (clock env)) w in
  let remaining := maxDailyAirdrops config - airdropsSent dailyLimits in
  if remaining <=? 0
  then (Some emptyResult, w1)
  else
    let effectiveLimit := Z.min limit remaining in
    let w2 := Db.call GetWalletInfo (Db.call GetWalletAddress w1) in
    match treasury env with
    | AddressThrows => (None, Db.call GetWalletAddress w1)
    | InfoThrows => (None, w2)
    | Balance treasuryBalance =>
        if Js.lt treasuryBalance MIN_TREASURY_BALANCE
        then (Some emptyResult, w2)
        else
          let '(r, w3) :=
            loop env config overrideAmount treasuryBalance
              (selected options effectiveLimit w2) (emptyResult, w2) in
          (Some r, w3)
    end.

(** The world when the loop starts: today's ledger row exists and the
    treasury was looked up. *)
Definition startOfLoop (env : Env) (w : World) : World :=
  Db.call GetWalletInfo (Db.call GetWalletAddress
    (snd (Db.getDailyLimits (startDate (clock env)) w))).

(** [Math.min(limit, remaining)] *)
Definition effectiveLimit (env : Env) (options : AirdropOptions) (config : Config)
    (w : World) : Z :=
  Z.min (default 5 (o_limit options))
    (maxDailyAirdrops config - airdropsOn (startDate (clock env)) w).

(** The tallies and the world after the first [j] turns of the loop of a
    run that found the treasury balance [b]. *)
Definition afterTurns (env : Env) (options : AirdropOptions) (config : Config)
    (w : World) (b : Js.Number) (j : nat) : AirdropResult * World :=
  loop env config (o_amount options) b
    (firstn j (selected options (effectiveLimit env options config w)
                 (startOfLoop env w)))
    (emptyResult, startOfLoop env w).

End Airdrop.

(** ** Concrete prospects, worlds and environments used in the examples *)

Module Examples.

Definition repo (name' : string) (stars' : Z) (description' : option string)
    (lastUpdated' : Js.Time) (matchedQuery' : string) : MatchedRepo :=
  {| name := name'; fullName := "dev/" ++ name';
     url := "https://github.com/dev/" ++ name'; stars := stars';
     description := description'; language := None;
     lastUpdated := lastUpdated'; matchedQuery := matchedQuery' |}.

(** A freshly scanned prospect: nothing scored, contacted, verified or paid. *)
Definition scanned (id' : Z) (username : string) (repos' : list MatchedRepo) : Prospect :=
  {| id := id'; githubUsername := username; repos := repos';
     score := 0; tier := None;
     outreachStatus := OutreachPending; targetRepo := None; prUrl := None;
     prNumber := None; prOpenedAt := None;
     stacksAddress := None; addressValid := false; verifiedAt := None;
     airdropStatus := AirdropPending; airdropTxid := None;
     airdropAmountSats := None; airdropSentAt := None;
     updatedAt := "2025-01-01 00:00:00" |}.

Definition now : Z := 1750000000000.

(** Scenario A of the specification. *)
Definition mcpServer : MatchedRepo :=
  repo "my-mcp-server" 120 (Some "uses @modelcontextprotocol")
    (Some (now - 5 * Qualifier.DAY_MS)) "filename:mcp.json".

Definition alice : Prospect := scanned 1 "alice" [mcpServer].

(** Scenario B: no matched repository. *)
Definition nobody : Prospect := scanned 2 "nobody" [].

(** A 40-character address: [SP] and 38 characters of the class. *)
Definition address40 : string := "SP00000000000000000000000000000000000000".

(** A 41-character address made of the letter L after the prefix. *)
Definition addressL : string := "SPLLLLLLLLLLLLLLLLLLLLLLLLLLLLLLLLLLLLLLL".

Definition address41 : string := "SP2J6ZY48GV1EZ5V2V5RB9MP66SW86PYKKNRV9EJ7".

(** Two matched repositories updated two days apart: the more recent one
    has 10 stars, the older one 50. *)
Definition fresh10 : MatchedRepo :=
  repo "fresh-agent" 10 None (Some now) "langchain agent".
Definition older50 : MatchedRepo :=
  repo "starred-agent" 50 None (Some (now - 2 * Qualifier.DAY_MS)) "langchain agent".
Definition bob : Prospect := scanned 3 "bob" [fresh10; older50].

Definition emptyWorld : World :=
  {| prospects := []; daily_limits := ∅; activity_log := []; calls := [] |}.

Definition clock0 : Clock :=
  {| startDate := "2025-06-15"; nowMs := fun _ => now;
     nowIso := fun _ _ => "2025-06-15T15:06:40.000Z";
     todayDate := fun _ => "2025-06-15" |}.

(** A prospect already scored 90, tier A, whose evidence scores 0 now. *)
Definition carol : Prospect :=
  {| id := 4; githubUsername := "carol"; repos := [];
     score := 90; tier := Some A;
     outreachStatus := OutreachPending; targetRepo := None; prUrl := None;
     prNumber := None; prOpenedAt := None;
     stacksAddress := None; addressValid := false; verifiedAt := None;
     airdropStatus := AirdropPending; airdropTxid := None;
     airdropAmountSats := None; airdropSentAt := None;
     updatedAt := "2025-01-01 00:00:00" |}.

Definition qualifyWorld : World :=
  {| prospects := [alice; carol]; daily_limits := ∅; activity_log := []; calls := [] |}.

(** [qualify --pending] *)
Definition pendingBatch : Qualify.QualifyOptions :=
  {| Qualify.o_pending := true; Qualify.o_prospectId := None;
     Qualify.o_minTier := None |}.

(** [qualify --prospect-id 4] *)
Definition requalifyCarol : Qualify.QualifyOptions :=
  {| Qualify.o_pending := false; Qualify.o_prospectId := Some 4;
     Qualify.o_minTier := None |}.

(** [qualify --prospect-id 4 --min-tier A] *)
Definition requalifyCarolMinA : Qualify.QualifyOptions :=
  {| Qualify.o_pending := false; Qualify.o_prospectId := Some 4;
     Qualify.o_minTier := Some A |}.

(** A prospect contacted and verified, with the given tier and payout
    status. *)
Definition verifiedProspect (id' : Z) (username : string) (tier' : Tier)
    (status' : AirdropStatus) : Prospect :=
  {| id := id'; githubUsername := username; repos := [mcpServer];
     score := 57; tier := Some tier';
     outreachStatus := PrOpened; targetRepo := Some "dev/my-mcp-server";
     prUrl := Some "https://github.com/dev/my-mcp-server/pull/7";
     prNumber := Some 7; prOpenedAt := Some "2025-06-01T10:00:00.000Z";
     stacksAddress := Some address41; addressValid := true;
     verifiedAt := Some "2025-06-10T10:00:00.000Z";
     airdropStatus := status'; airdropTxid := None;
     airdropAmountSats := None; airdropSentAt := None;
     updatedAt := "2025-06-10 10:00:00" |}.

Definition dave : Prospect := verifiedProspect 5 "dave" A AirdropConfirmed.
Definition erin : Prospect := verifiedProspect 6 "erin" B AirdropPending.
Definition frank : Prospect := verifiedProspect 7 "frank" C AirdropPending.
Definition grace : Prospect := verifiedProspect 8 "grace" A AirdropPending.

Definition config5 : Config :=
  {| maxDailyPRs := 50; maxDailyAirdrops := 5;
     airdropTierA := 10000; airdropTierB := 5000; airdropTierC := 2500 |}.

Definition config1 : Config :=
  {| maxDailyPRs := 50; maxDailyAirdrops := 1;
     airdropTierA := 10000; airdropTierB := 5000; airdropTierC := 2500 |}.

(** Payouts are switched off: a daily maximum of 0. *)
Definition config0 : Config :=
  {| maxDailyPRs := 50; maxDailyAirdrops := 0;
     airdropTierA := 10000; airdropTierB := 5000; airdropTierC := 2500 |}.

(** A funded treasury and a network on which every transfer confirms. *)
Definition network : Airdrop.Env :=
  {| Airdrop.clock := clock0;
     Airdrop.treasury := Airdrop.Balance 1000000;
     Airdrop.sendSbtc := fun _ _ => Airdrop.Txid "0xabc";
     Airdrop.waitForConfirmation := fun _ _ =>
       {| Airdrop.is_confirmed := true; Airdrop.conf_blockHeight := Some 100 |} |}.

(** Scenario C: five payouts already counted today. *)
Definition cappedWorld : World :=
  {| prospects := [erin];
     daily_limits := {[ "2025-06-15" := {| prs_opened := 0; airdrops_sent := 5 |} ]};
     activity_log := []; calls := [] |}.

(** [airdrop --pending] with the default limit. *)
Definition airdropPending : Airdrop.AirdropOptions :=
  {| Airdrop.o_pending := Some true; Airdrop.o_limit := Some 5;
     Airdrop.o_prospectId := None; Airdrop.o_amount := None |}.

(** Scenario D: dave is already paid. *)
Definition paidWorld : World :=
  {| prospects := [dave; erin]; daily_limits := ∅; activity_log := []; calls := [] |}.

(** [airdrop --prospect-id 5] *)
Definition airdropDave : Airdrop.AirdropOptions :=
  {| Airdrop.o_pending := Some false; Airdrop.o_limit := Some 5;
     Airdrop.o_prospectId := Some 5; Airdrop.o_amount := None |}.

(** Three verified prospects are waiting for their payout. *)
Definition waitingWorld : World :=
  {| prospects := [erin; frank; grace]; daily_limits := ∅;
     activity_log := []; calls := [] |}.

(** [airdrop --pending --limit -1] *)
Definition airdropLimitMinus1 : Airdrop.AirdropOptions :=
  {| Airdrop.o_pending := Some true; Airdrop.o_limit := Some (-1);
     Airdrop.o_prospectId := None; Airdrop.o_amount := None |}.

(** GitHub accepts every step and opens pull request 12. *)
Definition github : Outreach.Env :=
  {| Outreach.clock := clock0; Outreach.checkAuth := true;
     Outreach.github := fun _ =>
       Outreach.Created "appleseed-bot"
         "https://github.com/dev/my-mcp-server/pull/12" 12 |}.

(** Alice was scored tier B; zed was scored tier D; nobody is not scored. *)
Definition aliceB : Prospect :=
  Db.set_score 57 B "2025-06-14 09:00:00" alice.
Definition zedD : Prospect :=
  Db.set_score 5 D "2025-06-14 09:00:00" (scanned 9 "zed" [fresh10]).

Definition outreachWorld : World :=
  {| prospects := [zedD; aliceB; nobody]; daily_limits := ∅;
     activity_log := []; calls := [] |}.

(** [outreach --limit 10] *)
Definition outreachBatch : Outreach.OutreachOptions :=
  {| Outreach.o_tier := None; Outreach.o_limit := Some 10;
     Outreach.o_dryRun := Some false; Outreach.o_prospectId := None |}.

(** [outreach --prospect-id 9] *)
Definition outreachZed : Outreach.OutreachOptions :=
  {| Outreach.o_tier := None; Outreach.o_limit := Some 10;
     Outreach.o_dryRun := Some false; Outreach.o_prospectId := Some 9 |}.

End Examples.

(** * Further parts of the code *)

(** ** More evidence for a prospect *)

Module Evidence.

(** The prospect with further repositories after those it has, as
    [mergeResults] appends them. *)
Definition withMore (p : Prospect) (more : list MatchedRepo) : Prospect :=
  {| id := id p; githubUsername := githubUsername p;
     repos := (repos p ++ more)%list;
     score := score p; tier := tier p;
     outreachStatus := outreachStatus p; targetRepo := targetRepo p;
     prUrl := prUrl p; prNumber := prNumber p; prOpenedAt := prOpenedAt p;
     stacksAddress := stacksAddress p; addressValid := addressValid p;
     verifiedAt := verifiedAt p; airdropStatus := airdropStatus p;
     airdropTxid := airdropTxid p; airdropAmountSats := airdropAmountSats p;
     airdropSentAt := airdropSentAt p; updatedAt := updatedAt p |}.

End Evidence.

(** ** Treasury check and confirmation polling (src/airdrop.ts) *)

Module Treasury.

(** [canAirdrop] of [checkTreasury]:
    [sbtcBalance >= MIN_TREASURY_BALANCE + config.airdropTierC]. *)
Definition canAirdrop (config : Config) (sbtcBalance : Js.Number) : bool :=
  Js.ge sbtcBalance (Airdrop.MIN_TREASURY_BALANCE + airdropTierC config).

(** [checkTreasury], reduced to its [canAirdrop] field; [None] when the
    wallet lookup throws. For a balance that reads as NaN the comparison is
    false. *)
Definition checkTreasury (env : Airdrop.Env) (config : Config) : option bool :=
  match Airdrop.treasury env with
  | Airdrop.Balance sbtcBalance => Some (canAirdrop config sbtcBalance)
  | _ => None
  end.

(** What one poll of the transaction endpoint gives: the fetch throws (or
    times out), the response is not ok, or the body with its [tx_status] and
    [block_height]. *)
Inductive Poll :=
  | FetchThrows
  | NotOk
  | TxData (tx_status : option string) (block_height : option Z).

(** The [for] loop of [waitForConfirmation] from attempt [attempt], with
    [left] attempts to go; [poll k] is what attempt [k] sees. The second
    component counts the polls made. *)
Fixpoint pollLoop (poll : nat -> Poll) (attempt left : nat)
    : Airdrop.Confirmation * nat :=
  match left with
  | O => ({| Airdrop.is_confirmed := false; Airdrop.conf_blockHeight := None |}, O)
  | S left' =>
      let continue :=
        let '(c, n) := pollLoop poll (S attempt) left' in (c, S n) in
      match poll attempt with
      | TxData (Some s) h =>
          if String.eqb s "success"
          then ({| Airdrop.is_confirmed := true; Airdrop.conf_blockHeight := h |}, 1%nat)
          else if String.eqb s "abort_by_response"
          then ({| Airdrop.is_confirmed := false;
                   Airdrop.conf_blockHeight := None |}, 1%nat)
          else continue
      | _ => continue
      end
  end.

(** [waitForConfirmation(txid, network, maxAttempts)] for an integer
    [maxAttempts] (24 by default). *)
Definition waitForConfirmation (poll : nat -> Poll) (maxAttempts : Z)
    : Airdrop.Confirmation * nat :=
  pollLoop poll 0 (Z.to_nat maxAttempts).

(** An attempt that ends the loop: the status is [success] or
    [abort_by_response]. *)
Definition decisive (p : Poll) : bool :=
  match p with
  | TxData (Some s) _ => String.eqb s "success" || String.eqb s "abort_by_response"
  | _ => false
  end.

Definition succeeded (p : Poll) : bool :=
  match p with
  | TxData (Some s) _ => String.eqb s "success"
  | _ => false
  end.

End Treasury.

(** ** What the stages keep of the world *)

Module Keeps.

(** No ledger row is removed and no counter of it lowered. *)
Definition ledger_grows (w w' : World) : Prop :=
  forall d row, daily_limits w !! d = Some row ->
    exists row', daily_limits w' !! d = Some row'
      /\ prs_opened row <= prs_opened row'
      /\ airdrops_sent row <= airdrops_sent row'.

(** From [w] to [w']: the prospects table has the same rows by id, in the
    same order; the activity log and the recorded calls are extended at
    their end; the ledger grows. *)
Definition grows (w w' : World) : Prop :=
  id <$> prospects w' = id <$> prospects w
  /\ activity_log w `prefix_of` activity_log w'
  /\ calls w `prefix_of` calls w'
  /\ ledger_grows w w'.

End Keeps.

(** ** Counting the transactions of a run *)

Module Tally.

(** The number of transactions with status [s]. *)
Definition countStatus (s : AirdropStatus) (txs : list Airdrop.AirdropTransaction) : Z :=
  Z.of_nat (List.length
              (List.filter (fun tx => bool_decide (Airdrop.status tx = s)) txs)).

(** The row [row] holds what the transaction [tx] reports: its status
    and, unless the transfer failed, its txid, amount and time of
    broadcast. *)
Definition records (row : Prospect) (tx : Airdrop.AirdropTransaction) : Prop :=
  id row = Airdrop.tx_prospectId tx
  /\ airdropStatus row = Airdrop.status tx
  /\ (Airdrop.status tx <> AirdropFailed ->
      airdropTxid row = Airdrop.txid tx
      /\ airdropAmountSats row = Some (Airdrop.amountSats tx)
      /\ airdropSentAt row = Airdrop.broadcastAt tx).

End Tally.

(** ** Reading the ledger *)

Module Ledger.

(** The pull-request counter of date [d] as [getDailyLimits] reads it: that
    of the row, 0 for a date that has none yet. *)
Definition prsOn (d : string) (w : World) : Z :=
  prs_opened (default Db.freshRow (daily_limits w !! d)).

End Ledger.

(** ** Verifier (src/verifier.ts) *)

(** [updateProspectVerification] of the database module. *)
Module DbVerification.

Definition set_verification (address : string) (valid : bool) (verifiedAt' stamp : string)
    (p : Prospect) : Prospect :=
  {| id := id p; githubUsername := githubUsername p; repos := repos p;
     score := score p; tier := tier p;
     outreachStatus := outreachStatus p; targetRepo := targetRepo p;
     prUrl := prUrl p; prNumber := prNumber p; prOpenedAt := prOpenedAt p;
     stacksAddress := Some address; addressValid := valid;
     verifiedAt := Some verifiedAt';
     airdropStatus := airdropStatus p; airdropTxid := airdropTxid p;
     airdropAmountSats := airdropAmountSats p; airdropSentAt := airdropSentAt p;
     updatedAt := stamp |}.

(** [UPDATE prospects SET stacks_address = ?, address_valid = ?,
    verified_at = ?, updated_at = datetime('now') WHERE id = ?];
    [verifiedAt'] is [data.verifiedAt ?? new Date().toISOString()]. *)
Definition updateProspectVerification (id' : Z) (address : string) (valid : bool)
    (verifiedAt' stamp : string) (w : World) : World :=
  Db.update_where_id id' (set_verification address valid verifiedAt' stamp) w.

End DbVerification.

Module Verifier.

(** [\w]: a letter, a digit or the underscore. *)
Definition isWordChar (c : ascii) : bool :=
  let n := N_of_ascii c in
  (((48 <=? n) && (n <=? 57)) || ((65 <=? n) && (n <=? 90))
   || ((97 <=? n) && (n <=? 122)) || (n =? 95))%N.

Definition wordAt (c : option ascii) : bool :=
  match c with Some c => isWordChar c | None => false end.

(** [\b] between the character before and the character after a position
    (there is none at an end of the text): one of the two is a word
    character and the other is not. *)
Definition boundary (before after : option ascii) : bool :=
  xorb (wordAt before) (wordAt after).

Definition firstChar (s : string) : option ascii :=
  match s with String c _ => Some c | EmptyString => None end.

Fixpoint lastChar (s : string) : option ascii :=
  match s with
  | EmptyString => None
  | String c EmptyString => Some c
  | String _ s' => lastChar s'
  end.

(** [n] characters of the class [[0-9A-HJ-NP-Z]] at the start of [s], and
    what follows them. *)
Fixpoint takeClass (n : nat) (s : string) : option (string * string) :=
  match n with
  | O => Some (EmptyString, s)
  | S n' =>
      match s with
      | String c s' =>
          if Wallet.c32_class c
          then match takeClass n' s' with
               | Some (run, rest) => Some (String c run, rest)
               | None => None
               end
          else None
      | EmptyString => None
      end
  end.

(** [[0-9A-HJ-NP-Z]{n}\b] at the start of [s]. *)
Definition bodyOf (n : nat) (s : string) : option string :=
  match takeClass n s with
  | Some (run, rest) =>
      if boundary (lastChar run) (firstChar rest) then Some run else None
  | None => None
  end.

(** [\b(SP|ST)[0-9A-HJ-NP-Z]{38,39}\b] at the start of [s], the character
    before being [prev]: the greedy quantifier is tried with 39 characters,
    then with 38. *)
Definition matchAt (prev : option ascii) (s : string) : option string :=
  match s with
  | String a (String b rest) =>
      if boundary prev (Some a) && Ascii.eqb a "S"
         && (Ascii.eqb b "P" || Ascii.eqb b "T")
      then match bodyOf 39 rest with
           | Some run => Some (String a (String b run))
           | None =>
               match bodyOf 38 rest with
               | Some run => Some (String a (String b run))
               | None => None
               end
           end
      else None
  | _ => None
  end.

(** [text.match(STACKS_ADDRESS_REGEX)] with the flag [g]: the matches from
    left to right, the search resuming after each match. [skip] counts the
    characters of the last match still to pass. *)
Fixpoint scan (prev : option ascii) (skip : nat) (s : string) : list string :=
  match s with
  | EmptyString => []
  | String c s' =>
      match skip with
      | S k => scan (Some c) k s'
      | O =>
          match matchAt prev s with
          | Some m => m :: scan (Some c) (String.length m - 1) s'
          | None => scan (Some c) 0 s'
          end
      end
  end.

(** [[...new Set(matches)]]: the first occurrence of each match is kept. *)
Fixpoint uniq (seen l : list string) : list string :=
  match l with
  | [] => []
  | x :: l' =>
      if existsb (String.eqb x) seen then uniq seen l'
      else x :: uniq (x :: seen) l'
  end.

Definition extractAddresses (text : string) : list string :=
  uniq [] (scan None 0 text).

Definition VERIFICATION_TRIGGERS : list string :=
  ["my address"; "my wallet"; "stacks address"; "ready for airdrop";
   "here's my"; "here is my"; "@aibtcdev"; "sp"; "st"].

Definition isVerificationComment (comment : string) : bool :=
  let lower := Js.toLowerCase comment in
  existsb (fun trigger => Js.includes lower trigger) VERIFICATION_TRIGGERS.

Record GitHubPRComment := {
  login : string;      (* comment.user.login *)
  body : string;
  html_url : string
}.

(** [processComment]: the address found, if any, and whether it is valid. *)
Definition processComment (comment : GitHubPRComment) (prospect : Prospect)
    : option string * bool :=
  if Js.includes (login comment) "bot" then (None, false)
  else if negb (String.eqb (Js.toLowerCase (login comment))
                  (Js.toLowerCase (githubUsername prospect)))
  then (None, false)
  else
    let addresses := extractAddresses (body comment) in
    match addresses with
    | [] => if isVerificationComment (body comment) then (None, false) else (None, false)
    | first :: _ =>
        match List.find Wallet.isValidStacksAddress addresses with
        | Some addr => (Some addr, true)
        | None => (Some first, false)
        end
    end.

Inductive VerificationStatus :=
  | AwaitingResponse | AddressReceived | AddressInvalid | AddressVerified
  | CliInstalled | YieldEnrolled | Declined | Expired.

#[global] Instance VerificationStatus_eq_dec : EqDecision VerificationStatus.
Proof. solve_decision. Defined.

Record VerificationResult := {
  v_prospectId : Z;
  v_prUrl : string;
  v_stacksAddress : option string;
  isValid : bool;
  v_status : VerificationStatus;
  commentUrl : option string
}.

(** What GitHub answers while a prospect is checked: the comments of the
    pull request ([None]: the call throws) and whether posting a comment
    succeeds. *)
Record Env := {
  clock : Clock;
  getPRComments : Prospect -> option (list GitHubPRComment);
  postPRComment : Prospect -> bool
}.

(** The entries the verifier writes to the activity log, with the fields
    of their details. They are returned apart from the world, whose
    [activity_log] holds the entries of qualify, outreach and airdrop. *)
Inductive Logged :=
  | AddressVerifiedLog (prospectId : Z) (address : string) (commentUrl : string)
  | AddressInvalidLog (prospectId : Z) (address : string)
  | ErrorLog (prospectId : Z)
  | ManualLog (prospectId : Z) (address : string).

(** The [for] loop over the comments of [verifyProspect], up to the first
    comment for which [processComment] gives a truthy address. *)
Fixpoint firstAddress (comments : list GitHubPRComment) (prospect : Prospect)
    : option (GitHubPRComment * string * bool) :=
  match comments with
  | [] => None
  | comment :: rest =>
      match processComment comment prospect with
      | (Some address, valid) =>
          if Js.truthy_string address then Some (comment, address, valid)
          else firstAddress rest prospect
      | (None, _) => firstAddress rest prospect
      end
  end.

(** [verifyProspect]: the result, the world after it and the entries
    logged. A throw of [getPRComments] or [postPRComment] is caught and
    logged; the result keeps what was set before the throw. *)
Definition verifyProspect (env : Env) (prospect : Prospect) (w : World)
    : VerificationResult * World * list Logged :=
  let result := {| v_prospectId := id prospect;
                   v_prUrl := default "" (prUrl prospect);
                   v_stacksAddress := None; isValid := false;
                   v_status := AwaitingResponse; commentUrl := None |} in
  match prUrl prospect with
  | None => (result, w, [])
  | Some u =>
      if negb (Js.truthy_string u) then (result, w, [])
      else
        match Github.parsePRUrl u with
        | None => (result, w, [])
        | Some (owner, repo, prNumber) =>
            match getPRComments env prospect with
            | None => (result, w, [ErrorLog (id prospect)])
            | Some comments =>
                match firstAddress comments prospect with
                | None => (result, w, [])
                | Some (comment, address, valid) =>
                    let found status' :=
                      {| v_prospectId := id prospect; v_prUrl := u;
                         v_stacksAddress := Some address; isValid := valid;
                         v_status := status';
                         commentUrl := Some (html_url comment) |} in
                    if valid
                    then
                      let w1 := DbVerification.updateProspectVerification
                                  (id prospect) address true
                                  (nowIso (clock env) (id prospect) 0)
                                  (nowIso (clock env) (id prospect) 1) w in
                      let w2 := Db.call (PostPRComment owner repo prNumber) w1 in
                      (found AddressVerified, w2,
                       if postPRComment env prospect
                       then [AddressVerifiedLog (id prospect) address
                               (html_url comment)]
                       else [ErrorLog (id prospect)])
                    else
                      let w1 := Db.call (PostPRComment owner repo prNumber) w in
                      (found AddressInvalid, w1,
                       if postPRComment env prospect
                       then [AddressInvalidLog (id prospect) address]
                       else [ErrorLog (id prospect)])
                end
            end
        end
  end.

(** The options of a run that does not poll. *)
Record VerifyOptions := {
  o_prUrl : option string
}.

Record VerifyResult := {
  verified : Z;
  invalid : Z;
  pending : Z;
  results : list VerificationResult
}.

Definition openPRs : Db.Filters :=
  {| Db.f_tier := None; Db.f_outreachStatus := Some PrOpened;
     Db.f_airdropStatus := None; Db.f_pendingQualification := false;
     Db.f_limit := None |}.

(** [!p.addressValid && p.prUrl] *)
Definition unverified (p : Prospect) : bool :=
  negb (addressValid p)
  && match prUrl p with Some u => Js.truthy_string u | None => false end.

(** The prospects [runCheck] goes over. *)
Definition candidates (options : VerifyOptions) (w : World) : list Prospect :=
  let byUrl u := List.filter (fun p => bool_decide (prUrl p = Some u))
                   (Db.getProspects openPRs w) in
  let open := List.filter unverified (Db.getProspects openPRs w) in
  match o_prUrl options with
  | Some u => if Js.truthy_string u then byUrl u else open
  | None => open
  end.

(** One turn of the [for] loop of [runCheck]. *)
Definition iteration (env : Env) (prospect : Prospect)
    (acc : VerifyResult * World * list Logged) : VerifyResult * World * list Logged :=
  let '(r, w, logged) := acc in
  let '(result, w', entries) := verifyProspect env prospect w in
  ({| verified := if bool_decide (v_status result = AddressVerified)
                  then verified r + 1 else verified r;
      invalid := if bool_decide (v_status result = AddressVerified) then invalid r
                 else if bool_decide (v_status result = AddressInvalid)
                      then invalid r + 1 else invalid r;
      pending := if bool_decide (v_status result = AddressVerified) then pending r
                 else if bool_decide (v_status result = AddressInvalid)
                      then pending r else pending r + 1;
      results := (results r ++ [result])%list |},
   w', (logged ++ entries)%list).

Definition loop (env : Env) (ps : list Prospect)
    (acc : VerifyResult * World * list Logged) : VerifyResult * World * list Logged :=
  fold_left (fun acc prospect => iteration env prospect acc) ps acc.

Definition emptyResult : VerifyResult :=
  {| verified := 0; invalid := 0; pending := 0; results := [] |}.

(** [verify] with [poll] false: one [runCheck]. *)
Definition verify (env : Env) (options : VerifyOptions) (w : World)
    : VerifyResult * World * list Logged :=
  loop env (candidates options w) (emptyResult, w, []).

Inductive ManualResult := Success | Failure (error : string).

Definition manualVerify (clock : Clock) (prospectId : Z) (address : string)
    (w : World) : ManualResult * World * list Logged :=
  match Db.getProspectById prospectId w with
  | None => (Failure "Prospect not found", w, [])
  | Some _ =>
      if negb (Wallet.isValidStacksAddress address)
      then (Failure "Invalid Stacks address format", w, [])
      else
        (Success,
         DbVerification.updateProspectVerification prospectId address true
           (nowIso clock prospectId 0) (nowIso clock prospectId 1) w,
         [ManualLog prospectId address])
  end.

End Verifier.

(** ** Scanner (src/scanner.ts) *)

Module Scanner.

Inductive DiscoveryStrategy := Mcp | Langchain | Autogpt | Crewai | BitcoinAi.

(** A word between double quotes, as the queries have them. *)
Definition quoted (word : string) : string :=
  let quote := String (Ascii.Ascii false true false false false true false false)
                 EmptyString in
  quote ++ word ++ quote.

Definition SEARCH_QUERIES (strategy : DiscoveryStrategy) : list string :=
  match strategy with
  | Mcp =>
      ["filename:mcp.json"; quoted "@modelcontextprotocol" ++ " in:file";
       "topic:claude-mcp"; "topic:model-context-protocol";
       quoted "claude" ++ " " ++ quoted "mcp" ++ " language:TypeScript";
       quoted "anthropic" ++ " filename:mcp.json"]
  | Langchain =>
      [quoted "langchain" ++ " in:file language:python stars:>10";
       quoted "langchain" ++ " in:file language:typescript stars:>10";
       "topic:langchain stars:>10";
       quoted "from langchain" ++ " language:python stars:>20"]
  | Autogpt =>
      ["topic:autogpt"; "auto-gpt in:name";
       quoted "autogpt" ++ " language:python stars:>50"]
  | Crewai =>
      [quoted "crewai" ++ " in:file language:python"; "topic:crewai";
       "filename:crew.yaml"; quoted "from crewai" ++ " language:python"]
  | BitcoinAi =>
      ["topic:bitcoin topic:ai"; "topic:btc topic:agent";
       quoted "sbtc" ++ " " ++ quoted "agent" ++ " in:readme";
       quoted "stacks" ++ " " ++ quoted "AI" ++ " in:readme";
       quoted "bitcoin" ++ " " ++ quoted "agent" ++ " language:python stars:>10"]
  end.

(** An item of a repository search; [updated_at] as [new Date] reads it. *)
Record GitHubSearchItem := {
  item_name : string;
  full_name : string;
  owner_login : string;
  owner_id : Z;
  item_html_url : string;
  item_description : option string;
  stargazers_count : Z;
  item_language : option string;
  updated_at : Js.Time
}.

(** The fields of a profile that the scanner reads; [createdAt] as
    [new Date] reads it. *)
Record GitHubProfile := {
  profile_email : option string;
  profile_followers : Z;
  profile_createdAt : Js.Time
}.

Record ScanResult := {
  username : string;
  userId : Z;
  sr_repos : list MatchedRepo;
  profile : GitHubProfile;
  strategy : option DiscoveryStrategy
}.

Definition searchItemToMatchedRepo (item : GitHubSearchItem) (matchedQuery' : string)
    : MatchedRepo :=
  {| name := item_name item; fullName := full_name item; url := item_html_url item;
     stars := stargazers_count item; description := item_description item;
     language := item_language item; lastUpdated := updated_at item;
     matchedQuery := matchedQuery' |}.

(** What GitHub and the calendar answer during a scan: the items of a
    search and the profile of a user ([None]: the call throws), the time
    [days] days before now, and the time six months before now when the
    account of a user is checked. [rank i] is the place the new row of id
    [i] takes among the rows in the order of the queries, which its
    [created_at] decides (the time of the insert, to the second). *)
Record Env := {
  clock : Clock;
  searchRepos : string -> option (list GitHubSearchItem);
  getUser : string -> option GitHubProfile;
  cutoff : Z -> Z;
  sixMonthsAgo : string -> Z;
  rank : Z -> nat
}.

(** [SELECT 1 FROM prospects WHERE github_username = ?] *)
Definition usernameExists (username' : string) (w : World) : bool :=
  existsb (fun p => String.eqb (githubUsername p) username') (prospects w).

(** The [for] loop of [runSearchQuery] over the items: the results and
    the set of users seen. A throw of [getUser] ends the loop; the results
    collected so far are returned. *)
Fixpoint collect (env : Env) (w : World) (query : string) (limit : Z)
    (items : list GitHubSearchItem) (seenUsers : gset string)
    (results : list ScanResult) : list ScanResult * gset string :=
  match items with
  | [] => (results, seenUsers)
  | item :: rest =>
      let username' := owner_login item in
      if bool_decide (username' ∈ seenUsers)
      then collect env w query limit rest seenUsers results
      else
        let seenUsers' := {[ username' ]} ∪ seenUsers in
        if usernameExists username' w
        then collect env w query limit rest seenUsers' results
        else
          match getUser env username' with
          | None => (results, seenUsers')
          | Some profile' =>
              let results' :=
                (results ++ [{| username := username'; userId := owner_id item;
                                sr_repos := [searchItemToMatchedRepo item query];
                                profile := profile'; strategy := None |}])%list in
              if Z.of_nat (List.length results') >=? limit
              then (results', seenUsers')
              else collect env w query limit rest seenUsers' results'
          end
  end.

Definition runSearchQuery (env : Env) (w : World) (query : string)
    (seenUsers : gset string) (limit : Z) : list ScanResult * gset string :=
  match searchRepos env query with
  | None => ([], seenUsers)
  | Some items => collect env w query limit items seenUsers []
  end.

(** One step of the loop of [mergeResults]: the repositories of a user
    already in the map are appended to the entry, a new user is added at
    the end. *)
Fixpoint mergeInto (byUser : list ScanResult) (result : ScanResult) : list ScanResult :=
  match byUser with
  | [] => [result]
  | existing :: more =>
      if String.eqb (username existing) (username result)
      then {| username := username existing; userId := userId existing;
              sr_repos := (sr_repos existing ++ sr_repos result)%list;
              profile := profile existing; strategy := strategy existing |} :: more
      else existing :: mergeInto more result
  end.

(** [mergeResults]: the values of the map, in the order of insertion. *)
Definition mergeResults (results : list ScanResult) : list ScanResult :=
  fold_left mergeInto results [].

(** The repositories listed for the user [u], in the order of the list. *)
Definition reposOf (u : string) (results : list ScanResult) : list MatchedRepo :=
  flat_map (fun result => if String.eqb (username result) u
                          then sr_repos result else []) results.

Definition filterByActivity (env : Env) (results : list ScanResult)
    (daysSinceActivity : Z) : list ScanResult :=
  List.filter
    (fun result =>
       existsb (fun repo => Js.time_ge (lastUpdated repo)
                              (Some (cutoff env daysSinceActivity)))
         (sr_repos result))
    results.

(** [createdAt <= sixMonthsAgo] *)
Definition isAccountOldEnough (env : Env) (result : ScanResult) : bool :=
  Js.time_ge (Some (sixMonthsAgo env (username result)))
    (profile_createdAt (profile result)).

Inductive StrategyChoice := All | Only (strategy : DiscoveryStrategy).

Record ScanOptions := {
  o_strategy : option StrategyChoice;    (* default "all" *)
  o_limit : option Z;                    (* default 50 *)
  o_dryRun : option bool;                (* default false *)
  o_daysSinceActivity : option Z         (* default 90 *)
}.

Definition strategiesOf (choice : StrategyChoice) : list DiscoveryStrategy :=
  match choice with
  | All => [Mcp; Langchain; Autogpt; Crewai; BitcoinAi]
  | Only strategy' => [strategy']
  end.

Definition tag (strat : DiscoveryStrategy) (result : ScanResult) : ScanResult :=
  {| username := username result; userId := userId result;
     sr_repos := sr_repos result; profile := profile result;
     strategy := Some strat |}.

(** The loop over the queries of one strategy; [stopped] is set by
    [break]. *)
Fixpoint searchQueries (env : Env) (w : World) (limit : Z)
    (strat : DiscoveryStrategy) (queries : list string)
    (acc : list ScanResult * gset string) : list ScanResult * gset string :=
  match queries with
  | [] => acc
  | query :: rest =>
      let '(allResults, seenUsers) := acc in
      if Z.of_nat (List.length allResults) >=? limit then acc
      else
        let '(results, seenUsers') :=
          runSearchQuery env w query seenUsers
            (limit - Z.of_nat (List.length allResults)) in
        searchQueries env w limit strat rest
          ((allResults ++ List.map (tag strat) results)%list, seenUsers')
  end.

(** The loop over the strategies. *)
Definition searchAll (env : Env) (w : World) (limit : Z)
    (strategies : list DiscoveryStrategy) : list ScanResult * gset string :=
  fold_left
    (fun acc strat => searchQueries env w limit strat (SEARCH_QUERIES strat) acc)
    strategies ([], ∅).

(** What [scan] returns. *)
Definition found (env : Env) (options : ScanOptions) (w : World) : list ScanResult :=
  let limit := default 50 (o_limit options) in
  let daysSinceActivity := default 90 (o_daysSinceActivity options) in
  let allResults :=
    fst (searchAll env w limit (strategiesOf (default All (o_strategy options)))) in
  List.filter (isAccountOldEnough env)
    (filterByActivity env (mergeResults allResults) daysSinceActivity).

(** *** The first match of each user

    What a scan is to find, said apart from the loops of the code: the
    searches are taken in the order the scan makes them, and each user
    comes with the first item that names them. *)

(** An item GitHub returns, with the strategy and the query it answers. *)
Definition Match : Type := DiscoveryStrategy * string * GitHubSearchItem.

Definition ownerOf (m : Match) : string := owner_login (snd m).

(** The items of all the searches of the strategies, in the order of the
    strategies, of their queries and of the items of each answer; a search
    that fails has no item. *)
Definition asked (env : Env) (strategies : list DiscoveryStrategy) : list Match :=
  flat_map
    (fun strat =>
       flat_map
         (fun query =>
            List.map (fun item => (strat, query, item))
              (default [] (searchRepos env query)))
         (SEARCH_QUERIES strat))
    strategies.

(** The items whose owner is not in [seen] and owns no earlier item. *)
Fixpoint firstMatches (seen : gset string) (ms : list Match) : list Match :=
  match ms with
  | [] => []
  | m :: rest =>
      if bool_decide (ownerOf m ∈ seen) then firstMatches seen rest
      else m :: firstMatches ({[ ownerOf m ]} ∪ seen) rest
  end.

(** The result for a match and the profile of its owner. *)
Definition resultOf (m : Match) (profile' : GitHubProfile) : ScanResult :=
  let '(strat, query, item) := m in
  {| username := owner_login item; userId := owner_id item;
     sr_repos := [searchItemToMatchedRepo item query];
     profile := profile'; strategy := Some strat |}.

(** The result a match gives: none for a user of the table, or whose
    profile GitHub does not give. *)
Definition candidate (env : Env) (w : World) (m : Match) : list ScanResult :=
  if usernameExists (ownerOf m) w then []
  else match getUser env (ownerOf m) with
       | Some profile' => [resultOf m profile']
       | None => []
       end.

(** The results of the first matches of [ms], for the users not in
    [seen]. *)
Definition candidates (env : Env) (w : World) (seen : gset string)
    (ms : list Match) : list ScanResult :=
  flat_map (candidate env w) (firstMatches seen ms).

(** The first [limit] results of the first matches. *)
Definition firstFound (env : Env) (w : World) (limit : Z)
    (strategies : list DiscoveryStrategy) : list ScanResult :=
  take (Z.to_nat limit) (candidates env w ∅ (asked env strategies)).

(** The result [r] comes from GitHub: it is the result for an item of the
    answer to a query of the strategies, no earlier item of that answer
    being of the same owner, with the profile GitHub gives for the owner. *)
Definition comesFrom (env : Env) (strategies : list DiscoveryStrategy)
    (r : ScanResult) : Prop :=
  exists strat query items (k : nat) item profile',
    In strat strategies /\ In query (SEARCH_QUERIES strat)
    /\ searchRepos env query = Some items
    /\ items !! k = Some item
    /\ (forall (j : nat) item', (j < k)%nat -> items !! j = Some item' ->
          owner_login item' <> owner_login item)
    /\ getUser env (owner_login item) = Some profile'
    /\ r = resultOf (strat, query, item) profile'.

(** GitHub gives the profile of every user it names who is not in the
    table. *)
Definition profilesGiven (env : Env) (w : World) (ms : list Match) : Prop :=
  forall m, In m ms -> usernameExists (ownerOf m) w = false ->
    getUser env (ownerOf m) <> None.

Definition ownersOf (ms : list Match) : gset string :=
  list_to_set (ownerOf <$> ms).

(** A stage [f] of the search that is given the matches [ms]: it adds to
    the results those of the first matches that the limit leaves room for,
    and, when it has room for all of them, it has seen the owners of its
    matches. *)
Definition fills (env : Env) (w : World) (limit : Z) (ms : list Match)
    (f : list ScanResult * gset string -> list ScanResult * gset string) : Prop :=
  forall all seen,
    fst (f (all, seen))
    = (all ++ take (Z.to_nat (limit - Z.of_nat (List.length all)))
                (candidates env w seen ms))%list
    /\ (Z.of_nat (List.length all)
        + Z.of_nat (List.length (candidates env w seen ms)) < limit ->
        snd (f (all, seen)) = seen ∪ ownersOf ms).

(** The id AUTOINCREMENT gives a new row: one more than the largest id
    there was (1 in an empty table); no row is ever deleted, so that is
    the largest id of the table. *)
Definition nextId (w : World) : Z :=
  1 + fold_right Z.max 0 (id <$> prospects w).

(** The row [insertProspect] adds for a result: the columns not given
    take their defaults. *)
Definition newRow (id' : Z) (result : ScanResult) (stamp : string) : Prospect :=
  {| id := id'; githubUsername := username result; repos := sr_repos result;
     score := 0; tier := None;
     outreachStatus := OutreachPending; targetRepo := None; prUrl := None;
     prNumber := None; prOpenedAt := None;
     stacksAddress := None; addressValid := false; verifiedAt := None;
     airdropStatus := AirdropPending; airdropTxid := None;
     airdropAmountSats := None; airdropSentAt := None;
     updatedAt := stamp |}.

(** The list with [row] at place [k], or at its end when it is shorter. *)
Fixpoint insertAt (k : nat) (row : Prospect) (rows : list Prospect) : list Prospect :=
  match k, rows with
  | S k', first :: rest => first :: insertAt k' row rest
  | _, _ => row :: rows
  end.

(** [insertProspect]: [None] when the insert throws, the user name being
    in the table already ([github_username] is UNIQUE). *)
Definition insertProspect (env : Env) (result : ScanResult) (w : World)
    : option Z * World :=
  if usernameExists (username result) w then (None, w)
  else
    let id' := nextId w in
    (Some id',
     Db.with_prospects w
       (insertAt (rank env id') (newRow id' result (nowIso (clock env) id' 0))
          (prospects w))).

(** The entry [scan:prospect_added] of the activity log, which has no
    prospect id; these entries too are returned apart from the world. *)
Record Added := {
  added_username : string;
  added_strategy : option DiscoveryStrategy;
  repoCount : Z
}.

(** The loop that saves the results: the number saved, the world and the
    entries logged. *)
Definition save (env : Env) (results : list ScanResult) (w : World)
    : Z * World * list Added :=
  fold_left
    (fun acc result =>
       let '(saved, w, logged) := acc in
       match insertProspect env result w with
       | (Some _, w') =>
           (saved + 1, w',
            (logged ++ [{| added_username := username result;
                           added_strategy := strategy result;
                           repoCount := Z.of_nat (List.length (sr_repos result)) |}])%list)
       | (None, _) => (saved, w, logged)
       end)
    results (0, w, []).

Definition scan (env : Env) (options : ScanOptions) (w : World)
    : list ScanResult * World * list Added :=
  let allResults := found env options w in
  if default false (o_dryRun options)
  then (allResults, w, [])
  else
    let '(_, w', logged) := save env allResults w in
    (allResults, w', logged).

End Scanner.

(** ** The writes of the stages *)

Module Footprint.

(** The statements through which the code changes the world. *)
Inductive Write :=
  | Call (c : ExternalCall)
  | Log (action : string) (prospectId : Z) (details : LogDetails)
  | Ledger (op : Db.LedgerOp) (today : string)
  | SetScore (i score : Z) (tier : Tier) (stamp : string)
  | SetOutreach (i : Z) (d : Db.OutreachUpdate) (stamp : string)
  | SetVerification (i : Z) (address : string) (valid : bool)
      (verifiedAt stamp : string)
  | SetAirdrop (i : Z) (d : Db.AirdropUpdate) (stamp : string).

Definition write (x : Write) (w : World) : World :=
  match x with
  | Call c => Db.call c w
  | Log a i d => Db.logActivity a i d w
  | Ledger op today => Db.run_op op today w
  | SetScore i score' tier' stamp => Db.updateProspectScore i score' tier' stamp w
  | SetOutreach i d stamp => Db.updateProspectOutreach i d stamp w
  | SetVerification i a valid at' stamp =>
      DbVerification.updateProspectVerification i a valid at' stamp w
  | SetAirdrop i d stamp => Db.updateProspectAirdrop i d stamp w
  end.

Definition writes (xs : list Write) (w : World) : World :=
  fold_left (fun w x => write x w) xs w.

(** From [w] to [w'] by writes that all satisfy [P]. *)
Definition wrote (P : Write -> bool) (w w' : World) : Prop :=
  exists xs, w' = writes xs w /\ forallb P xs = true.

(** What qualify writes: scores, and its log entries. *)
Definition qualifyWrite (x : Write) : bool :=
  match x with
  | SetScore _ _ _ _ => true
  | Log a _ (ScoredDetails _ _ _) => String.eqb a "qualify:scored"
  | _ => false
  end.

(** What outreach writes: calls to GitHub, rows set to [pr_opened], the
    pull-request counter, and its log entries. *)
Definition outreachWrite (x : Write) : bool :=
  match x with
  | Call CheckAuth | Call GetAuthenticatedUser | Call (ForkRepo _ _)
  | Call (CreateBranch _) | Call (CreateFile _) | Call (CreatePR _ _) => true
  | Log a _ (PrCreatedDetails _ _) => String.eqb a "outreach:pr_created"
  | Log a _ (OutreachFailedDetails _) => String.eqb a "outreach:failed"
  | Ledger Db.GetDailyLimits _ | Ledger Db.IncrementDailyPRs _ => true
  | SetOutreach _ d _ => bool_decide (Db.u_outreachStatus d = PrOpened)
  | _ => false
  end.

(** What the verifier writes, its log entries aside: comments on pull
    requests, and addresses that [isValidStacksAddress] accepts, marked
    valid. *)
Definition verifyWrite (x : Write) : bool :=
  match x with
  | Call (PostPRComment _ _ _) => true
  | SetVerification _ a valid _ _ => valid && Wallet.isValidStacksAddress a
  | _ => false
  end.

(** What airdrop writes: calls to the wallet, the network and GitHub
    comments, payout columns (never back to [pending]), the payout counter,
    and its log entries. *)
Definition airdropWrite (x : Write) : bool :=
  match x with
  | Call GetWalletAddress | Call GetWalletInfo | Call (SendSbtc _ _ _)
  | Call (WaitForConfirmation _) | Call (PostPRComment _ _ _) => true
  | Log a _ (AirdropFailedDetails _ _) => String.eqb a "airdrop:failed"
  | Log a _ (AirdropConfirmedDetails _ _ _) => String.eqb a "airdrop:confirmed"
  | Ledger Db.GetDailyLimits _ | Ledger Db.IncrementDailyAirdrops _ => true
  | SetAirdrop _ d _ => negb (bool_decide (Db.u_airdropStatus d = AirdropPending))
  | _ => false
  end.

(** A write that is no transfer and leaves the payout columns alone. *)
Definition noPayout (x : Write) : bool :=
  match x with
  | Call (SendSbtc _ _ _) | SetAirdrop _ _ _ => false
  | _ => true
  end.

(** A write that stores no address, or a checked one marked valid. *)
Definition checkedAddress (x : Write) : bool :=
  match x with
  | SetVerification _ a valid _ _ => valid && Wallet.isValidStacksAddress a
  | _ => true
  end.

End Footprint.

(** ** The commands that change the table *)

Module Pipeline.

(** One invocation of the command line: [scan], [qualify], [outreach],
    [verify] (without polling) or [airdrop], or a call of [manualVerify],
    with what the outside world answers during it. *)
Inductive Command :=
  | RunQualify (clock : Clock) (options : Qualify.QualifyOptions)
  | RunOutreach (env : Outreach.Env) (options : Outreach.OutreachOptions)
      (config : Config)
  | RunVerify (env : Verifier.Env) (options : Verifier.VerifyOptions)
  | RunManualVerify (clock : Clock) (prospectId : Z) (address : string)
  | RunAirdrop (env : Airdrop.Env) (options : Airdrop.AirdropOptions)
      (config : Config)
  | RunScan (env : Scanner.Env) (options : Scanner.ScanOptions).

(** The world a command leaves. *)
Definition run (c : Command) (w : World) : World :=
  match c with
  | RunQualify clock options => snd (Qualify.qualify clock options w)
  | RunOutreach env options config => snd (Outreach.outreach env options config w)
  | RunVerify env options => snd (fst (Verifier.verify env options w))
  | RunManualVerify clock prospectId address =>
      snd (fst (Verifier.manualVerify clock prospectId address w))
  | RunAirdrop env options config => snd (Airdrop.airdrop env options config w)
  | RunScan env options => snd (fst (Scanner.scan env options w))
  end.

Definition runAll (cs : list Command) (w : World) : World :=
  fold_left (fun w c => run c w) cs w.

(** The [sendSbtc] calls among the calls recorded. *)
Definition isSend (c : ExternalCall) : bool :=
  match c with SendSbtc _ _ _ => true | _ => false end.

(** The number of transfers sent for the prospect with id [i]. *)
Definition sendsTo (i : Z) (w : World) : nat :=
  List.length (List.filter (Airdrop.sendsFor i) (calls w)).

(** Nobody was sent two transfers, and whoever was sent one is in the
    table and no longer pending; ids identify the rows. *)
Definition settled (w : World) : Prop :=
  NoDup (id <$> prospects w)
  /\ forall i, (sendsTo i w <= 1)%nat
       /\ ((0 < sendsTo i w)%nat ->
           In i (id <$> prospects w)
           /\ forall row, In row (prospects w) -> id row = i ->
                airdropStatus row <> AirdropPending).

(** The same during the loop of airdrop, [cs] being the candidates still
    to come: those of them that were sent a transfer are not pending
    either. *)
Definition settledBefore (cs : list Prospect) (w : World) : Prop :=
  NoDup (id <$> prospects w)
  /\ forall i, (sendsTo i w <= 1)%nat
       /\ ((0 < sendsTo i w)%nat ->
           In i (id <$> prospects w)
           /\ (forall row, In row (prospects w) -> id row = i ->
                 airdropStatus row <> AirdropPending)
           /\ (forall c, In c cs -> id c = i -> airdropStatus c <> AirdropPending)).

(** A row marked as holding a valid address holds one that
    [isValidStacksAddress] accepts. *)
Definition addressesChecked (w : World) : Prop :=
  forall row, In row (prospects w) -> addressValid row = true ->
    exists a, stacksAddress row = Some a /\ Wallet.isValidStacksAddress a = true.

(** Every transfer recorded went to an address that
    [isValidStacksAddress] accepts. *)
Definition sendsChecked (w : World) : Prop :=
  forall i a n, In (SendSbtc i a n) (calls w) -> Wallet.isValidStacksAddress a = true.

End Pipeline.

(** ** Further concrete inputs *)

Module Examples2.


(** The wallet reports a balance that [parseInt] cannot read. *)
Definition unreadableTreasury : Airdrop.Env :=
  {| Airdrop.clock := Examples.clock0;
     Airdrop.treasury := Airdrop.Balance Js.NaN;
     Airdrop.sendSbtc := fun _ _ => Airdrop.Txid "0xabc";
     Airdrop.waitForConfirmation := fun _ _ =>
       {| Airdrop.is_confirmed := true; Airdrop.conf_blockHeight := Some 100 |} |}.

(** The transaction is pending for two polls, the third fetch fails, the
    fourth poll sees it succeed in block 77. *)
Definition slowSuccess (attempt : nat) : Treasury.Poll :=
  match attempt with
  | 0%nat | 1%nat => Treasury.TxData (Some "pending") None
  | 2%nat => Treasury.FetchThrows
  | _ => Treasury.TxData (Some "success") (Some 77)
  end.

(** [outreach --dry-run] *)
Definition outreachDryRun : Outreach.OutreachOptions :=
  {| Outreach.o_tier := None; Outreach.o_limit := Some 10;
     Outreach.o_dryRun := Some true; Outreach.o_prospectId := None |}.

(** A GitHub that is not authenticated and refuses the fork. *)
Definition githubDown : Outreach.Env :=
  {| Outreach.clock := Examples.clock0; Outreach.checkAuth := false;
     Outreach.github := fun _ => Outreach.Throws Outreach.ForkStep "fork refused" |}.

(** One pull request a day. *)
Definition configOnePR : Config :=
  {| maxDailyPRs := 1; maxDailyAirdrops := 5;
     airdropTierA := 10000; airdropTierB := 5000; airdropTierC := 2500 |}.

(** Two prospects of tier B wait for their pull request. *)
Definition twoPending : World :=
  {| prospects := [Examples.aliceB;
                   Db.set_score 45 B "2025-06-14 09:00:00"
                     (Examples.scanned 10 "bea" [Examples.mcpServer])];
     daily_limits := ∅; activity_log := []; calls := [] |}.

(** [outreach --limit 0] *)
Definition outreachLimit0 : Outreach.OutreachOptions :=
  {| Outreach.o_tier := None; Outreach.o_limit := Some 0;
     Outreach.o_dryRun := Some false; Outreach.o_prospectId := None |}.

(** GitHub shows three comments on every pull request: one of a bot, one
    of a stranger holding an address, and one of the prospect alice, who
    writes her login with a capital. *)
Definition comments : list Verifier.GitHubPRComment :=
  [ {| Verifier.login := "appleseed-bot";
       Verifier.body := "Reply with your address, like "
                        ++ "SP000000000000000000002Q6VF78 or " ++ Examples.address40;
       Verifier.html_url := "https://github.com/alice/my-mcp-server/pull/12#c1" |};
    {| Verifier.login := "mallory";
       Verifier.body := "my address " ++ Examples.addressL;
       Verifier.html_url := "https://github.com/alice/my-mcp-server/pull/12#c2" |};
    {| Verifier.login := "Alice";
       Verifier.body := "Here is my wallet: " ++ Examples.address41 ++ ", thanks!";
       Verifier.html_url := "https://github.com/alice/my-mcp-server/pull/12#c3" |} ].

Definition commented : Verifier.Env :=
  {| Verifier.clock := Examples.clock0;
     Verifier.getPRComments := fun _ => Some comments;
     Verifier.postPRComment := fun _ => true |}.

(** [verify] *)
Definition verifyOpen : Verifier.VerifyOptions := {| Verifier.o_prUrl := None |}.

(** Every search returns two repositories of alice, the second one with
    more stars; her account is two years old. *)
Definition aliceItem (name' : string) (stars' : Z) : Scanner.GitHubSearchItem :=
  {| Scanner.item_name := name'; Scanner.full_name := "alice/" ++ name';
     Scanner.owner_login := "alice"; Scanner.owner_id := 1001;
     Scanner.item_html_url := "https://github.com/alice/" ++ name';
     Scanner.item_description := Some "uses @modelcontextprotocol";
     Scanner.stargazers_count := stars';
     Scanner.item_language := Some "TypeScript";
     Scanner.updated_at := Some (Examples.now - 5 * Qualifier.DAY_MS) |}.

Definition searches : Scanner.Env :=
  {| Scanner.clock := Examples.clock0;
     Scanner.searchRepos := fun _ =>
       Some [aliceItem "my-mcp-server" 120; aliceItem "big-agent" 900];
     Scanner.getUser := fun _ =>
       Some {| Scanner.profile_email := None; Scanner.profile_followers := 10;
               Scanner.profile_createdAt :=
                 Some (Examples.now - 730 * Qualifier.DAY_MS) |};
     Scanner.cutoff := fun days => Examples.now - days * Qualifier.DAY_MS;
     Scanner.sixMonthsAgo := fun _ => Examples.now - 182 * Qualifier.DAY_MS;
     Scanner.rank := fun _ => 0%nat |}.

(** [scan] *)
Definition scanAll : Scanner.ScanOptions :=
  {| Scanner.o_strategy := None; Scanner.o_limit := None;
     Scanner.o_dryRun := None; Scanner.o_daysSinceActivity := None |}.

(** GitHub accepts every step and opens pull request 12 on the
    repository of alice. *)
Definition githubAlice : Outreach.Env :=
  {| Outreach.clock := Examples.clock0; Outreach.checkAuth := true;
     Outreach.github := fun _ =>
       Outreach.Created "appleseed-bot"
         "https://github.com/alice/my-mcp-server/pull/12" 12 |}.

(** [scan], [qualify --pending], [outreach]. *)
Definition threeCommands : list Pipeline.Command :=
  [ Pipeline.RunScan searches scanAll;
    Pipeline.RunQualify Examples.clock0 Examples.pendingBatch;
    Pipeline.RunOutreach githubAlice Examples.outreachBatch Examples.config5 ].

(** [scan], [qualify --pending], [outreach], [verify], then [airdrop]
    twice. *)
Definition sixCommands : list Pipeline.Command :=
  [ Pipeline.RunScan searches scanAll;
    Pipeline.RunQualify Examples.clock0 Examples.pendingBatch;
    Pipeline.RunOutreach githubAlice Examples.outreachBatch Examples.config5;
    Pipeline.RunVerify commented verifyOpen;
    Pipeline.RunAirdrop Examples.network Examples.airdropPending Examples.config5;
    Pipeline.RunAirdrop Examples.network Examples.airdropPending Examples.config5 ].

(** Three repositories: the newest has 1 star, the one of five days
    before has 5, the one of ten days before has 10. *)
Definition newest : MatchedRepo :=
  Examples.repo "newest" 1 None (Some Examples.now) "topic:crewai".
Definition middle : MatchedRepo :=
  Examples.repo "middle" 5 None (Some (Examples.now - 5 * Qualifier.DAY_MS))
    "topic:crewai".
Definition oldest : MatchedRepo :=
  Examples.repo "oldest" 10 None (Some (Examples.now - 10 * Qualifier.DAY_MS))
    "topic:crewai".

End Examples2.

(** * Properties *)

(** ** Qualifier *)

Section QualifierFacts.

Import Qualifier.

Lemma scoreClaudeMcp_cases p : scoreClaudeMcp p = 0 \/ scoreClaudeMcp p = 30.
Proof. unfold scoreClaudeMcp. destruct (existsb _ _); [right | left]; reflexivity. Qed.

Lemma scoreCrypto_cases p : scoreCrypto p = 0 \/ scoreCrypto p = 5.
Proof. unfold scoreCrypto. destruct (existsb _ _); [right | left]; reflexivity. Qed.

Lemma scoreActivity_cases now p :
  scoreActivity now p = 0 \/ scoreActivity now p = 5
  \/ scoreActivity now p = 10 \/ scoreActivity now p = 15.
Proof.
  unfold scoreActivity. destruct (mostRecentUpdate p) as [m|]; [|tauto].
  repeat (match goal with |- context [if ?b then _ else _] => destruct b end);
    unfold WEIGHTS.ACTIVITY; tauto.
Qed.

(** The inner loop of [scoreAiAgent] keeps the running maximum within [0, 25]. *)
Lemma agent_inner_bounds repo inds m :
  Forall (fun pp => 0 <= snd pp <= 25) inds -> 0 <= m <= 25 ->
  0 <= fold_left (fun maxScore '(pattern, points) =>
         if Js.includes (combined repo) pattern
         then Z.max maxScore points else maxScore) inds m <= 25.
Proof.
  intros Hinds; revert m.
  induction Hinds as [|[pat pts] inds Hpp _ IH]; intros m Hm; simpl; [exact Hm|].
  apply IH. simpl in Hpp. destruct (Js.includes _ _); lia.
Qed.

Lemma agentIndicators_bounds : Forall (fun pp => 0 <= snd pp <= 25) agentIndicators.
Proof. unfold agentIndicators. repeat constructor; simpl; lia. Qed.

Lemma scoreAiAgent_bounds p : 0 <= scoreAiAgent p <= 25.
Proof.
  unfold scoreAiAgent, WEIGHTS.AI_AGENT.
  assert (H : forall rs m, 0 <= m <= 25 ->
    0 <= fold_left (fun maxScore repo =>
           fold_left (fun maxScore '(pattern, points) =>
             if Js.includes (combined repo) pattern
             then Z.max maxScore points else maxScore) agentIndicators maxScore)
         rs m <= 25).
  { induction rs as [|r rs IH]; intros m Hm; cbn [fold_left]; [exact Hm|].
    apply IH. apply agent_inner_bounds; [apply agentIndicators_bounds | exact Hm]. }
  specialize (H (repos p) 0 ltac:(lia)). lia.
Qed.

(** [reduce] from the left adds up the star counts. *)
Lemma fold_stars_acc rs acc :
  fold_left (fun sum repo => sum + stars repo) rs acc
  = acc + foldr Z.add 0 (stars <$> rs).
Proof.
  revert acc. induction rs as [|r rs IH]; intros acc; csimpl; [lia|].
  rewrite IH. lia.
Qed.

Lemma totalStars_sum p : totalStars p = foldr Z.add 0 (stars <$> repos p).
Proof. unfold totalStars. rewrite fold_stars_acc. lia. Qed.

Lemma sum_stars_nonneg rs :
  Forall (fun r => 0 <= stars r) rs -> 0 <= foldr Z.add 0 (stars <$> rs).
Proof. induction 1; csimpl; lia. Qed.

Lemma getTier_spec s :
  (70 <= s -> getTier s = A) /\ (40 <= s < 70 -> getTier s = B)
  /\ (20 <= s < 40 -> getTier s = C) /\ (s < 20 -> getTier s = D).
Proof.
  unfold getTier.
  destruct (Z.geb_spec s 70), (Z.geb_spec s 40), (Z.geb_spec s 20);
    repeat split; intros; try reflexivity; lia.
Qed.

End QualifierFacts.

(** C3. For every prospect (star counts are counts, hence not negative),
    [qualifyProspect] returns as score the sum of the six sub-scores, each
    within its cap: claudeMcp is 0 or 30, aiAgent is at most 25, stars is
    min(floor(totalStars / 10), 15), activity is 0, 5, 10 or 15, followers is
    0, crypto is 0 or 5; so the score lies in [0, 100]; and the tier is the
    function of the score with thresholds 70 (A), 40 (B), 20 (C), else D. *)
Theorem qualifyProspect_score_and_tier (now : Z) (p : Prospect) :
  Forall (fun r => 0 <= stars r) (repos p) ->
  let r := Qualifier.qualifyProspect now p in
  let b := breakdown r in
  qr_score r = claudeMcp b + aiAgent b + sb_stars b + activity b + followers b + crypto b
  /\ (claudeMcp b = 0 \/ claudeMcp b = 30)
  /\ 0 <= aiAgent b <= 25
  /\ sb_stars b = Z.min (foldr Z.add 0 (stars <$> repos p) / 10) 15
  /\ (activity b = 0 \/ activity b = 5 \/ activity b = 10 \/ activity b = 15)
  /\ followers b = 0
  /\ (crypto b = 0 \/ crypto b = 5)
  /\ 0 <= qr_score r <= 100
  /\ (70 <= qr_score r -> qr_tier r = A)
  /\ (40 <= qr_score r < 70 -> qr_tier r = B)
  /\ (20 <= qr_score r < 40 -> qr_tier r = C)
  /\ (qr_score r < 20 -> qr_tier r = D).
Proof.
  intros Hstars r b. subst b r. cbn [Qualifier.qualifyProspect breakdown qr_score qr_tier
    claudeMcp aiAgent sb_stars activity followers crypto].
  pose proof (scoreClaudeMcp_cases p) as Hm.
  pose proof (scoreAiAgent_bounds p) as Ha.
  pose proof (scoreActivity_cases now p) as Hact.
  pose proof (scoreCrypto_cases p) as Hc.
  pose proof (sum_stars_nonneg _ Hstars) as Hs.
  assert (Hst : Qualifier.scoreStars p
                = Z.min (foldr Z.add 0 (stars <$> repos p) / 10) 15).
  { unfold Qualifier.scoreStars, Qualifier.WEIGHTS.STARS. now rewrite totalStars_sum. }
  assert (Hst0 : 0 <= Qualifier.scoreStars p <= 15).
  { rewrite Hst. pose proof (Z.div_pos _ 10 Hs ltac:(lia)). lia. }
  unfold Qualifier.scoreFollowers.
  split; [reflexivity|]. split; [exact Hm|]. split; [exact Ha|].
  split; [exact Hst|]. split; [exact Hact|]. split; [reflexivity|].
  split; [exact Hc|]. split; [lia|].
  apply getTier_spec.
Qed.

(** Scenario A of the specification instantiates C3: one repository
    "my-mcp-server" with 120 stars, updated 5 days ago, scores 57, tier B. *)
Lemma qualifyProspect_score_and_tier_witness :
  Forall (fun r => 0 <= stars r) (repos Examples.alice)
  /\ qr_score (Qualifier.qualifyProspect Examples.now Examples.alice) = 57
  /\ qr_tier (Qualifier.qualifyProspect Examples.now Examples.alice) = B.
Proof.
  assert (H : Forall (fun r => 0 <= stars r) (repos Examples.alice)).
  { repeat constructor. simpl. lia. }
  split; [exact H|].
  pose proof (qualifyProspect_score_and_tier Examples.now Examples.alice H) as T.
  split; [reflexivity|].
  apply T. split; vm_compute; congruence.
Defined.

(** C9. A prospect without matched repositories is qualified without
    failure: every sub-score is 0 (activity in particular, no lastUpdated
    being there), no personalization hook is produced, the score is 0 and
    the tier is D. *)
Theorem qualifyProspect_no_repos (now : Z) (p : Prospect) :
  repos p = [] ->
  Qualifier.qualifyProspect now p =
    {| qr_score := 0; qr_tier := D;
       breakdown := {| claudeMcp := 0; aiAgent := 0; sb_stars := 0;
                       activity := 0; followers := 0; crypto := 0 |};
       personalizationHooks := [] |}.
Proof.
  intros H.
  unfold Qualifier.qualifyProspect, Qualifier.generatePersonalizationHooks,
    Qualifier.scoreClaudeMcp, Qualifier.scoreAiAgent, Qualifier.scoreStars,
    Qualifier.scoreActivity, Qualifier.scoreCrypto, Qualifier.scoreFollowers,
    Qualifier.mostRecentUpdate, Qualifier.totalStars, Qualifier.topRepo.
  rewrite H. reflexivity.
Qed.

Lemma qualifyProspect_no_repos_witness :
  qr_tier (Qualifier.qualifyProspect Examples.now Examples.nobody) = D
  /\ qr_score (Qualifier.qualifyProspect Examples.now Examples.nobody) = 0.
Proof.
  rewrite (qualifyProspect_no_repos Examples.now Examples.nobody eq_refl).
  split; reflexivity.
Defined.

(** ** Wallet *)

Section WalletFacts.

Import Wallet.

(** The class test agrees with membership in the written-out alphabet. *)
Lemma c32_class_alphabet c : c32_class c = true <-> In c classAlphabet.
Proof.
  assert (E : c32_class c = existsb (Ascii.eqb c) classAlphabet).
  { destruct c as [[] [] [] [] [] [] [] []]; vm_compute; reflexivity. }
  rewrite E, existsb_exists. split.
  - intros (x & Hin & Heq). apply Ascii.eqb_eq in Heq. now subst.
  - intros Hin. exists c. split; [exact Hin | apply Ascii.eqb_refl].
Qed.

Lemma forallb_class body :
  forallb c32_class (chars body) = true
  <-> Forall (fun c => In c classAlphabet) (chars body).
Proof.
  rewrite forallb_forall, Forall_forall. split; intros H x Hx.
  - apply c32_class_alphabet, H. now apply list_elem_of_In.
  - apply c32_class_alphabet, H. now apply list_elem_of_In.
Qed.

Lemma test_prefixed_spec p1 p2 s :
  test_prefixed p1 p2 s = true
  <-> exists body, s = String p1 (String p2 body)
      /\ (String.length body = 38%nat \/ String.length body = 39%nat)
      /\ Forall (fun c => In c classAlphabet) (chars body).
Proof.
  unfold test_prefixed. split.
  - destruct s as [|a [|b rest]]; try discriminate.
    rewrite !andb_true_iff, orb_true_iff, !Ascii.eqb_eq, !Nat.eqb_eq, forallb_class.
    intros [[[-> ->] Hall] Hlen]. exists rest. auto.
  - intros (body & -> & Hlen & Hall).
    rewrite !andb_true_iff, orb_true_iff, !Ascii.eqb_eq, !Nat.eqb_eq, forallb_class.
    auto.
Qed.

End WalletFacts.

(** C4, as the code has it. [isValidStacksAddress] returns true exactly for
    the strings made of [SP] or [ST] followed by 38 or 39 characters of the
    class [[0-9A-HJ-NP-Z]] (digits and capital letters other than I and O, so
    L is admitted); it returns false for every other string: another prefix,
    another length, or a character outside the class. *)
Theorem isValidStacksAddress_spec (address : string) :
  Wallet.isValidStacksAddress address = true
  <-> exists body,
        (address = "SP" ++ body \/ address = "ST" ++ body)%string
        /\ (String.length body = 38%nat \/ String.length body = 39%nat)
        /\ Forall (fun c => In c Wallet.classAlphabet) (Wallet.chars body).
Proof.
  unfold Wallet.isValidStacksAddress, Wallet.mainnetRegex, Wallet.testnetRegex.
  rewrite orb_true_iff, !test_prefixed_spec. split.
  - intros [(body & -> & H) | (body & -> & H)]; exists body; split; auto.
  - intros (body & [-> | ->] & H); [left | right]; exists body; split; auto.
Qed.

(** C4 as stated fails: a 40-character string, [SP] and 38 zeros, is not
    [SP] or [ST] followed by exactly 39 characters and is accepted; and a
    string whose 39 characters after [SP] are all the letter L is accepted. *)
Lemma isValidStacksAddress_accepts_38_and_L :
  (String.length Examples.address40 = 40%nat
   /\ Wallet.isValidStacksAddress Examples.address40 = true)
  /\ (Examples.addressL = "SP" ++ "LLLLLLLLLLLLLLLLLLLLLLLLLLLLLLLLLLLLLLL"
      /\ Wallet.isValidStacksAddress Examples.addressL = true)%string.
Proof. repeat split. Qed.

(** Some addresses: a mainnet address of 41 characters is valid, and so is
    its testnet form; a lowercase letter, the letters O and I, another
    prefix, 40 or 36 characters after the prefix are refused. *)
Example isValidStacksAddress_examples :
  Wallet.isValidStacksAddress Examples.address41 = true
  /\ Wallet.isValidStacksAddress "ST2J6ZY48GV1EZ5V2V5RB9MP66SW86PYKKNRV9EJ7" = true
  /\ Wallet.isValidStacksAddress "SP2j6ZY48GV1EZ5V2V5RB9MP66SW86PYKKNRV9EJ7" = false
  /\ Wallet.isValidStacksAddress "SPO26ZY48GV1EZ5V2V5RB9MP66SW86PYKKNRV9EJ7" = false
  /\ Wallet.isValidStacksAddress "SPI26ZY48GV1EZ5V2V5RB9MP66SW86PYKKNRV9EJ7" = false
  /\ Wallet.isValidStacksAddress "SM2J6ZY48GV1EZ5V2V5RB9MP66SW86PYKKNRV9EJ7" = false
  /\ Wallet.isValidStacksAddress "SP2J6ZY48GV1EZ5V2V5RB9MP66SW86PYKKNRV9EJ70" = false
  /\ Wallet.isValidStacksAddress "SP2J6ZY48GV1EZ5V2V5RB9MP66SW86PYKKNRV9" = false.
Proof. repeat split. Qed.

(** ** Daily ledger *)

Section LedgerFacts.

Import Db.

Lemma getDailyLimits_other today d w :
  d <> today -> daily_limits (snd (getDailyLimits today w)) !! d = daily_limits w !! d.
Proof.
  intros Hne. unfold getDailyLimits.
  destruct (daily_limits w !! today); simpl; [reflexivity|].
  now rewrite lookup_insert_ne.
Qed.

Lemma getDailyLimits_today today w :
  daily_limits (snd (getDailyLimits today w)) !! today
  = Some (default freshRow (daily_limits w !! today)).
Proof.
  unfold getDailyLimits.
  destruct (daily_limits w !! today) eqn:E; simpl; [exact E|].
  now rewrite lookup_insert_eq.
Qed.

Lemma getDailyLimits_reads today w :
  prsOpened (fst (getDailyLimits today w))
    = prs_opened (default freshRow (daily_limits w !! today))
  /\ airdropsSent (fst (getDailyLimits today w))
    = airdrops_sent (default freshRow (daily_limits w !! today)).
Proof. unfold getDailyLimits. destruct (daily_limits w !! today); simpl; auto. Qed.

Lemma getDailyLimits_rest today w :
  prospects (snd (getDailyLimits today w)) = prospects w
  /\ activity_log (snd (getDailyLimits today w)) = activity_log w
  /\ calls (snd (getDailyLimits today w)) = calls w.
Proof. unfold getDailyLimits. destruct (daily_limits w !! today); simpl; auto. Qed.

Lemma getDailyLimits_present today w row :
  daily_limits w !! today = Some row -> snd (getDailyLimits today w) = w.
Proof. intros H. unfold getDailyLimits. now rewrite H. Qed.

Lemma incrementDailyPRs_today today w :
  daily_limits (snd (incrementDailyPRs today w)) !! today
  = Some (bump_prs (default freshRow (daily_limits w !! today))).
Proof.
  unfold incrementDailyPRs. simpl.
  rewrite lookup_alter_eq, getDailyLimits_today. reflexivity.
Qed.

Lemma incrementDailyAirdrops_today today w :
  daily_limits (snd (incrementDailyAirdrops today w)) !! today
  = Some (bump_airdrops (default freshRow (daily_limits w !! today))).
Proof.
  unfold incrementDailyAirdrops. simpl.
  rewrite lookup_alter_eq, getDailyLimits_today. reflexivity.
Qed.

Lemma incrementDailyPRs_other today d w :
  d <> today -> daily_limits (snd (incrementDailyPRs today w)) !! d = daily_limits w !! d.
Proof.
  intros Hne. unfold incrementDailyPRs. simpl.
  rewrite lookup_alter_ne by congruence. now apply getDailyLimits_other.
Qed.

Lemma incrementDailyAirdrops_other today d w :
  d <> today ->
  daily_limits (snd (incrementDailyAirdrops today w)) !! d = daily_limits w !! d.
Proof.
  intros Hne. unfold incrementDailyAirdrops. simpl.
  rewrite lookup_alter_ne by congruence. now apply getDailyLimits_other.
Qed.

Lemma incrementDailyAirdrops_rest today w :
  prospects (snd (incrementDailyAirdrops today w)) = prospects w
  /\ activity_log (snd (incrementDailyAirdrops today w)) = activity_log w
  /\ calls (snd (incrementDailyAirdrops today w)) = calls w.
Proof. unfold incrementDailyAirdrops. simpl. apply getDailyLimits_rest. Qed.

Lemma incrementDailyPRs_rest today w :
  prospects (snd (incrementDailyPRs today w)) = prospects w
  /\ activity_log (snd (incrementDailyPRs today w)) = activity_log w
  /\ calls (snd (incrementDailyPRs today w)) = calls w.
Proof. unfold incrementDailyPRs. simpl. apply getDailyLimits_rest. Qed.

Lemma run_op_other op today d w :
  d <> today -> daily_limits (run_op op today w) !! d = daily_limits w !! d.
Proof.
  intros Hne. destruct op; cbn [run_op].
  - now apply getDailyLimits_other.
  - now apply incrementDailyPRs_other.
  - now apply incrementDailyAirdrops_other.
Qed.

Lemma run_op_today op today w :
  exists row', daily_limits (run_op op today w) !! today = Some row'
    /\ prs_opened (default freshRow (daily_limits w !! today)) <= prs_opened row'
    /\ airdrops_sent (default freshRow (daily_limits w !! today)) <= airdrops_sent row'.
Proof.
  destruct op; cbn [run_op].
  - rewrite getDailyLimits_today. eexists; split; [reflexivity|]. lia.
  - rewrite incrementDailyPRs_today. eexists; split; [reflexivity|]. simpl. lia.
  - rewrite incrementDailyAirdrops_today. eexists; split; [reflexivity|]. simpl. lia.
Qed.

End LedgerFacts.

(** C8. The daily ledger. First access of a date creates its row with both
    counters zero; incrementing PRs (airdrops) leaves today's row with that
    counter one higher and the other counter as it was; whatever the
    operation, a row that exists keeps existing with counters at least as
    large (nothing decreases or resets it); and the rows of all other dates
    are left exactly as they were. *)
Theorem daily_ledger_monotone_independent (op : Db.LedgerOp) (today : string) (w : World) :
  (daily_limits w !! today = None ->
     daily_limits (snd (Db.getDailyLimits today w)) !! today
       = Some {| prs_opened := 0; airdrops_sent := 0 |}
     /\ prsOpened (fst (Db.getDailyLimits today w)) = 0
     /\ airdropsSent (fst (Db.getDailyLimits today w)) = 0)
  /\ (forall row, daily_limits (snd (Db.getDailyLimits today w)) !! today = Some row ->
        daily_limits (snd (Db.incrementDailyPRs today w)) !! today
          = Some {| prs_opened := prs_opened row + 1;
                    airdrops_sent := airdrops_sent row |}
        /\ daily_limits (snd (Db.incrementDailyAirdrops today w)) !! today
          = Some {| prs_opened := prs_opened row;
                    airdrops_sent := airdrops_sent row + 1 |})
  /\ (forall d row, daily_limits w !! d = Some row ->
        exists row', daily_limits (Db.run_op op today w) !! d = Some row'
          /\ prs_opened row <= prs_opened row'
          /\ airdrops_sent row <= airdrops_sent row')
  /\ (forall d, d <> today ->
        daily_limits (Db.run_op op today w) !! d = daily_limits w !! d).
Proof.
  split; [|split; [|split]].
  - intros Hnone. pose proof (getDailyLimits_today today w) as Ht.
    pose proof (getDailyLimits_reads today w) as [Hp Ha].
    rewrite Hnone in *. simpl in *. auto.
  - intros row Hrow. rewrite getDailyLimits_today in Hrow. injection Hrow as <-.
    rewrite incrementDailyPRs_today, incrementDailyAirdrops_today. auto.
  - intros d row Hrow. destruct (decide (d = today)) as [-> | Hne].
    + destruct (run_op_today op today w) as (row' & Hr & Hle).
      rewrite Hrow in Hle. simpl in Hle. eauto.
    + rewrite run_op_other by exact Hne. exists row. split; [exact Hrow | lia].
  - intros d Hne. now apply run_op_other.
Qed.

(** A payout counted on 15 June leaves the row of 16 June, two PRs and one
    payout, as it is, and starts the row of 15 June at one payout. *)
Example incrementDailyAirdrops_example :
  daily_limits
    (snd (Db.incrementDailyAirdrops "2025-06-15"
            (Db.with_daily_limits Examples.emptyWorld
               {[ "2025-06-16" := {| prs_opened := 2; airdrops_sent := 1 |} ]})))
  = {[ "2025-06-15" := {| prs_opened := 0; airdrops_sent := 1 |};
       "2025-06-16" := {| prs_opened := 2; airdrops_sent := 1 |} ]}.
Proof. vm_compute. reflexivity. Qed.

(** ** Target repository *)

Section TargetRepoFacts.

Import Outreach.

(** Swapping the arguments of the comparator flips its sign, so a sort of
    two repositories does not depend on the order in which it compares them. *)
Lemma compareRepos_antisym a b : compareRepos b a = - compareRepos a b.
Proof.
  unfold compareRepos.
  destruct (Js.truthy_string (matchedQuery a)), (Js.truthy_string (matchedQuery b));
    simpl; try lia;
    destruct (lastUpdated a) as [x|], (lastUpdated b) as [y|]; try lia;
    replace (Z.abs (y - x)) with (Z.abs (x - y)) by lia;
    destruct (Z.abs (x - y) >? OUTREACH_WEEK_MS); lia.
Qed.

(** The comparator on two matched repositories with valid dates. *)
Lemma compareRepos_matched a b ta tb :
  Js.truthy_string (matchedQuery a) = true ->
  Js.truthy_string (matchedQuery b) = true ->
  lastUpdated a = Some ta -> lastUpdated b = Some tb ->
  compareRepos a b
  = if Z.abs (ta - tb) >? 604800000 then tb - ta else stars b - stars a.
Proof.
  intros Ha Hb Hta Htb. unfold compareRepos. rewrite Ha, Hb, Hta, Htb. reflexivity.
Qed.

Lemma bestRepo_two p a b :
  repos p = [a; b] ->
  bestRepo p = Some (if compareRepos a b <=? 0 then a else b).
Proof.
  intros H. unfold bestRepo, sort. rewrite H. simpl.
  destruct (compareRepos a b <=? 0); reflexivity.
Qed.

End TargetRepoFacts.

(** C7. A prospect has exactly two matched repositories (each carries the
    query that matched it), one with 50 stars and one with 10, in either
    order. When their lastUpdated times differ by at most 7 days, the
    50-star repository is the one selected, whichever is more recent; only
    when the gap is strictly more than 7 days does the more recent one win. *)
Theorem selectTargetRepo_week_window (p : Prospect) (r50 r10 : MatchedRepo) (t50 t10 : Z) :
  repos p = [r50; r10] \/ repos p = [r10; r50] ->
  Js.truthy_string (matchedQuery r50) = true ->
  Js.truthy_string (matchedQuery r10) = true ->
  stars r50 = 50 -> stars r10 = 10 ->
  lastUpdated r50 = Some t50 -> lastUpdated r10 = Some t10 ->
  (Z.abs (t50 - t10) <= 7 * 24 * 60 * 60 * 1000 ->
     Outreach.bestRepo p = Some r50
     /\ Outreach.selectTargetRepo p = Outreach.targetOf r50)
  /\ (Z.abs (t50 - t10) > 7 * 24 * 60 * 60 * 1000 ->
        Outreach.bestRepo p = Some (if t10 >? t50 then r10 else r50)).
Proof.
  intros Hrepos Hq50 Hq10 Hs50 Hs10 Ht50 Ht10.
  assert (Hbest : Z.abs (t50 - t10) <= 7 * 24 * 60 * 60 * 1000 ->
                  Outreach.bestRepo p = Some r50).
  { intros Hgap. destruct Hrepos as [H | H]; rewrite (bestRepo_two _ _ _ H).
    - rewrite (compareRepos_matched _ _ _ _ Hq50 Hq10 Ht50 Ht10).
      destruct (Z.gtb_spec (Z.abs (t50 - t10)) 604800000); [lia|].
      rewrite Hs50, Hs10. reflexivity.
    - rewrite (compareRepos_matched _ _ _ _ Hq10 Hq50 Ht10 Ht50).
      destruct (Z.gtb_spec (Z.abs (t10 - t50)) 604800000); [lia|].
      rewrite Hs50, Hs10. reflexivity. }
  split.
  - intros Hgap. split; [now apply Hbest|].
    unfold Outreach.selectTargetRepo. now rewrite (Hbest Hgap).
  - intros Hgap. destruct Hrepos as [H | H]; rewrite (bestRepo_two _ _ _ H).
    + rewrite (compareRepos_matched _ _ _ _ Hq50 Hq10 Ht50 Ht10).
      destruct (Z.gtb_spec (Z.abs (t50 - t10)) 604800000); [|lia].
      destruct (Z.leb_spec (t10 - t50) 0), (Z.gtb_spec t10 t50); try reflexivity; lia.
    + rewrite (compareRepos_matched _ _ _ _ Hq10 Hq50 Ht10 Ht50).
      destruct (Z.gtb_spec (Z.abs (t10 - t50)) 604800000); [|lia].
      destruct (Z.leb_spec (t50 - t10) 0), (Z.gtb_spec t10 t50); try reflexivity; lia.
Qed.

(** The scenario of the specification: the repository updated two days
    later has 10 stars and comes first in the evidence; the 50-star one is
    selected. *)
Lemma selectTargetRepo_week_window_witness :
  Outreach.bestRepo Examples.bob = Some Examples.older50
  /\ Outreach.selectTargetRepo Examples.bob = Some ("dev", "starred-agent").
Proof.
  refine ((fun H => conj (proj1 H) (eq_trans (proj2 H) eq_refl))
    (proj1 (selectTargetRepo_week_window Examples.bob Examples.older50 Examples.fresh10
       (Examples.now - 2 * Qualifier.DAY_MS) Examples.now
       (or_intror eq_refl) eq_refl eq_refl eq_refl eq_refl eq_refl eq_refl) _)).
  vm_compute. discriminate.
Defined.

(** ** Rows of the prospects table under the updates *)

Section DbFacts.

Import Db.

Lemma lookup_map {X Y} (f : X -> Y) (l : list X) (k : nat) :
  List.map f l !! k = f <$> l !! k.
Proof.
  revert k. induction l as [|x l IH]; intros [|k]; simpl; try reflexivity. apply IH.
Qed.

Lemma update_where_id_lookup i f w (k : nat) :
  prospects (update_where_id i f w) !! k
  = (fun p => if id p =? i then f p else p) <$> prospects w !! k.
Proof. unfold update_where_id. simpl. apply lookup_map. Qed.

Lemma find_id_some i (l : list Prospect) p :
  List.find (fun p => id p =? i) l = Some p -> In p l /\ id p = i.
Proof. intros H. apply find_some in H as [Hin Hid]. split; [exact Hin | lia]. Qed.

(** Rows are identified by their id: the primary key. *)
Lemma NoDup_id_eq (l : list Prospect) p q :
  NoDup (id <$> l) -> In p l -> In q l -> id p = id q -> p = q.
Proof.
  induction l as [|x l IH]; csimpl; [tauto|].
  intros Hnd [-> | Hp] [-> | Hq] Hid; try reflexivity.
  - apply NoDup_cons in Hnd as [Hx _]. exfalso. apply Hx.
    apply list_elem_of_fmap. exists q. split; [congruence | now apply list_elem_of_In].
  - apply NoDup_cons in Hnd as [Hx _]. exfalso. apply Hx.
    apply list_elem_of_fmap. exists p. split; [congruence | now apply list_elem_of_In].
  - apply NoDup_cons in Hnd as [_ Hnd]. now apply IH.
Qed.

Lemma lookup_In {X} (l : list X) (k : nat) x : l !! k = Some x -> In x l.
Proof. intros H. apply list_elem_of_In. eapply list_elem_of_lookup_2. exact H. Qed.

Lemma In_lookup {X} (l : list X) x : In x l -> exists k : nat, l !! k = Some x.
Proof. intros H. apply list_elem_of_In in H. now apply list_elem_of_lookup_1. Qed.

End DbFacts.

(** ** Batch qualification *)

Section QualifyFacts.

Import Qualifier Qualify.

Lemma scoreActivity_antitone now1 now2 p :
  now1 <= now2 -> scoreActivity now2 p <= scoreActivity now1 p.
Proof.
  intros Hle. unfold scoreActivity, WEIGHTS.ACTIVITY, DAY_MS.
  destruct (mostRecentUpdate p) as [[m|]|]; simpl; try lia.
  repeat match goal with
         | |- context [?a >=? ?b] => destruct (Z.geb_spec a b)
         end; lia.
Qed.

Lemma getTier_monotone s1 s2 :
  s2 <= s1 -> tierOrder (getTier s1) <= tierOrder (getTier s2).
Proof.
  intros Hle. unfold getTier.
  repeat match goal with
         | |- context [?a >=? ?b] => destruct (Z.geb_spec a b)
         end; simpl; lia.
Qed.

(** A result below the requested tier stays below it as time passes. *)
Lemma belowMinTier_later options now1 now2 p :
  now1 <= now2 ->
  belowMinTier options (qualifyProspect now1 p) = true ->
  belowMinTier options (qualifyProspect now2 p) = true.
Proof.
  intros Hle. unfold belowMinTier. destruct (o_minTier options) as [m|]; [|easy].
  cbn [qualifyProspect qr_tier claudeMcp aiAgent sb_stars activity followers crypto].
  pose proof (scoreActivity_antitone _ _ p Hle) as Hact.
  intros H. apply Z.gtb_lt in H. apply Z.gtb_lt.
  eapply Z.lt_le_trans; [exact H|]. apply getTier_monotone. lia.
Qed.

Lemma iteration_world clock options c r w :
  snd (iteration clock options c (r, w))
  = if persisted clock options c
    then
      let result := qualifyProspect (nowMs clock (id c)) c in
      Db.logActivity "qualify:scored" (id c)
        (ScoredDetails (qr_score result) (qr_tier result) (breakdown result))
        (Db.updateProspectScore (id c) (qr_score result) (qr_tier result)
           (nowIso clock (id c) 0) w)
    else w.
Proof.
  unfold iteration, persisted.
  destruct (bool_decide (tier c <> None) && negb (hasProspectId options));
    [reflexivity|].
  cbn [negb andb].
  destruct (belowMinTier options _); reflexivity.
Qed.

(** The row at position [k] after one turn: rewritten when the turn
    persists a result for a prospect of the same id, else as before. *)
Lemma iteration_row clock options c acc (k : nat) :
  prospects (snd (iteration clock options c acc)) !! k
  = (fun row =>
       if persisted clock options c && (id row =? id c)
       then Db.set_score (qr_score (qualifyProspect (nowMs clock (id c)) c))
              (qr_tier (qualifyProspect (nowMs clock (id c)) c))
              (nowIso clock (id c) 0) row
       else row) <$> prospects (snd acc) !! k.
Proof.
  destruct acc as [r w]. rewrite iteration_world.
  destruct (persisted clock options c); cbn [andb].
  - cbn zeta. unfold Db.logActivity, Db.updateProspectScore. cbn [prospects].
    apply update_where_id_lookup.
  - cbn [snd]. destruct (prospects w !! k); reflexivity.
Qed.

Lemma loop_cons clock options c cs acc :
  loop clock options (c :: cs) acc
  = loop clock options cs (iteration clock options c acc).
Proof. reflexivity. Qed.

(** A row is left as it is when no turn persists a result for its id. *)
Lemma loop_keeps clock options cs : forall acc (k : nat) row,
  (forall c, In c cs -> persisted clock options c = true -> id c <> id row) ->
  prospects (snd acc) !! k = Some row ->
  prospects (snd (loop clock options cs acc)) !! k = Some row.
Proof.
  induction cs as [|c cs IH]; intros acc k row Hcs Hrow; [exact Hrow|].
  rewrite loop_cons. apply IH.
  - intros c' Hin. apply Hcs. now right.
  - rewrite iteration_row, Hrow. cbn [fmap option_fmap option_map].
    destruct (persisted clock options c) eqn:Hp; cbn [andb]; [|reflexivity].
    destruct (Z.eqb_spec (id row) (id c)) as [Heq|]; [|reflexivity].
    exfalso. apply (Hcs c); [now left | exact Hp | congruence].
Qed.

(** A row still without tier after the loop was never rewritten, and every
    turn for a prospect of its id was skipped. *)
Lemma loop_untiered clock options cs : forall acc (k : nat) row',
  prospects (snd (loop clock options cs acc)) !! k = Some row' ->
  tier row' = None ->
  prospects (snd acc) !! k = Some row'
  /\ forall c, In c cs -> id c = id row' -> persisted clock options c = false.
Proof.
  induction cs as [|c cs IH]; intros acc k row' Hrow Htier.
  - split; [exact Hrow | intros c []].
  - rewrite loop_cons in Hrow. destruct (IH _ _ _ Hrow Htier) as [Hmid Hrest].
    rewrite iteration_row in Hmid.
    destruct (prospects (snd acc) !! k) as [row|]; [|discriminate].
    cbn [fmap option_fmap option_map] in Hmid.
    destruct (persisted clock options c) eqn:Hp; cbn [andb] in Hmid.
    + destruct (Z.eqb_spec (id row) (id c)) as [Heq|Hne].
      * injection Hmid as <-. discriminate Htier.
      * injection Hmid as ->. split; [reflexivity|].
        intros c' [<- | Hin] Hid; [congruence | now apply Hrest].
    + injection Hmid as ->. split; [reflexivity|].
      intros c' [<- | Hin] Hid; [exact Hp | now apply Hrest].
Qed.

Lemma loop_all_skipped clock options cs : forall acc,
  (forall c, In c cs -> persisted clock options c = false) ->
  snd (loop clock options cs acc) = snd acc.
Proof.
  induction cs as [|c cs IH]; intros [r w] Hcs; [reflexivity|].
  rewrite loop_cons, IH by (intros c' Hin; apply Hcs; now right).
  rewrite iteration_world, Hcs by now left. reflexivity.
Qed.

(** Without a prospect id, the candidates are rows of the table, and every
    row without tier is one of them. *)
Lemma candidates_batch options w c :
  hasProspectId options = false ->
  (In c (candidates options w) -> In c (prospects w))
  /\ (In c (prospects w) -> tier c = None -> In c (candidates options w)).
Proof.
  intros Hno. unfold candidates. rewrite Hno.
  unfold Db.getProspects, pendingFilter, Db.noFilters, Db.sql_limit. cbn.
  destruct (o_pending options); rewrite filter_In; (split; [tauto|]);
    intros Hin Ht; (split; [exact Hin|]); unfold Db.matches; cbn;
    rewrite ?Ht; reflexivity.
Qed.

Lemma persisted_batch clock options c :
  hasProspectId options = false ->
  persisted clock options c = true -> tier c = None.
Proof.
  intros Hno. unfold persisted. rewrite Hno. cbn [negb].
  rewrite andb_true_r. destruct (tier c); [|reflexivity].
  rewrite bool_decide_eq_true_2 by discriminate. discriminate.
Qed.

End QualifyFacts.

(** C5, as the code has it. Without a prospect id (the batch modes), a
    prospect that already has a tier is left exactly as persisted (rows
    being identified by their id), and a second run after the first, the
    clock not going backwards, changes nothing at all. With an
    explicit id of an existing prospect the score is always recomputed; the
    recomputed score and tier overwrite the persisted ones, whether or not a
    tier was set, unless [minTier] is given and the recomputed tier is
    strictly below it, in which case nothing is persisted. *)
Theorem qualify_batch_skips_explicit_overwrites
    (clock later : Clock) (options : Qualify.QualifyOptions) (w : World) :
  (Qualify.hasProspectId options = false ->
     (NoDup (id <$> prospects w) ->
        forall (k : nat) p, prospects w !! k = Some p -> tier p <> None ->
          prospects (snd (Qualify.qualify clock options w)) !! k = Some p)
     /\ ((forall i, nowMs clock i <= nowMs later i) ->
           snd (Qualify.qualify later options (snd (Qualify.qualify clock options w)))
           = snd (Qualify.qualify clock options w)))
  /\ (forall i p,
        Qualify.o_prospectId options = Some i -> i <> 0 ->
        Db.getProspectById i w = Some p ->
        (Qualify.belowMinTier options
           (Qualifier.qualifyProspect (nowMs clock i) p) = false ->
         forall (k : nat) row, prospects w !! k = Some row ->
           exists row',
             prospects (snd (Qualify.qualify clock options w)) !! k = Some row'
             /\ (id row = i ->
                   score row' = qr_score (Qualifier.qualifyProspect (nowMs clock i) p)
                   /\ tier row'
                      = Some (qr_tier (Qualifier.qualifyProspect (nowMs clock i) p)))
             /\ (id row <> i -> row' = row))
        /\ (Qualify.belowMinTier options
              (Qualifier.qualifyProspect (nowMs clock i) p) = true ->
            snd (Qualify.qualify clock options w) = w)).
Proof.
  split.
  - intros Hno. split.
    + intros Hnd k p Hk Htier. unfold Qualify.qualify.
      apply loop_keeps; [|exact Hk].
      intros c Hin Hp Hid.
      apply (candidates_batch options w c Hno) in Hin.
      apply (persisted_batch _ _ _ Hno) in Hp.
      assert (c = p) by (eapply NoDup_id_eq; eauto using lookup_In).
      subst c. contradiction.
    + intros Hclock. set (w1 := snd (Qualify.qualify clock options w)).
      unfold Qualify.qualify at 1. rewrite loop_all_skipped; [reflexivity|].
      intros c2 Hin2.
      destruct (candidates_batch options w1 c2 Hno) as [Hrows _].
      specialize (Hrows Hin2). apply In_lookup in Hrows as [k Hk].
      unfold Qualify.persisted. rewrite Hno. cbn [negb]. rewrite andb_true_r.
      destruct (tier c2) eqn:Htier.
      * rewrite bool_decide_eq_true_2 by discriminate. reflexivity.
      * subst w1. unfold Qualify.qualify in Hk.
        destruct (loop_untiered _ _ _ _ _ _ Hk Htier) as [Hk0 Hskipped].
        assert (Hcand : In c2 (Qualify.candidates options w)).
        { apply (candidates_batch options w c2 Hno); eauto using lookup_In. }
        specialize (Hskipped c2 Hcand eq_refl).
        unfold Qualify.persisted in Hskipped. rewrite Hno, Htier in Hskipped.
        rewrite bool_decide_eq_false_2 in Hskipped by (intros H; now apply H).
        cbn [negb andb] in Hskipped. apply negb_false_iff in Hskipped.
        rewrite bool_decide_eq_false_2 by (intros H; now apply H).
        cbn [negb andb]. apply negb_false_iff.
        eapply belowMinTier_later; [apply Hclock | exact Hskipped].
  - intros i p Hopt Hi Hget.
    assert (Hhas : Qualify.hasProspectId options = true).
    { unfold Qualify.hasProspectId, Js.truthy_num. rewrite Hopt.
      apply negb_true_iff. now apply Z.eqb_neq. }
    assert (Hcs : Qualify.candidates options w = [p]).
    { unfold Qualify.candidates. now rewrite Hhas, Hopt, Hget. }
    unfold Db.getProspectById in Hget. apply find_id_some in Hget as [Hin Hid].
    assert (Hpers : Qualify.persisted clock options p
                    = negb (Qualify.belowMinTier options
                              (Qualifier.qualifyProspect (nowMs clock i) p))).
    { unfold Qualify.persisted. rewrite Hhas, Hid. cbn [negb].
      now rewrite andb_false_r. }
    unfold Qualify.qualify. rewrite Hcs. cbn [Qualify.loop fold_left]. split.
    + intros Hbelow k row Hk. rewrite iteration_row. cbn [snd]. rewrite Hk.
      cbn [fmap option_fmap option_map]. rewrite Hpers, Hbelow, Hid. cbn [negb andb].
      eexists. split; [reflexivity|]. split.
      * intros Hrow. apply Z.eqb_eq in Hrow. rewrite Hrow. cbn. auto.
      * intros Hrow. apply Z.eqb_neq in Hrow. now rewrite Hrow.
    + intros Hbelow. rewrite iteration_world, Hpers, Hbelow. reflexivity.
Qed.

(** An explicit id overwrites: carol, persisted with score 90 and tier A,
    is rescored to 0 and tier D by [qualify --prospect-id 4]. *)
Lemma qualify_batch_skips_explicit_overwrites_witness :
  exists row',
    prospects (snd (Qualify.qualify Examples.clock0 Examples.requalifyCarol
                      Examples.qualifyWorld)) !! 1%nat = Some row'
    /\ (id Examples.carol = 4 -> score row' = 0 /\ tier row' = Some D)
    /\ (id Examples.carol <> 4 -> row' = Examples.carol).
Proof.
  exact (proj1 (proj2 (qualify_batch_skips_explicit_overwrites
                         Examples.clock0 Examples.clock0 Examples.requalifyCarol
                         Examples.qualifyWorld)
                  4 Examples.carol eq_refl ltac:(discriminate) eq_refl)
           eq_refl 1%nat Examples.carol eq_refl).
Defined.

(** C5 as stated fails: carol has tier A and score 90 persisted; her
    evidence now scores 0, tier D; [qualify --prospect-id 4 --min-tier A]
    names her explicitly and leaves the persisted score and tier as they
    were. *)
Lemma qualify_explicit_id_below_minTier_not_persisted :
  Db.getProspectById 4 Examples.qualifyWorld = Some Examples.carol
  /\ (score Examples.carol = 90 /\ tier Examples.carol = Some A)
  /\ qr_score (Qualifier.qualifyProspect (nowMs Examples.clock0 4) Examples.carol) = 0
  /\ snd (Qualify.qualify Examples.clock0 Examples.requalifyCarolMinA
            Examples.qualifyWorld) = Examples.qualifyWorld.
Proof. repeat split. Qed.

(** ** Airdrop *)

Section AirdropFacts.

Import Airdrop.

Lemma only_for_refl c w : only_for c w w.
Proof. repeat split; auto. Qed.

Lemma only_for_trans c w1 w2 w3 :
  only_for c w1 w2 -> only_for c w2 w3 -> only_for c w1 w3.
Proof.
  intros (Hr1 & Hc1 & Hd1) (Hr2 & Hc2 & Hd2). repeat split.
  - intros k row Hk Hne. apply Hr2; auto.
  - intros i Hne. rewrite Hc2, Hc1 by exact Hne. reflexivity.
  - congruence.
Qed.

Lemma only_for_call c call w :
  (forall i, i <> c -> sendsFor i call = false) ->
  only_for c w (Db.call call w).
Proof.
  intros Hcall. repeat split; auto.
  intros i Hne. unfold Db.call. cbn [calls].
  rewrite List.filter_app. cbn [List.filter]. rewrite (Hcall i Hne). apply app_nil_r.
Qed.

Lemma only_for_update c d stamp w :
  only_for c w (Db.updateProspectAirdrop c d stamp w).
Proof.
  repeat split; auto.
  intros k row Hk Hne. unfold Db.updateProspectAirdrop.
  rewrite update_where_id_lookup, Hk. cbn [fmap option_fmap option_map].
  apply Z.eqb_neq in Hne. now rewrite Hne.
Qed.

Lemma only_for_log c a i d w : only_for c w (Db.logActivity a i d w).
Proof. repeat split; auto. Qed.

Lemma only_for_postComment c p w : only_for c w (postComment p w).
Proof.
  unfold postComment. destruct (prUrl p) as [u|]; [|apply only_for_refl].
  destruct (Js.truthy_string u); [|apply only_for_refl].
  destruct (Github.parsePRUrl u) as [[[o r] n]|]; [|apply only_for_refl].
  apply only_for_call. reflexivity.
Qed.

Lemma processAirdrop_only_for env p amount w :
  only_for (id p) w (snd (processAirdrop env p amount w)).
Proof.
  unfold processAirdrop.
  assert (H0 : only_for (id p) w
                 (Db.call (SendSbtc (id p) (default "" (stacksAddress p)) amount) w)).
  { apply only_for_call. intros i Hne. cbn. apply Z.eqb_neq. congruence. }
  destruct (sendSbtc env p amount) as [txid'|error]; cbn [snd].
  - destruct (is_confirmed _); cbn [snd];
      repeat (first [ exact H0
                    | eapply only_for_trans; [|apply only_for_postComment]
                    | eapply only_for_trans; [|apply only_for_log]
                    | eapply only_for_trans; [|apply only_for_update]
                    | eapply only_for_trans;
                      [|apply only_for_call; intros i Hne; reflexivity] ]).
  - repeat (first [ exact H0
                  | eapply only_for_trans; [|apply only_for_postComment]
                  | eapply only_for_trans; [|apply only_for_log]
                  | eapply only_for_trans; [|apply only_for_update] ]).
Qed.

Lemma processAirdrop_tx env p amount w :
  tx_prospectId (fst (processAirdrop env p amount w)) = id p.
Proof.
  unfold processAirdrop. destruct (sendSbtc env p amount); [|reflexivity].
  destruct (is_confirmed _); reflexivity.
Qed.

Lemma processAirdrop_status env p amount w :
  status (fst (processAirdrop env p amount w)) <> AirdropPending.
Proof.
  unfold processAirdrop. destruct (sendSbtc env p amount); [|discriminate].
  destruct (is_confirmed _); discriminate.
Qed.

Lemma airdropsOn_increment today d w :
  airdropsOn d (snd (Db.incrementDailyAirdrops today w))
  = airdropsOn d w + (if decide (d = today) then 1 else 0).
Proof.
  unfold airdropsOn. destruct (decide (d = today)) as [-> | Hne].
  - rewrite incrementDailyAirdrops_today. reflexivity.
  - rewrite incrementDailyAirdrops_other by exact Hne. lia.
Qed.

Section Loop.

Variables (env : Env) (config : Config) (oa : option Z) (tb : Js.Number).

Lemma iteration_skips c r w :
  processes config oa tb c = false ->
  iteration env config oa tb c (r, w) = (skip r, w).
Proof.
  unfold iteration, processes. destruct (noValidAddress c); [reflexivity|].
  destruct (bool_decide (airdropStatus c = AirdropPending)); [|reflexivity].
  cbn [negb andb]. intros H. apply negb_false_iff in H. now rewrite H.
Qed.

(** The turn of a prospect that is processed: one transaction is added,
    under [sent] when it was broadcast (today's counter is then incremented)
    and under [failed] otherwise. *)
Lemma iteration_processes c r w :
  processes config oa tb c = true ->
  exists tx w1,
    processAirdrop env c (determineAmount config oa c) w = (tx, w1)
    /\ ((status tx = AirdropFailed
         /\ iteration env config oa tb c (r, w)
            = ({| sent := sent r; confirmed := confirmed r; failed := failed r + 1;
                  skipped := skipped r; transactions := transactions r ++ [tx] |}, w1))
        \/ (status tx <> AirdropFailed
            /\ exists n,
                 iteration env config oa tb c (r, w)
                 = ({| sent := sent r + 1; confirmed := n; failed := failed r;
                       skipped := skipped r;
                       transactions := transactions r ++ [tx] |},
                    snd (Db.incrementDailyAirdrops
                           (todayDate (clock env) (id c)) w1)))).
Proof.
  unfold iteration, processes. intros H.
  apply andb_true_iff in H as [H H3]. apply andb_true_iff in H as [H1 H2].
  apply negb_true_iff in H1, H3. rewrite H1, H2, H3. cbn [negb].
  pose proof (processAirdrop_status env c (determineAmount config oa c) w) as Hst.
  destruct (processAirdrop env c (determineAmount config oa c) w) as [tx w1].
  exists tx, w1. split; [reflexivity|]. cbn [fst] in Hst.
  destruct (status tx) eqn:E; try contradiction.
  - right. split; [discriminate|]. eexists. reflexivity.
  - right. split; [discriminate|]. eexists. reflexivity.
  - left. split; reflexivity.
Qed.

(** One turn, seen from a prospect with another id than the one processed. *)
Lemma iteration_frame c r w (i : Z) :
  (processes config oa tb c = true -> id c <> i) ->
  (forall (k : nat) row, prospects w !! k = Some row -> id row = i ->
     prospects (snd (iteration env config oa tb c (r, w))) !! k = Some row)
  /\ List.filter (sendsFor i) (calls (snd (iteration env config oa tb c (r, w))))
     = List.filter (sendsFor i) (calls w)
  /\ (forall tx, In tx (transactions (fst (iteration env config oa tb c (r, w)))) ->
        In tx (transactions r) \/ tx_prospectId tx <> i).
Proof.
  intros Hc. destruct (processes config oa tb c) eqn:Hp.
  - specialize (Hc eq_refl).
    destruct (iteration_processes c r w Hp) as (tx & w1 & Hpa & Hit).
    pose proof (processAirdrop_only_for env c (determineAmount config oa c) w) as Hof.
    pose proof (processAirdrop_tx env c (determineAmount config oa c) w) as Htx.
    rewrite Hpa in Hof, Htx. cbn [fst snd] in Hof, Htx.
    destruct Hof as (Hrows & Hcalls & _).
    assert (Htxs : forall tx', In tx' (transactions r ++ [tx]) ->
                     In tx' (transactions r) \/ tx_prospectId tx' <> i).
    { intros tx' Hin. apply in_app_or in Hin as [Hin | [<- | []]]; [now left|].
      right. congruence. }
    destruct Hit as [[_ ->] | [_ [n ->]]]; cbn [fst snd transactions].
    + repeat split; auto. intros k row Hk Hid. apply Hrows; congruence.
    + destruct (incrementDailyAirdrops_rest (todayDate (clock env) (id c)) w1)
        as (-> & _ & ->).
      repeat split; auto. intros k row Hk Hid. apply Hrows; congruence.
  - rewrite iteration_skips by exact Hp. cbn [fst snd skip transactions].
    repeat split; auto.
Qed.

Lemma airdrop_loop_cons c cs acc :
  loop env config oa tb (c :: cs) acc
  = loop env config oa tb cs (iteration env config oa tb c acc).
Proof. reflexivity. Qed.

Lemma loop_frame (i : Z) cs : forall acc,
  (forall c, In c cs -> processes config oa tb c = true -> id c <> i) ->
  (forall (k : nat) row, prospects (snd acc) !! k = Some row -> id row = i ->
     prospects (snd (loop env config oa tb cs acc)) !! k = Some row)
  /\ List.filter (sendsFor i) (calls (snd (loop env config oa tb cs acc)))
     = List.filter (sendsFor i) (calls (snd acc))
  /\ (forall tx, In tx (transactions (fst (loop env config oa tb cs acc))) ->
        In tx (transactions (fst acc)) \/ tx_prospectId tx <> i).
Proof.
  induction cs as [|c cs IH]; intros [r w] Hcs; [cbn; auto|].
  rewrite airdrop_loop_cons.
  destruct (iteration_frame c r w i) as (Hr & Hc & Ht).
  { apply Hcs. now left. }
  destruct (IH (iteration env config oa tb c (r, w))) as (Hr' & Hc' & Ht').
  { intros c' Hin. apply Hcs. now right. }
  cbn [fst snd]. repeat split.
  - intros k row Hk Hid. apply Hr'; auto.
  - now rewrite Hc', Hc.
  - intros tx Hin. destruct (Ht' tx Hin) as [Hin' | Hne]; auto.
Qed.

(** The tallies and the ledger along the loop: every turn is counted once,
    and a counter of the ledger grows by at most the number of transfers
    counted as sent. *)
Lemma loop_counts cs : forall r w,
  let r' := fst (loop env config oa tb cs (r, w)) in
  let w' := snd (loop env config oa tb cs (r, w)) in
  sent r' + failed r' + skipped r' = sent r + failed r + skipped r + Z.of_nat (List.length cs)
  /\ sent r <= sent r' /\ failed r <= failed r' /\ skipped r <= skipped r'
  /\ (forall d, airdropsOn d w <= airdropsOn d w' <= airdropsOn d w + (sent r' - sent r))
  /\ (forall d, (forall c, In c cs -> todayDate (clock env) (id c) = d) ->
        airdropsOn d w' = airdropsOn d w + (sent r' - sent r)).
Proof.
  induction cs as [|c cs IH]; intros r w.
  - cbn. do 4 (split; [lia|]).
    split; intros d; [|intros _]; lia.
  - cbn zeta. rewrite airdrop_loop_cons.
    assert (H1 : let r1 := fst (iteration env config oa tb c (r, w)) in
                 let w1 := snd (iteration env config oa tb c (r, w)) in
                 sent r1 + failed r1 + skipped r1 = sent r + failed r + skipped r + 1
                 /\ sent r <= sent r1 /\ failed r <= failed r1
                 /\ skipped r <= skipped r1
                 /\ (forall d, airdropsOn d w <= airdropsOn d w1
                               <= airdropsOn d w + (sent r1 - sent r))
                 /\ (forall d, todayDate (clock env) (id c) = d ->
                       airdropsOn d w1 = airdropsOn d w + (sent r1 - sent r))).
    { destruct (processes config oa tb c) eqn:Hp.
      - destruct (iteration_processes c r w Hp)
          as (tx & w0 & Hpa & Hcase).
        pose proof (processAirdrop_only_for env c (determineAmount config oa c) w)
          as (_ & _ & Hdl).
        rewrite Hpa in Hdl. cbn [snd] in Hdl.
        assert (Hsame : forall d, airdropsOn d w0 = airdropsOn d w).
        { intros d. unfold airdropsOn. now rewrite Hdl. }
        destruct Hcase as [[_ ->] | [_ [n ->]]]; cbn [fst snd sent failed skipped].
        + do 4 (split; [lia|]).
          split; intros d; [|intros _]; rewrite Hsame; lia.
        + do 4 (split; [lia|]).
          split; intros d; [|intros Hd0]; rewrite airdropsOn_increment, Hsame;
            destruct (decide _); try lia; congruence.
      - rewrite iteration_skips by exact Hp.
        cbn [fst snd skip sent failed skipped].
        do 4 (split; [lia|]).
        split; intros d; [|intros _]; lia. }
    destruct (iteration env config oa tb c (r, w)) as [r1 w1].
    cbn [fst snd] in H1. cbn zeta in H1.
    specialize (IH r1 w1). cbn zeta in IH.
    destruct IH as (Hsum & Hs & Hf & Hk & Hd & Hconst).
    destruct H1 as (Hsum1 & Hs1 & Hf1 & Hk1 & Hd1 & Hconst1).
    cbn [List.length]. rewrite Nat2Z.inj_succ.
    do 4 (split; [lia|]). split.
    + intros d. specialize (Hd d). specialize (Hd1 d). lia.
    + intros d Hall. rewrite Hconst by (intros c' Hin; apply Hall; now right).
      rewrite Hconst1 by (apply Hall; now left). lia.
Qed.

End Loop.

Lemma In_firstn {X} (n : nat) (l : list X) x : In x (firstn n l) -> In x l.
Proof.
  revert l. induction n as [|n IH]; intros [|y l]; cbn; try tauto.
  intros [-> | H]; [now left | right; now apply IH].
Qed.

Lemma In_slice0 {X} (l : list X) e x : In x (Js.slice0 l e) -> In x l.
Proof. unfold Js.slice0. destruct (e <? 0); apply In_firstn. Qed.

Lemma length_slice0 {X} (l : list X) e :
  0 <= e -> Z.of_nat (List.length (Js.slice0 l e)) <= e.
Proof.
  intros He. unfold Js.slice0. destruct (Z.ltb_spec e 0); [lia|].
  rewrite length_firstn. lia.
Qed.

(** The prospects gathered for a run are rows of the table. *)
Lemma gathered_rows options w c : In c (gathered options w) -> In c (prospects w).
Proof.
  unfold gathered. destruct (hasProspectId options).
  - destruct (o_prospectId options) as [i|]; [|intros []].
    destruct (Db.getProspectById i w) as [q|] eqn:Hq; [|intros []].
    intros [<- | []]. now apply find_id_some in Hq.
  - destruct (default true (o_pending options)); [|intros []].
    rewrite filter_In. unfold Db.getProspects, pendingFilter, Db.sql_limit.
    cbn [Db.f_limit]. rewrite filter_In. tauto.
Qed.

Lemma processes_pending config oa tb c :
  processes config oa tb c = true -> airdropStatus c = AirdropPending.
Proof.
  unfold processes. intros H. apply andb_true_iff in H as [H _].
  apply andb_true_iff in H as [_ H]. now apply bool_decide_eq_true in H.
Qed.

Lemma airdropsSent_getDailyLimits today w :
  airdropsSent (fst (Db.getDailyLimits today w)) = airdropsOn today w.
Proof. apply getDailyLimits_reads. Qed.

(** The run stops at the daily cap. *)
Lemma airdrop_capped env options config w :
  maxDailyAirdrops config - airdropsOn (startDate (clock env)) w <= 0 ->
  airdrop env options config w
  = (Some emptyResult, snd (Db.getDailyLimits (startDate (clock env)) w)).
Proof.
  intros Hcap. unfold airdrop.
  pose proof (airdropsSent_getDailyLimits (startDate (clock env)) w) as Hread.
  destruct (Db.getDailyLimits (startDate (clock env)) w) as [dl w1].
  cbn [fst snd] in *. rewrite Hread.
  destruct (Z.leb_spec (maxDailyAirdrops config - airdropsOn (startDate (clock env)) w) 0);
    [reflexivity | lia].
Qed.

(** The run reaches the loop: under the cap, and the treasury at or above
    the reserve. *)
Lemma airdrop_runs env options config w b :
  0 < maxDailyAirdrops config - airdropsOn (startDate (clock env)) w ->
  treasury env = Balance b -> Js.lt b MIN_TREASURY_BALANCE = false ->
  airdrop env options config w
  = (Some (fst (loop env config (o_amount options) b
                  (selected options
                     (Z.min (default 5 (o_limit options))
                        (maxDailyAirdrops config
                         - airdropsOn (startDate (clock env)) w))
                     (Db.call GetWalletInfo (Db.call GetWalletAddress
                        (snd (Db.getDailyLimits (startDate (clock env)) w)))))
                  (emptyResult,
                   Db.call GetWalletInfo (Db.call GetWalletAddress
                     (snd (Db.getDailyLimits (startDate (clock env)) w)))))),
     snd (loop env config (o_amount options) b
            (selected options
               (Z.min (default 5 (o_limit options))
                  (maxDailyAirdrops config
                   - airdropsOn (startDate (clock env)) w))
               (Db.call GetWalletInfo (Db.call GetWalletAddress
                  (snd (Db.getDailyLimits (startDate (clock env)) w)))))
            (emptyResult,
             Db.call GetWalletInfo (Db.call GetWalletAddress
               (snd (Db.getDailyLimits (startDate (clock env)) w)))))).
Proof.
  intros Hcap Ht Hb. unfold airdrop.
  pose proof (airdropsSent_getDailyLimits (startDate (clock env)) w) as Hread.
  destruct (Db.getDailyLimits (startDate (clock env)) w) as [dl w1].
  cbn [fst snd] in *. rewrite Hread, Ht.
  destruct (Z.leb_spec (maxDailyAirdrops config - airdropsOn (startDate (clock env)) w) 0);
    [lia|].
  rewrite Hb. destruct (loop _ _ _ _ _ _). reflexivity.
Qed.

(** Whatever branch the run takes, it ends before the loop with the rows
    and the [sendSbtc] calls as they were, or it is the loop over the
    selected prospects. *)
Lemma airdrop_cases env options config w :
  let w1 := snd (Db.getDailyLimits (startDate (clock env)) w) in
  let w2 := Db.call GetWalletInfo (Db.call GetWalletAddress w1) in
  (exists w', snd (airdrop env options config w) = w'
      /\ prospects w' = prospects w
      /\ (forall i, List.filter (sendsFor i) (calls w')
                    = List.filter (sendsFor i) (calls w))
      /\ (fst (airdrop env options config w) = None
          \/ fst (airdrop env options config w) = Some emptyResult))
  \/ (exists b eff,
        airdrop env options config w
        = (Some (fst (loop env config (o_amount options) b
                        (selected options eff w2) (emptyResult, w2))),
           snd (loop env config (o_amount options) b
                  (selected options eff w2) (emptyResult, w2)))).
Proof.
  intros w1 w2.
  assert (Hw1 : prospects w1 = prospects w /\ calls w1 = calls w).
  { destruct (getDailyLimits_rest (startDate (clock env)) w) as (? & _ & ?). auto. }
  destruct Hw1 as [Hp1 Hc1].
  destruct (Z.leb_spec (maxDailyAirdrops config
                        - airdropsOn (startDate (clock env)) w) 0) as [Hcap|Hcap].
  { left. rewrite (airdrop_capped _ _ _ _ Hcap). cbn [fst snd]. fold w1.
    exists w1. repeat split; auto. intros i. now rewrite Hc1. }
  destruct (treasury env) as [| |b] eqn:Ht.
  - left. unfold airdrop.
    pose proof (airdropsSent_getDailyLimits (startDate (clock env)) w) as Hread.
    subst w1 w2.
    destruct (Db.getDailyLimits (startDate (clock env)) w) as [dl w1].
    cbn [fst snd] in *. rewrite Hread, Ht.
    destruct (Z.leb_spec (maxDailyAirdrops config
                          - airdropsOn (startDate (clock env)) w) 0); [lia|].
    cbn [fst snd]. eexists. split; [reflexivity|]. cbn [Db.call prospects calls].
    repeat split; auto.
    intros i. rewrite List.filter_app, Hc1. cbn. apply app_nil_r.
  - left. unfold airdrop.
    pose proof (airdropsSent_getDailyLimits (startDate (clock env)) w) as Hread.
    subst w1 w2.
    destruct (Db.getDailyLimits (startDate (clock env)) w) as [dl w1].
    cbn [fst snd] in *. rewrite Hread, Ht.
    destruct (Z.leb_spec (maxDailyAirdrops config
                          - airdropsOn (startDate (clock env)) w) 0); [lia|].
    cbn [fst snd]. eexists. split; [reflexivity|]. cbn [Db.call prospects calls].
    repeat split; auto.
    intros i. rewrite !List.filter_app, Hc1. cbn. now rewrite !app_nil_r.
  - destruct (Js.lt b MIN_TREASURY_BALANCE) eqn:Hlow.
    + left. unfold airdrop.
      pose proof (airdropsSent_getDailyLimits (startDate (clock env)) w) as Hread.
      subst w1 w2.
      destruct (Db.getDailyLimits (startDate (clock env)) w) as [dl w1].
      cbn [fst snd] in *. rewrite Hread, Ht.
      destruct (Z.leb_spec (maxDailyAirdrops config
                            - airdropsOn (startDate (clock env)) w) 0); [lia|].
      rewrite Hlow.
      cbn [fst snd]. eexists. split; [reflexivity|]. cbn [Db.call prospects calls].
      repeat split; auto.
      intros i. rewrite !List.filter_app, Hc1. cbn. now rewrite !app_nil_r.
    + right. exists b. eexists. apply airdrop_runs; auto; lia.
Qed.

End AirdropFacts.

(** C1. Rows are identified by their id, the primary key. A prospect whose
    payout status is not [pending] (sent, confirmed or failed) is never paid
    again by a run of the Distributor: its row is left
    exactly as it was, no [sendSbtc] is made for it and no transaction is
    recorded for it; it is not in the pending candidate set; and when the
    run names it by [prospectId] and reaches the loop, the status check skips
    it: the result counts one skipped prospect and no transaction. *)
Theorem airdrop_skips_settled_prospects
    (env : Airdrop.Env) (options : Airdrop.AirdropOptions) (config : Config)
    (w : World) (k : nat) (p : Prospect) :
  NoDup (id <$> prospects w) ->
  prospects w !! k = Some p ->
  airdropStatus p <> AirdropPending ->
  prospects (snd (Airdrop.airdrop env options config w)) !! k = Some p
  /\ List.filter (Airdrop.sendsFor (id p))
       (calls (snd (Airdrop.airdrop env options config w)))
     = List.filter (Airdrop.sendsFor (id p)) (calls w)
  /\ (forall r tx, fst (Airdrop.airdrop env options config w) = Some r ->
        In tx (Airdrop.transactions r) -> Airdrop.tx_prospectId tx <> id p)
  /\ ~ In p (List.filter Airdrop.verified (Db.getProspects Airdrop.pendingFilter w))
  /\ (forall b : Z,
        Airdrop.o_prospectId options = Some (id p) -> id p <> 0 ->
        0 < maxDailyAirdrops config
            - Airdrop.airdropsOn (startDate (Airdrop.clock env)) w ->
        Airdrop.treasury env = Airdrop.Balance b ->
        Airdrop.MIN_TREASURY_BALANCE <= b ->
        1 <= default 5 (Airdrop.o_limit options) ->
        fst (Airdrop.airdrop env options config w)
        = Some {| Airdrop.sent := 0; Airdrop.confirmed := 0; Airdrop.failed := 0;
                  Airdrop.skipped := 1; Airdrop.transactions := [] |}).
Proof.
  intros Hnd Hk Hst.
  assert (Hother : forall w2 b eff c,
            prospects w2 = prospects w ->
            In c (Airdrop.selected options eff w2) ->
            Airdrop.processes config (Airdrop.o_amount options) b c = true ->
            id c <> id p).
  { intros w2 b eff c Hw2 Hin Hproc Hid.
    apply In_slice0, gathered_rows in Hin. rewrite Hw2 in Hin.
    apply processes_pending in Hproc.
    assert (c = p) by (eapply NoDup_id_eq; eauto using lookup_In).
    subst c. contradiction. }
  split; [|split; [|split; [|split]]].
  - destruct (airdrop_cases env options config w)
      as [(w' & <- & Hp & _) | (b & eff & ->)].
    + now rewrite Hp.
    + cbn [snd]. eapply loop_frame; [|cbn [snd Db.call prospects]|reflexivity].
      * intros c. eapply Hother. cbn. apply getDailyLimits_rest.
      * destruct (getDailyLimits_rest (startDate (Airdrop.clock env)) w) as (-> & _).
        exact Hk.
  - destruct (airdrop_cases env options config w)
      as [(w' & <- & _ & Hc & _) | (b & eff & ->)].
    + apply Hc.
    + cbn [snd].
      edestruct (loop_frame env config (Airdrop.o_amount options) b (id p))
        as (_ & -> & _).
      { intros c. eapply Hother. cbn. apply getDailyLimits_rest. }
      cbn [snd Db.call calls]. rewrite !List.filter_app. cbn.
      destruct (getDailyLimits_rest (startDate (Airdrop.clock env)) w) as (_ & _ & ->).
      now rewrite !app_nil_r.
  - intros r tx Hr Hin.
    destruct (airdrop_cases env options config w)
      as [(w' & _ & _ & _ & [Hn | He]) | (b & eff & Heq)].
    + congruence.
    + rewrite He in Hr. injection Hr as <-. destruct Hin.
    + rewrite Heq in Hr. cbn [fst] in Hr. injection Hr as <-.
      edestruct (loop_frame env config (Airdrop.o_amount options) b (id p))
        as (_ & _ & Htx).
      { intros c. eapply Hother. cbn. apply getDailyLimits_rest. }
      destruct (Htx tx Hin) as [[] | Hne]. exact Hne.
  - rewrite filter_In. unfold Db.getProspects, Airdrop.pendingFilter, Db.sql_limit.
    cbn [Db.f_limit]. rewrite filter_In. unfold Db.matches. cbn.
    intros [[_ Hm] _]. rewrite andb_true_r in Hm.
    apply bool_decide_eq_true in Hm. contradiction.
  - intros b Hopt Hid Hcap Ht Hb Hlimit.
    rewrite (airdrop_runs _ _ _ _ b Hcap Ht (proj2 (Z.ltb_ge _ _) Hb)). cbn [fst].
    set (w2 := Db.call GetWalletInfo _).
    assert (Hw2 : prospects w2 = prospects w).
    { subst w2. cbn. apply getDailyLimits_rest. }
    assert (Hget : Db.getProspectById (id p) w2 = Some p).
    { unfold Db.getProspectById. rewrite Hw2.
      destruct (List.find _ (prospects w)) as [q|] eqn:Hq.
      - apply find_id_some in Hq as [Hin Hq]. f_equal.
        eapply NoDup_id_eq; eauto using lookup_In.
      - pose proof (find_none _ _ Hq p (lookup_In _ _ _ Hk)) as Hno.
        cbn beta in Hno. rewrite Z.eqb_refl in Hno. discriminate. }
    assert (Hsel : Airdrop.selected options
                     (Z.min (default 5 (Airdrop.o_limit options))
                        (maxDailyAirdrops config
                         - Airdrop.airdropsOn (startDate (Airdrop.clock env)) w)) w2
                   = [p]).
    { unfold Airdrop.selected, Airdrop.gathered, Airdrop.hasProspectId, Js.truthy_num.
      rewrite Hopt, Hget. apply Z.eqb_neq in Hid. rewrite Hid. cbn [negb].
      unfold Js.slice0.
      destruct (Z.ltb_spec (Z.min (default 5 (Airdrop.o_limit options))
                  (maxDailyAirdrops config
                   - Airdrop.airdropsOn (startDate (Airdrop.clock env)) w)) 0); [lia|].
      destruct (Z.to_nat _) as [|n] eqn:E; [lia|]. cbn. now rewrite firstn_nil. }
    rewrite Hsel. cbn [Airdrop.loop fold_left].
    rewrite iteration_skips; [reflexivity|].
    unfold Airdrop.processes.
    rewrite (bool_decide_eq_false_2 _ Hst). now rewrite andb_false_r.
Qed.

(** Scenario D of the specification: dave, verified, tier A, payout already
    confirmed, is named explicitly; the run makes no transfer for him (it
    only looks up the treasury) and counts him as skipped. *)
Lemma airdrop_skips_settled_prospects_witness :
  prospects (snd (Airdrop.airdrop Examples.network Examples.airdropDave
                    Examples.config5 Examples.paidWorld)) !! 0%nat
  = Some Examples.dave
  /\ calls (snd (Airdrop.airdrop Examples.network Examples.airdropDave
                  Examples.config5 Examples.paidWorld))
     = [GetWalletAddress; GetWalletInfo]
  /\ fst (Airdrop.airdrop Examples.network Examples.airdropDave
            Examples.config5 Examples.paidWorld)
     = Some {| Airdrop.sent := 0; Airdrop.confirmed := 0; Airdrop.failed := 0;
               Airdrop.skipped := 1; Airdrop.transactions := [] |}.
Proof.
  assert (Hnd : NoDup (id <$> prospects Examples.paidWorld)).
  { cbn. repeat constructor; rewrite ?list_elem_of_In; cbn; intuition discriminate. }
  pose proof (airdrop_skips_settled_prospects Examples.network Examples.airdropDave
                Examples.config5 Examples.paidWorld 0%nat Examples.dave
                Hnd eq_refl ltac:(discriminate)) as (Hrow & _ & _ & _ & Hskip).
  split; [exact Hrow|]. split; [reflexivity|].
  apply (Hskip 1000000); try reflexivity; try discriminate.
Defined.

(** C2. When today's payout counter, as [getDailyLimits] reads it (0 on the
    first access of a day), has already reached the daily maximum, [airdrop]
    returns sent 0, confirmed 0, failed 0, skipped 0 and no transaction; no
    external call is recorded (no wallet lookup, no balance fetch, no
    broadcast), no prospect row is changed, nothing is logged, no ledger row
    is changed or removed and no counter of the ledger moves. When today's
    ledger row exists the world is left exactly as it was found; on the
    first access of a day (the maximum is then 0 or less) the one thing the
    run leaves behind is the row of the new day, both counters zero, that
    [getDailyLimits] inserts. *)
Theorem airdrop_daily_cap_aborts
    (env : Airdrop.Env) (options : Airdrop.AirdropOptions) (config : Config)
    (w : World) :
  maxDailyAirdrops config <= Airdrop.airdropsOn (startDate (Airdrop.clock env)) w ->
  fst (Airdrop.airdrop env options config w)
  = Some {| Airdrop.sent := 0; Airdrop.confirmed := 0; Airdrop.failed := 0;
            Airdrop.skipped := 0; Airdrop.transactions := [] |}
  /\ prospects (snd (Airdrop.airdrop env options config w)) = prospects w
  /\ activity_log (snd (Airdrop.airdrop env options config w)) = activity_log w
  /\ calls (snd (Airdrop.airdrop env options config w)) = calls w
  /\ (forall d row, daily_limits w !! d = Some row ->
        daily_limits (snd (Airdrop.airdrop env options config w)) !! d = Some row)
  /\ (forall d,
        Airdrop.airdropsOn d (snd (Airdrop.airdrop env options config w))
        = Airdrop.airdropsOn d w
        /\ Ledger.prsOn d (snd (Airdrop.airdrop env options config w))
           = Ledger.prsOn d w)
  /\ (forall row, daily_limits w !! startDate (Airdrop.clock env) = Some row ->
        snd (Airdrop.airdrop env options config w) = w)
  /\ (daily_limits w !! startDate (Airdrop.clock env) = None ->
        maxDailyAirdrops config <= 0
        /\ daily_limits (snd (Airdrop.airdrop env options config w))
           = <[startDate (Airdrop.clock env) := Db.freshRow]> (daily_limits w)).
Proof.
  intros Hcap. rewrite airdrop_capped by lia. cbn [fst snd].
  unfold Airdrop.airdropsOn, Ledger.prsOn in *. unfold Db.getDailyLimits.
  destruct (daily_limits w !! startDate (Airdrop.clock env)) as [row|] eqn:Hrow;
    cbn [snd prospects activity_log calls daily_limits].
  - repeat split; auto; discriminate.
  - cbn in Hcap. unfold Db.with_daily_limits.
    cbn [prospects activity_log calls daily_limits].
    split; [reflexivity|]. do 3 (split; [reflexivity|]).
    split; [|split; [|split; [discriminate|]]].
    + intros d row Hd. rewrite lookup_insert_ne; [exact Hd | congruence].
    + intros d. destruct (decide (d = startDate (Airdrop.clock env))) as [-> | Hne].
      * rewrite lookup_insert_eq, Hrow. split; reflexivity.
      * rewrite lookup_insert_ne by congruence. split; reflexivity.
    + intros _. split; [exact Hcap | reflexivity].
Qed.

(** Scenario C of the specification: a maximum of 5 payouts a day, 5 already
    counted today. *)
Lemma airdrop_daily_cap_aborts_witness :
  Airdrop.airdrop Examples.network Examples.airdropPending Examples.config5
    Examples.cappedWorld
  = (Some Airdrop.emptyResult, Examples.cappedWorld).
Proof.
  destruct (airdrop_daily_cap_aborts Examples.network Examples.airdropPending
              Examples.config5 Examples.cappedWorld)
    as (Hres & _ & _ & _ & _ & _ & Hsame & _).
  - vm_compute. discriminate.
  - rewrite (surjective_pairing (Airdrop.airdrop _ _ _ _)).
    rewrite Hres, (Hsame {| prs_opened := 0; airdrops_sent := 5 |} eq_refl).
    reflexivity.
Defined.

(** The claim as it was stated, that a run stopped by the cap mutates no
    ledger state, fails on the first access of a day. With a maximum of 0
    and no row for today, the counter reads 0 and has reached the maximum;
    the run returns the empty result and makes no call, but the ledger it
    leaves has a row for today that it did not have. *)
Lemma airdrop_daily_cap_abort_inserts_todays_row :
  maxDailyAirdrops Examples.config0
  <= Airdrop.airdropsOn (startDate (Airdrop.clock Examples.network))
       Examples.waitingWorld
  /\ fst (Airdrop.airdrop Examples.network Examples.airdropPending Examples.config0
            Examples.waitingWorld)
     = Some Airdrop.emptyResult
  /\ calls (snd (Airdrop.airdrop Examples.network Examples.airdropPending
                   Examples.config0 Examples.waitingWorld)) = []
  /\ daily_limits Examples.waitingWorld !! "2025-06-15" = None
  /\ daily_limits (snd (Airdrop.airdrop Examples.network Examples.airdropPending
                          Examples.config0 Examples.waitingWorld)) !! "2025-06-15"
     = Some {| prs_opened := 0; airdrops_sent := 0 |}
  /\ snd (Airdrop.airdrop Examples.network Examples.airdropPending Examples.config0
            Examples.waitingWorld)
     <> Examples.waitingWorld.
Proof.
  split; [vm_compute; discriminate|]. do 4 (split; [reflexivity|]).
  intros H. apply (f_equal (fun w => daily_limits w !! "2025-06-15")) in H.
  discriminate H.
Qed.

Section AirdropCapFacts.

Import Airdrop.

(** A run that reaches the loop ends in the state after all its turns. *)
Lemma airdrop_afterTurns env options config w b :
  0 < maxDailyAirdrops config - airdropsOn (startDate (clock env)) w ->
  treasury env = Balance b -> Js.lt b MIN_TREASURY_BALANCE = false ->
  airdrop env options config w
  = (Some (fst (afterTurns env options config w b
                  (List.length (selected options
                                  (effectiveLimit env options config w)
                                  (startOfLoop env w))))),
     snd (afterTurns env options config w b
            (List.length (selected options
                            (effectiveLimit env options config w)
                            (startOfLoop env w))))).
Proof.
  intros Hcap Ht Hb. rewrite (airdrop_runs _ _ _ _ b Hcap Ht Hb).
  unfold afterTurns. rewrite firstn_all. reflexivity.
Qed.

Lemma airdropsOn_startOfLoop env w d :
  airdropsOn d (startOfLoop env w) = airdropsOn d w.
Proof.
  unfold startOfLoop, airdropsOn. cbn [Db.call daily_limits].
  destruct (decide (d = startDate (clock env))) as [-> | Hne].
  - rewrite getDailyLimits_today. reflexivity.
  - now rewrite getDailyLimits_other.
Qed.

(** With a limit that is not negative, after any number of turns at most
    [min(limit, remaining)] prospects were handled, and the counters of the
    ledger grew by at most the number counted as sent. *)
Lemma afterTurns_bounds env options config w b (j : nat) :
  0 <= default 5 (o_limit options) ->
  airdropsOn (startDate (clock env)) w < maxDailyAirdrops config ->
  sent (fst (afterTurns env options config w b j))
  + failed (fst (afterTurns env options config w b j))
  + skipped (fst (afterTurns env options config w b j))
    <= effectiveLimit env options config w
  /\ 0 <= sent (fst (afterTurns env options config w b j))
  /\ 0 <= failed (fst (afterTurns env options config w b j))
  /\ 0 <= skipped (fst (afterTurns env options config w b j))
  /\ (forall d,
        airdropsOn d w <= airdropsOn d (snd (afterTurns env options config w b j))
        <= airdropsOn d w + sent (fst (afterTurns env options config w b j)))
  /\ ((forall i, todayDate (clock env) i = startDate (clock env)) ->
        airdropsOn (startDate (clock env)) (snd (afterTurns env options config w b j))
        = airdropsOn (startDate (clock env)) w
          + sent (fst (afterTurns env options config w b j))).
Proof.
  intros Hlimit Hn. unfold afterTurns.
  set (cs := firstn j _).
  assert (Hlen : Z.of_nat (List.length cs) <= effectiveLimit env options config w).
  { subst cs. rewrite length_firstn.
    pose proof (length_slice0 (gathered options (startOfLoop env w))
                  (effectiveLimit env options config w)) as Hs.
    unfold selected. unfold effectiveLimit in *. lia. }
  pose proof (loop_counts env config (o_amount options) b cs emptyResult
                (startOfLoop env w)) as H.
  cbn zeta in H. destruct H as (Hsum & Hs & Hf & Hk & Hd & Hconst).
  cbn [emptyResult sent failed skipped] in *.
  do 4 (split; [lia|]). split.
  - intros d. specialize (Hd d). rewrite airdropsOn_startOfLoop in Hd. lia.
  - intros Hclock. rewrite Hconst by (intros c _; apply Hclock).
    rewrite airdropsOn_startOfLoop. lia.
Qed.

End AirdropCapFacts.

(** X1 (the daily cap for a requested limit that is not negative). A run
    starts with today's counter at n, below the daily maximum. Then at every point
    of the loop (after any number of turns, the last one included) the
    number of prospects handled is at most min(limit, maximum - n), the
    counter of any date has grown by at most the number of transfers counted
    as sent (one increment for each outcome sent or confirmed, none for a
    failed one), and today's counter is at most the maximum; and what a run
    that reaches the loop returns is the state after the last turn. *)
Theorem airdrop_cap_nonnegative_limit
    (env : Airdrop.Env) (options : Airdrop.AirdropOptions) (config : Config)
    (w : World) (b : Z) (j : nat) :
  0 <= default 5 (Airdrop.o_limit options) ->
  Airdrop.airdropsOn (startDate (Airdrop.clock env)) w < maxDailyAirdrops config ->
  Airdrop.treasury env = Airdrop.Balance b ->
  Airdrop.MIN_TREASURY_BALANCE <= b ->
  Airdrop.sent (fst (Airdrop.afterTurns env options config w b j))
  + Airdrop.failed (fst (Airdrop.afterTurns env options config w b j))
  + Airdrop.skipped (fst (Airdrop.afterTurns env options config w b j))
    <= Z.min (default 5 (Airdrop.o_limit options))
         (maxDailyAirdrops config
          - Airdrop.airdropsOn (startDate (Airdrop.clock env)) w)
  /\ (forall d,
        Airdrop.airdropsOn d (snd (Airdrop.afterTurns env options config w b j))
        <= Airdrop.airdropsOn d w
           + Airdrop.sent (fst (Airdrop.afterTurns env options config w b j)))
  /\ Airdrop.airdropsOn (startDate (Airdrop.clock env))
       (snd (Airdrop.afterTurns env options config w b j))
     <= maxDailyAirdrops config
  /\ exists last,
       Airdrop.airdrop env options config w
       = (Some (fst (Airdrop.afterTurns env options config w b last)),
          snd (Airdrop.afterTurns env options config w b last)).
Proof.
  intros Hlimit Hn Ht Hb.
  destruct (afterTurns_bounds env options config w b j Hlimit Hn)
    as (Hsum & Hs & Hf & Hk & Hd & _).
  unfold Airdrop.effectiveLimit in Hsum.
  split; [exact Hsum|]. split; [intros d; apply Hd|]. split.
  - specialize (Hd (startDate (Airdrop.clock env))). lia.
  - eexists. apply airdrop_afterTurns; [lia | exact Ht | apply Z.ltb_ge, Hb].
Qed.

(** A run with the default limit over three waiting prospects and a daily
    maximum of 1: one transfer, and today's counter ends at 1. *)
Lemma airdrop_cap_nonnegative_limit_witness :
  Airdrop.airdropsOn "2025-06-15"
    (snd (Airdrop.afterTurns Examples.network Examples.airdropPending
            Examples.config1 Examples.waitingWorld 1000000 3)) <= 1
  /\ Airdrop.sent <$> fst (Airdrop.airdrop Examples.network Examples.airdropPending
                            Examples.config1 Examples.waitingWorld) = Some 1.
Proof.
  split; [|reflexivity].
  apply (airdrop_cap_nonnegative_limit Examples.network Examples.airdropPending
           Examples.config1 Examples.waitingWorld 1000000 3);
    cbn; try reflexivity; try lia; discriminate.
Defined.

(** C10 on the code, at a negative limit. The maximum is 1 payout a day and
    none is counted yet; three verified prospects wait. [airdrop --limit -1]
    computes the effective limit min(-1, 1) = -1, and [slice(0, -1)] keeps
    all the candidates but the last: two transfers are sent in one run and
    today's counter ends at 2, above the maximum. *)
Theorem airdrop_negative_limit_exceeds_cap :
  maxDailyAirdrops Examples.config1 = 1
  /\ Airdrop.airdropsOn "2025-06-15" Examples.waitingWorld = 0
  /\ Airdrop.effectiveLimit Examples.network Examples.airdropLimitMinus1
       Examples.config1 Examples.waitingWorld = -1
  /\ Airdrop.sent <$> fst (Airdrop.airdrop Examples.network
                            Examples.airdropLimitMinus1 Examples.config1
                            Examples.waitingWorld) = Some 2
  /\ Airdrop.airdropsOn "2025-06-15"
       (snd (Airdrop.airdrop Examples.network Examples.airdropLimitMinus1
               Examples.config1 Examples.waitingWorld)) = 2.
Proof. repeat split. Qed.

(** ** Outreach *)

Section OutreachFacts.

Import Outreach.

Lemma callAll_rest cs : forall w,
  prospects (callAll cs w) = prospects w
  /\ daily_limits (callAll cs w) = daily_limits w
  /\ activity_log (callAll cs w) = activity_log w.
Proof.
  unfold callAll. induction cs as [|c cs IH]; intros w; cbn [fold_left]; [auto|].
  destruct (IH (Db.call c w)) as (-> & -> & ->). auto.
Qed.

Lemma qualifiedTier_ABC p :
  qualifiedTier p = true -> tier p = Some A \/ tier p = Some B \/ tier p = Some C.
Proof.
  unfold qualifiedTier. destruct (tier p) as [[]|]; cbn; auto; discriminate.
Qed.

(** The prospects the loop runs over are rows of the table with a tier
    among A, B and C, whether one is named or the batch is queried. *)
Lemma selected_qualified options eff w c :
  In c (selected options eff w) -> In c (prospects w) /\ qualifiedTier c = true.
Proof.
  unfold selected. rewrite filter_In. intros [Hin Hq]. split; [|exact Hq].
  destruct (hasProspectId options).
  - destruct (o_prospectId options) as [i|]; [|destruct Hin].
    destruct (Db.getProspectById i w) as [q|] eqn:Hget; [|destruct Hin].
    destruct Hin as [<- | []]. now apply find_id_some in Hget.
  - unfold Db.getProspects, Db.sql_limit in Hin. cbn [Db.f_limit] in Hin.
    destruct (Js.truthy_num eff); [destruct (eff <? 0)|];
      try apply In_firstn in Hin; apply filter_In in Hin; tauto.
Qed.

(** What one delivery attempt does to the row at position [k]: nothing, or
    the row has the prospect's id and is marked [pr_opened], its tier kept. *)
Lemma sendOutreach_rows env c dryRun w (k : nat) :
  rec_prospectId (fst (sendOutreach env c dryRun w)) = id c
  /\ (prospects (snd (sendOutreach env c dryRun w)) !! k = prospects w !! k
      \/ exists row row',
           prospects w !! k = Some row /\ id row = id c
           /\ prospects (snd (sendOutreach env c dryRun w)) !! k = Some row'
           /\ id row' = id row /\ tier row' = tier row
           /\ outreachStatus row' = PrOpened).
Proof.
  unfold sendOutreach.
  destruct (selectTargetRepo c) as [[owner repo]|]; [|cbn; auto].
  destruct dryRun; [cbn; auto|].
  destruct (github env c) as [step message | authUser html_url number];
    cbn [fst snd rec_prospectId].
  - split; [reflexivity|]. left. unfold Db.logActivity. cbn [prospects].
    now destruct (callAll_rest (List.map (stepCall owner repo) (stepsUpTo step)) w)
      as (-> & _).
  - split; [reflexivity|]. unfold Db.logActivity. cbn [prospects].
    destruct (incrementDailyPRs_rest (todayDate (clock env) (id c))
      (Db.updateProspectOutreach (id c)
         {| Db.u_outreachStatus := PrOpened;
            Db.u_targetRepo := Some (owner ++ "/" ++ repo)%string;
            Db.u_prUrl := Some html_url; Db.u_prNumber := Some number;
            Db.u_prOpenedAt := Some (nowIso (clock env) (id c) 0) |}
         (nowIso (clock env) (id c) 1)
         (callAll (List.map (stepCall owner repo) allSteps) w))) as (-> & _).
    unfold Db.updateProspectOutreach. rewrite update_where_id_lookup.
    destruct (callAll_rest (List.map (stepCall owner repo) allSteps) w) as (-> & _).
    destruct (prospects w !! k) as [row|]; cbn [fmap option_fmap option_map];
      [|now left].
    destruct (Z.eqb_spec (id row) (id c)) as [Heq|Hne]; [|now left].
    right. exists row. eexists. repeat split; try reflexivity. exact Heq.
Qed.

Lemma iteration_rows env dryRun c r w (k : nat) :
  (records (fst (iteration env dryRun c (r, w))) = records r
   \/ exists rec, records (fst (iteration env dryRun c (r, w)))
                  = (records r ++ [rec])%list
                  /\ rec_prospectId rec = id c)
  /\ (prospects (snd (iteration env dryRun c (r, w))) !! k = prospects w !! k
      \/ exists row row',
           prospects w !! k = Some row /\ id row = id c
           /\ prospects (snd (iteration env dryRun c (r, w))) !! k = Some row'
           /\ id row' = id row /\ tier row' = tier row
           /\ outreachStatus row' = PrOpened).
Proof.
  unfold iteration.
  destruct (negb (bool_decide (outreachStatus c = OutreachPending))); [cbn; auto|].
  pose proof (sendOutreach_rows env c dryRun w k) as [Hid Hrows].
  destruct (sendOutreach env c dryRun w) as [rec w']. cbn [fst snd] in *.
  split; [right; eauto | exact Hrows].
Qed.

Lemma outreach_loop_cons env dryRun c cs acc :
  loop env dryRun (c :: cs) acc = loop env dryRun cs (iteration env dryRun c acc).
Proof. reflexivity. Qed.

(** Every record of the run is the record of one of the prospects the loop
    runs over, and a row differs from what it was only by deliveries to a
    prospect of its id. *)
Lemma loop_rows env dryRun cs : forall acc,
  (forall rec, In rec (records (fst (loop env dryRun cs acc))) ->
     In rec (records (fst acc)) \/ exists c, In c cs /\ rec_prospectId rec = id c)
  /\ (forall (k : nat) p', prospects (snd (loop env dryRun cs acc)) !! k = Some p' ->
        exists p, prospects (snd acc) !! k = Some p
          /\ id p' = id p /\ tier p' = tier p
          /\ (p' = p \/ (outreachStatus p' = PrOpened
                         /\ exists c, In c cs /\ id c = id p))).
Proof.
  induction cs as [|c cs IH]; intros [r w].
  - cbn. split; [auto|]. intros k p' Hk. exists p'. auto.
  - rewrite outreach_loop_cons.
    destruct (IH (iteration env dryRun c (r, w))) as [Hrec Hrow]. split.
    + intros rec Hin. destruct (Hrec rec Hin) as [Hin' | (c' & Hc' & Hid)].
      * destruct (iteration_rows env dryRun c r w 0%nat) as [[Heq | (rec' & Heq & Hid)] _];
          rewrite Heq in Hin'; cbn [fst]; [now left|].
        apply in_app_or in Hin' as [Hin' | [<- | []]]; [now left|].
        right. exists c. split; [now left | exact Hid].
      * right. exists c'. split; [now right | exact Hid].
    + intros k p' Hk. destruct (Hrow k p' Hk) as (p1 & Hk1 & Hid1 & Ht1 & Hcase).
      destruct (iteration_rows env dryRun c r w k)
        as [_ [Hsame | (row & row' & Hk0 & Hidc & Hk1' & Hid' & Ht' & Hst')]].
      * rewrite Hsame in Hk1. cbn [snd]. exists p1.
        split; [exact Hk1|]. split; [exact Hid1|]. split; [exact Ht1|].
        destruct Hcase as [-> | (Hst & c' & Hc' & Hidc')]; [now left|].
        right. split; [exact Hst|]. exists c'. split; [now right | exact Hidc'].
      * rewrite Hk1' in Hk1. injection Hk1 as <-. cbn [snd]. exists row.
        split; [exact Hk0|]. split; [congruence|]. split; [congruence|].
        right. split.
        -- destruct Hcase as [-> | (Hst & _)]; [exact Hst' | exact Hst].
        -- exists c. split; [now left | congruence].
Qed.

(** The run before its loop. *)
Lemma outreach_cases env options config w :
  (prospects (snd (outreach env options config w)) = prospects w
   /\ (fst (outreach env options config w) = None
       \/ fst (outreach env options config w) = Some emptyResult))
  \/ exists dryRun eff w1,
       prospects w1 = prospects w
       /\ outreach env options config w
          = (Some (fst (loop env dryRun (selected options eff w1) (emptyResult, w1))),
             snd (loop env dryRun (selected options eff w1) (emptyResult, w1))).
Proof.
  unfold outreach.
  set (dryRun := default false (o_dryRun options)).
  set (w0 := if dryRun then w else Db.call CheckAuth w).
  assert (H0 : prospects w0 = prospects w) by (subst w0; now destruct dryRun).
  destruct (negb dryRun && negb (checkAuth env)); [left; cbn; auto|].
  pose proof (getDailyLimits_rest (startDate (clock env)) w0) as (H1 & _).
  destruct (Db.getDailyLimits (startDate (clock env)) w0) as [dl w1].
  cbn [snd] in H1.
  destruct (negb dryRun && (maxDailyPRs config - prsOpened dl <=? 0)).
  - left. cbn. split; [congruence | auto].
  - right. exists dryRun.
    exists (if dryRun then default 10 (o_limit options)
            else Z.min (default 10 (o_limit options))
                   (maxDailyPRs config - prsOpened dl)).
    exists w1. split; [congruence|].
    destruct (loop _ _ _ _). reflexivity.
Qed.

End OutreachFacts.

(** C6. Outreach never attempts delivery to a prospect whose tier is D or
    null, whether it queries the batch or is given a prospectId: every
    record of the run (one is made for each call of sendOutreach, a
    delivered one for each pull request opened) is the record of a prospect
    of tier A, B or C, and every row the run leaves different from what it
    was (the rows set to pr_opened; rows are identified by their id) is a
    row of tier A, B or C, its tier unchanged. *)
Theorem outreach_only_tiers_ABC
    (env : Outreach.Env) (options : Outreach.OutreachOptions) (config : Config)
    (w : World) :
  NoDup (id <$> prospects w) ->
  (forall r rec,
     fst (Outreach.outreach env options config w) = Some r ->
     In rec (Outreach.records r) ->
     exists p, In p (prospects w) /\ id p = Outreach.rec_prospectId rec
               /\ (tier p = Some A \/ tier p = Some B \/ tier p = Some C))
  /\ (forall (k : nat) p p',
        prospects w !! k = Some p ->
        prospects (snd (Outreach.outreach env options config w)) !! k = Some p' ->
        p' <> p ->
        (tier p = Some A \/ tier p = Some B \/ tier p = Some C)
        /\ tier p' = tier p /\ outreachStatus p' = PrOpened).
Proof.
  intros Hnd. split.
  - intros r rec Hr Hin.
    destruct (outreach_cases env options config w)
      as [[_ [Hn | He]] | (dryRun & eff & w1 & Hw1 & Heq)].
    + congruence.
    + rewrite He in Hr. injection Hr as <-. destruct Hin.
    + rewrite Heq in Hr. cbn [fst] in Hr. injection Hr as <-.
      destruct (loop_rows env dryRun (Outreach.selected options eff w1)
                  (Outreach.emptyResult, w1)) as [Hrec _].
      destruct (Hrec rec Hin) as [[] | (c & Hc & Hid)].
      apply selected_qualified in Hc as [Hc Hq]. rewrite Hw1 in Hc.
      exists c. split; [exact Hc|]. split; [congruence|].
      now apply qualifiedTier_ABC.
  - intros k p p' Hk Hk' Hne.
    destruct (outreach_cases env options config w)
      as [[Hsame _] | (dryRun & eff & w1 & Hw1 & Heq)].
    + rewrite Hsame, Hk in Hk'. congruence.
    + rewrite Heq in Hk'. cbn [snd] in Hk'.
      destruct (loop_rows env dryRun (Outreach.selected options eff w1)
                  (Outreach.emptyResult, w1)) as [_ Hrow].
      destruct (Hrow k p' Hk') as (p0 & Hk0 & Hid & Ht & Hcase).
      cbn [snd] in Hk0. rewrite Hw1, Hk in Hk0. injection Hk0 as <-.
      destruct Hcase as [-> | (Hst & c & Hc & Hidc)]; [contradiction|].
      apply selected_qualified in Hc as [Hc Hq]. rewrite Hw1 in Hc.
      assert (c = p) by (eapply NoDup_id_eq; eauto using lookup_In).
      subst c. split; [now apply qualifiedTier_ABC | auto].
Qed.

(** A batch over zed (tier D), alice (tier B) and nobody (not scored): the
    run returns, and each of its records is the record of a prospect of
    tier A, B or C; zed, named explicitly, gets no record. *)
Lemma outreach_only_tiers_ABC_witness :
  (exists r,
     fst (Outreach.outreach Examples.github Examples.outreachBatch
            Examples.config5 Examples.outreachWorld) = Some r
     /\ Outreach.rec_prospectId <$> Outreach.records r = [1]
     /\ forall rec, In rec (Outreach.records r) ->
          exists p, In p (prospects Examples.outreachWorld)
                    /\ id p = Outreach.rec_prospectId rec
                    /\ (tier p = Some A \/ tier p = Some B \/ tier p = Some C))
  /\ Outreach.records <$> fst (Outreach.outreach Examples.github Examples.outreachZed
                                 Examples.config5 Examples.outreachWorld) = Some [].
Proof.
  assert (Hnd : NoDup (id <$> prospects Examples.outreachWorld)).
  { cbn. repeat constructor; rewrite ?list_elem_of_In; cbn; intuition discriminate. }
  split; [|reflexivity].
  eexists. split; [vm_compute; reflexivity|]. split; [reflexivity|].
  intros rec Hin.
  eapply (proj1 (outreach_only_tiers_ABC Examples.github Examples.outreachBatch
                   Examples.config5 Examples.outreachWorld Hnd));
    [vm_compute; reflexivity | exact Hin].
Defined.

(** * Further properties *)

(** ** What the stages keep of the world *)

Section KeepsFacts.

Import Keeps.

Lemma ledger_grows_refl w : ledger_grows w w.
Proof. intros d row H. exists row. split; [exact H | lia]. Qed.

Lemma ledger_grows_same w w' : daily_limits w' = daily_limits w -> ledger_grows w w'.
Proof. intros E d row H. exists row. rewrite E. split; [exact H | lia]. Qed.

Lemma ledger_grows_trans w1 w2 w3 :
  ledger_grows w1 w2 -> ledger_grows w2 w3 -> ledger_grows w1 w3.
Proof.
  intros H12 H23 d row H.
  destruct (H12 d row H) as (row2 & H2 & ? & ?).
  destruct (H23 d row2 H2) as (row3 & H3 & ? & ?).
  exists row3. split; [exact H3 | lia].
Qed.

Lemma grows_refl w : grows w w.
Proof. split; [|split; [|split]]; try reflexivity. apply ledger_grows_refl. Qed.

Lemma grows_trans w1 w2 w3 : grows w1 w2 -> grows w2 w3 -> grows w1 w3.
Proof.
  intros (Hi1 & Hl1 & Hc1 & Hd1) (Hi2 & Hl2 & Hc2 & Hd2).
  split; [|split; [|split]].
  - congruence.
  - etransitivity; eassumption.
  - etransitivity; eassumption.
  - eapply ledger_grows_trans; eassumption.
Qed.

Lemma grows_call c w : grows w (Db.call c w).
Proof.
  split; [|split; [|split]]; try reflexivity; [|now apply ledger_grows_same].
  cbn. now apply prefix_app_r.
Qed.

Lemma grows_log a i d w : grows w (Db.logActivity a i d w).
Proof.
  split; [|split; [|split]]; try reflexivity; [|now apply ledger_grows_same].
  cbn. now apply prefix_app_r.
Qed.

Lemma map_id_update i f (l : list Prospect) :
  (forall p, id (f p) = id p) ->
  id <$> List.map (fun p => if id p =? i then f p else p) l = id <$> l.
Proof.
  intros Hf. induction l as [|p l IH]; csimpl; [reflexivity|].
  rewrite IH. destruct (id p =? i); now rewrite ?Hf.
Qed.

Lemma grows_update i f w :
  (forall p, id (f p) = id p) -> grows w (Db.update_where_id i f w).
Proof.
  intros Hf. split; [|split; [|split]]; try reflexivity; [|now apply ledger_grows_same].
  cbn. now apply map_id_update.
Qed.

Lemma ledger_grows_run_op op today w : ledger_grows w (Db.run_op op today w).
Proof.
  intros d row Hrow. destruct (decide (d = today)) as [-> | Hne].
  - destruct (run_op_today op today w) as (row' & Hr & Hle).
    rewrite Hrow in Hle. cbn in Hle. eauto.
  - rewrite run_op_other by exact Hne. exists row. split; [exact Hrow | lia].
Qed.

Lemma grows_getDailyLimits today w : grows w (snd (Db.getDailyLimits today w)).
Proof.
  destruct (getDailyLimits_rest today w) as (Hp & Hl & Hc).
  split; [|split; [|split]]; rewrite ?Hp, ?Hl, ?Hc; try reflexivity.
  apply (ledger_grows_run_op Db.GetDailyLimits).
Qed.

Lemma grows_incrementDailyAirdrops today w :
  grows w (snd (Db.incrementDailyAirdrops today w)).
Proof.
  destruct (incrementDailyAirdrops_rest today w) as (Hp & Hl & Hc).
  split; [|split; [|split]]; rewrite ?Hp, ?Hl, ?Hc; try reflexivity.
  apply (ledger_grows_run_op Db.IncrementDailyAirdrops).
Qed.

Lemma grows_incrementDailyPRs today w :
  grows w (snd (Db.incrementDailyPRs today w)).
Proof.
  destruct (incrementDailyPRs_rest today w) as (Hp & Hl & Hc).
  split; [|split; [|split]]; rewrite ?Hp, ?Hl, ?Hc; try reflexivity.
  apply (ledger_grows_run_op Db.IncrementDailyPRs).
Qed.

(** A loop keeps what each of its turns keeps. *)
Lemma fold_left_invariant {S X} (f : S -> X -> S) (P : S -> Prop) (l : list X) :
  forall s, P s -> (forall s x, In x l -> P s -> P (f s x)) -> P (fold_left f l s).
Proof.
  induction l as [|x l IH]; intros s Hs Hstep; cbn; [exact Hs|].
  apply IH; [apply Hstep; [now left | exact Hs]|].
  intros s' x' Hin. apply Hstep. now right.
Qed.

Lemma grows_postComment p w : grows w (Airdrop.postComment p w).
Proof.
  unfold Airdrop.postComment. destruct (prUrl p) as [u|]; [|apply grows_refl].
  destruct (Js.truthy_string u); [|apply grows_refl].
  destruct (Github.parsePRUrl u) as [[[o r] n]|]; [apply grows_call | apply grows_refl].
Qed.

Lemma grows_processAirdrop env p amount w :
  grows w (snd (Airdrop.processAirdrop env p amount w)).
Proof.
  unfold Airdrop.processAirdrop, Db.updateProspectAirdrop.
  destruct (Airdrop.sendSbtc env p amount) as [t|e]; [destruct (Airdrop.is_confirmed _)|];
    cbn [snd];
    repeat (first [ apply grows_call
                  | eapply grows_trans; [|apply grows_postComment]
                  | eapply grows_trans; [|apply grows_log]
                  | eapply grows_trans; [|apply grows_update; reflexivity]
                  | eapply grows_trans; [|apply grows_call] ]).
Qed.

Lemma grows_airdrop_iteration env config oa tb c acc :
  grows (snd acc) (snd (Airdrop.iteration env config oa tb c acc)).
Proof.
  destruct acc as [r w]. cbn [snd].
  destruct (Airdrop.processes config oa tb c) eqn:Hp.
  - destruct (iteration_processes env config oa tb c r w Hp) as (tx & w1 & Hpa & Hcase).
    pose proof (grows_processAirdrop env c (Airdrop.determineAmount config oa c) w) as Hg.
    rewrite Hpa in Hg. cbn [snd] in Hg.
    destruct Hcase as [[_ ->] | [_ [n ->]]]; cbn [snd]; [exact Hg|].
    eapply grows_trans; [exact Hg | apply grows_incrementDailyAirdrops].
  - rewrite iteration_skips by exact Hp. apply grows_refl.
Qed.

Lemma grows_airdrop env options config w :
  grows w (snd (Airdrop.airdrop env options config w)).
Proof.
  assert (H1 : grows w (snd (Db.getDailyLimits (startDate (Airdrop.clock env)) w)))
    by apply grows_getDailyLimits.
  unfold Airdrop.airdrop.
  destruct (Db.getDailyLimits (startDate (Airdrop.clock env)) w) as [dl w1].
  cbn [snd] in H1.
  destruct (_ <=? 0); [exact H1|].
  assert (H2 : grows w (Db.call GetWalletInfo (Db.call GetWalletAddress w1))).
  { eapply grows_trans; [exact H1|].
    eapply grows_trans; apply grows_call. }
  destruct (Airdrop.treasury env) as [| |b]; cbn [snd].
  - eapply grows_trans; [exact H1 | apply grows_call].
  - exact H2.
  - destruct (Js.lt b Airdrop.MIN_TREASURY_BALANCE); [exact H2|].
    destruct (Airdrop.loop env config (Airdrop.o_amount options) b _ _) as [r w3] eqn:E.
    cbn [snd]. change w3 with (snd (r, w3)). rewrite <- E.
    unfold Airdrop.loop.
    apply (fold_left_invariant _ (fun acc => grows w (snd acc))); [exact H2|].
    intros acc c _ Hacc. eapply grows_trans; [exact Hacc|].
    apply grows_airdrop_iteration.
Qed.

Lemma grows_callAll cs : forall w, grows w (Outreach.callAll cs w).
Proof.
  unfold Outreach.callAll. induction cs as [|c cs IH]; intros w; cbn [fold_left].
  - apply grows_refl.
  - eapply grows_trans; [apply grows_call | apply IH].
Qed.

Lemma grows_sendOutreach env c dryRun w :
  grows w (snd (Outreach.sendOutreach env c dryRun w)).
Proof.
  unfold Outreach.sendOutreach.
  destruct (Outreach.selectTargetRepo c) as [[owner repo]|]; [|apply grows_refl].
  destruct dryRun; [apply grows_refl|].
  destruct (Outreach.github env c); cbn [snd]; unfold Db.updateProspectOutreach;
    repeat (first [ apply grows_callAll
                  | eapply grows_trans; [|apply grows_log]
                  | eapply grows_trans; [|apply grows_incrementDailyPRs]
                  | eapply grows_trans; [|apply grows_update; reflexivity] ]).
Qed.

Lemma grows_outreach_iteration env dryRun c acc :
  grows (snd acc) (snd (Outreach.iteration env dryRun c acc)).
Proof.
  destruct acc as [r w]. unfold Outreach.iteration.
  destruct (negb _); [apply grows_refl|].
  pose proof (grows_sendOutreach env c dryRun w) as H.
  destruct (Outreach.sendOutreach env c dryRun w) as [rec w']. exact H.
Qed.

Lemma grows_outreach env options config w :
  grows w (snd (Outreach.outreach env options config w)).
Proof.
  unfold Outreach.outreach.
  set (dryRun := default false (Outreach.o_dryRun options)).
  set (w0 := if dryRun then w else Db.call CheckAuth w).
  assert (H0 : grows w w0).
  { subst w0. destruct dryRun; [apply grows_refl | apply grows_call]. }
  destruct (negb dryRun && negb (Outreach.checkAuth env)); [exact H0|].
  assert (H1 : grows w (snd (Db.getDailyLimits (startDate (Outreach.clock env)) w0))).
  { eapply grows_trans; [exact H0 | apply grows_getDailyLimits]. }
  destruct (Db.getDailyLimits (startDate (Outreach.clock env)) w0) as [dl w1].
  cbn [snd] in H1.
  destruct (negb dryRun && _); [exact H1|].
  destruct (Outreach.loop env dryRun _ _) as [r w2] eqn:E.
  cbn [snd]. change w2 with (snd (r, w2)). rewrite <- E.
  unfold Outreach.loop.
  apply (fold_left_invariant _ (fun acc => grows w (snd acc))); [exact H1|].
  intros acc c _ Hacc. eapply grows_trans; [exact Hacc|].
  apply grows_outreach_iteration.
Qed.

Lemma grows_qualify_iteration clock options c acc :
  grows (snd acc) (snd (Qualify.iteration clock options c acc)).
Proof.
  destruct acc as [r w]. rewrite iteration_world. cbn [snd].
  destruct (Qualify.persisted clock options c); [|apply grows_refl].
  cbn zeta. unfold Db.updateProspectScore.
  eapply grows_trans; [|apply grows_log]. apply grows_update. reflexivity.
Qed.

Lemma grows_qualify clock options w :
  grows w (snd (Qualify.qualify clock options w)).
Proof.
  unfold Qualify.qualify, Qualify.loop.
  apply (fold_left_invariant _ (fun acc => grows w (snd acc))); [apply grows_refl|].
  intros acc c _ Hacc. eapply grows_trans; [exact Hacc|].
  apply grows_qualify_iteration.
Qed.

End KeepsFacts.

(** ** The transactions of a run of airdrop *)

Section TransactionFacts.

Import Airdrop Tally.

Lemma processAirdrop_fields env p amount w :
  tx_prospectId (fst (processAirdrop env p amount w)) = id p
  /\ recipient (fst (processAirdrop env p amount w)) = default "" (stacksAddress p)
  /\ amountSats (fst (processAirdrop env p amount w)) = amount
  /\ status (fst (processAirdrop env p amount w)) <> AirdropPending.
Proof.
  unfold processAirdrop. destruct (sendSbtc env p amount); [|cbn; repeat split; discriminate].
  destruct (is_confirmed _); cbn; repeat split; discriminate.
Qed.

(** The tallies after the turn of a prospect that is processed. *)
Lemma iteration_tally env config oa tb c r w :
  processes config oa tb c = true ->
  fst (iteration env config oa tb c (r, w))
  = let tx := fst (processAirdrop env c (determineAmount config oa c) w) in
    {| sent := sent r + (if bool_decide (status tx = AirdropFailed) then 0 else 1);
       confirmed := confirmed r
                    + (if bool_decide (status tx = AirdropConfirmed) then 1 else 0);
       failed := failed r + (if bool_decide (status tx = AirdropFailed) then 1 else 0);
       skipped := skipped r;
       transactions := transactions r ++ [tx] |}.
Proof.
  unfold iteration, processes. intros H.
  apply andb_true_iff in H as [H H3]. apply andb_true_iff in H as [H1 H2].
  apply negb_true_iff in H1, H3. rewrite H1, H2, H3. cbn [negb].
  pose proof (processAirdrop_status env c (determineAmount config oa c) w) as Hst.
  destruct (processAirdrop env c (determineAmount config oa c) w) as [tx w1].
  cbn [fst] in *. cbn zeta.
  destruct (status tx) eqn:E; try contradiction; cbn [fst];
    rewrite ?bool_decide_eq_true_2, ?bool_decide_eq_false_2 by congruence;
    f_equal; lia.
Qed.

Lemma processes_facts config oa tb c :
  processes config oa tb c = true ->
  airdropStatus c = AirdropPending /\ addressValid c = true
  /\ (exists a, stacksAddress c = Some a /\ a <> "")
  /\ Js.lt (Js.minus tb (determineAmount config oa c)) MIN_TREASURY_BALANCE = false.
Proof.
  unfold processes, noValidAddress. intros H.
  apply andb_true_iff in H as [H H3]. apply andb_true_iff in H as [H1 H2].
  apply bool_decide_eq_true in H2. apply negb_true_iff in H1, H3.
  apply orb_false_iff in H1 as [Ha Hv]. apply negb_false_iff in Ha, Hv.
  split; [exact H2|]. split; [exact Hv|]. split; [|exact H3].
  destruct (stacksAddress c) as [a|]; [|discriminate].
  exists a. split; [reflexivity|]. intros ->. discriminate.
Qed.

(** What is known of every transaction of the loop: it is the transaction
    of a prospect of the list that passed the three checks of its turn. *)
Lemma loop_transactions env config oa tb cs : forall acc tx,
  In tx (transactions (fst (loop env config oa tb cs acc))) ->
  In tx (transactions (fst acc))
  \/ exists c, In c cs /\ processes config oa tb c = true
       /\ tx_prospectId tx = id c
       /\ recipient tx = default "" (stacksAddress c)
       /\ amountSats tx = determineAmount config oa c
       /\ status tx <> AirdropPending.
Proof.
  induction cs as [|c cs IH]; intros [r w] tx Hin; [now left|].
  rewrite airdrop_loop_cons in Hin.
  destruct (IH _ _ Hin) as [Hin' | (c' & Hc' & H)].
  - destruct (processes config oa tb c) eqn:Hp.
    + rewrite (iteration_tally _ _ _ _ _ _ _ Hp) in Hin'. cbn [transactions] in Hin'.
      apply in_app_or in Hin' as [Hin' | [<- | []]]; [now left|].
      right. exists c. split; [now left|]. split; [exact Hp|].
      apply processAirdrop_fields.
    + rewrite iteration_skips in Hin' by exact Hp. now left.
  - right. exists c'. split; [now right | exact H].
Qed.

(** The tallies agree with the transactions. *)
Lemma loop_tallies env config oa tb cs : forall r w,
  sent r = countStatus AirdropSent (transactions r)
           + countStatus AirdropConfirmed (transactions r) ->
  confirmed r = countStatus AirdropConfirmed (transactions r) ->
  failed r = countStatus AirdropFailed (transactions r) ->
  countStatus AirdropPending (transactions r) = 0 ->
  let r' := fst (loop env config oa tb cs (r, w)) in
  sent r' = countStatus AirdropSent (transactions r')
            + countStatus AirdropConfirmed (transactions r')
  /\ confirmed r' = countStatus AirdropConfirmed (transactions r')
  /\ failed r' = countStatus AirdropFailed (transactions r')
  /\ countStatus AirdropPending (transactions r') = 0.
Proof.
  induction cs as [|c cs IH]; intros r w Hs Hc Hf Hp; [cbn; auto|].
  cbn zeta. rewrite airdrop_loop_cons.
  destruct (iteration env config oa tb c (r, w)) as [r1 w1] eqn:Hit.
  apply IH; clear IH;
    pose proof (f_equal fst Hit) as Hr1; cbn [fst] in Hr1;
    (destruct (processes config oa tb c) eqn:Hproc;
     [ rewrite (iteration_tally _ _ _ _ _ _ _ Hproc) in Hr1; cbn zeta in Hr1;
       pose proof (processAirdrop_status env c (determineAmount config oa c) w) as Hst;
       subst r1; cbn [sent confirmed failed transactions];
       unfold countStatus in *; rewrite !List.filter_app, !length_app; cbn [List.filter];
       destruct (status (fst (processAirdrop env c (determineAmount config oa c) w)));
       try contradiction;
       repeat case_bool_decide; try congruence; cbn [List.length]; lia
     | rewrite iteration_skips in Hr1 by exact Hproc; subst r1;
       cbn [skip sent confirmed failed transactions]; assumption ]).
Qed.

End TransactionFacts.

(** The ways a run of airdrop ends: it throws or returns the empty result
    before the loop, the rows and the log untouched; or it did not find the
    treasury below the reserve, was under the daily cap, and returns what
    the loop leaves. *)
Lemma airdrop_outcomes env options config w :
  ((fst (Airdrop.airdrop env options config w) = None
    \/ fst (Airdrop.airdrop env options config w) = Some Airdrop.emptyResult)
   /\ prospects (snd (Airdrop.airdrop env options config w)) = prospects w
   /\ activity_log (snd (Airdrop.airdrop env options config w)) = activity_log w)
  \/ exists b,
       Airdrop.treasury env = Airdrop.Balance b
       /\ Js.lt b Airdrop.MIN_TREASURY_BALANCE = false
       /\ 0 < maxDailyAirdrops config
               - Airdrop.airdropsOn (startDate (Airdrop.clock env)) w
       /\ Airdrop.airdrop env options config w
          = (Some (fst (Airdrop.afterTurns env options config w b
                          (List.length
                             (Airdrop.selected options
                                (Airdrop.effectiveLimit env options config w)
                                (Airdrop.startOfLoop env w))))),
             snd (Airdrop.afterTurns env options config w b
                    (List.length
                       (Airdrop.selected options
                          (Airdrop.effectiveLimit env options config w)
                          (Airdrop.startOfLoop env w))))).
Proof.
  destruct (getDailyLimits_rest (startDate (Airdrop.clock env)) w) as (Hp1 & Hl1 & _).
  destruct (Z.leb_spec (maxDailyAirdrops config
                        - Airdrop.airdropsOn (startDate (Airdrop.clock env)) w) 0)
    as [Hcap|Hcap].
  { left. rewrite (airdrop_capped _ _ _ _ Hcap). cbn [fst snd]. auto. }
  assert (Hunder : forall X (x y : X),
            (if maxDailyAirdrops config
                - Airdrop.airdropsOn (startDate (Airdrop.clock env)) w <=? 0
             then x else y) = y).
  { intros X x y. destruct (Z.leb_spec (maxDailyAirdrops config
                - Airdrop.airdropsOn (startDate (Airdrop.clock env)) w) 0);
      [lia | reflexivity]. }
  destruct (Airdrop.treasury env) as [| |b] eqn:Ht.
  1, 2: left; unfold Airdrop.airdrop;
    pose proof (airdropsSent_getDailyLimits (startDate (Airdrop.clock env)) w) as Hread;
    destruct (Db.getDailyLimits (startDate (Airdrop.clock env)) w) as [dl w1];
    cbn [fst snd] in *; rewrite Hread, Ht, Hunder; cbn; auto.
  destruct (Js.lt b Airdrop.MIN_TREASURY_BALANCE) eqn:Hok.
  - left. unfold Airdrop.airdrop.
    pose proof (airdropsSent_getDailyLimits (startDate (Airdrop.clock env)) w) as Hread.
    destruct (Db.getDailyLimits (startDate (Airdrop.clock env)) w) as [dl w1].
    cbn [fst snd] in *. rewrite Hread, Ht, Hunder, Hok. cbn; auto.
  - right. exists b. split; [reflexivity|]. split; [exact Hok|]. split; [exact Hcap|].
    now apply airdrop_afterTurns.
Qed.

Lemma prospects_startOfLoop env w :
  prospects (Airdrop.startOfLoop env w) = prospects w.
Proof. unfold Airdrop.startOfLoop. cbn. apply getDailyLimits_rest. Qed.

(** X2. Every transaction a run of airdrop returns is the transaction of a
    row of the table that was pending, address-valid and held a non-empty
    address when the run read it: the transaction carries that row's id and
    that address as recipient, its amount is the override, else the amount
    of the row's tier, else that of tier C, and its status is sent,
    confirmed or failed. The treasury lookup gave a balance that neither
    guard of the run found short: when the balance is a number, that number
    less the amount of the transaction is at least the reserve (a balance
    that reads as NaN passes both guards, whatever the amount). *)
Theorem airdrop_transactions_sound
    (env : Airdrop.Env) (options : Airdrop.AirdropOptions) (config : Config)
    (w : World) (r : Airdrop.AirdropResult) (tx : Airdrop.AirdropTransaction) :
  fst (Airdrop.airdrop env options config w) = Some r ->
  In tx (Airdrop.transactions r) ->
  exists p b,
    In p (prospects w)
    /\ Airdrop.treasury env = Airdrop.Balance b
    /\ Airdrop.tx_prospectId tx = id p
    /\ airdropStatus p = AirdropPending
    /\ addressValid p = true
    /\ stacksAddress p = Some (Airdrop.recipient tx)
    /\ Airdrop.recipient tx <> ""
    /\ Airdrop.amountSats tx = Airdrop.determineAmount config (Airdrop.o_amount options) p
    /\ Js.lt b Airdrop.MIN_TREASURY_BALANCE = false
    /\ Js.lt (Js.minus b (Airdrop.amountSats tx)) Airdrop.MIN_TREASURY_BALANCE = false
    /\ (forall sats : Z, b = Js.Num sats ->
          Airdrop.MIN_TREASURY_BALANCE <= sats - Airdrop.amountSats tx)
    /\ (Airdrop.status tx = AirdropSent \/ Airdrop.status tx = AirdropConfirmed
        \/ Airdrop.status tx = AirdropFailed).
Proof.
  intros Hr Hin.
  destruct (airdrop_outcomes env options config w)
    as [([Hn | He] & _ & _) | (b & Ht & Hb & Hcap & Heq)].
  - congruence.
  - rewrite He in Hr. injection Hr as <-. destruct Hin.
  - rewrite Heq in Hr. cbn [fst] in Hr. injection Hr as <-.
    unfold Airdrop.afterTurns in Hin. rewrite firstn_all in Hin.
    apply loop_transactions in Hin as [[] | (c & Hc & Hp & Hid & Hrec & Ham & Hst)].
    apply In_slice0, gathered_rows in Hc. rewrite prospects_startOfLoop in Hc.
    destruct (processes_facts _ _ _ _ Hp) as (Hpend & Hval & (a & Ha & Hne) & Hbal).
    exists c, b. rewrite Ha in Hrec. cbn in Hrec. subst a. rewrite <- Ham in Hbal.
    repeat split; auto; try congruence.
    + intros sats ->. cbn in Hbal. now apply Z.ltb_ge in Hbal.
    + destruct (Airdrop.status tx); auto. contradiction.
Qed.

(** The run over three waiting prospects with a daily maximum of 5 returns
    three transactions; the first is erin's, 5000 sats for tier B, out of a
    treasury of 1000000 sats. *)
Lemma airdrop_transactions_sound_witness :
  exists r tx,
    fst (Airdrop.airdrop Examples.network Examples.airdropPending
           Examples.config5 Examples.waitingWorld) = Some r
    /\ head (Airdrop.transactions r) = Some tx
    /\ Airdrop.amountSats tx = 5000
    /\ Airdrop.tx_prospectId tx = 6
    /\ Airdrop.MIN_TREASURY_BALANCE <= 1000000 - Airdrop.amountSats tx.
Proof.
  eexists. eexists. split; [vm_compute; reflexivity|].
  split; [reflexivity|]. split; [reflexivity|]. split; [reflexivity|].
  destruct (airdrop_transactions_sound Examples.network Examples.airdropPending
              Examples.config5 Examples.waitingWorld _ _
              ltac:(vm_compute; reflexivity) (or_introl eq_refl))
    as (p & b & _ & Ht & _ & _ & _ & _ & _ & _ & _ & _ & Hnum & _).
  apply Hnum. injection Ht as <-. reflexivity.
Defined.

(** X3. The tallies a run of airdrop returns agree with its transactions:
    [confirmed] is the number of transactions with status confirmed, [sent]
    the number with status sent or confirmed, [failed] the number with
    status failed; so every transaction is counted once under [sent] or
    [failed], [confirmed] is at most [sent], and no count is negative. *)
Theorem airdrop_tallies_match_transactions
    (env : Airdrop.Env) (options : Airdrop.AirdropOptions) (config : Config)
    (w : World) (r : Airdrop.AirdropResult) :
  fst (Airdrop.airdrop env options config w) = Some r ->
  Airdrop.confirmed r = Tally.countStatus AirdropConfirmed (Airdrop.transactions r)
  /\ Airdrop.sent r = Tally.countStatus AirdropSent (Airdrop.transactions r)
                      + Tally.countStatus AirdropConfirmed (Airdrop.transactions r)
  /\ Airdrop.failed r = Tally.countStatus AirdropFailed (Airdrop.transactions r)
  /\ Airdrop.sent r + Airdrop.failed r
     = Z.of_nat (List.length (Airdrop.transactions r))
  /\ 0 <= Airdrop.confirmed r <= Airdrop.sent r
  /\ 0 <= Airdrop.failed r /\ 0 <= Airdrop.skipped r.
Proof.
  intros Hr.
  assert (Hpart : forall txs,
            Tally.countStatus AirdropPending txs + Tally.countStatus AirdropSent txs
            + Tally.countStatus AirdropConfirmed txs + Tally.countStatus AirdropFailed txs
            = Z.of_nat (List.length txs)).
  { unfold Tally.countStatus. induction txs as [|tx txs IH]; [reflexivity|].
    cbn [List.filter List.length].
    destruct (Airdrop.status tx); repeat case_bool_decide; try congruence;
      cbn [List.length]; lia. }
  assert (Hnn : forall s txs, 0 <= Tally.countStatus s txs)
    by (intros; unfold Tally.countStatus; lia).
  assert (Hgoal : forall r0 : Airdrop.AirdropResult,
            Airdrop.sent r0 = Tally.countStatus AirdropSent (Airdrop.transactions r0)
                      + Tally.countStatus AirdropConfirmed (Airdrop.transactions r0) ->
            Airdrop.confirmed r0
              = Tally.countStatus AirdropConfirmed (Airdrop.transactions r0) ->
            Airdrop.failed r0 = Tally.countStatus AirdropFailed (Airdrop.transactions r0) ->
            Tally.countStatus AirdropPending (Airdrop.transactions r0) = 0 ->
            0 <= Airdrop.skipped r0 ->
            Airdrop.confirmed r0
              = Tally.countStatus AirdropConfirmed (Airdrop.transactions r0)
            /\ Airdrop.sent r0
               = Tally.countStatus AirdropSent (Airdrop.transactions r0)
                 + Tally.countStatus AirdropConfirmed (Airdrop.transactions r0)
            /\ Airdrop.failed r0
               = Tally.countStatus AirdropFailed (Airdrop.transactions r0)
            /\ Airdrop.sent r0 + Airdrop.failed r0
               = Z.of_nat (List.length (Airdrop.transactions r0))
            /\ 0 <= Airdrop.confirmed r0 <= Airdrop.sent r0
            /\ 0 <= Airdrop.failed r0 /\ 0 <= Airdrop.skipped r0).
  { intros r0 Hs Hc Hf Hp Hk. specialize (Hpart (Airdrop.transactions r0)).
    pose proof (Hnn AirdropSent (Airdrop.transactions r0)).
    pose proof (Hnn AirdropConfirmed (Airdrop.transactions r0)).
    pose proof (Hnn AirdropFailed (Airdrop.transactions r0)).
    repeat split; lia. }
  destruct (airdrop_outcomes env options config w)
    as [([Hn | He] & _ & _) | (b & Ht & Hb & Hcap & Heq)].
  - congruence.
  - rewrite He in Hr. injection Hr as <-. apply Hgoal; reflexivity || (cbn; lia).
  - rewrite Heq in Hr. cbn [fst] in Hr. injection Hr as <-.
    unfold Airdrop.afterTurns. set (cs := firstn _ _).
    pose proof (loop_tallies env config (Airdrop.o_amount options) b cs
                  Airdrop.emptyResult (Airdrop.startOfLoop env w)
                  eq_refl eq_refl eq_refl eq_refl) as (Hs & Hc & Hf & Hp).
    pose proof (loop_counts env config (Airdrop.o_amount options) b cs
                  Airdrop.emptyResult (Airdrop.startOfLoop env w))
      as (_ & _ & _ & Hk & _).
    apply Hgoal; [exact Hs | exact Hc | exact Hf | exact Hp | exact Hk].
Qed.

Lemma airdrop_tallies_match_transactions_witness :
  exists r,
    fst (Airdrop.airdrop Examples.network Examples.airdropPending
           Examples.config5 Examples.waitingWorld) = Some r
    /\ Airdrop.sent r = 3
    /\ Airdrop.sent r + Airdrop.failed r
       = Z.of_nat (List.length (Airdrop.transactions r)).
Proof.
  eexists. split; [vm_compute; reflexivity|]. split; [reflexivity|].
  apply (airdrop_tallies_match_transactions Examples.network Examples.airdropPending
           Examples.config5 Examples.waitingWorld).
  vm_compute. reflexivity.
Defined.

(** ** Treasury check and confirmation polling *)

Section TreasuryFacts.

Import Airdrop.



Lemma pollLoop_spec poll : forall left attempt,
  (snd (Treasury.pollLoop poll attempt left) <= left)%nat
  /\ (is_confirmed (fst (Treasury.pollLoop poll attempt left)) = true
      <-> exists k, (k < left)%nat
            /\ Treasury.succeeded (poll (attempt + k)%nat) = true
            /\ forall j, (j < k)%nat -> Treasury.decisive (poll (attempt + j)%nat) = false)
  /\ ((forall j, (j < left)%nat -> Treasury.decisive (poll (attempt + j)%nat) = false) ->
        snd (Treasury.pollLoop poll attempt left) = left)
  /\ (forall k, (k < left)%nat ->
        Treasury.decisive (poll (attempt + k)%nat) = true ->
        (forall j, (j < k)%nat -> Treasury.decisive (poll (attempt + j)%nat) = false) ->
        snd (Treasury.pollLoop poll attempt left) = S k).
Proof.
  induction left as [|left IH]; intros attempt.
  { cbn. split; [lia|]. split; [|split; [auto | intros; lia]].
    split; [discriminate | intros (k & Hk & _); lia]. }
  specialize (IH (S attempt)). destruct IH as (Hn & Hconf & Hnone & Hfirst).
  cbn [Treasury.pollLoop].
  destruct (Treasury.pollLoop poll (S attempt) left) as [c n]. cbn [fst snd] in *.
  assert (Hshift : forall k, (S attempt + k = attempt + S k)%nat) by (intros; lia).
  (* the attempt is not decisive: the loop goes on *)
  assert (Hgo : Treasury.decisive (poll attempt) = false ->
    (S n <= S left)%nat
    /\ (is_confirmed c = true
        <-> exists k, (k < S left)%nat
              /\ Treasury.succeeded (poll (attempt + k)%nat) = true
              /\ forall j, (j < k)%nat ->
                   Treasury.decisive (poll (attempt + j)%nat) = false)
    /\ ((forall j, (j < S left)%nat ->
           Treasury.decisive (poll (attempt + j)%nat) = false) -> S n = S left)
    /\ (forall k, (k < S left)%nat ->
          Treasury.decisive (poll (attempt + k)%nat) = true ->
          (forall j, (j < k)%nat ->
             Treasury.decisive (poll (attempt + j)%nat) = false) ->
          S n = S k)).
  { intros Hnd. split; [lia|]. split; [|split].
    - rewrite Hconf. split.
      + intros (k & Hk & Hs & Hj). exists (S k). split; [lia|].
        rewrite <- Hshift. split; [exact Hs|].
        intros [|j] Hlt; [now rewrite Nat.add_0_r|].
        rewrite <- Hshift. apply Hj. lia.
      + intros ([|k] & Hk & Hs & Hj).
        * rewrite Nat.add_0_r in Hs. unfold Treasury.decisive, Treasury.succeeded in *.
          destruct (poll attempt) as [| |[s|] h]; try discriminate.
          rewrite Hs in Hnd. discriminate.
        * exists k. split; [lia|]. rewrite Hshift. split; [exact Hs|].
          intros j Hlt. rewrite Hshift. apply Hj. lia.
    - intros Hall. f_equal. apply Hnone. intros j Hlt. rewrite Hshift. apply Hall. lia.
    - intros [|k] Hk Hd Hj.
      + rewrite Nat.add_0_r in Hd. congruence.
      + f_equal. apply (Hfirst k); [lia | now rewrite Hshift |].
        intros j Hlt. rewrite Hshift. apply Hj. lia. }
  (* the attempt is decisive: the loop ends with one poll *)
  assert (Hend : forall c0, Treasury.decisive (poll attempt) = true ->
    is_confirmed c0 = Treasury.succeeded (poll attempt) ->
    (1 <= S left)%nat
    /\ (is_confirmed c0 = true
        <-> exists k, (k < S left)%nat
              /\ Treasury.succeeded (poll (attempt + k)%nat) = true
              /\ forall j, (j < k)%nat ->
                   Treasury.decisive (poll (attempt + j)%nat) = false)
    /\ ((forall j, (j < S left)%nat ->
           Treasury.decisive (poll (attempt + j)%nat) = false) -> 1%nat = S left)
    /\ (forall k, (k < S left)%nat ->
          Treasury.decisive (poll (attempt + k)%nat) = true ->
          (forall j, (j < k)%nat ->
             Treasury.decisive (poll (attempt + j)%nat) = false) ->
          1%nat = S k)).
  { intros c0 Hd Hc0. split; [lia|]. split; [|split].
    - rewrite Hc0. split.
      + intros Hs. exists 0%nat. rewrite Nat.add_0_r.
        split; [lia|]. split; [exact Hs | intros; lia].
      + intros ([|k] & Hk & Hs & Hj); [now rewrite Nat.add_0_r in Hs|].
        specialize (Hj 0%nat ltac:(lia)). rewrite Nat.add_0_r in Hj. congruence.
    - intros Hall. specialize (Hall 0%nat ltac:(lia)).
      rewrite Nat.add_0_r in Hall. congruence.
    - intros [|k] Hk _ Hj; [reflexivity|].
      specialize (Hj 0%nat ltac:(lia)). rewrite Nat.add_0_r in Hj. congruence. }
  destruct (poll attempt) as [| |[s|] h] eqn:Hp; try (apply Hgo; reflexivity).
  destruct (String.eqb s "success") eqn:Hs1.
  - apply Hend; cbn; now rewrite Hs1.
  - destruct (String.eqb s "abort_by_response") eqn:Hs2.
    + apply Hend; cbn; now rewrite Hs1, ?Hs2.
    + apply Hgo. cbn. now rewrite Hs1, Hs2.
Qed.

End TreasuryFacts.



(** The wallet reports a balance that is no number: [checkTreasury] says
    [canAirdrop] is false, and the run over three waiting prospects pays
    all three, no comparison with NaN being true. *)
Example airdrop_pays_on_a_NaN_balance :
  Treasury.checkTreasury Examples2.unreadableTreasury Examples.config5 = Some false
  /\ Airdrop.sent <$> fst (Airdrop.airdrop Examples2.unreadableTreasury
                            Examples.airdropPending Examples.config5
                            Examples.waitingWorld) = Some 3.
Proof. split; reflexivity. Qed.

(** X5. The confirmation poll is bounded. [waitForConfirmation] makes at
    most [maxAttempts] polls (none when [maxAttempts] is 0 or negative). It
    reports the transaction confirmed exactly when some attempt below
    [maxAttempts] sees the status [success] and no earlier attempt saw
    [success] or [abort_by_response]; it stops right at the first attempt
    that sees one of the two; and when no attempt does, it uses up all the
    attempts and reports not confirmed. *)
Theorem waitForConfirmation_bounded (poll : nat -> Treasury.Poll) (maxAttempts : Z) :
  Z.of_nat (snd (Treasury.waitForConfirmation poll maxAttempts)) <= Z.max 0 maxAttempts
  /\ (Airdrop.is_confirmed (fst (Treasury.waitForConfirmation poll maxAttempts)) = true
      <-> exists k, Z.of_nat k < maxAttempts
            /\ Treasury.succeeded (poll k) = true
            /\ forall j, (j < k)%nat -> Treasury.decisive (poll j) = false)
  /\ (forall k, Z.of_nat k < maxAttempts ->
        Treasury.decisive (poll k) = true ->
        (forall j, (j < k)%nat -> Treasury.decisive (poll j) = false) ->
        snd (Treasury.waitForConfirmation poll maxAttempts) = S k)
  /\ ((forall j, Z.of_nat j < maxAttempts -> Treasury.decisive (poll j) = false) ->
        Airdrop.is_confirmed (fst (Treasury.waitForConfirmation poll maxAttempts)) = false
        /\ Z.of_nat (snd (Treasury.waitForConfirmation poll maxAttempts))
           = Z.max 0 maxAttempts).
Proof.
  unfold Treasury.waitForConfirmation.
  destruct (pollLoop_spec poll (Z.to_nat maxAttempts) 0) as (Hn & Hconf & Hnone & Hfirst).
  cbn [Nat.add] in *. split; [lia|]. split; [|split].
  - rewrite Hconf. split; intros (k & Hk & H); exists k; (split; [lia | exact H]).
  - intros k Hk Hd Hj. apply Hfirst; [lia | exact Hd | exact Hj].
  - intros Hall. split.
    + destruct (Airdrop.is_confirmed _) eqn:E; [|reflexivity].
      destruct (proj1 Hconf eq_refl) as (k & Hk & Hs & _).
      specialize (Hall k ltac:(lia)).
      unfold Treasury.decisive, Treasury.succeeded in *.
      destruct (poll k) as [| |[s|] h]; try discriminate.
      rewrite Hs in Hall. discriminate.
    + rewrite Hnone; [lia|]. intros j Hj. apply Hall. lia.
Qed.

(** With the default of 24 attempts: two pending polls, a failed fetch,
    then success in block 77, after four polls. *)
Example waitForConfirmation_slow_success :
  Treasury.waitForConfirmation Examples2.slowSuccess 24
  = ({| Airdrop.is_confirmed := true; Airdrop.conf_blockHeight := Some 77 |}, 4%nat).
Proof. reflexivity. Qed.

(** ** Outreach: the daily cap and the dry run *)

Section OutreachRunFacts.

Import Outreach.



Lemma prsOn_getDailyLimits today d w :
  Ledger.prsOn d (snd (Db.getDailyLimits today w)) = Ledger.prsOn d w.
Proof.
  unfold Ledger.prsOn. destruct (decide (d = today)) as [-> | Hne].
  - rewrite getDailyLimits_today. reflexivity.
  - now rewrite getDailyLimits_other.
Qed.

Lemma airdropsOn_getDailyLimits today d w :
  Airdrop.airdropsOn d (snd (Db.getDailyLimits today w)) = Airdrop.airdropsOn d w.
Proof.
  unfold Airdrop.airdropsOn. destruct (decide (d = today)) as [-> | Hne].
  - rewrite getDailyLimits_today. reflexivity.
  - now rewrite getDailyLimits_other.
Qed.


(** A dry delivery writes nothing and reports no pull request. *)
Lemma sendOutreach_dry env c w :
  snd (sendOutreach env c true w) = w
  /\ rec_prUrl (fst (sendOutreach env c true w)) = None
  /\ rec_prNumber (fst (sendOutreach env c true w)) = None
  /\ deliveredAt (fst (sendOutreach env c true w)) = None
  /\ rec_status (fst (sendOutreach env c true w)) <> RecDelivered.
Proof.
  unfold sendOutreach.
  destruct (selectTargetRepo c) as [[owner repo]|]; cbn; repeat split; discriminate.
Qed.



Lemma loop_dry env cs : forall r w,
  snd (loop env true cs (r, w)) = w
  /\ sent (fst (loop env true cs (r, w))) = sent r
  /\ (Forall (fun rec => rec_prUrl rec = None /\ rec_prNumber rec = None
                         /\ deliveredAt rec = None /\ rec_status rec <> RecDelivered)
        (records r) ->
      Forall (fun rec => rec_prUrl rec = None /\ rec_prNumber rec = None
                         /\ deliveredAt rec = None /\ rec_status rec <> RecDelivered)
        (records (fst (loop env true cs (r, w))))).
Proof.
  induction cs as [|c cs IH]; intros r w; [cbn; auto|].
  rewrite outreach_loop_cons. unfold iteration at 1 2 3.
  destruct (negb (bool_decide (outreachStatus c = OutreachPending))).
  - destruct (IH {| sent := sent r; failed := failed r; skipped := skipped r + 1;
                    records := records r |} w) as (-> & -> & H). auto.
  - pose proof (sendOutreach_dry env c w) as (Hw & Hu & Hn & Hd & Hs).
    destruct (sendOutreach env c true w) as [rec w']. cbn [fst snd] in *. subst w'.
    match goal with |- context [loop env true cs (?r1, w)] =>
      destruct (IH r1 w) as (-> & -> & H) end.
    cbn [sent records] in *. split; [reflexivity|]. split.
    + destruct (rec_status rec); [reflexivity | contradiction | reflexivity | reflexivity].
    + intros Hall. apply H. apply Forall_app. split; [exact Hall|].
      constructor; [auto | constructor].
Qed.



End OutreachRunFacts.



(** With [--limit 0] the query has no LIMIT clause: with a maximum of one
    pull request a day and two prospects waiting, two are opened. *)
Example outreach_limit_0_exceeds_cap :
  Outreach.sent <$> fst (Outreach.outreach Examples.github Examples2.outreachLimit0
                           Examples2.configOnePR Examples2.twoPending) = Some 2
  /\ Ledger.prsOn "2025-06-15"
       (snd (Outreach.outreach Examples.github Examples2.outreachLimit0
               Examples2.configOnePR Examples2.twoPending)) = 2.
Proof. repeat split. Qed.

(** X7. A dry run of outreach writes nothing but today's empty ledger row:
    whatever GitHub would answer and whether or not it is authenticated,
    the daily cap reached or not, the run returns; no call leaves the
    process, no prospect row changes, nothing is logged, no counter of the
    ledger moves; nothing is counted as sent and no record carries a pull
    request. *)
Theorem outreach_dry_run_writes_nothing
    (env : Outreach.Env) (options : Outreach.OutreachOptions) (config : Config)
    (w : World) :
  Outreach.o_dryRun options = Some true ->
  exists r,
    Outreach.outreach env options config w
    = (Some r, snd (Db.getDailyLimits (startDate (Outreach.clock env)) w))
    /\ Outreach.sent r = 0
    /\ Forall (fun rec => Outreach.rec_prUrl rec = None
                          /\ Outreach.rec_prNumber rec = None
                          /\ Outreach.deliveredAt rec = None
                          /\ Outreach.rec_status rec <> Outreach.RecDelivered)
         (Outreach.records r)
    /\ prospects (snd (Outreach.outreach env options config w)) = prospects w
    /\ activity_log (snd (Outreach.outreach env options config w)) = activity_log w
    /\ calls (snd (Outreach.outreach env options config w)) = calls w
    /\ forall d,
         Ledger.prsOn d (snd (Outreach.outreach env options config w)) = Ledger.prsOn d w
         /\ Airdrop.airdropsOn d (snd (Outreach.outreach env options config w))
            = Airdrop.airdropsOn d w.
Proof.
  intros Hdry. unfold Outreach.outreach. rewrite Hdry.
  change (default false (Some true)) with true. cbn [negb andb].
  destruct (Db.getDailyLimits (startDate (Outreach.clock env)) w) as [dl w1] eqn:Hg.
  assert (Hw1 : w1 = snd (Db.getDailyLimits (startDate (Outreach.clock env)) w))
    by now rewrite Hg.
  cbn [snd].
  match goal with |- context [Outreach.loop env true ?cs ?acc] =>
    destruct (loop_dry env cs Outreach.emptyResult w1) as (Hw & Hs & Hall);
    destruct (Outreach.loop env true cs acc) as [r w2] end.
  cbn [fst snd] in *. subst w2. exists r.
  split; [reflexivity|]. split; [exact Hs|]. split; [apply Hall; constructor|].
  cbn [snd]. rewrite Hw1.
  destruct (getDailyLimits_rest (startDate (Outreach.clock env)) w) as (-> & -> & ->).
  do 3 (split; [reflexivity|]). intros d.
  now rewrite prsOn_getDailyLimits, airdropsOn_getDailyLimits.
Qed.

(** A dry run against a GitHub that is down, over zed, alice and nobody. *)
Lemma outreach_dry_run_writes_nothing_witness :
  exists r,
    fst (Outreach.outreach Examples2.githubDown Examples2.outreachDryRun
           Examples.config5 Examples.outreachWorld) = Some r
    /\ List.length (Outreach.records r) = 1%nat
    /\ calls (snd (Outreach.outreach Examples2.githubDown Examples2.outreachDryRun
                     Examples.config5 Examples.outreachWorld)) = [].
Proof.
  destruct (outreach_dry_run_writes_nothing Examples2.githubDown Examples2.outreachDryRun
              Examples.config5 Examples.outreachWorld eq_refl)
    as (r & Heq & _ & _ & _ & _ & Hcalls & _).
  exists r. split; [now rewrite Heq|]. split; [|exact Hcalls].
  assert (H : fst (Outreach.outreach Examples2.githubDown Examples2.outreachDryRun
                     Examples.config5 Examples.outreachWorld) = Some r)
    by now rewrite Heq.
  vm_compute in H. injection H as <-. reflexivity.
Defined.

(** ** Verifier: the addresses taken from comments *)

Section VerifierFacts.

Import Verifier.

Lemma takeClass_spec n : forall s run rest,
  takeClass n s = Some (run, rest) ->
  s = (run ++ rest)%string /\ String.length run = n
  /\ forallb Wallet.c32_class (Wallet.chars run) = true.
Proof.
  induction n as [|n IH]; intros s run rest H; cbn in H.
  - injection H as <- <-. auto.
  - destruct s as [|c s']; [discriminate|].
    destruct (Wallet.c32_class c) eqn:Hc; [|discriminate].
    destruct (takeClass n s') as [[run' rest']|] eqn:Ht; [|discriminate].
    injection H as <- <-. destruct (IH _ _ _ Ht) as (-> & <- & Hall).
    unfold Wallet.chars in *. cbn. rewrite Hc, Hall. auto.
Qed.

Lemma takeClass_all s :
  forallb Wallet.c32_class (Wallet.chars s) = true ->
  takeClass (String.length s) s = Some (s, EmptyString).
Proof.
  induction s as [|c s IH]; cbn; [reflexivity|].
  intros H. apply andb_true_iff in H as [-> H]. now rewrite IH.
Qed.

Lemma takeClass_short n : forall s,
  (String.length s < n)%nat -> takeClass n s = None.
Proof.
  induction n as [|n IH]; intros s H; [lia|].
  destruct s as [|c s]; cbn; [reflexivity|].
  cbn in H. rewrite IH by lia. now destruct (Wallet.c32_class c).
Qed.

Lemma class_is_word c : Wallet.c32_class c = true -> isWordChar c = true.
Proof. destruct c as [[] [] [] [] [] [] [] []]; vm_compute; congruence. Qed.

Lemma lastChar_class s :
  s <> EmptyString -> forallb Wallet.c32_class (Wallet.chars s) = true ->
  wordAt (lastChar s) = true.
Proof.
  induction s as [|c s IH]; [congruence|]. intros _ H.
  cbn in H. apply andb_true_iff in H as [Hc H].
  destruct s as [|c' s']; [cbn; now apply class_is_word|].
  change (lastChar (String c (String c' s'))) with (lastChar (String c' s')).
  apply IH; [discriminate | exact H].
Qed.

Lemma bodyOf_spec n s run :
  bodyOf n s = Some run ->
  String.length run = n /\ forallb Wallet.c32_class (Wallet.chars run) = true.
Proof.
  unfold bodyOf. destruct (takeClass n s) as [[run' rest]|] eqn:Ht; [|discriminate].
  destruct (boundary _ _); [|discriminate]. intros [= <-].
  now apply takeClass_spec in Ht.
Qed.

(** A body that fills the rest of the text is followed by a boundary. *)
Lemma bodyOf_all s :
  s <> EmptyString -> forallb Wallet.c32_class (Wallet.chars s) = true ->
  bodyOf (String.length s) s = Some s.
Proof.
  intros Hne H. unfold bodyOf. rewrite takeClass_all by exact H.
  unfold boundary. rewrite lastChar_class by assumption. reflexivity.
Qed.

Lemma bodyOf_short n s : (String.length s < n)%nat -> bodyOf n s = None.
Proof. intros H. unfold bodyOf. now rewrite takeClass_short. Qed.

Lemma prefixed_valid a b run :
  Ascii.eqb a "S" = true -> Ascii.eqb b "P" || Ascii.eqb b "T" = true ->
  (String.length run = 38 \/ String.length run = 39)%nat ->
  forallb Wallet.c32_class (Wallet.chars run) = true ->
  Wallet.isValidStacksAddress (String a (String b run)) = true.
Proof.
  intros Ha Hb Hlen Hall.
  unfold Wallet.isValidStacksAddress, Wallet.mainnetRegex, Wallet.testnetRegex,
    Wallet.test_prefixed.
  rewrite Ha, Hall. cbn [andb].
  assert (Hl : (String.length run =? 38)%nat || (String.length run =? 39)%nat = true).
  { apply orb_true_iff. rewrite !Nat.eqb_eq. exact Hlen. }
  rewrite Hl, !andb_true_r. exact Hb.
Qed.

Lemma matchAt_valid prev s m :
  matchAt prev s = Some m -> Wallet.isValidStacksAddress m = true.
Proof.
  unfold matchAt. destruct s as [|a [|b rest]]; try discriminate.
  destruct (boundary prev (Some a) && Ascii.eqb a "S"
            && (Ascii.eqb b "P" || Ascii.eqb b "T")) eqn:Hhead; [|discriminate].
  apply andb_true_iff in Hhead as [Hhead Hb].
  apply andb_true_iff in Hhead as [_ Ha].
  destruct (bodyOf 39 rest) as [run|] eqn:H39.
  - intros [= <-]. apply bodyOf_spec in H39 as [Hlen Hall].
    apply prefixed_valid; auto.
  - destruct (bodyOf 38 rest) as [run|] eqn:H38; [|discriminate].
    intros [= <-]. apply bodyOf_spec in H38 as [Hlen Hall].
    apply prefixed_valid; auto.
Qed.

Lemma scan_valid s : forall prev skip m,
  In m (scan prev skip s) -> Wallet.isValidStacksAddress m = true.
Proof.
  induction s as [|c s IH]; intros prev skip m Hin; [destruct Hin|].
  cbn [scan] in Hin. destruct skip as [|k]; [|now apply IH in Hin].
  destruct (matchAt prev (String c s)) as [m'|] eqn:Hm; [|now apply IH in Hin].
  destruct Hin as [<- | Hin]; [now apply matchAt_valid in Hm | now apply IH in Hin].
Qed.

Lemma scan_skips s : forall prev skip,
  (String.length s <= skip)%nat -> scan prev skip s = [].
Proof.
  induction s as [|c s IH]; intros prev skip H; [reflexivity|].
  cbn in H. destruct skip as [|k]; [lia|]. cbn [scan]. apply IH. lia.
Qed.

Lemma uniq_In l : forall seen x, In x (uniq seen l) -> In x l.
Proof.
  induction l as [|y l IH]; intros seen x Hin; [destruct Hin|].
  cbn [uniq] in Hin. destruct (existsb (String.eqb y) seen).
  - right. now apply IH in Hin.
  - destruct Hin as [<- | Hin]; [now left | right; now apply IH in Hin].
Qed.

Lemma extractAddresses_valid text a :
  In a (extractAddresses text) -> Wallet.isValidStacksAddress a = true.
Proof. intros Hin. apply uniq_In in Hin. now apply scan_valid in Hin. Qed.

(** A text that is a valid address and nothing more yields that address. *)
Lemma extractAddresses_self a :
  Wallet.isValidStacksAddress a = true -> extractAddresses a = [a].
Proof.
  intros Hv.
  assert (exists p1 p2 run, a = String p1 (String p2 run)
            /\ Ascii.eqb p1 "S" = true
            /\ (Ascii.eqb p2 "P" || Ascii.eqb p2 "T" = true)
            /\ (String.length run = 38 \/ String.length run = 39)%nat
            /\ forallb Wallet.c32_class (Wallet.chars run) = true)
    as (p1 & p2 & run & -> & H1 & H2 & Hlen & Hall).
  { unfold Wallet.isValidStacksAddress, Wallet.mainnetRegex, Wallet.testnetRegex,
      Wallet.test_prefixed in Hv.
    destruct a as [|p1 [|p2 run]]; try discriminate.
    exists p1, p2, run. split; [reflexivity|].
    apply orb_true_iff in Hv.
    rewrite !andb_true_iff, !orb_true_iff, !Nat.eqb_eq in Hv.
    rewrite orb_true_iff.
    destruct Hv as [[[[Ha Hb] Hall] Hlen] | [[[Ha Hb] Hall] Hlen]]; auto. }
  assert (Hm : matchAt None (String p1 (String p2 run))
               = Some (String p1 (String p2 run))).
  { unfold matchAt. rewrite H1, H2.
    apply Ascii.eqb_eq in H1. subst p1.
    change (boundary None (Some "S"%char)) with true. cbn [andb].
    assert (Hne : run <> EmptyString) by (intros ->; cbn in Hlen; lia).
    destruct Hlen as [Hlen | Hlen].
    - rewrite (bodyOf_short 39) by lia. rewrite <- Hlen.
      now rewrite bodyOf_all.
    - rewrite <- Hlen. now rewrite bodyOf_all. }
  unfold extractAddresses.
  change (scan None 0 (String p1 (String p2 run)))
    with (match matchAt None (String p1 (String p2 run)) with
          | Some m => m :: scan (Some p1) (String.length m - 1) (String p2 run)
          | None => scan (Some p1) 0 (String p2 run)
          end).
  rewrite Hm, scan_skips by (cbn [String.length]; lia). reflexivity.
Qed.

(** [processComment] gives an address only from a comment of the prospect
    (by login, whatever the case of the letters) whose login does not
    contain [bot]; the address is then the first one extracted from the
    body and it is valid. *)
Lemma processComment_cases comment prospect :
  processComment comment prospect = (None, false)
  \/ exists a rest,
       processComment comment prospect = (Some a, true)
       /\ extractAddresses (body comment) = a :: rest
       /\ Wallet.isValidStacksAddress a = true
       /\ Js.includes (login comment) "bot" = false
       /\ Js.toLowerCase (login comment) = Js.toLowerCase (githubUsername prospect).
Proof.
  unfold processComment.
  destruct (Js.includes (login comment) "bot"); [now left|].
  destruct (String.eqb_spec (Js.toLowerCase (login comment))
              (Js.toLowerCase (githubUsername prospect))) as [Hlogin|];
    cbn [negb]; [|now left].
  destruct (extractAddresses (body comment)) as [|a rest] eqn:Hex.
  - left. now destruct (isVerificationComment _).
  - right. exists a, rest.
    assert (Hv : Wallet.isValidStacksAddress a = true).
    { apply (extractAddresses_valid (body comment)). rewrite Hex. now left. }
    cbn [List.find]. rewrite Hv. auto.
Qed.

Lemma firstAddress_cases comments prospect :
  firstAddress comments prospect = None
  \/ exists comment a,
       firstAddress comments prospect = Some (comment, a, true)
       /\ In comment comments
       /\ In a (extractAddresses (body comment))
       /\ Wallet.isValidStacksAddress a = true
       /\ Js.includes (login comment) "bot" = false
       /\ Js.toLowerCase (login comment) = Js.toLowerCase (githubUsername prospect).
Proof.
  induction comments as [|comment rest IH]; [now left|].
  cbn [firstAddress].
  destruct (processComment_cases comment prospect)
    as [-> | (a & more & -> & Hex & Hv & Hbot & Hlogin)].
  - destruct IH as [-> | (c & a & -> & Hin & H)]; [now left|].
    right. exists c, a. split; [reflexivity|]. split; [now right | exact H].
  - destruct (Js.truthy_string a) eqn:Ht.
    + right. exists comment, a. split; [reflexivity|]. split; [now left|].
      split; [rewrite Hex; now left | auto].
    + destruct IH as [-> | (c & a' & -> & Hin & H)]; [now left|].
      right. exists c, a'. split; [reflexivity|]. split; [now right | exact H].
Qed.

End VerifierFacts.

(** X8. The verifier's pattern and the wallet's check agree. Every address
    [extractAddresses] takes from a text, whatever the text, is accepted by
    [isValidStacksAddress]; and a string is accepted by
    [isValidStacksAddress] exactly when [extractAddresses], given that
    string alone, returns it and nothing else. *)
Theorem extractAddresses_agrees_with_isValidStacksAddress :
  (forall text a, In a (Verifier.extractAddresses text) ->
     Wallet.isValidStacksAddress a = true)
  /\ (forall a, Wallet.isValidStacksAddress a = true
                <-> Verifier.extractAddresses a = [a]).
Proof.
  split; [exact extractAddresses_valid|]. intros a. split.
  - apply extractAddresses_self.
  - intros H. apply (extractAddresses_valid a). rewrite H. now left.
Qed.

(** ** The writes of the stages *)

Section WroteFacts.

Import Footprint.

Variable P : Write -> bool.

Lemma writes_app xs ys w : writes (xs ++ ys) w = writes ys (writes xs w).
Proof. unfold writes. apply fold_left_app. Qed.

Lemma wrote_refl w : wrote P w w.
Proof. exists []. split; reflexivity. Qed.

Lemma wrote_trans w1 w2 w3 : wrote P w1 w2 -> wrote P w2 w3 -> wrote P w1 w3.
Proof.
  intros (xs & -> & Hx) (ys & -> & Hy). exists (xs ++ ys)%list.
  split; [now rewrite writes_app | rewrite forallb_app, Hx, Hy; reflexivity].
Qed.

Lemma wrote_one x w : P x = true -> wrote P w (write x w).
Proof. intros H. exists [x]. split; [reflexivity | cbn; now rewrite H]. Qed.

Lemma wrote_call c w : P (Call c) = true -> wrote P w (Db.call c w).
Proof. apply (wrote_one (Call c)). Qed.

Lemma wrote_log a i d w : P (Log a i d) = true -> wrote P w (Db.logActivity a i d w).
Proof. apply (wrote_one (Log a i d)). Qed.

Lemma wrote_getDailyLimits today w :
  P (Ledger Db.GetDailyLimits today) = true ->
  wrote P w (snd (Db.getDailyLimits today w)).
Proof. apply (wrote_one (Ledger Db.GetDailyLimits today)). Qed.

Lemma wrote_incrementDailyPRs today w :
  P (Ledger Db.IncrementDailyPRs today) = true ->
  wrote P w (snd (Db.incrementDailyPRs today w)).
Proof. apply (wrote_one (Ledger Db.IncrementDailyPRs today)). Qed.

Lemma wrote_incrementDailyAirdrops today w :
  P (Ledger Db.IncrementDailyAirdrops today) = true ->
  wrote P w (snd (Db.incrementDailyAirdrops today w)).
Proof. apply (wrote_one (Ledger Db.IncrementDailyAirdrops today)). Qed.

Lemma wrote_score i s t stamp w :
  P (SetScore i s t stamp) = true -> wrote P w (Db.updateProspectScore i s t stamp w).
Proof. apply (wrote_one (SetScore i s t stamp)). Qed.

Lemma wrote_outreachUpdate i d stamp w :
  P (SetOutreach i d stamp) = true -> wrote P w (Db.updateProspectOutreach i d stamp w).
Proof. apply (wrote_one (SetOutreach i d stamp)). Qed.

Lemma wrote_verification i a valid at' stamp w :
  P (SetVerification i a valid at' stamp) = true ->
  wrote P w (DbVerification.updateProspectVerification i a valid at' stamp w).
Proof. apply (wrote_one (SetVerification i a valid at' stamp)). Qed.

Lemma wrote_airdropUpdate i d stamp w :
  P (SetAirdrop i d stamp) = true -> wrote P w (Db.updateProspectAirdrop i d stamp w).
Proof. apply (wrote_one (SetAirdrop i d stamp)). Qed.

(** An invariant that every write of the kind [P] keeps is kept. *)
Lemma wrote_preserves (I : World -> Prop) w w' :
  (forall x w, P x = true -> I w -> I (write x w)) ->
  wrote P w w' -> I w -> I w'.
Proof.
  intros Hstep (xs & -> & Hall). revert w.
  induction xs as [|x xs IH]; intros w Hw; [exact Hw|].
  cbn in Hall. apply andb_true_iff in Hall as [Hx Hall].
  cbn [writes fold_left]. apply (IH Hall). now apply Hstep.
Qed.

(** The same for a relation to the world at the start. *)
Lemma wrote_relates (R : World -> World -> Prop) w w' :
  (forall w, R w w) -> (forall w1 w2 w3, R w1 w2 -> R w2 w3 -> R w1 w3) ->
  (forall x w, P x = true -> R w (write x w)) ->
  wrote P w w' -> R w w'.
Proof.
  intros Hrefl Htrans Hstep H.
  apply (wrote_preserves (fun w' => R w w') w w'); [|exact H | apply Hrefl].
  intros x w0 Hx Hw0. eapply Htrans; [exact Hw0 | now apply Hstep].
Qed.

End WroteFacts.

Lemma wrote_weaken (P Q : Footprint.Write -> bool) w w' :
  (forall x, P x = true -> Q x = true) ->
  Footprint.wrote P w w' -> Footprint.wrote Q w w'.
Proof.
  intros HPQ (xs & -> & Hall). exists xs. split; [reflexivity|].
  rewrite forallb_forall in *. auto.
Qed.

Section StageWrites.

Import Footprint.

Lemma wrote_qualify_iteration clock options c acc :
  wrote qualifyWrite (snd acc) (snd (Qualify.iteration clock options c acc)).
Proof.
  destruct acc as [r w]. rewrite iteration_world. cbn [snd].
  destruct (Qualify.persisted clock options c); [|apply wrote_refl].
  cbn zeta.
  eapply wrote_trans; [|apply wrote_log; reflexivity]. now apply wrote_score.
Qed.

Lemma wrote_qualify clock options w :
  wrote qualifyWrite w (snd (Qualify.qualify clock options w)).
Proof.
  unfold Qualify.qualify, Qualify.loop.
  apply (fold_left_invariant _ (fun acc => wrote qualifyWrite w (snd acc)));
    [apply wrote_refl|].
  intros acc c _ Hacc. eapply wrote_trans; [exact Hacc|].
  apply wrote_qualify_iteration.
Qed.

Lemma wrote_callAll cs : forall w,
  forallb (fun c => outreachWrite (Call c)) cs = true ->
  wrote outreachWrite w (Outreach.callAll cs w).
Proof.
  unfold Outreach.callAll. induction cs as [|c cs IH]; intros w H; cbn [fold_left].
  - apply wrote_refl.
  - cbn [forallb] in H. apply andb_true_iff in H as [Hc H].
    eapply wrote_trans; [apply wrote_call; exact Hc | apply IH; exact H].
Qed.

Lemma outreachWrite_steps owner repo steps :
  forallb (fun c => outreachWrite (Call c))
    (List.map (Outreach.stepCall owner repo) steps) = true.
Proof. induction steps as [|[] steps IH]; cbn; auto. Qed.

Lemma wrote_sendOutreach env c dryRun w :
  wrote outreachWrite w (snd (Outreach.sendOutreach env c dryRun w)).
Proof.
  unfold Outreach.sendOutreach.
  destruct (Outreach.selectTargetRepo c) as [[owner repo]|]; [|apply wrote_refl].
  destruct dryRun; [apply wrote_refl|].
  destruct (Outreach.github env c); cbn [snd].
  - eapply wrote_trans; [|apply wrote_log; reflexivity].
    apply wrote_callAll, outreachWrite_steps.
  - eapply wrote_trans; [|apply wrote_log; reflexivity].
    eapply wrote_trans; [|apply wrote_incrementDailyPRs; reflexivity].
    eapply wrote_trans; [|apply wrote_outreachUpdate; reflexivity].
    apply wrote_callAll, outreachWrite_steps.
Qed.

Lemma wrote_outreach_iteration env dryRun c acc :
  wrote outreachWrite (snd acc) (snd (Outreach.iteration env dryRun c acc)).
Proof.
  destruct acc as [r w]. unfold Outreach.iteration.
  destruct (negb _); [apply wrote_refl|].
  pose proof (wrote_sendOutreach env c dryRun w) as H.
  destruct (Outreach.sendOutreach env c dryRun w) as [rec w']. exact H.
Qed.

Lemma wrote_outreach env options config w :
  wrote outreachWrite w (snd (Outreach.outreach env options config w)).
Proof.
  unfold Outreach.outreach.
  set (dryRun := default false (Outreach.o_dryRun options)).
  set (w0 := if dryRun then w else Db.call CheckAuth w).
  assert (H0 : wrote outreachWrite w w0).
  { subst w0. destruct dryRun; [apply wrote_refl | now apply wrote_call]. }
  destruct (negb dryRun && negb (Outreach.checkAuth env)); [exact H0|].
  assert (H1 : wrote outreachWrite w
                 (snd (Db.getDailyLimits (startDate (Outreach.clock env)) w0))).
  { eapply wrote_trans; [exact H0 | now apply wrote_getDailyLimits]. }
  destruct (Db.getDailyLimits (startDate (Outreach.clock env)) w0) as [dl w1].
  cbn [snd] in H1.
  destruct (negb dryRun && _); [exact H1|].
  destruct (Outreach.loop env dryRun _ _) as [r w2] eqn:E.
  cbn [snd]. change w2 with (snd (r, w2)). rewrite <- E.
  unfold Outreach.loop.
  apply (fold_left_invariant _ (fun acc => wrote outreachWrite w (snd acc)));
    [exact H1|].
  intros acc c _ Hacc. eapply wrote_trans; [exact Hacc|].
  apply wrote_outreach_iteration.
Qed.

Lemma wrote_verifyProspect env c w :
  wrote verifyWrite w (snd (fst (Verifier.verifyProspect env c w))).
Proof.
  unfold Verifier.verifyProspect.
  destruct (prUrl c) as [u|]; [|apply wrote_refl].
  destruct (negb (Js.truthy_string u)); [apply wrote_refl|].
  destruct (Github.parsePRUrl u) as [[[owner repo] n]|]; [|apply wrote_refl].
  destruct (Verifier.getPRComments env c) as [comments|]; [|apply wrote_refl].
  destruct (firstAddress_cases comments c) as [-> | (comment & a & -> & _ & _ & Hv & _)];
    [apply wrote_refl|].
  cbn [fst snd].
  eapply wrote_trans; [|now apply wrote_call].
  apply wrote_verification. cbn. exact Hv.
Qed.

Lemma wrote_verify_iteration env c acc :
  wrote verifyWrite (snd (fst acc)) (snd (fst (Verifier.iteration env c acc))).
Proof.
  destruct acc as [[r w] logged]. unfold Verifier.iteration.
  pose proof (wrote_verifyProspect env c w) as H.
  destruct (Verifier.verifyProspect env c w) as [[res w'] entries]. exact H.
Qed.

Lemma wrote_verify env options w :
  wrote verifyWrite w (snd (fst (Verifier.verify env options w))).
Proof.
  unfold Verifier.verify, Verifier.loop.
  apply (fold_left_invariant _ (fun acc => wrote verifyWrite w (snd (fst acc))));
    [apply wrote_refl|].
  intros acc c _ Hacc. eapply wrote_trans; [exact Hacc|].
  apply wrote_verify_iteration.
Qed.

Lemma wrote_manualVerify clock i a w :
  wrote verifyWrite w (snd (fst (Verifier.manualVerify clock i a w))).
Proof.
  unfold Verifier.manualVerify.
  destruct (Db.getProspectById i w); [|apply wrote_refl].
  destruct (Wallet.isValidStacksAddress a) eqn:Hv; cbn [negb fst snd];
    [|apply wrote_refl].
  apply wrote_verification. cbn. exact Hv.
Qed.

Lemma wrote_postComment p w : wrote airdropWrite w (Airdrop.postComment p w).
Proof.
  unfold Airdrop.postComment. destruct (prUrl p) as [u|]; [|apply wrote_refl].
  destruct (Js.truthy_string u); [|apply wrote_refl].
  destruct (Github.parsePRUrl u) as [[[o r] n]|];
    [now apply wrote_call | apply wrote_refl].
Qed.

Lemma wrote_processAirdrop env p amount w :
  wrote airdropWrite w (snd (Airdrop.processAirdrop env p amount w)).
Proof.
  unfold Airdrop.processAirdrop.
  destruct (Airdrop.sendSbtc env p amount) as [t|e]; [destruct (Airdrop.is_confirmed _)|];
    cbn [snd];
    repeat (first [ now apply wrote_call
                  | eapply wrote_trans; [|apply wrote_postComment]
                  | eapply wrote_trans; [|apply wrote_log; reflexivity]
                  | eapply wrote_trans; [|apply wrote_airdropUpdate; reflexivity]
                  | eapply wrote_trans; [|apply wrote_call; reflexivity] ]).
Qed.

Lemma wrote_airdrop_iteration env config oa tb c acc :
  wrote airdropWrite (snd acc) (snd (Airdrop.iteration env config oa tb c acc)).
Proof.
  destruct acc as [r w]. cbn [snd].
  destruct (Airdrop.processes config oa tb c) eqn:Hp.
  - destruct (iteration_processes env config oa tb c r w Hp) as (tx & w1 & Hpa & Hcase).
    pose proof (wrote_processAirdrop env c (Airdrop.determineAmount config oa c) w) as Hg.
    rewrite Hpa in Hg. cbn [snd] in Hg.
    destruct Hcase as [[_ ->] | [_ [n ->]]]; cbn [snd]; [exact Hg|].
    eapply wrote_trans; [exact Hg | now apply wrote_incrementDailyAirdrops].
  - rewrite iteration_skips by exact Hp. apply wrote_refl.
Qed.

Lemma wrote_airdrop env options config w :
  wrote airdropWrite w (snd (Airdrop.airdrop env options config w)).
Proof.
  assert (H1 : wrote airdropWrite w
                 (snd (Db.getDailyLimits (startDate (Airdrop.clock env)) w)))
    by now apply wrote_getDailyLimits.
  unfold Airdrop.airdrop.
  destruct (Db.getDailyLimits (startDate (Airdrop.clock env)) w) as [dl w1].
  cbn [snd] in H1.
  destruct (_ <=? 0); [exact H1|].
  assert (H2 : wrote airdropWrite w (Db.call GetWalletInfo (Db.call GetWalletAddress w1))).
  { eapply wrote_trans; [exact H1|].
    eapply wrote_trans; now apply wrote_call. }
  destruct (Airdrop.treasury env) as [| |b]; cbn [snd].
  - eapply wrote_trans; [exact H1 | now apply wrote_call].
  - exact H2.
  - destruct (Js.lt b Airdrop.MIN_TREASURY_BALANCE); [exact H2|].
    destruct (Airdrop.loop env config (Airdrop.o_amount options) b _ _) as [r w3] eqn:E.
    cbn [snd]. change w3 with (snd (r, w3)). rewrite <- E.
    unfold Airdrop.loop.
    apply (fold_left_invariant _ (fun acc => wrote airdropWrite w (snd acc)));
      [exact H2|].
    intros acc c _ Hacc. eapply wrote_trans; [exact Hacc|].
    apply wrote_airdrop_iteration.
Qed.

End StageWrites.

(** X9. Each stage changes the world only through its own statements,
    whatever its options and whatever the outside world answers. A run of
    qualify only sets scores and logs them. A run of outreach only calls
    GitHub, sets rows to [pr_opened], counts pull requests and logs. A run
    of verify, or a call of manualVerify, besides the log entries it
    returns, only posts comments and stores addresses that
    [isValidStacksAddress] accepts, marked valid. A run of airdrop only
    calls the wallet, the network and GitHub comments, sets payout columns
    (never back to [pending]), counts payouts and logs. *)
Theorem stages_write_only_their_own
    (clock : Clock) (qopts : Qualify.QualifyOptions)
    (oenv : Outreach.Env) (oopts : Outreach.OutreachOptions)
    (venv : Verifier.Env) (vopts : Verifier.VerifyOptions)
    (i : Z) (address : string)
    (aenv : Airdrop.Env) (aopts : Airdrop.AirdropOptions)
    (config : Config) (w : World) :
  Footprint.wrote Footprint.qualifyWrite w (snd (Qualify.qualify clock qopts w))
  /\ Footprint.wrote Footprint.outreachWrite w
       (snd (Outreach.outreach oenv oopts config w))
  /\ Footprint.wrote Footprint.verifyWrite w
       (snd (fst (Verifier.verify venv vopts w)))
  /\ Footprint.wrote Footprint.verifyWrite w
       (snd (fst (Verifier.manualVerify clock i address w)))
  /\ Footprint.wrote Footprint.airdropWrite w
       (snd (Airdrop.airdrop aenv aopts config w)).
Proof.
  split; [apply wrote_qualify|]. split; [apply wrote_outreach|].
  split; [apply wrote_verify|]. split; [apply wrote_manualVerify | apply wrote_airdrop].
Qed.

Lemma grows_write x w : Keeps.grows w (Footprint.write x w).
Proof.
  destruct x; cbn [Footprint.write].
  - apply grows_call.
  - apply grows_log.
  - destruct op; cbn [Db.run_op];
      [apply grows_getDailyLimits | apply grows_incrementDailyPRs
      | apply grows_incrementDailyAirdrops].
  - now apply grows_update.
  - now apply grows_update.
  - now apply grows_update.
  - now apply grows_update.
Qed.

(** X10. No stage after the scan adds a row or loses anything of the
    store. Whatever the options and the answers of the outside world, a run
    of qualify, of outreach, of verify or of airdrop, and a call of
    manualVerify, leave the prospects table with the same rows by id in the
    same order (none added, deleted or renumbered), only append to the
    activity log and to the recorded external calls, and remove no ledger
    row and lower no ledger counter. *)
Theorem stages_keep_rows_log_and_ledger
    (clock : Clock) (qopts : Qualify.QualifyOptions)
    (oenv : Outreach.Env) (oopts : Outreach.OutreachOptions)
    (venv : Verifier.Env) (vopts : Verifier.VerifyOptions)
    (i : Z) (address : string)
    (aenv : Airdrop.Env) (aopts : Airdrop.AirdropOptions)
    (config : Config) (w : World) :
  Keeps.grows w (snd (Qualify.qualify clock qopts w))
  /\ Keeps.grows w (snd (Outreach.outreach oenv oopts config w))
  /\ Keeps.grows w (snd (fst (Verifier.verify venv vopts w)))
  /\ Keeps.grows w (snd (fst (Verifier.manualVerify clock i address w)))
  /\ Keeps.grows w (snd (Airdrop.airdrop aenv aopts config w)).
Proof.
  split; [apply grows_qualify|]. split; [apply grows_outreach|].
  split; [|split; [|apply grows_airdrop]].
  - apply (wrote_relates Footprint.verifyWrite Keeps.grows);
      [apply grows_refl | apply grows_trans | intros x w0 _; apply grows_write
      | apply wrote_verify].
  - apply (wrote_relates Footprint.verifyWrite Keeps.grows);
      [apply grows_refl | apply grows_trans | intros x w0 _; apply grows_write
      | apply wrote_manualVerify].
Qed.

(** ** Invariants of the table across the commands *)

Section InvariantFacts.

Import Footprint Pipeline.

Lemma In_update_where_id i f w row :
  In row (prospects (Db.update_where_id i f w)) ->
  exists p, In p (prospects w) /\ row = (if id p =? i then f p else p).
Proof.
  unfold Db.update_where_id. cbn [prospects Db.with_prospects].
  rewrite in_map_iff. intros (p & <- & Hin). eauto.
Qed.

Lemma run_op_rest op today w :
  prospects (Db.run_op op today w) = prospects w
  /\ calls (Db.run_op op today w) = calls w.
Proof.
  destruct op; cbn [Db.run_op].
  - destruct (getDailyLimits_rest today w) as (? & _ & ?); auto.
  - destruct (incrementDailyPRs_rest today w) as (? & _ & ?); auto.
  - destruct (incrementDailyAirdrops_rest today w) as (? & _ & ?); auto.
Qed.

(** A write other than a payout leaves the transfers recorded as they
    were, and each row with its id and its payout status. *)
Lemma noPayout_write x w :
  noPayout x = true ->
  (forall i, List.filter (Airdrop.sendsFor i) (calls (write x w))
             = List.filter (Airdrop.sendsFor i) (calls w))
  /\ (forall i a n, In (SendSbtc i a n) (calls (write x w)) ->
        In (SendSbtc i a n) (calls w))
  /\ id <$> prospects (write x w) = id <$> prospects w
  /\ (forall row, In row (prospects (write x w)) ->
        exists row0, In row0 (prospects w) /\ id row = id row0
                     /\ airdropStatus row = airdropStatus row0).
Proof.
  intros Hx.
  assert (Hupd : forall i f,
            (forall p, id (f p) = id p) ->
            (forall p, airdropStatus (f p) = airdropStatus p) ->
            id <$> prospects (Db.update_where_id i f w) = id <$> prospects w
            /\ (forall row, In row (prospects (Db.update_where_id i f w)) ->
                  exists row0, In row0 (prospects w) /\ id row = id row0
                               /\ airdropStatus row = airdropStatus row0)).
  { intros i f Hid Hst. split; [now apply map_id_update|].
    intros row Hin. apply In_update_where_id in Hin as (p & Hp & ->).
    exists p. split; [exact Hp|]. destruct (id p =? i); auto. }
  destruct x as [c|a0 i0 d0|op today|i s t stamp|i d stamp
                |i address valid at' stamp|i d stamp];
    try discriminate; cbn [write].
  - unfold Db.call. cbn [calls prospects]. split; [|split; [|split]].
    + intros i. rewrite List.filter_app. cbn [List.filter].
      destruct c; try discriminate; cbn; apply app_nil_r.
    + intros i a n Hin. apply in_app_or in Hin as [Hin | [-> | []]];
        [exact Hin | cbn in Hx; discriminate].
    + reflexivity.
    + intros row Hin. eauto.
  - cbn. repeat split; auto. intros row Hin. eauto.
  - destruct (run_op_rest op today w) as [-> ->]. repeat split; auto.
    intros row Hin. eauto.
  - destruct (Hupd i (Db.set_score s t stamp)) as [H1 H2]; try reflexivity.
    repeat split; auto.
  - destruct (Hupd i (Db.set_outreach d stamp)) as [H1 H2]; try reflexivity.
    repeat split; auto.
  - destruct (Hupd i (DbVerification.set_verification address valid at' stamp))
      as [H1 H2]; try reflexivity.
    repeat split; auto.
Qed.

Lemma settled_write x w : noPayout x = true -> settled w -> settled (write x w).
Proof.
  intros Hx [Hnd Hs]. destruct (noPayout_write x w Hx) as (Hc & _ & Hid & Hrows).
  split; [now rewrite Hid|]. intros i.
  unfold sendsTo in *. rewrite Hc, Hid. destruct (Hs i) as [Hle Hpaid].
  split; [exact Hle|]. intros Hpos. destruct (Hpaid Hpos) as [Hin Hset].
  split; [exact Hin|]. intros row Hin' Hrow.
  destruct (Hrows row Hin') as (row0 & Hin0 & Hid0 & Hst0).
  rewrite Hst0. apply (Hset row0 Hin0). congruence.
Qed.

Lemma sendsChecked_write x w :
  noPayout x = true -> sendsChecked w -> sendsChecked (write x w).
Proof.
  intros Hx Hs i a n Hin. destruct (noPayout_write x w Hx) as (_ & Hc & _).
  eapply Hs, Hc, Hin.
Qed.

Lemma addressesChecked_write x w :
  checkedAddress x = true -> addressesChecked w -> addressesChecked (write x w).
Proof.
  intros Hx Hw.
  assert (Hupd : forall i f,
            (forall p, stacksAddress (f p) = stacksAddress p
                       /\ addressValid (f p) = addressValid p) ->
            addressesChecked (Db.update_where_id i f w)).
  { intros i f Hf row Hin Hvalid.
    apply In_update_where_id in Hin as (p & Hp & ->).
    destruct (id p =? i); [|now apply Hw].
    destruct (Hf p) as [Ha Hv]. rewrite Ha. rewrite Hv in Hvalid. now apply Hw. }
  destruct x as [c|a0 i0 d0|op today|i s t stamp|i d stamp
                |i address valid at' stamp|i d stamp]; cbn [write].
  - exact Hw.
  - exact Hw.
  - intros row Hin. destruct (run_op_rest op today w) as [Hp _].
    rewrite Hp in Hin. now apply Hw.
  - apply Hupd. intros p. split; reflexivity.
  - apply Hupd. intros p. split; reflexivity.
  - intros row Hin Hvalid.
    apply In_update_where_id in Hin as (p & Hp & ->).
    destruct (id p =? i); [|now apply Hw].
    cbn in Hx. apply andb_true_iff in Hx as [_ Hx].
    exists address. split; [reflexivity | exact Hx].
  - apply Hupd. intros p. split; reflexivity.
Qed.

Lemma qualifyWrite_neutral x :
  qualifyWrite x = true -> noPayout x = true /\ checkedAddress x = true.
Proof. destruct x as [[]| | | | | |]; cbn; auto; discriminate. Qed.

Lemma outreachWrite_neutral x :
  outreachWrite x = true -> noPayout x = true /\ checkedAddress x = true.
Proof. destruct x as [[]| | | | | |]; cbn; auto; discriminate. Qed.

Lemma verifyWrite_neutral x :
  verifyWrite x = true -> noPayout x = true /\ checkedAddress x = true.
Proof. destruct x as [[]| | | | | |]; cbn; auto; discriminate. Qed.

Lemma airdropWrite_checked x : airdropWrite x = true -> checkedAddress x = true.
Proof. destruct x as [[]| | | | | |]; cbn; auto; discriminate. Qed.

(** *** The loop of airdrop *)

Lemma postComment_rest p w :
  prospects (Airdrop.postComment p w) = prospects w
  /\ (forall i, List.filter (Airdrop.sendsFor i) (calls (Airdrop.postComment p w))
                = List.filter (Airdrop.sendsFor i) (calls w))
  /\ (forall i a n, In (SendSbtc i a n) (calls (Airdrop.postComment p w)) ->
        In (SendSbtc i a n) (calls w)).
Proof.
  unfold Airdrop.postComment. destruct (prUrl p) as [u|]; [|auto].
  destruct (Js.truthy_string u); [|auto].
  destruct (Github.parsePRUrl u) as [[[o r] n]|]; [|auto].
  destruct (noPayout_write (Call (PostPRComment o r n)) w eq_refl) as (Hc & Hi & _).
  split; [reflexivity|]. split; [exact Hc | exact Hi].
Qed.

(** What a payout does for its own prospect: one transfer is recorded, to
    the address of the prospect, and the rows of that id are left with a
    status other than pending. *)
Lemma processAirdrop_own env p amount w :
  List.filter (Airdrop.sendsFor (id p))
    (calls (snd (Airdrop.processAirdrop env p amount w)))
  = (List.filter (Airdrop.sendsFor (id p)) (calls w)
     ++ [SendSbtc (id p) (default "" (stacksAddress p)) amount])%list
  /\ (forall row, In row (prospects (snd (Airdrop.processAirdrop env p amount w))) ->
        id row = id p -> airdropStatus row <> AirdropPending)
  /\ (forall i a n,
        In (SendSbtc i a n) (calls (snd (Airdrop.processAirdrop env p amount w))) ->
        In (SendSbtc i a n) (calls w)
        \/ (i = id p /\ a = default "" (stacksAddress p) /\ n = amount)).
Proof.
  assert (Hsend : Airdrop.sendsFor (id p)
                    (SendSbtc (id p) (default "" (stacksAddress p)) amount) = true)
    by (cbn; apply Z.eqb_refl).
  assert (Hrow : forall d stamp w0 row,
            Db.u_airdropStatus d <> AirdropPending ->
            In row (prospects (Db.updateProspectAirdrop (id p) d stamp w0)) ->
            id row = id p -> airdropStatus row <> AirdropPending).
  { intros d stamp w0 row Hd Hin Hid.
    apply In_update_where_id in Hin as (p0 & _ & ->).
    destruct (Z.eqb_spec (id p0) (id p)) as [_|Hne]; [exact Hd|].
    now destruct Hne. }
  unfold Airdrop.processAirdrop.
  destruct (Airdrop.sendSbtc env p amount) as [t|e];
    [destruct (Airdrop.is_confirmed _)|]; cbn [snd].
  - match goal with |- context [Airdrop.postComment p ?w0] =>
      destruct (postComment_rest p w0) as (Hp & Hc & Hi) end.
    rewrite Hp, Hc. split; [|split].
    + cbn. rewrite !List.filter_app. cbn [List.filter]. rewrite Hsend. cbn.
      now rewrite !app_nil_r.
    + intros row Hin. eapply Hrow; [|exact Hin]. discriminate.
    + intros i a n Hin. apply Hi in Hin. cbn in Hin.
      apply in_app_or in Hin as [Hin | [Hin | []]]; [|discriminate].
      apply in_app_or in Hin as [Hin | [Hin | []]]; [now left|].
      injection Hin as <- <- <-. now right.
  - split; [|split].
    + cbn. rewrite !List.filter_app. cbn [List.filter]. rewrite Hsend. cbn.
      now rewrite !app_nil_r.
    + intros row Hin. eapply Hrow; [|exact Hin]. discriminate.
    + intros i a n Hin. cbn in Hin.
      apply in_app_or in Hin as [Hin | [Hin | []]]; [|discriminate].
      apply in_app_or in Hin as [Hin | [Hin | []]]; [now left|].
      injection Hin as <- <- <-. now right.
  - match goal with |- context [Airdrop.postComment p ?w0] =>
      destruct (postComment_rest p w0) as (Hp & Hc & Hi) end.
    rewrite Hp, Hc. split; [|split].
    + cbn. rewrite !List.filter_app. cbn [List.filter]. rewrite Hsend. reflexivity.
    + intros row Hin. eapply Hrow; [|exact Hin]. discriminate.
    + intros i a n Hin. apply Hi in Hin. cbn in Hin.
      apply in_app_or in Hin as [Hin | [Hin | []]]; [now left|].
      injection Hin as <- <- <-. now right.
Qed.

Lemma settledBefore_tail c cs w : settledBefore (c :: cs) w -> settledBefore cs w.
Proof.
  intros [Hnd Hs]. split; [exact Hnd|]. intros i. destruct (Hs i) as [Hle Hpaid].
  split; [exact Hle|]. intros Hpos. destruct (Hpaid Hpos) as (Hin & Hrows & Hcs).
  split; [exact Hin|]. split; [exact Hrows|]. intros c' Hin'. apply Hcs. now right.
Qed.

Lemma airdrop_iteration_settled env config oa tb c cs r w :
  ~ In (id c) (id <$> cs) ->
  In (id c) (id <$> prospects w) ->
  settledBefore (c :: cs) w ->
  settledBefore cs (snd (Airdrop.iteration env config oa tb c (r, w)))
  /\ id <$> prospects (snd (Airdrop.iteration env config oa tb c (r, w)))
     = id <$> prospects w.
Proof.
  intros Hfresh Hrowc Hinv.
  split; [|apply (grows_airdrop_iteration env config oa tb c (r, w))].
  destruct (Airdrop.processes config oa tb c) eqn:Hp;
    [|rewrite iteration_skips by exact Hp; now apply settledBefore_tail in Hinv].
  destruct (iteration_processes env config oa tb c r w Hp) as (tx & w1 & Hpa & Hcase).
  pose proof (processAirdrop_only_for env c (Airdrop.determineAmount config oa c) w)
    as (Hothers & Hcalls & _).
  pose proof (processAirdrop_own env c (Airdrop.determineAmount config oa c) w)
    as (Hown & Hownrows & _).
  pose proof (grows_processAirdrop env c (Airdrop.determineAmount config oa c) w)
    as (Hids & _).
  rewrite Hpa in Hothers, Hcalls, Hown, Hownrows, Hids. cbn [snd] in *.
  assert (Hfinal : prospects (snd (Airdrop.iteration env config oa tb c (r, w)))
                   = prospects w1
                   /\ calls (snd (Airdrop.iteration env config oa tb c (r, w)))
                      = calls w1).
  { destruct Hcase as [[_ ->] | [_ [n ->]]]; cbn [snd]; [auto|].
    destruct (incrementDailyAirdrops_rest (todayDate (Airdrop.clock env) (id c)) w1)
      as (? & _ & ?). auto. }
  destruct Hfinal as [Hfp Hfc].
  destruct Hinv as [Hnd Hs].
  assert (Hzero : sendsTo (id c) w = 0%nat).
  { destruct (Hs (id c)) as [Hle Hpaid].
    destruct (sendsTo (id c) w) as [|k] eqn:E; [reflexivity|].
    destruct (Hpaid ltac:(lia)) as (_ & _ & Hcs).
    exfalso. apply (Hcs c); [now left | reflexivity |].
    now apply processes_pending in Hp. }
  split; [rewrite Hfp, Hids; exact Hnd|].
  intros i. unfold sendsTo in *. rewrite Hfc, Hfp.
  destruct (Z.eq_dec i (id c)) as [-> | Hne].
  - rewrite Hown, length_app, Hzero. cbn [List.length]. split; [lia|].
    intros _. split; [rewrite Hids; exact Hrowc|].
    split; [intros row Hin Hid; now apply Hownrows|].
    intros c' Hin' Hid'. exfalso. apply Hfresh.
    rewrite <- Hid'. apply in_map_iff. exists c'. split; [reflexivity | exact Hin'].
  - rewrite (Hcalls i Hne). destruct (Hs i) as [Hle Hpaid]. split; [exact Hle|].
    intros Hpos. destruct (Hpaid Hpos) as (Hini & Hrows & Hcs).
    split; [rewrite Hids; exact Hini|]. split.
    + intros row Hin Hid.
      apply In_lookup in Hin as (k & Hk).
      assert (Hk0 : exists row0, prospects w !! k = Some row0 /\ id row0 = id row).
      { assert (E : (id <$> prospects w1) !! k = Some (id row))
          by (rewrite list_lookup_fmap, Hk; reflexivity).
        rewrite Hids, list_lookup_fmap in E.
        destruct (prospects w !! k) as [row0|]; [|discriminate].
        exists row0. split; [reflexivity|]. now injection E. }
      destruct Hk0 as (row0 & Hk0 & Hid0).
      rewrite (Hothers k row0 Hk0 ltac:(congruence)) in Hk. injection Hk as <-.
      apply Hrows; [now apply lookup_In in Hk0 | exact Hid].
    + intros c' Hin'. apply Hcs. now right.
Qed.

Lemma airdrop_loop_settled env config oa tb cs : forall r w,
  NoDup (id <$> cs) ->
  (forall c, In c cs -> In (id c) (id <$> prospects w)) ->
  settledBefore cs w ->
  settled (snd (Airdrop.loop env config oa tb cs (r, w))).
Proof.
  induction cs as [|c cs IH]; intros r w Hnd Hrows Hinv.
  - destruct Hinv as [Hn Hs]. split; [exact Hn|]. intros i.
    destruct (Hs i) as [Hle Hpaid]. split; [exact Hle|].
    intros Hpos. destruct (Hpaid Hpos) as (H1 & H2 & _). auto.
  - rewrite airdrop_loop_cons. csimpl in Hnd. apply NoDup_cons in Hnd as [Hfresh Hnd].
    pose proof (airdrop_iteration_settled env config oa tb c cs r w
                  ltac:(intros H; apply Hfresh; now apply list_elem_of_In)
                  (Hrows c ltac:(now left)) Hinv) as [H1 Hids].
    destruct (Airdrop.iteration env config oa tb c (r, w)) as [r1 w1].
    cbn [snd] in *. apply IH; [exact Hnd | | exact H1].
    intros c' Hin. rewrite Hids. apply Hrows. now right.
Qed.

Lemma NoDup_ids_filter (f : Prospect -> bool) l :
  NoDup (id <$> l) -> NoDup (id <$> List.filter f l).
Proof.
  induction l as [|p l IH]; csimpl; [auto|]. intros H.
  apply NoDup_cons in H as [Hp H]. destruct (f p); csimpl; [|auto].
  apply NoDup_cons. split; [|auto].
  intros Hin. apply Hp. apply list_elem_of_In in Hin. apply list_elem_of_In.
  apply in_map_iff in Hin as (q & Hq & Hin). apply filter_In in Hin as [Hin _].
  apply in_map_iff. eauto.
Qed.

Lemma NoDup_ids_firstn n : forall l : list Prospect,
  NoDup (id <$> l) -> NoDup (id <$> firstn n l).
Proof.
  induction n as [|n IH]; intros [|p l]; csimpl; auto using NoDup_nil_2.
  intros H. apply NoDup_cons in H as [Hp H]. apply NoDup_cons. split; [|auto].
  intros Hin. apply Hp. apply list_elem_of_In in Hin. apply list_elem_of_In.
  apply in_map_iff in Hin as (q & Hq & Hin). apply In_firstn in Hin.
  apply in_map_iff. eauto.
Qed.

Lemma selected_NoDup options eff w :
  NoDup (id <$> prospects w) -> NoDup (id <$> Airdrop.selected options eff w).
Proof.
  intros Hnd. unfold Airdrop.selected, Js.slice0.
  assert (Hg : NoDup (id <$> Airdrop.gathered options w)).
  { unfold Airdrop.gathered. destruct (Airdrop.hasProspectId options).
    - destruct (Airdrop.o_prospectId options) as [i|]; [|constructor].
      destruct (Db.getProspectById i w); csimpl;
        [apply NoDup_singleton | constructor].
    - destruct (default true (Airdrop.o_pending options)); [|constructor].
      unfold Db.getProspects, Airdrop.pendingFilter, Db.sql_limit. cbn [Db.f_limit].
      now do 2 apply NoDup_ids_filter. }
  destruct (eff <? 0); now apply NoDup_ids_firstn.
Qed.

Lemma airdrop_settled env options config w :
  settled w -> settled (snd (Airdrop.airdrop env options config w)).
Proof.
  intros [Hnd Hs].
  destruct (airdrop_cases env options config w)
    as [(w' & -> & Hp & Hc & _) | (b & eff & ->)].
  - split; [now rewrite Hp|]. intros i. unfold sendsTo. rewrite Hc, Hp. apply Hs.
  - cbn [snd].
    set (w2 := Db.call GetWalletInfo (Db.call GetWalletAddress
                 (snd (Db.getDailyLimits (startDate (Airdrop.clock env)) w)))).
    assert (Hp2 : prospects w2 = prospects w)
      by (subst w2; cbn; apply getDailyLimits_rest).
    assert (Hc2 : forall i, List.filter (Airdrop.sendsFor i) (calls w2)
                            = List.filter (Airdrop.sendsFor i) (calls w)).
    { intros i. subst w2. cbn. rewrite !List.filter_app. cbn.
      destruct (getDailyLimits_rest (startDate (Airdrop.clock env)) w) as (_ & _ & ->).
      now rewrite !app_nil_r. }
    apply airdrop_loop_settled.
    + apply selected_NoDup. now rewrite Hp2.
    + intros c Hin. apply In_slice0, gathered_rows in Hin.
      apply in_map_iff. eauto.
    + split; [now rewrite Hp2|]. intros i. unfold sendsTo. rewrite Hc2, Hp2.
      destruct (Hs i) as [Hle Hpaid]. split; [exact Hle|]. intros Hpos.
      destruct (Hpaid Hpos) as [Hini Hset].
      split; [exact Hini|]. split; [exact Hset|].
      intros c Hin. apply Hset.
      apply In_slice0, gathered_rows in Hin. now rewrite Hp2 in Hin.
Qed.

(** Transfers go to the address of a candidate marked valid. *)
Lemma airdrop_iteration_checked env config oa tb c r w :
  (addressValid c = true ->
   exists a, stacksAddress c = Some a /\ Wallet.isValidStacksAddress a = true) ->
  sendsChecked w ->
  sendsChecked (snd (Airdrop.iteration env config oa tb c (r, w))).
Proof.
  intros Hc Hw.
  destruct (Airdrop.processes config oa tb c) eqn:Hp;
    [|now rewrite iteration_skips by exact Hp].
  destruct (iteration_processes env config oa tb c r w Hp) as (tx & w1 & Hpa & Hcase).
  pose proof (processAirdrop_own env c (Airdrop.determineAmount config oa c) w)
    as (_ & _ & Hsends).
  rewrite Hpa in Hsends. cbn [snd] in Hsends.
  assert (Hfc : calls (snd (Airdrop.iteration env config oa tb c (r, w))) = calls w1).
  { destruct Hcase as [[_ ->] | [_ [n ->]]]; cbn [snd]; [auto|].
    apply incrementDailyAirdrops_rest. }
  intros i a n Hin. rewrite Hfc in Hin.
  destruct (Hsends i a n Hin) as [Hold | (_ & -> & _)]; [now apply (Hw i a n)|].
  apply processes_facts in Hp as (_ & Hvalid & _).
  destruct (Hc Hvalid) as (a & -> & Hv). exact Hv.
Qed.

Lemma airdrop_loop_checked env config oa tb cs : forall r w,
  (forall c, In c cs -> addressValid c = true ->
     exists a, stacksAddress c = Some a /\ Wallet.isValidStacksAddress a = true) ->
  sendsChecked w ->
  sendsChecked (snd (Airdrop.loop env config oa tb cs (r, w))).
Proof.
  induction cs as [|c cs IH]; intros r w Hcs Hw; [exact Hw|].
  rewrite airdrop_loop_cons.
  pose proof (airdrop_iteration_checked env config oa tb c r w
                (Hcs c ltac:(now left)) Hw) as H1.
  destruct (Airdrop.iteration env config oa tb c (r, w)) as [r1 w1].
  apply IH; [|exact H1]. intros c' Hin. apply Hcs. now right.
Qed.

Lemma airdrop_checked env options config w :
  addressesChecked w -> sendsChecked w ->
  sendsChecked (snd (Airdrop.airdrop env options config w)).
Proof.
  intros Ha Hs.
  destruct (airdrop_cases env options config w)
    as [(w' & -> & Hp & Hc & _) | (b & eff & ->)].
  - intros i a n Hin. apply (Hs i a n).
    assert (Hf : In (SendSbtc i a n) (List.filter (Airdrop.sendsFor i) (calls w'))).
    { apply filter_In. split; [exact Hin | cbn; apply Z.eqb_refl]. }
    rewrite Hc in Hf. now apply filter_In in Hf.
  - cbn [snd]. apply airdrop_loop_checked.
    + intros c Hin. apply Ha.
      apply In_slice0, gathered_rows in Hin. cbn in Hin.
      now rewrite (proj1 (getDailyLimits_rest _ _)) in Hin.
    + intros i a n Hin. cbn in Hin.
      rewrite (proj2 (proj2 (getDailyLimits_rest _ _))) in Hin.
      apply in_app_or in Hin as [Hin | [Hin | []]]; [|discriminate].
      apply in_app_or in Hin as [Hin | [Hin | []]]; [|discriminate].
      now apply (Hs i a n).
Qed.

End InvariantFacts.

(** ** What a run of verify reports *)

Section VerifyFacts.

Import Verifier.

(** A prospect is left awaiting, nothing stored, or an address taken from
    a comment of the prospect is stored as verified. *)
Lemma verifyProspect_cases env c w :
  (v_status (fst (fst (verifyProspect env c w))) = AwaitingResponse
   /\ v_stacksAddress (fst (fst (verifyProspect env c w))) = None
   /\ isValid (fst (fst (verifyProspect env c w))) = false
   /\ snd (fst (verifyProspect env c w)) = w
   /\ Forall (fun e => e = ErrorLog (id c)) (snd (verifyProspect env c w)))
  \/ (exists comments comment a,
        getPRComments env c = Some comments
        /\ In comment comments
        /\ In a (extractAddresses (body comment))
        /\ Wallet.isValidStacksAddress a = true
        /\ Js.includes (login comment) "bot" = false
        /\ Js.toLowerCase (login comment) = Js.toLowerCase (githubUsername c)
        /\ v_status (fst (fst (verifyProspect env c w))) = AddressVerified
        /\ v_stacksAddress (fst (fst (verifyProspect env c w))) = Some a
        /\ isValid (fst (fst (verifyProspect env c w))) = true
        /\ commentUrl (fst (fst (verifyProspect env c w))) = Some (html_url comment)
        /\ prospects (snd (fst (verifyProspect env c w)))
           = prospects (DbVerification.updateProspectVerification (id c) a true
                          (nowIso (clock env) (id c) 0)
                          (nowIso (clock env) (id c) 1) w)
        /\ Forall (fun e => e = ErrorLog (id c)
                            \/ e = AddressVerifiedLog (id c) a (html_url comment))
             (snd (verifyProspect env c w))).
Proof.
  unfold verifyProspect.
  destruct (prUrl c) as [u|]; [|left; cbn; auto].
  destruct (negb (Js.truthy_string u)); [left; cbn; auto|].
  destruct (Github.parsePRUrl u) as [[[owner repo] n]|]; [|left; cbn; auto].
  destruct (getPRComments env c) as [comments|] eqn:Hget;
    [|left; cbn; repeat split; auto].
  destruct (firstAddress_cases comments c)
    as [-> | (comment & a & -> & Hin & Hex & Hv & Hbot & Hlogin)];
    [left; cbn; auto|].
  right. exists comments, comment, a. cbn [fst snd v_status v_stacksAddress isValid
    commentUrl].
  do 6 (split; [assumption || reflexivity|]).
  do 5 (split; [reflexivity|]).
  destruct (postPRComment env c); constructor; auto.
Qed.

Lemma verify_loop_facts env cs : forall r w logged,
  let out := loop env cs (r, w, logged) in
  invalid (fst (fst out)) = invalid r
  /\ verified (fst (fst out)) + pending (fst (fst out))
     = verified r + pending r + Z.of_nat (List.length cs)
  /\ verified r <= verified (fst (fst out))
  /\ (forall res, In res (results (fst (fst out))) ->
        In res (results r)
        \/ (v_status res = AwaitingResponse /\ v_stacksAddress res = None
            /\ isValid res = false)
        \/ (v_status res = AddressVerified /\ isValid res = true
            /\ exists a, v_stacksAddress res = Some a
                         /\ Wallet.isValidStacksAddress a = true))
  /\ (forall e, In e (snd out) ->
        In e logged \/ (forall i a, e <> AddressInvalidLog i a)).
Proof.
  induction cs as [|c cs IH]; intros r w logged.
  - cbn. repeat split; auto; lia.
  - cbn zeta.
    change (loop env (c :: cs) (r, w, logged))
      with (loop env cs (iteration env c (r, w, logged))).
    unfold iteration.
    pose proof (verifyProspect_cases env c w) as Hcase.
    destruct (verifyProspect env c w) as [[res w'] entries]. cbn [fst snd] in Hcase.
    match goal with |- context [loop env cs (?r1, w', ?l1)] =>
      specialize (IH r1 w' l1); cbn zeta in IH;
      destruct IH as (Hinv & Hsum & Hmono & Hres & Hlog) end.
    cbn [invalid verified pending results] in *.
    assert (Hst : (v_status res = AwaitingResponse /\ v_stacksAddress res = None
                   /\ isValid res = false
                   /\ Forall (fun e => forall i a, e <> AddressInvalidLog i a) entries)
                  \/ (v_status res = AddressVerified /\ isValid res = true
                      /\ (exists a, v_stacksAddress res = Some a
                                    /\ Wallet.isValidStacksAddress a = true)
                      /\ Forall (fun e => forall i a, e <> AddressInvalidLog i a)
                           entries)).
    { destruct Hcase as [(Hs & Ha & Hv & _ & Hl)
                        | (comments & comment & a & _ & _ & _ & Hva & _ & _ & Hs & Ha
                           & Hv & _ & _ & Hl)].
      - left. repeat split; auto.
        eapply Forall_impl; [exact Hl|]. intros e -> i a. discriminate.
      - right. repeat split; eauto.
        eapply Forall_impl; [exact Hl|]. intros e [-> | ->] i a'; discriminate. }
    cbn [List.length]. rewrite Nat2Z.inj_succ.
    destruct Hst as [(Hs & Ha & Hv & Hl) | (Hs & Hv & Ha & Hl)]; rewrite Hs in *;
      repeat case_bool_decide; try congruence.
    + split; [exact Hinv|]. split; [lia|]. split; [lia|]. split.
      * intros res' Hin. destruct (Hres res' Hin) as [Hold | Hnew]; [|now right].
        apply in_app_or in Hold as [Hold | [<- | []]]; [now left|].
        right. left. auto.
      * intros e Hin. destruct (Hlog e Hin) as [Hold | Hnew]; [|now right].
        apply in_app_or in Hold as [Hold | Hold]; [now left|].
        right. rewrite Forall_forall in Hl. apply Hl. now apply list_elem_of_In.
    + split; [exact Hinv|]. split; [lia|]. split; [lia|]. split.
      * intros res' Hin. destruct (Hres res' Hin) as [Hold | Hnew]; [|now right].
        apply in_app_or in Hold as [Hold | [<- | []]]; [now left|].
        right. right. auto.
      * intros e Hin. destruct (Hlog e Hin) as [Hold | Hnew]; [|now right].
        apply in_app_or in Hold as [Hold | Hold]; [now left|].
        right. rewrite Forall_forall in Hl. apply Hl. now apply list_elem_of_In.
Qed.

End VerifyFacts.

(** X11. A run of verify never reports an invalid address. Whatever the
    comments GitHub returns, the count [invalid] is 0 and no result has the
    status [address_invalid], no [verify:address_invalid] entry is logged:
    the pattern of [extractAddresses] admits only strings that
    [isValidStacksAddress] accepts, so the branch for an invalid address is
    never taken. Every prospect checked is counted once, as verified or as
    pending; a result counted as verified carries an address that
    [isValidStacksAddress] accepts, and a pending one carries none. *)
Theorem verify_never_reports_invalid
    (env : Verifier.Env) (options : Verifier.VerifyOptions) (w : World) :
  let out := Verifier.verify env options w in
  Verifier.invalid (fst (fst out)) = 0
  /\ Verifier.verified (fst (fst out)) + Verifier.pending (fst (fst out))
     = Z.of_nat (List.length (Verifier.candidates options w))
  /\ 0 <= Verifier.verified (fst (fst out))
  /\ (forall res, In res (Verifier.results (fst (fst out))) ->
        (Verifier.v_status res = Verifier.AwaitingResponse
         /\ Verifier.v_stacksAddress res = None /\ Verifier.isValid res = false)
        \/ (Verifier.v_status res = Verifier.AddressVerified
            /\ Verifier.isValid res = true
            /\ exists a, Verifier.v_stacksAddress res = Some a
                         /\ Wallet.isValidStacksAddress a = true))
  /\ (forall e i a, In e (snd out) -> e <> Verifier.AddressInvalidLog i a).
Proof.
  cbn zeta. unfold Verifier.verify.
  destruct (verify_loop_facts env (Verifier.candidates options w)
              Verifier.emptyResult w []) as (Hinv & Hsum & Hmono & Hres & Hlog).
  cbn [Verifier.emptyResult Verifier.invalid Verifier.verified Verifier.pending
       Verifier.results] in *.
  split; [exact Hinv|]. split; [lia|]. split; [lia|]. split.
  - intros res Hin. destruct (Hres res Hin) as [[] | H]; exact H.
  - intros e i a Hin. destruct (Hlog e Hin) as [[] | H]. apply H.
Qed.

(** The comments of the example: the bot quotes two addresses and mallory,
    who is not the prospect, gives one; the address taken is alice's. *)
Example verify_takes_the_prospects_address :
  Verifier.v_stacksAddress
    <$> Verifier.results
          (fst (fst (Verifier.verify Examples2.commented Examples2.verifyOpen
                       (Pipeline.runAll Examples2.threeCommands Examples.emptyWorld))))
  = [Some Examples.address41].
Proof. reflexivity. Qed.

(** ** Qualify: what a batch run persists *)

Section QualifyBatchFacts.

Import Qualifier Qualify.

Lemma find_none_all {X} (f : X -> bool) (l : list X) :
  (forall x, In x l -> f x = false) -> List.find f l = None.
Proof.
  induction l as [|x l IH]; intros H; [reflexivity|].
  cbn. rewrite (H x) by now left. apply IH. intros y Hy. apply H. now right.
Qed.

(** The row at position [k] after the loop over candidates of distinct
    ids: rewritten by the first turn that persists a result for a prospect
    of its id, if there is one. *)
Lemma loop_scored clock options cs : forall acc (k : nat) row,
  NoDup (id <$> cs) ->
  prospects (snd acc) !! k = Some row ->
  prospects (snd (loop clock options cs acc)) !! k
  = Some (match List.find (fun c => persisted clock options c && (id row =? id c)) cs with
          | Some c => Db.set_score (qr_score (qualifyProspect (nowMs clock (id c)) c))
                        (qr_tier (qualifyProspect (nowMs clock (id c)) c))
                        (nowIso clock (id c) 0) row
          | None => row
          end).
Proof.
  induction cs as [|c cs IH]; intros acc k row Hnd Hrow; [exact Hrow|].
  csimpl in Hnd. apply NoDup_cons in Hnd as [Hfresh Hnd].
  rewrite loop_cons. cbn [List.find].
  destruct (persisted clock options c && (id row =? id c)) eqn:Hc.
  - erewrite IH; [|exact Hnd|rewrite iteration_row, Hrow; cbn; rewrite Hc; reflexivity].
    cbn [id Db.set_score].
    rewrite find_none_all; [reflexivity|].
    intros c' Hin. apply andb_true_iff in Hc as [_ Hid]. apply Z.eqb_eq in Hid.
    apply andb_false_iff. right. apply Z.eqb_neq. intros Heq.
    apply Hfresh. apply list_elem_of_In, in_map_iff. exists c'. split; [congruence | exact Hin].
  - apply IH; [exact Hnd|]. rewrite iteration_row, Hrow. cbn. now rewrite Hc.
Qed.

Lemma candidates_NoDup options w :
  hasProspectId options = false ->
  NoDup (id <$> prospects w) -> NoDup (id <$> candidates options w).
Proof.
  intros Hno Hnd. unfold candidates. rewrite Hno.
  unfold Db.getProspects, pendingFilter, Db.noFilters, Db.sql_limit. cbn [Db.f_limit].
  destruct (o_pending options); now apply NoDup_ids_filter.
Qed.

End QualifyBatchFacts.

(** X12. What a batch run of qualify persists (no prospect id given; ids
    identify the rows). Every row without a tier is rewritten with the
    score and the tier that [qualifyProspect] gives for that row at the
    time of its turn, unless [minTier] is given and that tier is strictly
    below it; every other row is left exactly as it was. So without
    [minTier] no row is left without a tier, and with it a row is left
    without a tier only when its tier would be below the requested one. *)
Theorem qualify_batch_scores_the_unscored
    (clock : Clock) (options : Qualify.QualifyOptions) (w : World) :
  Qualify.hasProspectId options = false ->
  NoDup (id <$> prospects w) ->
  (forall (k : nat) row, prospects w !! k = Some row ->
     prospects (snd (Qualify.qualify clock options w)) !! k
     = Some (if Qualify.persisted clock options row
             then Db.set_score
                    (qr_score (Qualifier.qualifyProspect (nowMs clock (id row)) row))
                    (qr_tier (Qualifier.qualifyProspect (nowMs clock (id row)) row))
                    (nowIso clock (id row) 0) row
             else row))
  /\ (forall row, In row (prospects w) ->
        Qualify.persisted clock options row
        = bool_decide (tier row = None)
          && negb (Qualify.belowMinTier options
                     (Qualifier.qualifyProspect (nowMs clock (id row)) row)))
  /\ (forall row', In row' (prospects (snd (Qualify.qualify clock options w))) ->
        tier row' = None ->
        Qualify.o_minTier options <> None
        /\ Qualify.belowMinTier options
             (Qualifier.qualifyProspect (nowMs clock (id row')) row') = true).
Proof.
  intros Hno Hnd.
  assert (Hpers : forall row,
            Qualify.persisted clock options row
            = bool_decide (tier row = None)
              && negb (Qualify.belowMinTier options
                         (Qualifier.qualifyProspect (nowMs clock (id row)) row))).
  { intros row. unfold Qualify.persisted. rewrite Hno. cbn [negb].
    rewrite andb_true_r. f_equal.
    destruct (tier row); repeat case_bool_decide; try reflexivity; congruence. }
  assert (Hrows : forall (k : nat) row, prospects w !! k = Some row ->
     prospects (snd (Qualify.qualify clock options w)) !! k
     = Some (if Qualify.persisted clock options row
             then Db.set_score
                    (qr_score (Qualifier.qualifyProspect (nowMs clock (id row)) row))
                    (qr_tier (Qualifier.qualifyProspect (nowMs clock (id row)) row))
                    (nowIso clock (id row) 0) row
             else row)).
  { intros k row Hrow. unfold Qualify.qualify.
    rewrite (loop_scored clock options (Qualify.candidates options w) _ k row);
      [|now apply candidates_NoDup | exact Hrow].
    f_equal.
    destruct (List.find _ (Qualify.candidates options w)) as [c|] eqn:Hfind.
    - apply find_some in Hfind as [Hin Hc].
      apply andb_true_iff in Hc as [Hp Hid]. apply Z.eqb_eq in Hid.
      apply (candidates_batch options w c Hno) in Hin.
      assert (c = row) by (eapply NoDup_id_eq; eauto using lookup_In).
      subst c. now rewrite Hp.
    - destruct (Qualify.persisted clock options row) eqn:Hp; [|reflexivity].
      exfalso.
      assert (Hin : In row (Qualify.candidates options w)).
      { apply (candidates_batch options w row Hno); [now apply lookup_In in Hrow|].
        now apply (persisted_batch clock options row Hno). }
      apply (find_none _ _ Hfind) in Hin. rewrite Hp, Z.eqb_refl in Hin. discriminate. }
  split; [exact Hrows|]. split; [intros row _; apply Hpers|].
  intros row' Hin Htier.
  apply In_lookup in Hin as (k & Hk).
  assert (Hlen : exists row, prospects w !! k = Some row).
  { destruct (prospects w !! k) as [row|] eqn:E; [eauto|].
    exfalso.
    assert (Hids : id <$> prospects (snd (Qualify.qualify clock options w))
                   = id <$> prospects w) by apply grows_qualify.
    apply (f_equal (fun l => l !! k)) in Hids.
    rewrite !list_lookup_fmap, Hk, E in Hids. discriminate. }
  destruct Hlen as (row & Hrow). rewrite (Hrows k row Hrow) in Hk.
  injection Hk as Hk.
  destruct (Qualify.persisted clock options row) eqn:Hp;
    [subst row'; discriminate|].
  subst row'. rewrite Hpers, Htier in Hp.
  rewrite bool_decide_eq_true_2 in Hp by reflexivity. cbn [andb] in Hp.
  apply negb_false_iff in Hp. split; [|exact Hp].
  unfold Qualify.belowMinTier in Hp. destruct (Qualify.o_minTier options); congruence.
Qed.

(** [qualify --pending] over alice, not yet scored, and carol, already of
    tier A: alice gets 57 and tier B, carol is left as she was. *)
Lemma qualify_batch_scores_the_unscored_witness :
  (score <$> prospects (snd (Qualify.qualify Examples.clock0 Examples.pendingBatch
                               Examples.qualifyWorld)) !! 0%nat = Some 57
   /\ prospects (snd (Qualify.qualify Examples.clock0 Examples.pendingBatch
                        Examples.qualifyWorld)) !! 1%nat = Some Examples.carol)
  /\ forall row',
       In row' (prospects (snd (Qualify.qualify Examples.clock0 Examples.pendingBatch
                                 Examples.qualifyWorld))) ->
       tier row' <> None.
Proof.
  assert (Hnd : NoDup (id <$> prospects Examples.qualifyWorld))
    by (apply (bool_decide_unpack _); vm_compute; reflexivity).
  destruct (qualify_batch_scores_the_unscored Examples.clock0 Examples.pendingBatch
              Examples.qualifyWorld eq_refl Hnd) as (Hrows & _ & Hleft).
  split; [split|].
  - rewrite (Hrows 0%nat Examples.alice eq_refl). reflexivity.
  - rewrite (Hrows 1%nat Examples.carol eq_refl). reflexivity.
  - intros row' Hin Htier. destruct (Hleft row' Hin Htier) as [H _]. now apply H.
Defined.

(** ** Parsing the URLs of GitHub *)

Section GithubFacts.

Import Github.

Lemma append_empty_r (s : string) : (s ++ EmptyString)%string = s.
Proof.
  induction s as [|c s IH]; [reflexivity|].
  change (String c s ++ EmptyString)%string with (String c (s ++ EmptyString)).
  now rewrite IH.
Qed.

Lemma takeNonSlash_run s : forall rest,
  ~ In slash (list_ascii_of_string s) ->
  (rest = EmptyString \/ exists rest', rest = String slash rest') ->
  takeNonSlash (s ++ rest) = (s, rest).
Proof.
  induction s as [|c s IH]; intros rest Hs Hrest.
  - destruct Hrest as [-> | (rest' & ->)]; reflexivity.
  - cbn in Hs. change (String c s ++ rest)%string with (String c (s ++ rest)).
    cbn [takeNonSlash].
    destruct (Ascii.eqb_spec c slash) as [-> | Hne]; [exfalso; apply Hs; now left|].
    rewrite IH; [reflexivity | intros H; apply Hs; now right | exact Hrest].
Qed.

Lemma ownerRepoAt_canonical owner repo rest :
  owner <> EmptyString -> repo <> EmptyString ->
  ~ In slash (list_ascii_of_string owner) ->
  ~ In slash (list_ascii_of_string repo) ->
  (rest = EmptyString \/ exists rest', rest = String slash rest') ->
  ownerRepoAt (owner ++ String slash (repo ++ rest)) = Some (owner, repo, rest).
Proof.
  intros Ho Hr Hos Hrs Hrest. unfold ownerRepoAt.
  rewrite takeNonSlash_run by eauto.
  destruct owner as [|c owner]; [congruence|].
  rewrite takeNonSlash_run by assumption.
  destruct repo as [|c' repo]; [congruence | reflexivity].
Qed.

Lemma parsePRUrl_here url s owner repo rest d :
  stripPrefix "github.com/" url = Some s ->
  ownerRepoAt s = Some (owner, repo, rest) ->
  stripPrefix "/pull/" rest = Some d ->
  takeDigits d <> EmptyString ->
  parsePRUrl url = Some (owner, repo, parseDigits (takeDigits d)).
Proof.
  intros Hs Ho Hd Hdig. destruct url as [|c url]; [discriminate|].
  cbn [parsePRUrl]. rewrite Hs, Ho, Hd.
  destruct (takeDigits d); [congruence | reflexivity].
Qed.

Lemma parseRepoUrl_here url s owner repo rest :
  stripPrefix "github.com/" url = Some s ->
  ownerRepoAt s = Some (owner, repo, rest) ->
  parseRepoUrl url = Some (owner, dropDotGit repo).
Proof.
  intros Hs Ho. destruct url as [|c url]; [discriminate|].
  cbn [parseRepoUrl]. now rewrite Hs, Ho.
Qed.

(** The digits that [pretty] prints. *)
Lemma pretty_N_char_digit x :
  (x < 10)%N ->
  isDigit (pretty_N_char x) = true
  /\ Z.of_N (N_of_ascii (pretty_N_char x)) - 48 = Z.of_N x.
Proof.
  intros Hx.
  assert (H : In x [0; 1; 2; 3; 4; 5; 6; 7; 8; 9]%N).
  { cbn. lia. }
  cbn in H. repeat (destruct H as [<- | H]; [now vm_compute|]). destruct H.
Qed.

Lemma takeDigits_pretty_N_go x : forall s,
  takeDigits s = s -> takeDigits (pretty_N_go x s) = pretty_N_go x s.
Proof.
  induction x as [x IH] using (well_founded_induction N.lt_wf_0). intros s Hs.
  destruct (decide (0 < x)%N) as [Hpos|Hzero].
  - rewrite pretty_N_go_step by exact Hpos.
    apply IH; [now apply N.div_lt|].
    cbn [takeDigits].
    destruct (pretty_N_char_digit (x mod 10)) as [-> _];
      [now apply N.mod_lt | now rewrite Hs].
  - assert (x = 0%N) by lia. subst x. now rewrite pretty_N_go_0.
Qed.

Lemma parseDigits_pretty_N_go x : forall s,
  fold_left (fun acc c => 10 * acc + (Z.of_N (N_of_ascii c) - 48))
    (list_ascii_of_string (pretty_N_go x s)) 0
  = fold_left (fun acc c => 10 * acc + (Z.of_N (N_of_ascii c) - 48))
      (list_ascii_of_string s) (Z.of_N x).
Proof.
  induction x as [x IH] using (well_founded_induction N.lt_wf_0). intros s.
  destruct (decide (0 < x)%N) as [Hpos|Hzero].
  - rewrite pretty_N_go_step by exact Hpos.
    rewrite IH by now apply N.div_lt.
    cbn [list_ascii_of_string fold_left].
    destruct (pretty_N_char_digit (x mod 10)) as [_ ->]; [now apply N.mod_lt|].
    f_equal. pose proof (N.div_mod x 10 ltac:(discriminate)). lia.
  - assert (x = 0%N) by lia. subst x. now rewrite pretty_N_go_0.
Qed.

Lemma pretty_N_go_nonempty x s :
  (0 < x)%N -> pretty_N_go x s <> EmptyString.
Proof.
  revert s. induction x as [x IH] using (well_founded_induction N.lt_wf_0).
  intros s Hpos. rewrite pretty_N_go_step by exact Hpos.
  destruct (decide (0 < x / 10)%N) as [Hd|Hd].
  - apply IH; [now apply N.div_lt | exact Hd].
  - apply N.nlt_ge, N.le_0_r in Hd. rewrite Hd, pretty_N_go_0. discriminate.
Qed.

(** [parseInt] reads the decimal writing of a natural number as the
    double nearest to it. *)
Lemma digits_pretty (n : N) :
  takeDigits (pretty n) = pretty n
  /\ pretty n <> EmptyString
  /\ parseDigits (pretty n) = Js.toDouble (Z.of_N n).
Proof.
  unfold pretty, pretty_N. destruct (decide (n = 0%N)) as [-> | Hne].
  - repeat split. discriminate.
  - split; [now apply takeDigits_pretty_N_go|].
    split; [apply pretty_N_go_nonempty; lia|].
    unfold parseDigits, valueOf. now rewrite parseDigits_pretty_N_go.
Qed.

(** Up to 2^53 every integer is a double. *)
Lemma toDouble_safe (z : Z) : z <= 2 ^ 53 -> Js.toDouble z = Js.Num z.
Proof.
  intros Hz. unfold Js.toDouble.
  destruct (Z.leb_spec z (2 ^ 53)); [reflexivity | lia].
Qed.

End GithubFacts.

(** X13. The URLs GitHub gives are read back. For an owner and a
    repository name that are not empty and contain no slash, and a pull
    request number [n], [parsePRUrl] applied to
    [https://github.com/<owner>/<repo>/pull/<n>] returns the owner, the
    repository and the double nearest to [n], which is [n] itself up to
    2^53 (above it [parseInt] rounds, see
    [parsePRUrl_rounds_a_long_number]), also when the URL goes on after the
    number with a character that is no digit; and [parseRepoUrl] applied to
    [https://github.com/<owner>/<repo>], or to that followed by a slash and
    anything, returns the owner and the repository without a final
    [.git]. *)
Theorem github_urls_are_read_back (owner repo more : string) (n : N) :
  owner <> EmptyString -> repo <> EmptyString ->
  ~ In "/"%char (list_ascii_of_string owner) ->
  ~ In "/"%char (list_ascii_of_string repo) ->
  Github.takeDigits more = EmptyString ->
  Github.parsePRUrl ("https://github.com/" ++ owner ++ "/" ++ repo ++ "/pull/"
                     ++ pretty n ++ more)
  = Some (owner, repo, Js.toDouble (Z.of_N n))
  /\ ((n <= 2 ^ 53)%N ->
      Github.parsePRUrl ("https://github.com/" ++ owner ++ "/" ++ repo ++ "/pull/"
                         ++ pretty n ++ more)
      = Some (owner, repo, Js.Num (Z.of_N n)))
  /\ Github.parseRepoUrl ("https://github.com/" ++ owner ++ "/" ++ repo)
     = Some (owner, Github.dropDotGit repo)
  /\ Github.parseRepoUrl ("https://github.com/" ++ owner ++ "/" ++ repo ++ "/" ++ more)
     = Some (owner, Github.dropDotGit repo).
Proof.
  intros Ho Hr Hos Hrs Hmore.
  destruct (digits_pretty n) as (Hd & Hne & Hval).
  assert (Hpr : Github.parsePRUrl
                  ("https://github.com/" ++ owner ++ "/" ++ repo ++ "/pull/"
                   ++ pretty n ++ more)
                = Some (owner, repo, Js.toDouble (Z.of_N n))); [|split; [exact Hpr|split; [|split]]].
  - change ("https://github.com/" ++ owner ++ "/" ++ repo ++ "/pull/"
            ++ pretty n ++ more)%string
      with ("https://" ++ ("github.com/" ++ owner ++ "/" ++ repo ++ "/pull/"
            ++ pretty n ++ more))%string.
    assert (Hskip : forall t : string,
              Github.parsePRUrl ("https://" ++ String "g" t) = Github.parsePRUrl (String "g" t))
      by reflexivity.
    change ("github.com/" ++ owner ++ "/" ++ repo ++ "/pull/" ++ pretty n ++ more)%string
      with (String "g" ("ithub.com/" ++ owner ++ "/" ++ repo ++ "/pull/"
                        ++ pretty n ++ more))%string.
    rewrite Hskip.
    assert (Hdigits : Github.takeDigits (pretty n ++ more) = pretty n).
    { clear -Hd Hmore. revert Hd. generalize (pretty n). intros s.
      induction s as [|c s IH]; [now intros _|].
      change (String c s ++ more)%string with (String c (s ++ more)).
      cbn [Github.takeDigits].
      destruct (Github.isDigit c); [|discriminate].
      intros [= H]. now rewrite (IH H). }
    erewrite (parsePRUrl_here _ _ owner repo ("/pull/" ++ pretty n ++ more)%string);
      [rewrite Hdigits, Hval; reflexivity
      | reflexivity
      | apply (ownerRepoAt_canonical owner repo); auto; right; eexists; reflexivity
      | reflexivity
      | now rewrite Hdigits].
  - intros Hn. rewrite Hpr, toDouble_safe; [reflexivity|].
    change (2 ^ 53) with (Z.of_N (2 ^ 53)). lia.
  - assert (Hskip : forall t : string,
              Github.parseRepoUrl ("https://" ++ String "g" t)
              = Github.parseRepoUrl (String "g" t))
      by reflexivity.
    change ("https://github.com/" ++ owner ++ "/" ++ repo)%string
      with ("https://" ++ String "g" ("ithub.com/" ++ owner ++ "/" ++ repo))%string.
    rewrite Hskip.
    eapply (parseRepoUrl_here _ _ owner repo EmptyString); [reflexivity|].
    pose proof (ownerRepoAt_canonical owner repo EmptyString Ho Hr Hos Hrs
                  (or_introl eq_refl)) as H.
    rewrite append_empty_r in H. exact H.
  - assert (Hskip : forall t : string,
              Github.parseRepoUrl ("https://" ++ String "g" t)
              = Github.parseRepoUrl (String "g" t))
      by reflexivity.
    change ("https://github.com/" ++ owner ++ "/" ++ repo ++ "/" ++ more)%string
      with ("https://" ++ String "g" ("ithub.com/" ++ owner ++ "/" ++ repo ++ "/" ++ more))%string.
    rewrite Hskip.
    eapply (parseRepoUrl_here _ _ owner repo ("/" ++ more)%string); [reflexivity|].
    apply (ownerRepoAt_canonical owner repo); auto. right. eexists. reflexivity.
Qed.

(** The pull request of the examples. *)
Lemma github_urls_are_read_back_witness :
  Github.parsePRUrl "https://github.com/dev/my-mcp-server/pull/12#issuecomment-7"
  = Some ("dev", "my-mcp-server", Js.Num 12)
  /\ Github.parseRepoUrl "https://github.com/dev/my-mcp-server"
     = Some ("dev", "my-mcp-server").
Proof.
  destruct (github_urls_are_read_back "dev" "my-mcp-server" "#issuecomment-7" 12)
    as (_ & H1 & H2 & _); try discriminate; try reflexivity.
  - cbn. intros H. repeat (destruct H as [H | H]; [discriminate|]). exact H.
  - cbn. intros H. repeat (destruct H as [H | H]; [discriminate|]). exact H.
  - split; [apply H1; vm_compute; discriminate | exact H2].
Defined.

(** A pull request number of 23 digits is not read back: [parseInt] gives
    the double nearest to it, which JavaScript prints as 1e+23. *)
Example parsePRUrl_rounds_a_long_number :
  Github.parsePRUrl "https://github.com/dev/my-mcp-server/pull/100000000000000000000000"
  = Some ("dev", "my-mcp-server", Js.Num 99999999999999991611392).
Proof. vm_compute. reflexivity. Qed.

(** ** Scanner *)

Section ScannerFacts.

Import Scanner.

Lemma mergeInto_new acc r :
  ~ In (username r) (username <$> acc) -> mergeInto acc r = (acc ++ [r])%list.
Proof.
  induction acc as [|e acc IH]; intros Hnew; [reflexivity|].
  cbn [mergeInto]. csimpl in Hnew.
  destruct (String.eqb_spec (username e) (username r)) as [Heq|Hne];
    [exfalso; apply Hnew; now left|].
  rewrite IH; [reflexivity | intros H; apply Hnew; now right].
Qed.

Lemma mergeInto_usernames acc r :
  In (username r) (username <$> acc) ->
  username <$> mergeInto acc r = username <$> acc.
Proof.
  induction acc as [|e acc IH]; intros Hin; [destruct Hin|].
  cbn [mergeInto].
  destruct (String.eqb_spec (username e) (username r)) as [Heq|Hne]; [reflexivity|].
  csimpl. rewrite IH; [reflexivity|]. destruct Hin as [Hin | Hin]; [congruence | exact Hin].
Qed.

Lemma mergeInto_NoDup acc r :
  NoDup (username <$> acc) -> NoDup (username <$> mergeInto acc r).
Proof.
  intros Hnd. destruct (in_dec String.string_dec (username r) (username <$> acc))
    as [Hin|Hnew].
  - now rewrite mergeInto_usernames.
  - rewrite mergeInto_new by exact Hnew. rewrite fmap_app. csimpl.
    apply NoDup_app. split; [exact Hnd|]. split; [|apply NoDup_singleton].
    intros x Hx Hx'. apply list_elem_of_In in Hx.
    apply list_elem_of_singleton in Hx'. subst x. contradiction.
Qed.

Lemma reposOf_app u l1 l2 :
  reposOf u (l1 ++ l2)%list = (reposOf u l1 ++ reposOf u l2)%list.
Proof. unfold reposOf. apply flat_map_app. Qed.

Lemma reposOf_absent u l : ~ In u (username <$> l) -> reposOf u l = [].
Proof.
  induction l as [|e l IH]; intros H; [reflexivity|].
  csimpl in H. cbn [reposOf flat_map].
  destruct (String.eqb_spec (username e) u) as [Heq|Hne];
    [exfalso; apply H; now left|].
  cbn [app]. apply IH. intros Hin. apply H. now right.
Qed.

Lemma reposOf_mergeInto u acc r :
  NoDup (username <$> acc) ->
  reposOf u (mergeInto acc r)
  = (reposOf u acc ++ (if String.eqb (username r) u then sr_repos r else []))%list.
Proof.
  induction acc as [|e acc IH]; intros Hnd.
  - cbn. now rewrite app_nil_r.
  - csimpl in Hnd. apply NoDup_cons in Hnd as [He Hnd].
    cbn [mergeInto].
    destruct (String.eqb_spec (username e) (username r)) as [Heq|Hne].
    + cbn [reposOf flat_map username sr_repos].
      fold (reposOf u acc).
      assert (Hacc : String.eqb (username r) u = true -> reposOf u acc = []).
      { intros Hu. apply String.eqb_eq in Hu. apply reposOf_absent.
        intros Hin. apply He. apply list_elem_of_In. congruence. }
      rewrite Heq.
      destruct (String.eqb (username r) u) eqn:Hu.
      * rewrite (Hacc eq_refl), !app_nil_r. reflexivity.
      * now rewrite app_nil_r.
    + change (reposOf u (e :: mergeInto acc r))
        with ((if String.eqb (username e) u then sr_repos e else [])
              ++ reposOf u (mergeInto acc r))%list.
      rewrite IH by exact Hnd.
      change (reposOf u (e :: acc))
        with ((if String.eqb (username e) u then sr_repos e else [])
              ++ reposOf u acc)%list.
      now rewrite app_assoc.
Qed.

Lemma merge_fold l : forall acc,
  NoDup (username <$> acc) ->
  NoDup (username <$> fold_left mergeInto l acc)
  /\ (forall u, reposOf u (fold_left mergeInto l acc)
                = (reposOf u acc ++ reposOf u l)%list)
  /\ (forall u, In u (username <$> fold_left mergeInto l acc)
                <-> In u (username <$> acc) \/ In u (username <$> l))
  /\ (NoDup (username <$> (acc ++ l)%list) ->
      fold_left mergeInto l acc = (acc ++ l)%list).
Proof.
  induction l as [|r l IH]; intros acc Hnd.
  - cbn. split; [exact Hnd|]. split; [intros u; now rewrite app_nil_r|].
    split; [intros u; tauto | now rewrite app_nil_r].
  - cbn [fold_left].
    destruct (IH (mergeInto acc r) (mergeInto_NoDup acc r Hnd))
      as (H1 & H2 & H3 & H4).
    split; [exact H1|]. split; [|split].
    + intros u. rewrite H2, reposOf_mergeInto by exact Hnd.
      rewrite <- app_assoc. reflexivity.
    + intros u. rewrite H3. csimpl.
      destruct (in_dec String.string_dec (username r) (username <$> acc)) as [Hin|Hnew].
      * rewrite mergeInto_usernames by exact Hin.
        split; [tauto|]. intros [H | [<- | H]]; auto.
      * rewrite mergeInto_new by exact Hnew. rewrite fmap_app, in_app_iff. csimpl.
        tauto.
    + intros Hall.
      assert (Hnew : ~ In (username r) (username <$> acc)).
      { rewrite fmap_app in Hall. csimpl in Hall.
        apply NoDup_app in Hall as (_ & Hdisj & _).
        intros Hin. apply (Hdisj (username r)); [now apply list_elem_of_In|].
        now left. }
      rewrite mergeInto_new in * by exact Hnew.
      rewrite H4; [now rewrite <- app_assoc|].
      now rewrite <- app_assoc.
Qed.

End ScannerFacts.

(** X14. [mergeResults] loses and duplicates nothing. For every list of
    results: each user appears once in the merged list; the users of the
    merged list are those of the list; the repositories of a user in the
    merged list are those the list gives for that user, in the same
    order; and a list in which every user appears once is returned as it
    is. *)
Theorem mergeResults_merges_by_user (results : list Scanner.ScanResult) :
  NoDup (Scanner.username <$> Scanner.mergeResults results)
  /\ (forall u, In u (Scanner.username <$> Scanner.mergeResults results)
                <-> In u (Scanner.username <$> results))
  /\ (forall u, Scanner.reposOf u (Scanner.mergeResults results)
                = Scanner.reposOf u results)
  /\ (NoDup (Scanner.username <$> results) -> Scanner.mergeResults results = results).
Proof.
  unfold Scanner.mergeResults.
  destruct (merge_fold results [] (NoDup_nil_2 (A:=string))) as (H1 & H2 & H3 & H4).
  split; [exact H1|]. split; [|split].
  - intros u. rewrite H3. cbn. tauto.
  - intros u. now rewrite H2.
  - exact H4.
Qed.

Section ScanSearchFacts.

Import Scanner.

(** What one query adds: users not seen before, each once, with the one
    repository of the item, none of them in the table; at most [limit]
    results when [limit] is positive. *)
Lemma collect_spec env w query limit items : forall seen results,
  NoDup (username <$> results) ->
  (forall r, In r results -> (username r ∈ seen)) ->
  (seen ⊆ snd (collect env w query limit items seen results))
  /\ NoDup (username <$> fst (collect env w query limit items seen results))
  /\ (forall r, In r (fst (collect env w query limit items seen results)) ->
        (username r ∈ snd (collect env w query limit items seen results))
        /\ (In r results
            \/ ((username r ∉ seen) /\ List.length (sr_repos r) = 1%nat
                /\ usernameExists (username r) w = false /\ strategy r = None)))
  /\ (Z.of_nat (List.length results) < limit ->
      Z.of_nat (List.length (fst (collect env w query limit items seen results)))
      <= limit).
Proof.
  induction items as [|item items IH]; intros seen results Hnd Hseen.
  - cbn. split; [reflexivity|]. split; [exact Hnd|]. split; [|lia].
    intros r Hin. split; [now apply Hseen | now left].
  - cbn [collect]. case_bool_decide as Hin; [now apply IH|].
    assert (Hsub : seen ⊆ {[owner_login item]} ∪ seen) by apply union_subseteq_r.
    assert (Hseen' : forall r, In r results -> (username r ∈ {[owner_login item]} ∪ seen)).
    { intros r Hr. apply Hsub. now apply Hseen. }
    assert (Hout : forall u, (u ∉ {[owner_login item]} ∪ seen) -> (u ∉ seen)).
    { intros u Hu Hs. apply Hu, Hsub, Hs. }
    destruct (usernameExists (owner_login item) w) eqn:Hex.
    { destruct (IH ({[owner_login item]} ∪ seen) results Hnd Hseen')
        as (H1 & H2 & H3 & H4).
      split; [etransitivity; eassumption|]. split; [exact H2|]. split; [|exact H4].
      intros r Hr. destruct (H3 r Hr) as [Hs [Hold | (Hnew & Hrest)]].
      - split; [exact Hs | now left].
      - split; [exact Hs|]. right. split; [now apply Hout | exact Hrest]. }
    destruct (getUser env (owner_login item)) as [profile'|].
    2:{ cbn [fst snd]. split; [exact Hsub|]. split; [exact Hnd|]. split; [|lia].
        intros r Hr. split; [now apply Hseen' | now left]. }
    set (new := {| username := owner_login item; userId := owner_id item;
                   sr_repos := [searchItemToMatchedRepo item query];
                   profile := profile'; strategy := None |}).
    assert (Hnd' : NoDup (username <$> (results ++ [new])%list)).
    { rewrite fmap_app. apply NoDup_app. split; [exact Hnd|].
      split; [|apply NoDup_singleton].
      intros x Hx Hx'. apply list_elem_of_singleton in Hx'. subst x.
      apply list_elem_of_In, in_map_iff in Hx as (r & Hu & Hr).
      apply Hin. change (username new) with (owner_login item) in Hu.
      rewrite <- Hu. now apply Hseen. }
    assert (Hseen2 : forall r, In r (results ++ [new])%list ->
                       (username r ∈ {[owner_login item]} ∪ seen)).
    { intros r Hr. apply in_app_or in Hr as [Hr | [<- | []]];
        [now apply Hseen'|]. apply elem_of_union_l, elem_of_singleton. reflexivity. }
    assert (Hfresh : forall r, In r (results ++ [new])%list ->
              In r results
              \/ ((username r ∉ seen) /\ List.length (sr_repos r) = 1%nat
                  /\ usernameExists (username r) w = false /\ strategy r = None)).
    { intros r Hr. apply in_app_or in Hr as [Hr | [<- | []]]; [now left|].
      right. cbn. auto. }
    destruct (Z.geb_spec (Z.of_nat (List.length (results ++ [new])%list)) limit)
      as [Hfull|Hroom].
    + cbn [fst snd]. split; [exact Hsub|]. split; [exact Hnd'|]. split.
      * intros r Hr. split; [now apply Hseen2 | now apply Hfresh].
      * rewrite length_app in *. cbn [List.length] in *. lia.
    + destruct (IH ({[owner_login item]} ∪ seen) (results ++ [new])%list Hnd' Hseen2)
        as (H1 & H2 & H3 & H4).
      split; [etransitivity; eassumption|]. split; [exact H2|]. split.
      * intros r Hr. destruct (H3 r Hr) as [Hs [Hold | (Hnew & Hrest)]].
        -- split; [exact Hs | now apply Hfresh].
        -- split; [exact Hs|]. right. split; [now apply Hout | exact Hrest].
      * intros _. apply H4. exact Hroom.
Qed.

Lemma runSearchQuery_spec env w query seen limit :
  (seen ⊆ snd (runSearchQuery env w query seen limit))
  /\ NoDup (username <$> fst (runSearchQuery env w query seen limit))
  /\ (forall r, In r (fst (runSearchQuery env w query seen limit)) ->
        (username r ∈ snd (runSearchQuery env w query seen limit))
        /\ (username r ∉ seen) /\ List.length (sr_repos r) = 1%nat
        /\ usernameExists (username r) w = false)
  /\ (0 < limit ->
      Z.of_nat (List.length (fst (runSearchQuery env w query seen limit))) <= limit).
Proof.
  unfold runSearchQuery. destruct (searchRepos env query) as [items|].
  - destruct (collect_spec env w query limit items seen [] (NoDup_nil_2 (A:=string)))
      as (H1 & H2 & H3 & H4); [intros r []|].
    split; [exact H1|]. split; [exact H2|]. split; [|exact H4].
    intros r Hr. destruct (H3 r Hr) as [Hs [[] | (Hnew & Hlen & Hex & _)]]. auto.
  - cbn. split; [reflexivity|]. split; [constructor|]. split; [intros r []|lia].
Qed.

(** The results gathered so far: each user once, seen, with one
    repository, not in the table, tagged with a strategy; at most [limit]
    of them. *)
Lemma searchQueries_spec env w limit strat queries : forall all seen,
  (NoDup (username <$> all)
   /\ (forall r, In r all ->
         (username r ∈ seen) /\ List.length (sr_repos r) = 1%nat
         /\ usernameExists (username r) w = false /\ strategy r <> None)
   /\ Z.of_nat (List.length all) <= Z.max 0 limit) ->
  NoDup (username <$> fst (searchQueries env w limit strat queries (all, seen)))
  /\ (forall r, In r (fst (searchQueries env w limit strat queries (all, seen))) ->
        (username r ∈ snd (searchQueries env w limit strat queries (all, seen)))
        /\ List.length (sr_repos r) = 1%nat
        /\ usernameExists (username r) w = false /\ strategy r <> None)
  /\ Z.of_nat (List.length (fst (searchQueries env w limit strat queries (all, seen))))
     <= Z.max 0 limit.
Proof.
  induction queries as [|query queries IH]; intros all seen (Hnd & Hall & Hlen);
    [cbn; auto|].
  cbn [searchQueries].
  destruct (Z.geb_spec (Z.of_nat (List.length all)) limit) as [Hfull|Hroom];
    [cbn; auto|].
  destruct (runSearchQuery_spec env w query seen (limit - Z.of_nat (List.length all)))
    as (Hsub & Hnd' & Hnew & Hlen').
  destruct (runSearchQuery env w query seen (limit - Z.of_nat (List.length all)))
    as [results seen']. cbn [fst snd] in *.
  apply IH. split; [|split].
  - rewrite fmap_app. apply NoDup_app. split; [exact Hnd|]. split.
    + intros u Hu Hu'.
      apply list_elem_of_In, in_map_iff in Hu as (r & <- & Hr).
      apply list_elem_of_In, in_map_iff in Hu' as (r' & Hur & Hr').
      apply in_map_iff in Hr' as (r0 & <- & Hr0). cbn in Hur.
      destruct (Hnew r0 Hr0) as (_ & Hfresh & _). apply Hfresh.
      rewrite Hur. now apply Hall.
    + assert (E : username <$> List.map (tag strat) results = username <$> results).
      { clear. induction results as [|r l IHl]; csimpl; [reflexivity | now rewrite IHl]. }
      now rewrite E.
  - intros r Hr. apply in_app_or in Hr as [Hr | Hr].
    + destruct (Hall r Hr) as (Hs & Hrest). split; [now apply Hsub | exact Hrest].
    + apply in_map_iff in Hr as (r0 & <- & Hr0). cbn.
      destruct (Hnew r0 Hr0) as (Hs & _ & Hone & Hex). repeat split; auto; discriminate.
  - rewrite length_app, length_map. specialize (Hlen' ltac:(lia)). lia.
Qed.

Lemma searchAll_spec env w limit strategies :
  NoDup (username <$> fst (searchAll env w limit strategies))
  /\ (forall r, In r (fst (searchAll env w limit strategies)) ->
        List.length (sr_repos r) = 1%nat
        /\ usernameExists (username r) w = false /\ strategy r <> None)
  /\ Z.of_nat (List.length (fst (searchAll env w limit strategies))) <= Z.max 0 limit.
Proof.
  unfold searchAll.
  pose (J := fun acc : list ScanResult * gset string =>
    NoDup (username <$> fst acc)
    /\ (forall r, In r (fst acc) ->
          (username r ∈ snd acc) /\ List.length (sr_repos r) = 1%nat
          /\ usernameExists (username r) w = false /\ strategy r <> None)
    /\ Z.of_nat (List.length (fst acc)) <= Z.max 0 limit).
  assert (H : J (fold_left
                   (fun acc strat =>
                      searchQueries env w limit strat (SEARCH_QUERIES strat) acc)
                   strategies ([], ∅))).
  { apply fold_left_invariant.
    - split; [constructor|]. split; [intros r []|cbn; lia].
    - intros [all seen] strat _ HJ.
      apply (searchQueries_spec env w limit strat (SEARCH_QUERIES strat) all seen HJ). }
  destruct H as (H1 & H2 & H3). split; [exact H1|]. split; [|exact H3].
  intros r Hr. now destruct (H2 r Hr) as (_ & H).
Qed.

Lemma NoDup_usernames_filter (f : ScanResult -> bool) l :
  NoDup (username <$> l) -> NoDup (username <$> List.filter f l).
Proof.
  induction l as [|p l IH]; csimpl; [auto|]. intros H.
  apply NoDup_cons in H as [Hp H]. destruct (f p); csimpl; [|auto].
  apply NoDup_cons. split; [|auto].
  intros Hin. apply Hp. apply list_elem_of_In in Hin. apply list_elem_of_In.
  apply in_map_iff in Hin as (q & Hq & Hin). apply filter_In in Hin as [Hin _].
  apply in_map_iff. eauto.
Qed.

End ScanSearchFacts.

(** The results of a scan name each user once, none of the table. *)
Lemma found_names_each_user_once env options w :
  NoDup (Scanner.username <$> Scanner.found env options w)
  /\ (forall r, In r (Scanner.found env options w) ->
        Scanner.usernameExists (Scanner.username r) w = false).
Proof.
  unfold Scanner.found.
  destruct (searchAll_spec env w (default 50 (Scanner.o_limit options))
              (Scanner.strategiesOf (default Scanner.All (Scanner.o_strategy options))))
    as (Hnd & Hall & _).
  set (all := fst (Scanner.searchAll _ _ _ _)) in *.
  destruct (merge_fold all [] (NoDup_nil_2 (A:=string))) as (_ & _ & _ & Hid).
  fold (Scanner.mergeResults all) in Hid. rewrite Hid by exact Hnd. cbn [app].
  unfold Scanner.filterByActivity. split.
  - now do 2 apply NoDup_usernames_filter.
  - intros r Hr. apply filter_In in Hr as [Hr _]. apply filter_In in Hr as [Hr _].
    now apply Hall.
Qed.

Section FirstMatchFacts.

Import Scanner.

Variables (env : Env) (w : World) (limit : Z).

Lemma firstMatches_app ms1 : forall seen ms2,
  firstMatches seen (ms1 ++ ms2)
  = (firstMatches seen ms1 ++ firstMatches (seen ∪ ownersOf ms1) ms2)%list.
Proof.
  unfold ownersOf. induction ms1 as [|m ms1 IH]; intros seen ms2.
  - cbn. f_equal. now rewrite (right_id_L ∅ (∪)).
  - cbn [app firstMatches]. case_bool_decide as Hin.
    + rewrite IH. f_equal. f_equal. csimpl.
      apply set_eq. intros x. rewrite !elem_of_union, elem_of_singleton.
      intuition (subst; auto).
    + rewrite IH. cbn [app]. f_equal. f_equal. f_equal. csimpl.
      apply set_eq. intros x. rewrite !elem_of_union, elem_of_singleton.
      tauto.
Qed.

Lemma candidates_app seen ms1 ms2 :
  candidates env w seen (ms1 ++ ms2)
  = (candidates env w seen ms1
     ++ candidates env w (seen ∪ ownersOf ms1) ms2)%list.
Proof. unfold candidates. now rewrite firstMatches_app, flat_map_app. Qed.

Lemma fills_nil : fills env w limit [] (fun acc => acc).
Proof.
  intros all seen. unfold candidates, ownersOf. cbn. rewrite take_nil, app_nil_r.
  split; [reflexivity|]. intros _. now rewrite (right_id_L ∅ (∪)).
Qed.

Lemma fills_then ms1 ms2 f g :
  fills env w limit ms1 f -> fills env w limit ms2 g ->
  fills env w limit (ms1 ++ ms2) (fun acc => g (f acc)).
Proof.
  intros Hf Hg all seen.
  destruct (Hf all seen) as [Hf1 Hf2].
  destruct (f (all, seen)) as [all1 seen1]. cbn [fst snd] in *.
  destruct (Hg all1 seen1) as [Hg1 Hg2].
  rewrite candidates_app, length_app.
  set (n := Z.to_nat (limit - Z.of_nat (List.length all))) in *.
  set (c1 := candidates env w seen ms1) in *.
  destruct (decide (Z.of_nat (List.length all) + Z.of_nat (List.length c1) < limit))
    as [Hroom|Hfull].
  - specialize (Hf2 Hroom). subst seen1.
    assert (Hall1 : all1 = (all ++ c1)%list).
    { rewrite Hf1. f_equal. apply take_ge. lia. }
    split.
    + rewrite Hg1, Hall1, <- app_assoc. f_equal.
      rewrite take_app, (take_ge c1) by lia. f_equal.
      rewrite length_app. f_equal. lia.
    + intros Hroom2. rewrite Hg2.
      * unfold ownersOf. rewrite fmap_app, list_to_set_app_L. symmetry. apply (assoc_L (∪)).
      * rewrite Hall1, length_app. lia.
  - split; [|lia].
    assert (Hlen : (n <= List.length c1)%nat) by lia.
    rewrite Hg1, Hf1. rewrite length_app, length_take, Nat.min_l by exact Hlen.
    replace (Z.to_nat (limit - Z.of_nat (List.length all + n))) with 0%nat by lia.
    rewrite take_0, app_nil_r. f_equal.
    rewrite take_app. replace (n - List.length c1)%nat with 0%nat by lia.
    now rewrite take_0, app_nil_r.
Qed.

(** A fold of stages is a stage for all their matches. *)
Lemma fills_fold {X} (ms : X -> list Match)
    (f : X -> list ScanResult * gset string -> list ScanResult * gset string) xs :
  (forall x, In x xs -> fills env w limit (ms x) (f x)) ->
  fills env w limit (flat_map ms xs) (fun acc => fold_left (fun acc x => f x acc) xs acc).
Proof.
  induction xs as [|x xs IH]; intros H; [apply fills_nil|].
  cbn [flat_map fold_left].
  apply (fills_then (ms x) (flat_map ms xs) (f x)
           (fun acc => fold_left (fun acc x => f x acc) xs acc)).
  - apply H. now left.
  - apply IH. intros x' Hin. apply H. now right.
Qed.

(** The matches of one query. *)
Lemma collect_fills strat query limit' items : forall seen results,
  (forall item, In item items -> usernameExists (owner_login item) w = false ->
     getUser env (owner_login item) <> None) ->
  Z.of_nat (List.length results) < limit' ->
  List.map (tag strat) (fst (collect env w query limit' items seen results))
  = (List.map (tag strat) results
     ++ take (Z.to_nat (limit' - Z.of_nat (List.length results)))
          (candidates env w seen
             (List.map (fun item => (strat, query, item)) items)))%list
  /\ (Z.of_nat (List.length results)
      + Z.of_nat (List.length
                    (candidates env w seen
                       (List.map (fun item => (strat, query, item)) items)))
      < limit' ->
      snd (collect env w query limit' items seen results)
      = seen ∪ ownersOf (List.map (fun item => (strat, query, item)) items)).
Proof.
  unfold candidates, ownersOf.
  induction items as [|item items IH]; intros seen results H Hroom.
  - cbn. rewrite take_nil, app_nil_r. split; [reflexivity|].
    intros _. now rewrite (right_id_L ∅ (∪)).
  - cbn [collect List.map firstMatches]. change (ownerOf (strat, query, item))
      with (owner_login item). csimpl.
    change (ownerOf (strat, query, item)) with (owner_login item).
    assert (H' : forall item', In item' items ->
                   usernameExists (owner_login item') w = false ->
                   getUser env (owner_login item') <> None)
      by (intros item' Hin; apply H; now right).
    case_bool_decide as Hin.
    + destruct (IH seen results H' Hroom) as [IH1 IH2]. split; [exact IH1|].
      intros Hall. rewrite (IH2 Hall).
      apply set_eq. intros x. rewrite !elem_of_union, elem_of_singleton.
      intuition (subst; auto).
    + cbn [flat_map]. unfold candidate at 1 3.
      change (ownerOf (strat, query, item)) with (owner_login item).
      destruct (usernameExists (owner_login item) w) eqn:Hex.
      * cbn [app]. destruct (IH ({[owner_login item]} ∪ seen) results H' Hroom)
          as [IH1 IH2].
        split; [exact IH1|]. intros Hall. rewrite (IH2 Hall).
        apply set_eq. intros x. rewrite !elem_of_union, elem_of_singleton. tauto.
      * destruct (getUser env (owner_login item)) as [profile'|] eqn:Hget;
          [|exfalso; apply (H item); [now left | exact Hex | exact Hget]].
        cbn [app List.length].
        set (new := {| username := owner_login item; userId := owner_id item;
                       sr_repos := [searchItemToMatchedRepo item query];
                       profile := profile'; strategy := None |}).
        change (resultOf (strat, query, item) profile') with (tag strat new).
        destruct (Z.geb_spec (Z.of_nat (List.length (results ++ [new])%list)) limit')
          as [Hfull|Hmore]; rewrite length_app in *; cbn [List.length] in *.
        -- cbn [fst snd]. split; [|lia].
           rewrite map_app. cbn [List.map]. f_equal.
           replace (Z.to_nat (limit' - Z.of_nat (List.length results))) with 1%nat by lia.
           cbn. now rewrite take_0.
        -- destruct (IH ({[owner_login item]} ∪ seen) (results ++ [new])%list H')
             as [IH1 IH2]; [rewrite length_app; cbn; lia|].
           rewrite length_app in *. cbn [List.length] in *. split.
           ++ rewrite IH1, map_app, <- app_assoc. cbn [List.map app]. f_equal.
              replace (Z.to_nat (limit' - Z.of_nat (List.length results)))
                with (S (Z.to_nat (limit' - Z.of_nat (List.length results + 1))))
                by lia.
              reflexivity.
           ++ intros Hall. rewrite IH2 by lia.
              apply set_eq. intros x. rewrite !elem_of_union, elem_of_singleton. tauto.
Qed.

(** Once the limit is reached the queries left are not made. *)
Lemma searchQueries_full strat queries all seen :
  limit <= Z.of_nat (List.length all) ->
  searchQueries env w limit strat queries (all, seen) = (all, seen).
Proof.
  intros Hfull. destruct queries as [|query queries]; [reflexivity|].
  cbn [searchQueries].
  destruct (Z.geb_spec (Z.of_nat (List.length all)) limit); [reflexivity | lia].
Qed.

Lemma searchQueries_fills strat queries :
  profilesGiven env w
    (flat_map (fun query => List.map (fun item => (strat, query, item))
                              (default [] (searchRepos env query))) queries) ->
  fills env w limit
    (flat_map (fun query => List.map (fun item => (strat, query, item))
                              (default [] (searchRepos env query))) queries)
    (searchQueries env w limit strat queries).
Proof.
  induction queries as [|query queries IH]; intros H.
  - intros all seen. apply (fills_nil all seen).
  - cbn [flat_map].
    set (ms1 := List.map (fun item => (strat, query, item))
                  (default [] (searchRepos env query))) in *.
    set (step := fun acc : list ScanResult * gset string =>
           if Z.of_nat (List.length (fst acc)) >=? limit then acc
           else ((fst acc
                  ++ List.map (tag strat)
                       (fst (runSearchQuery env w query (snd acc)
                               (limit - Z.of_nat (List.length (fst acc))))))%list,
                 snd (runSearchQuery env w query (snd acc)
                        (limit - Z.of_nat (List.length (fst acc)))))).
    assert (Heq : forall acc,
              searchQueries env w limit strat (query :: queries) acc
              = searchQueries env w limit strat queries (step acc)).
    { intros [all seen]. subst step. cbn [searchQueries fst snd].
      destruct (Z.geb_spec (Z.of_nat (List.length all)) limit) as [Hfull|Hroom].
      - now rewrite searchQueries_full by lia.
      - now destruct (runSearchQuery _ _ _ _ _). }
    assert (Hstep : fills env w limit ms1 step).
    { intros all seen. subst step. cbn [fst snd].
      destruct (Z.geb_spec (Z.of_nat (List.length all)) limit) as [Hfull|Hroom].
      - cbn [fst snd]. replace (Z.to_nat (limit - Z.of_nat (List.length all)))
          with 0%nat by lia.
        rewrite take_0, app_nil_r. split; [reflexivity | lia].
      - cbn [fst snd]. unfold runSearchQuery. subst ms1.
        destruct (searchRepos env query) as [items|] eqn:Hitems; cbn [default].
        + destruct (collect_fills strat query
                      (limit - Z.of_nat (List.length all)) items seen [])
            as [H1 H2].
          * intros item Hin. apply (H (strat, query, item)).
            apply in_or_app. left. rewrite Hitems. cbn [default].
            apply in_map_iff. eauto.
          * cbn. lia.
          * cbn [List.map List.length app] in H1, H2.
            rewrite Z.sub_0_r in H1. rewrite H1. split; [reflexivity|].
            intros Hall. apply H2. unfold Datatypes.id in Hall. lia.
        + cbn. rewrite take_nil. split; [reflexivity|]. intros _.
          unfold ownersOf. cbn. now rewrite (right_id_L ∅ (∪)). }
    intros all seen. rewrite Heq.
    apply (fills_then ms1 _ step (searchQueries env w limit strat queries) Hstep).
    apply IH. intros m Hin. apply H. apply in_or_app. now right.
Qed.

(** The results of the searches are the first [limit] results of the
    first matches. *)
Lemma searchAll_firstFound strategies :
  profilesGiven env w (asked env strategies) ->
  fst (searchAll env w limit strategies) = firstFound env w limit strategies.
Proof.
  intros H. unfold searchAll, firstFound, asked.
  destruct (fills_fold
              (fun strat =>
                 flat_map (fun query => List.map (fun item => (strat, query, item))
                                          (default [] (searchRepos env query)))
                   (SEARCH_QUERIES strat))
              (fun strat => searchQueries env w limit strat (SEARCH_QUERIES strat))
              strategies) with (all := @nil ScanResult) (seen := (∅ : gset string))
    as [H1 _].
  - intros strat Hin. apply searchQueries_fills.
    intros m Hm. apply H. unfold asked. apply in_flat_map. eauto.
  - rewrite H1. cbn [app List.length]. now rewrite Z.sub_0_r.
Qed.

(** Where the results of one query come from. *)
Lemma collect_comesFrom strategies strat query items limit' :
  In strat strategies -> In query (SEARCH_QUERIES strat) ->
  searchRepos env query = Some items ->
  forall rest pre seen results,
    items = (pre ++ rest)%list ->
    (forall item', In item' pre -> (owner_login item' ∈ seen)) ->
    (forall r, In r results -> comesFrom env strategies (tag strat r)) ->
    forall r, In r (fst (collect env w query limit' rest seen results)) ->
      comesFrom env strategies (tag strat r).
Proof.
  intros Hs Hq Hitems.
  induction rest as [|item rest IH]; intros pre seen results Hpre Hseen Hres;
    [exact Hres|].
  assert (Hpre' : items = ((pre ++ [item]) ++ rest)%list)
    by now rewrite <- app_assoc.
  assert (Hgrow : forall seen', (owner_login item ∈ seen') -> seen ⊆ seen' ->
            forall item', In item' (pre ++ [item])%list -> (owner_login item' ∈ seen')).
  { intros seen' Ho Hsub item' Hin. apply in_app_or in Hin as [Hin | [<- | []]];
      [apply Hsub; now apply Hseen | exact Ho]. }
  cbn [collect]. case_bool_decide as Hin.
  { apply (IH (pre ++ [item])%list); auto. }
  assert (Ho : owner_login item ∈ {[owner_login item]} ∪ seen)
    by (apply elem_of_union_l, elem_of_singleton; reflexivity).
  assert (Hsub : seen ⊆ {[owner_login item]} ∪ seen) by apply union_subseteq_r.
  destruct (usernameExists (owner_login item) w).
  { apply (IH (pre ++ [item])%list); auto. }
  destruct (getUser env (owner_login item)) as [profile'|] eqn:Hget; [|exact Hres].
  set (new := {| username := owner_login item; userId := owner_id item;
                 sr_repos := [searchItemToMatchedRepo item query];
                 profile := profile'; strategy := None |}).
  assert (Hres' : forall r, In r (results ++ [new])%list ->
                    comesFrom env strategies (tag strat r)).
  { intros r Hr. apply in_app_or in Hr as [Hr | [<- | []]]; [now apply Hres|].
    exists strat, query, items, (List.length pre), item, profile'.
    split; [exact Hs|]. split; [exact Hq|]. split; [exact Hitems|].
    split; [rewrite Hpre; apply list_lookup_middle; reflexivity|].
    split; [|split; [exact Hget | reflexivity]].
    intros j item' Hj Hlook Heq. apply Hin. rewrite <- Heq. apply Hseen.
    rewrite Hpre, lookup_app_l in Hlook by exact Hj.
    apply list_elem_of_In. eapply list_elem_of_lookup_2. exact Hlook. }
  destruct (_ >=? limit'); [exact Hres'|].
  apply (IH (pre ++ [item])%list); auto.
Qed.

Lemma searchQueries_comesFrom strategies strat :
  In strat strategies ->
  forall queries all seen,
    (forall query, In query queries -> In query (SEARCH_QUERIES strat)) ->
    (forall r, In r all -> comesFrom env strategies r) ->
    forall r, In r (fst (searchQueries env w limit strat queries (all, seen))) ->
      comesFrom env strategies r.
Proof.
  intros Hs. induction queries as [|query queries IH]; intros all seen Hqs Hall;
    [exact Hall|].
  cbn [searchQueries]. destruct (_ >=? limit); [exact Hall|].
  destruct (runSearchQuery env w query seen (limit - Z.of_nat (List.length all)))
    as [results seen'] eqn:Hrun.
  apply IH; [intros q Hq; apply Hqs; now right|].
  intros r Hr. apply in_app_or in Hr as [Hr | Hr]; [now apply Hall|].
  apply in_map_iff in Hr as (r0 & <- & Hr0).
  assert (Hfst : results = fst (runSearchQuery env w query seen
                                  (limit - Z.of_nat (List.length all))))
    by now rewrite Hrun.
  rewrite Hfst in Hr0. unfold runSearchQuery in Hr0.
  destruct (searchRepos env query) as [items|] eqn:Hitems; [|destruct Hr0].
  apply (collect_comesFrom strategies strat query items
           (limit - Z.of_nat (List.length all)) Hs
           (Hqs query (or_introl eq_refl)) Hitems items [] seen []);
    [reflexivity | intros ? [] | intros ? [] | exact Hr0].
Qed.

Lemma searchAll_comesFrom strategies r :
  In r (fst (searchAll env w limit strategies)) -> comesFrom env strategies r.
Proof.
  unfold searchAll. revert r.
  apply (fold_left_invariant _
           (fun acc => forall r, In r (fst acc) -> comesFrom env strategies r)).
  - intros r [].
  - intros [all seen] strat Hs Hacc.
    apply (searchQueries_comesFrom strategies strat Hs); auto.
Qed.

End FirstMatchFacts.

(** X15. A scan finds each user once, with the repository of the first
    match. Whatever GitHub answers, the results [scan] returns (and saves)
    name each user once and are at most [limit] (none when [limit] is 0 or
    negative); no result is for a user already in the table; every result
    carries its strategy, an account old enough, and exactly one
    repository, updated since the cutoff; and every result comes from
    GitHub: it is built from an item of the answer to a query of its
    strategy, before which that answer has no item of the same owner, and
    from the profile GitHub gives for the owner. When GitHub gives the
    profile of every user it names who is not in the table, the results
    are exactly these: the searches taken in the order the scan makes
    them, each user not in the table comes with the first item that names
    them in any answer, the first [limit] of these users are kept, and of
    them those with a recent repository and an old enough account. So a
    user matched by several queries keeps the repository of the first
    match only: [runSearchQuery] skips a user it has seen, and
    [mergeResults] finds nothing to merge. *)
Theorem scan_finds_each_user_once
    (env : Scanner.Env) (options : Scanner.ScanOptions) (w : World) :
  NoDup (Scanner.username <$> Scanner.found env options w)
  /\ Z.of_nat (List.length (Scanner.found env options w))
     <= Z.max 0 (default 50 (Scanner.o_limit options))
  /\ (forall r, In r (Scanner.found env options w) ->
        Scanner.usernameExists (Scanner.username r) w = false
        /\ Scanner.strategy r <> None
        /\ Scanner.isAccountOldEnough env r = true
        /\ (exists repo,
              Scanner.sr_repos r = [repo]
              /\ Js.time_ge (lastUpdated repo)
                   (Some (Scanner.cutoff env
                            (default 90 (Scanner.o_daysSinceActivity options))))
                 = true)
        /\ Scanner.comesFrom env
             (Scanner.strategiesOf (default Scanner.All (Scanner.o_strategy options)))
             r)
  /\ (Scanner.profilesGiven env w
        (Scanner.asked env
           (Scanner.strategiesOf (default Scanner.All (Scanner.o_strategy options)))) ->
      Scanner.found env options w
      = List.filter (Scanner.isAccountOldEnough env)
          (Scanner.filterByActivity env
             (Scanner.firstFound env w (default 50 (Scanner.o_limit options))
                (Scanner.strategiesOf
                   (default Scanner.All (Scanner.o_strategy options))))
             (default 90 (Scanner.o_daysSinceActivity options)))).
Proof.
  unfold Scanner.found.
  destruct (searchAll_spec env w (default 50 (Scanner.o_limit options))
              (Scanner.strategiesOf (default Scanner.All (Scanner.o_strategy options))))
    as (Hnd & Hall & Hlen).
  pose proof (searchAll_comesFrom env w (default 50 (Scanner.o_limit options))
                (Scanner.strategiesOf
                   (default Scanner.All (Scanner.o_strategy options)))) as Hfrom.
  pose proof (searchAll_firstFound env w (default 50 (Scanner.o_limit options))
                (Scanner.strategiesOf
                   (default Scanner.All (Scanner.o_strategy options)))) as Hexact.
  set (all := fst (Scanner.searchAll _ _ _ _)) in *.
  destruct (merge_fold all [] (NoDup_nil_2 (A:=string))) as (_ & _ & _ & Hid).
  fold (Scanner.mergeResults all) in Hid. rewrite Hid by exact Hnd. cbn [app].
  unfold Scanner.filterByActivity. split; [|split; [|split]].
  - now do 2 apply NoDup_usernames_filter.
  - etransitivity; [|exact Hlen]. apply Nat2Z.inj_le.
    etransitivity; [apply List.filter_length_le|]. apply List.filter_length_le.
  - intros r Hr. apply filter_In in Hr as [Hr Hold].
    apply filter_In in Hr as [Hr Hact].
    destruct (Hall r Hr) as (Hone & Hex & Hstrat).
    split; [exact Hex|]. split; [exact Hstrat|]. split; [exact Hold|].
    split; [|now apply Hfrom].
    destruct (Scanner.sr_repos r) as [|repo [|]]; try discriminate.
    exists repo. split; [reflexivity|]. cbn in Hact. now rewrite orb_false_r in Hact.
  - intros Hgiven. now rewrite (Hexact Hgiven).
Qed.

(** Every search returns two repositories of alice, [my-mcp-server] before
    [big-agent]; GitHub gives her profile. The scan of an empty table finds
    alice once, with [my-mcp-server] as matched by the first query of the
    first strategy. *)
Lemma scan_finds_each_user_once_witness :
  Scanner.profilesGiven Examples2.searches Examples.emptyWorld
    (Scanner.asked Examples2.searches
       (Scanner.strategiesOf
          (default Scanner.All (Scanner.o_strategy Examples2.scanAll))))
  /\ (fun r => (Scanner.username r, fullName <$> Scanner.sr_repos r,
                matchedQuery <$> Scanner.sr_repos r, Scanner.strategy r))
     <$> Scanner.found Examples2.searches Examples2.scanAll Examples.emptyWorld
     = [("alice", ["alice/my-mcp-server"], ["filename:mcp.json"], Some Scanner.Mcp)].
Proof.
  assert (Hgiven : Scanner.profilesGiven Examples2.searches Examples.emptyWorld
            (Scanner.asked Examples2.searches
               (Scanner.strategiesOf
                  (default Scanner.All (Scanner.o_strategy Examples2.scanAll)))))
    by (intros m _ _; discriminate).
  split; [exact Hgiven|].
  destruct (scan_finds_each_user_once Examples2.searches Examples2.scanAll
              Examples.emptyWorld) as (_ & _ & _ & Hexact).
  rewrite (Hexact Hgiven). vm_compute. reflexivity.
Defined.

Section ScanSaveFacts.

Import Scanner.

Lemma fold_max_bound (l : list Z) i : In i l -> i <= fold_right Z.max 0 l.
Proof.
  induction l as [|x l IH]; intros Hin; [destruct Hin|].
  cbn. destruct Hin as [-> | Hin]; [lia|]. specialize (IH Hin). lia.
Qed.

Lemma fold_max_app (l : list Z) x :
  fold_right Z.max 0 (l ++ [x])%list = Z.max (fold_right Z.max 0 l) (Z.max x 0).
Proof. induction l as [|y l IH]; cbn; [lia|]. rewrite IH. lia. Qed.

Lemma nextId_fresh w : ~ In (nextId w) (id <$> prospects w).
Proof. intros Hin. apply fold_max_bound in Hin. unfold nextId in Hin. lia. Qed.

Lemma nextId_positive w : 1 <= nextId w.
Proof.
  unfold nextId.
  assert (0 <= fold_right Z.max 0 (id <$> prospects w)); [|lia].
  generalize (id <$> prospects w). intros l. induction l; cbn; lia.
Qed.

Lemma usernameExists_spec u w :
  usernameExists u w = true <-> In u (githubUsername <$> prospects w).
Proof.
  unfold usernameExists. rewrite existsb_exists, in_map_iff. split.
  - intros (p & Hin & Heq). apply String.eqb_eq in Heq. eauto.
  - intros (p & Heq & Hin). exists p. split; [exact Hin | now apply String.eqb_eq].
Qed.

Lemma insertAt_perm k row : forall rows,
  Scanner.insertAt k row rows ≡ₚ row :: rows.
Proof.
  induction k as [|k IH]; intros [|first rest]; cbn; try reflexivity.
  rewrite IH. apply Permutation_swap.
Qed.

Lemma insertAt_sublist k row : forall rows,
  rows `sublist_of` Scanner.insertAt k row rows.
Proof.
  induction k as [|k IH]; intros [|first rest]; cbn;
    try (apply sublist_cons; reflexivity).
  apply sublist_skip, IH.
Qed.

Lemma nextId_perm w l :
  l ≡ₚ prospects w -> nextId (Db.with_prospects w l) = nextId w.
Proof.
  intros Hp. unfold nextId. cbn [prospects Db.with_prospects]. f_equal.
  assert (H : id <$> l ≡ₚ id <$> prospects w) by now rewrite Hp.
  revert H. generalize (id <$> l) (id <$> prospects w). clear.
  induction 1; cbn; lia.
Qed.

(** What an insert does: nothing when the user name is in the table, else
    one row more, with a new id. *)
Lemma insertProspect_spec env r w :
  (usernameExists (username r) w = true
   /\ insertProspect env r w = (None, w))
  \/ (usernameExists (username r) w = false
      /\ insertProspect env r w
         = (Some (nextId w),
            Db.with_prospects w
              (insertAt (rank env (nextId w))
                 (newRow (nextId w) r (nowIso (clock env) (nextId w) 0))
                 (prospects w)))).
Proof.
  unfold insertProspect. destruct (usernameExists (username r) w); [left | right]; auto.
Qed.

Lemma insertProspect_keys env r w :
  (NoDup (id <$> prospects w) ->
   NoDup (id <$> prospects (snd (insertProspect env r w))))
  /\ (NoDup (githubUsername <$> prospects w) ->
      NoDup (githubUsername <$> prospects (snd (insertProspect env r w)))).
Proof.
  destruct (insertProspect_spec env r w) as [[_ ->] | [Hex ->]]; [auto|].
  cbn [snd Db.with_prospects prospects]. rewrite !insertAt_perm. csimpl.
  split; intros Hnd; apply NoDup_cons; (split; [|exact Hnd]); intros Hx.
  - apply list_elem_of_In in Hx. now apply nextId_fresh in Hx.
  - apply list_elem_of_In, usernameExists_spec in Hx. congruence.
Qed.

(** Saving results of users that are not in the table, each user once:
    every result is saved, as one row more, with the ids that follow the
    largest one; nothing else of the world changes. *)
Lemma save_fold env rs : forall saved w logged,
  NoDup (username <$> rs) ->
  (forall r, In r rs -> usernameExists (username r) w = false) ->
  exists rows',
    fold_left
      (fun acc result =>
         let '(saved, w, logged) := acc in
         match insertProspect env result w with
         | (Some _, w') =>
             (saved + 1, w',
              (logged ++ [{| added_username := username result;
                             added_strategy := strategy result;
                             repoCount := Z.of_nat (List.length (sr_repos result)) |}])%list)
         | (None, _) => (saved, w, logged)
         end)
      rs (saved, w, logged)
    = (saved + Z.of_nat (List.length rs),
       Db.with_prospects w rows',
       (logged ++ List.map (fun r => {| added_username := username r;
                                        added_strategy := strategy r;
                                        repoCount := Z.of_nat (List.length (sr_repos r)) |})
                    rs)%list)
    /\ rows' ≡ₚ (prospects w
                 ++ imap (fun k r => newRow (nextId w + Z.of_nat k) r
                                       (nowIso (clock env) (nextId w + Z.of_nat k) 0))
                      rs)%list
    /\ prospects w `sublist_of` rows'.
Proof.
  induction rs as [|r rs IH]; intros saved w logged Hnd Hnew.
  - exists (prospects w). cbn. rewrite Z.add_0_r, !app_nil_r.
    split; [now destruct w|]. split; reflexivity.
  - cbn [fold_left].
    destruct (insertProspect_spec env r w) as [[Hex _] | [_ ->]];
      [rewrite Hnew in Hex by (now left); discriminate|].
    csimpl in Hnd. apply NoDup_cons in Hnd as [Hr Hnd].
    set (row := newRow (nextId w) r (nowIso (clock env) (nextId w) 0)).
    set (w1 := Db.with_prospects w _).
    assert (Hperm : prospects w1 ≡ₚ row :: prospects w)
      by (subst w1; cbn [prospects Db.with_prospects]; apply insertAt_perm).
    assert (Hnext : nextId w1 = nextId w + 1).
    { unfold nextId at 1.
      assert (H : id <$> prospects w1 ≡ₚ nextId w :: (id <$> prospects w))
        by now rewrite Hperm.
      assert (E : fold_right Z.max 0 (id <$> prospects w1)
                  = fold_right Z.max 0 (nextId w :: (id <$> prospects w))).
      { revert H. generalize (id <$> prospects w1) (nextId w :: (id <$> prospects w)).
        clear. induction 1; cbn; lia. }
      rewrite E. cbn [fold_right]. pose proof (nextId_positive w).
      unfold nextId in *. lia. }
    destruct (IH (saved + 1) w1
                (logged ++ [{| added_username := username r;
                               added_strategy := strategy r;
                               repoCount := Z.of_nat (List.length (sr_repos r)) |}])%list
                Hnd) as (rows' & Heq & Hrows & Hsub).
    + intros r' Hin.
      destruct (usernameExists (username r') w1) eqn:E; [|reflexivity].
      exfalso. apply usernameExists_spec in E.
      apply list_elem_of_In in E. rewrite Hperm in E. apply list_elem_of_In in E.
      csimpl in E. destruct E as [E | E].
      * apply Hr. apply list_elem_of_In, in_map_iff. eauto.
      * apply usernameExists_spec in E. rewrite Hnew in E by now right. discriminate.
    + exists rows'. split; [|split].
      * rewrite Heq. cbn [List.length List.map]. rewrite Nat2Z.inj_succ.
        subst w1. unfold Db.with_prospects.
        cbn [prospects daily_limits activity_log calls].
        rewrite <- app_assoc. cbn [app].
        repeat (f_equal; try lia).
      * rewrite Hrows, Hperm, Hnext. cbn [imap app].
        rewrite Z.add_0_r. fold row.
        rewrite <- Permutation_middle. apply Permutation_skip.
        apply Permutation_app_head.
        assert (E : imap (fun k r0 => newRow (nextId w + 1 + Z.of_nat k) r0
                            (nowIso (clock env) (nextId w + 1 + Z.of_nat k) 0)) rs
                    = imap ((fun k r0 => newRow (nextId w + Z.of_nat k) r0
                               (nowIso (clock env) (nextId w + Z.of_nat k) 0)) ∘ S) rs).
        { apply imap_ext. intros k r' _. cbn.
          replace (nextId w + 1 + Z.of_nat k) with (nextId w + Z.of_nat (S k)) by lia.
          reflexivity. }
        now rewrite E.
      * etransitivity; [|exact Hsub]. subst w1. cbn [prospects Db.with_prospects].
        apply insertAt_sublist.
Qed.

Lemma save_keys env rs w :
  (NoDup (id <$> prospects w) ->
   NoDup (id <$> prospects (snd (fst (save env rs w)))))
  /\ (NoDup (githubUsername <$> prospects w) ->
      NoDup (githubUsername <$> prospects (snd (fst (save env rs w))))).
Proof.
  unfold save. split; intros Hk;
    apply (fold_left_invariant _
             (fun acc => NoDup (_ <$> prospects (snd (fst acc))))); try exact Hk;
    intros [[saved w0] logged] r _ H0; cbn [fst snd] in *;
    pose proof (insertProspect_keys env r w0) as [Hid Hname];
    destruct (insertProspect env r w0) as [[i|] w'];
    cbn [fst snd] in *; auto.
Qed.

(** The world a scan leaves: the table with new rows, not verified and
    not paid. *)
Lemma scan_world env options w :
  exists rows' rows,
    snd (fst (scan env options w)) = Db.with_prospects w rows'
    /\ rows' ≡ₚ (prospects w ++ rows)%list
    /\ Forall (fun row => addressValid row = false
                          /\ airdropStatus row = AirdropPending) rows
    /\ (NoDup (id <$> prospects w) -> NoDup (id <$> rows')).
Proof.
  destruct (found_names_each_user_once env options w) as (Hnd & Hnew).
  destruct (save_fold env (found env options w) 0 w [] Hnd Hnew)
    as (rows' & Hsave & Hperm & _).
  fold (save env (found env options w) w) in Hsave.
  pose proof (save_keys env (found env options w) w) as [Hkeys _].
  unfold scan. destruct (default false (o_dryRun options)).
  - exists (prospects w), []. cbn [fst snd]. rewrite app_nil_r.
    split; [now destruct w|]. split; [reflexivity|]. split; [constructor | auto].
  - rewrite Hsave in Hkeys |- *. cbn [fst snd] in *.
    eexists rows', _. split; [reflexivity|]. split; [exact Hperm|].
    split; [|exact Hkeys].
    apply Forall_forall. intros row Hin.
    apply elem_of_lookup_imap in Hin as (k & r & -> & _). split; reflexivity.
Qed.

End ScanSaveFacts.

(** X16. A scan saves all it finds and nothing else. A dry run leaves the
    world as it was. Otherwise every result returned is saved (the insert
    never fails on a user name already taken) as one new row, not scored,
    not contacted, not verified and not paid, with the ids AUTOINCREMENT
    gives in the order of the results, and one entry is logged for each;
    the rows that were there are all kept, in their order, and the ledger
    and the recorded calls are left as they were; and ids and user names,
    if each named one row before, still do. *)
Theorem scan_saves_what_it_finds
    (env : Scanner.Env) (options : Scanner.ScanOptions) (w : World) :
  fst (fst (Scanner.scan env options w)) = Scanner.found env options w
  /\ (default false (Scanner.o_dryRun options) = true ->
      snd (fst (Scanner.scan env options w)) = w
      /\ snd (Scanner.scan env options w) = [])
  /\ (default false (Scanner.o_dryRun options) = false ->
      prospects (snd (fst (Scanner.scan env options w)))
      ≡ₚ (prospects w
          ++ imap (fun k r =>
                     Scanner.newRow (Scanner.nextId w + Z.of_nat k) r
                       (nowIso (Scanner.clock env)
                          (Scanner.nextId w + Z.of_nat k) 0))
               (Scanner.found env options w))%list
      /\ List.length (snd (Scanner.scan env options w))
         = List.length (Scanner.found env options w))
  /\ (prospects w `sublist_of` prospects (snd (fst (Scanner.scan env options w))))
  /\ daily_limits (snd (fst (Scanner.scan env options w))) = daily_limits w
  /\ calls (snd (fst (Scanner.scan env options w))) = calls w
  /\ (NoDup (id <$> prospects w) ->
      NoDup (id <$> prospects (snd (fst (Scanner.scan env options w)))))
  /\ (NoDup (githubUsername <$> prospects w) ->
      NoDup (githubUsername <$> prospects (snd (fst (Scanner.scan env options w))))).
Proof.
  destruct (found_names_each_user_once env options w) as (Hnd & Hnew).
  destruct (save_fold env (Scanner.found env options w) 0 w [] Hnd Hnew)
    as (rows' & Hsave & Hperm & Hsub).
  fold (Scanner.save env (Scanner.found env options w) w) in Hsave.
  pose proof (save_keys env (Scanner.found env options w) w) as Hkeys.
  unfold Scanner.scan.
  destruct (default false (Scanner.o_dryRun options)) eqn:Hdry.
  - cbn [fst snd]. split; [reflexivity|]. split; [auto|]. split; [discriminate|].
    split; [reflexivity|]. auto.
  - rewrite Hsave in Hkeys |- *. cbn [fst snd] in *.
    split; [reflexivity|]. split; [discriminate|].
    split; [intros _; split; [exact Hperm | apply length_map]|].
    split; [exact Hsub|]. do 2 (split; [reflexivity|]). exact Hkeys.
Qed.

(** ** The invariants of the table across the commands *)

Section PipelineFacts.

Import Footprint Pipeline.

(** Each command keeps the three invariants. *)
Lemma run_settled c w : settled w -> settled (run c w).
Proof.
  destruct c; cbn [run].
  - apply (wrote_preserves qualifyWrite settled); [|apply wrote_qualify].
    intros x w0 Hx. apply settled_write. now apply qualifyWrite_neutral.
  - apply (wrote_preserves outreachWrite settled); [|apply wrote_outreach].
    intros x w0 Hx. apply settled_write. now apply outreachWrite_neutral.
  - apply (wrote_preserves verifyWrite settled); [|apply wrote_verify].
    intros x w0 Hx. apply settled_write. now apply verifyWrite_neutral.
  - apply (wrote_preserves verifyWrite settled); [|apply wrote_manualVerify].
    intros x w0 Hx. apply settled_write. now apply verifyWrite_neutral.
  - apply airdrop_settled.
  - intros [Hnd Hs].
    destruct (scan_world env options w) as (rows' & rows & -> & Hperm & Hrows & Hkeys).
    unfold settled, sendsTo, Db.with_prospects. cbn [prospects calls].
    split; [now apply Hkeys|]. intros i.
    destruct (Hs i) as [Hle Hpaid]. split; [exact Hle|]. intros Hpos.
    destruct (Hpaid Hpos) as [Hini Hset].
    split.
    { apply list_elem_of_In. rewrite Hperm, fmap_app. apply elem_of_app. left.
      now apply list_elem_of_In. }
    intros row Hin Hid.
    apply list_elem_of_In in Hin. rewrite Hperm in Hin.
    apply elem_of_app in Hin as [Hin | Hin];
      [apply Hset; [now apply list_elem_of_In | exact Hid]|].
    exfalso. specialize (Hkeys Hnd). rewrite Hperm, fmap_app in Hkeys.
    apply NoDup_app in Hkeys as (_ & Hdisj & _).
    apply (Hdisj i); [now apply list_elem_of_In|].
    apply list_elem_of_fmap. eauto.
Qed.

Lemma run_addressesChecked c w : addressesChecked w -> addressesChecked (run c w).
Proof.
  destruct c; cbn [run].
  - apply (wrote_preserves qualifyWrite addressesChecked); [|apply wrote_qualify].
    intros x w0 Hx. apply addressesChecked_write. now apply qualifyWrite_neutral.
  - apply (wrote_preserves outreachWrite addressesChecked); [|apply wrote_outreach].
    intros x w0 Hx. apply addressesChecked_write. now apply outreachWrite_neutral.
  - apply (wrote_preserves verifyWrite addressesChecked); [|apply wrote_verify].
    intros x w0 Hx. apply addressesChecked_write. now apply verifyWrite_neutral.
  - apply (wrote_preserves verifyWrite addressesChecked); [|apply wrote_manualVerify].
    intros x w0 Hx. apply addressesChecked_write. now apply verifyWrite_neutral.
  - apply (wrote_preserves airdropWrite addressesChecked); [|apply wrote_airdrop].
    intros x w0 Hx. apply addressesChecked_write. now apply airdropWrite_checked.
  - intros Hw row Hin Hvalid.
    destruct (scan_world env options w) as (rows' & rows & Heq & Hperm & Hrows & _).
    rewrite Heq in Hin. unfold Db.with_prospects in Hin. cbn [prospects] in Hin.
    apply list_elem_of_In in Hin. rewrite Hperm in Hin.
    apply elem_of_app in Hin as [Hin | Hin];
      [apply Hw; [now apply list_elem_of_In | exact Hvalid]|].
    rewrite Forall_forall in Hrows.
    destruct (Hrows row Hin) as [Hv _]. congruence.
Qed.

Lemma run_sendsChecked c w :
  addressesChecked w -> sendsChecked w -> sendsChecked (run c w).
Proof.
  intros Ha. destruct c; cbn [run].
  - apply (wrote_preserves qualifyWrite sendsChecked); [|apply wrote_qualify].
    intros x w0 Hx. apply sendsChecked_write. now apply qualifyWrite_neutral.
  - apply (wrote_preserves outreachWrite sendsChecked); [|apply wrote_outreach].
    intros x w0 Hx. apply sendsChecked_write. now apply outreachWrite_neutral.
  - apply (wrote_preserves verifyWrite sendsChecked); [|apply wrote_verify].
    intros x w0 Hx. apply sendsChecked_write. now apply verifyWrite_neutral.
  - apply (wrote_preserves verifyWrite sendsChecked); [|apply wrote_manualVerify].
    intros x w0 Hx. apply sendsChecked_write. now apply verifyWrite_neutral.
  - now apply airdrop_checked.
  - intros Hs i a n Hin.
    destruct (scan_world env options w) as (rows' & rows & Heq & _).
    rewrite Heq in Hin. now apply (Hs i a n).
Qed.

End PipelineFacts.

(** X17. Nobody is paid twice. Take a table in which ids identify the rows,
    no prospect was sent two transfers, and every prospect that was sent
    one is no longer pending (a table to which nothing was sent yet is
    one). Then after any sequence of runs of scan, qualify, outreach,
    verify, manualVerify and airdrop, whatever their options and whatever
    the outside world answers, the same holds: in particular at most one
    [sendSbtc] call was ever made for any prospect, also for one whose
    transfer failed or was not confirmed. *)
Theorem nobody_is_paid_twice (cs : list Pipeline.Command) (w : World) :
  Pipeline.settled w ->
  Pipeline.settled (Pipeline.runAll cs w)
  /\ forall i, (Pipeline.sendsTo i (Pipeline.runAll cs w) <= 1)%nat.
Proof.
  intros Hw.
  assert (H : Pipeline.settled (Pipeline.runAll cs w)).
  { unfold Pipeline.runAll. apply fold_left_invariant; [exact Hw|].
    intros w0 c _. apply run_settled. }
  split; [exact H|]. intros i. apply H.
Qed.

(** From an empty table: scan finds alice, qualify gives her tier B,
    outreach opens her pull request, verify takes her address, and of the
    two runs of airdrop the first sends her one transfer. *)
Lemma nobody_is_paid_twice_witness :
  Pipeline.sendsTo 1 (Pipeline.runAll Examples2.sixCommands Examples.emptyWorld)
  = 1%nat
  /\ forall i, (Pipeline.sendsTo i
                  (Pipeline.runAll Examples2.sixCommands Examples.emptyWorld)
                <= 1)%nat.
Proof.
  split; [reflexivity|].
  apply (nobody_is_paid_twice Examples2.sixCommands Examples.emptyWorld).
  split; [constructor|]. intros i. cbn. split; lia.
Defined.

(** X18. Transfers reach only checked addresses. Take a table in which
    every row marked [addressValid] holds an address that
    [isValidStacksAddress] accepts, and calls recorded whose transfers all
    went to such addresses (a freshly scanned table is one). Then after any
    sequence of runs of scan, qualify, outreach, verify, manualVerify and
    airdrop, whatever their options and whatever the outside world answers,
    the same holds: every [sendSbtc] call made has for recipient an address
    that [isValidStacksAddress] accepts. *)
Theorem transfers_reach_only_checked_addresses (cs : list Pipeline.Command) (w : World) :
  Pipeline.addressesChecked w -> Pipeline.sendsChecked w ->
  Pipeline.addressesChecked (Pipeline.runAll cs w)
  /\ Pipeline.sendsChecked (Pipeline.runAll cs w).
Proof.
  intros Ha Hs. unfold Pipeline.runAll.
  apply (fold_left_invariant _
           (fun w => Pipeline.addressesChecked w /\ Pipeline.sendsChecked w));
    [now split|].
  intros w0 c _ [Ha0 Hs0]. split;
    [now apply run_addressesChecked | now apply run_sendsChecked].
Qed.

(** The same six commands: the transfer sent to alice went to the address
    she gave in her comment, which is valid. *)
Lemma transfers_reach_only_checked_addresses_witness :
  In (SendSbtc 1 Examples.address41 5000)
    (calls (Pipeline.runAll Examples2.sixCommands Examples.emptyWorld))
  /\ Pipeline.sendsChecked
       (Pipeline.runAll Examples2.sixCommands Examples.emptyWorld).
Proof.
  split; [vm_compute; tauto|].
  apply (transfers_reach_only_checked_addresses Examples2.sixCommands
           Examples.emptyWorld).
  - intros row [].
  - intros i a n [].
Defined.

(** ** The table after a run of airdrop *)

Section AirdropRowsFacts.

Import Airdrop Tally.

(** The row of the prospect after its payout holds what the transaction
    reports. *)
Lemma processAirdrop_records env p amount w row :
  In row (prospects w) -> id row = id p ->
  exists row', In row' (prospects (snd (processAirdrop env p amount w)))
               /\ records row' (fst (processAirdrop env p amount w)).
Proof.
  intros Hin Hid.
  assert (Hupd : forall d stamp w0 row0,
            In row0 (prospects w0) -> id row0 = id p ->
            In (Db.set_airdrop d stamp row0)
              (prospects (Db.updateProspectAirdrop (id p) d stamp w0))).
  { intros d stamp w0 row0 Hin0 Hid0.
    unfold Db.updateProspectAirdrop, Db.update_where_id.
    cbn [prospects Db.with_prospects]. apply in_map_iff. exists row0.
    split; [|exact Hin0]. apply Z.eqb_eq in Hid0. now rewrite Hid0. }
  unfold processAirdrop.
  destruct (sendSbtc env p amount) as [t|e];
    [destruct (is_confirmed _)|]; cbn [fst snd].
  - match goal with |- context [postComment p ?w0] =>
      destruct (postComment_rest p w0) as (-> & _) end.
    eexists. split.
    + cbn [Db.logActivity prospects].
      apply Hupd; [apply Hupd; [exact Hin | exact Hid] | exact Hid].
    + unfold records. cbn. repeat split; auto.
  - eexists. split.
    + cbn [Db.call prospects]. apply Hupd; [exact Hin | exact Hid].
    + unfold records. cbn. repeat split; auto.
  - match goal with |- context [postComment p ?w0] =>
      destruct (postComment_rest p w0) as (-> & _) end.
    eexists. split.
    + cbn [Db.logActivity prospects]. apply Hupd; [exact Hin | exact Hid].
    + unfold records. cbn. split; [exact Hid|]. split; [reflexivity|].
      intros H. now destruct H.
Qed.

(** One turn keeps the rows of the other ids. *)
Lemma airdrop_iteration_other_rows env config oa tb c r w row :
  In row (prospects w) -> id row <> id c ->
  In row (prospects (snd (iteration env config oa tb c (r, w)))).
Proof.
  intros Hin Hne. apply In_lookup in Hin as (k & Hk).
  destruct (iteration_frame env config oa tb c r w (id row)) as (Hrows & _).
  { intros _. congruence. }
  eapply lookup_In. apply Hrows; [exact Hk | reflexivity].
Qed.

Lemma airdrop_loop_records env config oa tb cs : forall r w,
  NoDup (id <$> cs) ->
  (forall c, In c cs -> In (id c) (id <$> prospects w)) ->
  (forall tx, In tx (transactions r) ->
     ~ In (tx_prospectId tx) (id <$> cs)
     /\ exists row, In row (prospects w) /\ records row tx) ->
  NoDup (tx_prospectId <$> transactions r) ->
  (forall tx, In tx (transactions (fst (loop env config oa tb cs (r, w)))) ->
     exists row, In row (prospects (snd (loop env config oa tb cs (r, w))))
                 /\ records row tx)
  /\ NoDup (tx_prospectId <$> transactions (fst (loop env config oa tb cs (r, w)))).
Proof.
  induction cs as [|c cs IH]; intros r w Hnd Hrows Hinv Htx.
  - cbn. split; [|exact Htx]. intros tx Hin. now apply Hinv.
  - rewrite airdrop_loop_cons. csimpl in Hnd. apply NoDup_cons in Hnd as [Hfresh Hnd].
    assert (Hids : id <$> prospects (snd (iteration env config oa tb c (r, w)))
                   = id <$> prospects w)
      by apply (grows_airdrop_iteration env config oa tb c (r, w)).
    assert (Hstep :
      (forall tx, In tx (transactions (fst (iteration env config oa tb c (r, w)))) ->
         ~ In (tx_prospectId tx) (id <$> cs)
         /\ exists row, In row (prospects (snd (iteration env config oa tb c (r, w))))
                        /\ records row tx)
      /\ NoDup (tx_prospectId
                  <$> transactions (fst (iteration env config oa tb c (r, w))))).
    { assert (Hold : forall tx, In tx (transactions r) ->
                ~ In (tx_prospectId tx) (id <$> cs)
                /\ exists row,
                     In row (prospects (snd (iteration env config oa tb c (r, w))))
                     /\ records row tx).
      { intros tx Hin. destruct (Hinv tx Hin) as (Hout & row & Hrow & Hrec).
        split; [intros H; apply Hout; csimpl; now right|].
        exists row. split; [|exact Hrec].
        apply airdrop_iteration_other_rows; [exact Hrow|].
        destruct Hrec as (Hid & _). intros Heq. apply Hout. csimpl. left. congruence. }
      destruct (processes config oa tb c) eqn:Hp;
        [|rewrite iteration_skips by exact Hp; cbn [fst snd skip transactions];
          split; [|exact Htx]; intros tx Hin; destruct (Hinv tx Hin) as (Hout & H);
          split; [intros H'; apply Hout; csimpl; now right | exact H]].
      destruct (iteration_processes env config oa tb c r w Hp)
        as (tx0 & w1 & Hpa & Hcase).
      pose proof (Hrows c ltac:(now left)) as Hc.
      apply in_map_iff in Hc as (row0 & Hid0 & Hin0).
      destruct (processAirdrop_records env c (determineAmount config oa c) w row0
                  Hin0 Hid0) as (row' & Hin' & Hrec').
      pose proof (processAirdrop_tx env c (determineAmount config oa c) w) as Htxid.
      rewrite Hpa in Hin', Hrec', Htxid. cbn [fst snd] in *.
      assert (Hfinal : prospects (snd (iteration env config oa tb c (r, w)))
                       = prospects w1
                       /\ transactions (fst (iteration env config oa tb c (r, w)))
                          = (transactions r ++ [tx0])%list).
      { destruct Hcase as [[_ ->] | [_ [n ->]]]; cbn [fst snd transactions]; [auto|].
        split; [apply incrementDailyAirdrops_rest | reflexivity]. }
      destruct Hfinal as [Hfp Hft]. rewrite Hft. split.
      - intros tx Hin. apply in_app_or in Hin as [Hin | [<- | []]];
          [now apply Hold|].
        split; [rewrite Htxid; intros H; apply Hfresh; now apply list_elem_of_In|].
        exists row'. rewrite Hfp. auto.
      - rewrite fmap_app. apply NoDup_app. split; [exact Htx|].
        split; [|apply NoDup_singleton].
        intros i Hi Hi'. apply list_elem_of_singleton in Hi'. subst i.
        apply list_elem_of_In, in_map_iff in Hi as (tx & Heq & Hin).
        destruct (Hinv tx Hin) as (Hout & _). apply Hout. csimpl. left. congruence. }
    destruct Hstep as [Hstep Hnd'].
    destruct (iteration env config oa tb c (r, w)) as [r1 w1]. cbn [fst snd] in *.
    apply IH; [exact Hnd | | exact Hstep | exact Hnd'].
    intros c' Hin. rewrite Hids. apply Hrows. now right.
Qed.

End AirdropRowsFacts.

(** X19. The table records what a run of airdrop reports (ids identify the
    rows). For every transaction a run returns, the row of its prospect
    holds, when the run ends, the status of the transaction, and, unless
    the transfer failed, its txid, its amount and its time of broadcast;
    and no two transactions of a run are for the same prospect. *)
Theorem airdrop_rows_record_transactions
    (env : Airdrop.Env) (options : Airdrop.AirdropOptions) (config : Config)
    (w : World) (r : Airdrop.AirdropResult) :
  NoDup (id <$> prospects w) ->
  fst (Airdrop.airdrop env options config w) = Some r ->
  (forall tx, In tx (Airdrop.transactions r) ->
     exists row,
       In row (prospects (snd (Airdrop.airdrop env options config w)))
       /\ Tally.records row tx)
  /\ NoDup (Airdrop.tx_prospectId <$> Airdrop.transactions r).
Proof.
  intros Hnd Hr.
  destruct (airdrop_cases env options config w)
    as [(w' & _ & _ & _ & [Hn | He]) | (b & eff & Heq)].
  - congruence.
  - rewrite He in Hr. injection Hr as <-. cbn. split; [intros tx [] | constructor].
  - rewrite Heq in Hr |- *. cbn [fst snd] in *. injection Hr as <-.
    set (w2 := Db.call GetWalletInfo (Db.call GetWalletAddress
                 (snd (Db.getDailyLimits (startDate (Airdrop.clock env)) w)))).
    assert (Hp2 : prospects w2 = prospects w)
      by (subst w2; cbn; apply getDailyLimits_rest).
    apply airdrop_loop_records.
    + apply selected_NoDup. now rewrite Hp2.
    + intros c Hin. apply In_slice0, gathered_rows in Hin.
      apply in_map_iff. eauto.
    + intros tx [].
    + constructor.
Qed.

(** The run over three waiting prospects with a maximum of one payout:
    erin's row holds the confirmed transfer of 5000 sats. *)
Lemma airdrop_rows_record_transactions_witness :
  exists r row,
    fst (Airdrop.airdrop Examples.network Examples.airdropPending Examples.config1
           Examples.waitingWorld) = Some r
    /\ In row (prospects (snd (Airdrop.airdrop Examples.network Examples.airdropPending
                                 Examples.config1 Examples.waitingWorld)))
    /\ id row = 6 /\ airdropStatus row = AirdropConfirmed
    /\ airdropAmountSats row = Some 5000.
Proof.
  assert (Hnd : NoDup (id <$> prospects Examples.waitingWorld))
    by (apply (bool_decide_unpack _); vm_compute; reflexivity).
  eexists.
  destruct (airdrop_rows_record_transactions Examples.network Examples.airdropPending
              Examples.config1 Examples.waitingWorld _ Hnd eq_refl) as [Hrec _].
  destruct (Hrec _ (or_introl eq_refl)) as (row & Hin & Hid & Hst & Hrest).
  exists row. split; [reflexivity|]. split; [exact Hin|].
  split; [exact Hid|]. split; [exact Hst|].
  now destruct (Hrest ltac:(discriminate)) as (_ & H & _).
Defined.

(** ** The comparator of [selectTargetRepo] *)

(** X20. The comparator that [selectTargetRepo] hands to [sort] is
    antisymmetric but not transitive: swapping its arguments changes the
    sign of its result, and there are three repositories, each put before
    the next by the comparator, of which the third is put before the first
    (two repositories updated within a week of each other are ordered by
    stars, two further apart by date). The order [sort] gives with such a
    comparator, and with it the repository chosen, is left to the
    implementation of [sort]. *)
Theorem compareRepos_antisymmetric_not_transitive :
  (forall a b, Outreach.compareRepos b a = - Outreach.compareRepos a b)
  /\ exists a b c,
       Outreach.compareRepos a b < 0
       /\ Outreach.compareRepos b c < 0
       /\ Outreach.compareRepos c a < 0.
Proof.
  split; [intros a b; apply compareRepos_antisym|].
  exists Examples2.newest, Examples2.oldest, Examples2.middle.
  repeat split.
Qed.

(** ** Scoring with more repositories *)

Section EvidenceFacts.

Import Qualifier Evidence.

Lemma agent_inner_ge repo (inds : list (string * Z)) : forall m,
  m <= fold_left (fun maxScore '(pattern, points) =>
         if Js.includes (combined repo) pattern
         then Z.max maxScore points else maxScore) inds m.
Proof.
  induction inds as [|[pat pts] inds IH]; intros m; cbn [fold_left]; [lia|].
  etransitivity; [|apply IH]. destruct (Js.includes _ _); lia.
Qed.

Lemma agent_outer_ge (rs : list MatchedRepo) : forall m,
  m <= fold_left (fun maxScore repo =>
         fold_left (fun maxScore '(pattern, points) =>
           if Js.includes (combined repo) pattern
           then Z.max maxScore points else maxScore) agentIndicators maxScore)
       rs m.
Proof.
  induction rs as [|r rs IH]; intros m; cbn [fold_left]; [lia|].
  etransitivity; [|apply IH]. apply agent_inner_ge.
Qed.

Lemma scoreAiAgent_more p more :
  scoreAiAgent p <= scoreAiAgent (withMore p more).
Proof.
  unfold scoreAiAgent. cbn [withMore repos]. rewrite fold_left_app.
  apply Z.min_le_compat_r. apply agent_outer_ge.
Qed.

Lemma scoreClaudeMcp_more p more :
  scoreClaudeMcp p <= scoreClaudeMcp (withMore p more).
Proof.
  unfold scoreClaudeMcp. cbn [withMore repos]. rewrite existsb_app.
  destruct (existsb _ (repos p)); cbn [orb]; [lia|].
  destruct (existsb _ more); unfold WEIGHTS.CLAUDE_MCP; lia.
Qed.

Lemma scoreCrypto_more p more :
  scoreCrypto p <= scoreCrypto (withMore p more).
Proof.
  unfold scoreCrypto. cbn [withMore repos]. rewrite existsb_app.
  destruct (existsb _ (repos p)); cbn [orb]; [lia|].
  destruct (existsb _ more); unfold WEIGHTS.CRYPTO; lia.
Qed.

Lemma scoreStars_more p more :
  Forall (fun r => 0 <= stars r) more ->
  scoreStars p <= scoreStars (withMore p more).
Proof.
  intros Hmore. unfold scoreStars. rewrite !totalStars_sum.
  cbn [withMore repos]. rewrite fmap_app, foldr_app.
  apply Z.min_le_compat_r. apply Z.div_le_mono; [lia|].
  pose proof (sum_stars_nonneg more Hmore) as H.
  generalize dependent (foldr Z.add 0 (stars <$> more)). intros s Hs.
  generalize (stars <$> repos p). intros l.
  induction l as [|x l IH]; cbn; lia.
Qed.

(** The most recent update, from a value already held: it stays, or it
    becomes a later time. *)
Lemma mostRecent_from (rs : list MatchedRepo) : forall m,
  exists m',
    fold_left (fun mostRecent repo =>
      let updated := lastUpdated repo in
      match mostRecent with
      | None => Some updated
      | Some m => if Js.time_gt updated m then Some updated else mostRecent
      end) rs (Some m) = Some m'
    /\ (m' = m \/ exists x y, m' = Some x /\ m = Some y /\ y < x).
Proof.
  set (step := fun (mostRecent : option Js.Time) (repo : MatchedRepo) => _).
  induction rs as [|r rs IH]; intros m; [cbn; eauto|].
  change (fold_left step (r :: rs) (Some m))
    with (fold_left step rs (step (Some m) r)).
  unfold step at 2. cbv beta zeta iota.
  destruct (Js.time_gt (lastUpdated r) m) eqn:Hgt.
  - destruct (IH (lastUpdated r)) as (m' & -> & Hcase). exists m'.
    split; [reflexivity|]. right.
    unfold Js.time_gt in Hgt.
    destruct (lastUpdated r) as [u|], m as [y|]; try discriminate.
    apply Z.gtb_lt in Hgt.
    destruct Hcase as [-> | (x & u' & -> & [= <-] & Hlt)]; [eauto|].
    exists x, y. repeat split; auto. lia.
  - apply IH.
Qed.

Lemma scoreActivity_more now p more :
  scoreActivity now p <= scoreActivity now (withMore p more).
Proof.
  unfold scoreActivity, mostRecentUpdate. cbn [withMore repos].
  rewrite fold_left_app.
  destruct (fold_left _ (repos p) None) as [m|] eqn:Hm.
  - destruct (mostRecent_from more m) as (m' & Hf & Hcase).
    cbv zeta in Hf. rewrite Hf.
    destruct Hcase as [-> | (x & y & -> & -> & Hlt)]; [lia|].
    unfold Js.time_ge, WEIGHTS.ACTIVITY.
    repeat match goal with
           | |- context [?a >=? ?b] => destruct (Z.geb_spec a b)
           end; lia.
  - pose proof (scoreActivity_cases now (withMore p more)) as H.
    unfold scoreActivity, mostRecentUpdate in H. cbn [withMore repos] in H.
    rewrite fold_left_app, Hm in H. lia.
Qed.

End EvidenceFacts.

(** X21. More repositories never lower a score. For a prospect and further
    repositories listed after its own (star counts not negative), each of
    the sub-scores of [qualifyProspect] is at least what it is without
    them, and so is the score; the tier is the same or a better one. *)
Theorem more_repos_never_lower_the_score
    (now : Z) (p : Prospect) (more : list MatchedRepo) :
  Forall (fun r => 0 <= stars r) more ->
  let before := Qualifier.qualifyProspect now p in
  let after := Qualifier.qualifyProspect now (Evidence.withMore p more) in
  claudeMcp (breakdown before) <= claudeMcp (breakdown after)
  /\ aiAgent (breakdown before) <= aiAgent (breakdown after)
  /\ sb_stars (breakdown before) <= sb_stars (breakdown after)
  /\ activity (breakdown before) <= activity (breakdown after)
  /\ crypto (breakdown before) <= crypto (breakdown after)
  /\ qr_score before <= qr_score after
  /\ Qualify.tierOrder (qr_tier after) <= Qualify.tierOrder (qr_tier before).
Proof.
  intros Hmore. cbn zeta.
  cbn [Qualifier.qualifyProspect breakdown qr_score qr_tier
       claudeMcp aiAgent sb_stars activity followers crypto].
  pose proof (scoreClaudeMcp_more p more).
  pose proof (scoreAiAgent_more p more).
  pose proof (scoreStars_more p more Hmore).
  pose proof (scoreActivity_more now p more).
  pose proof (scoreCrypto_more p more).
  unfold Qualifier.scoreFollowers.
  do 5 (split; [assumption|]). split; [lia|].
  apply getTier_monotone. lia.
Qed.

(** Alice with the second repository of the search, which the scan drops:
    with its name and its 900 stars she would score 75, tier A, instead of
    57, tier B. *)
Lemma more_repos_never_lower_the_score_witness :
  qr_score (Qualifier.qualifyProspect Examples.now Examples.alice) = 57
  /\ qr_score (Qualifier.qualifyProspect Examples.now
                 (Evidence.withMore Examples.alice
                    [Scanner.searchItemToMatchedRepo
                       (Examples2.aliceItem "big-agent" 900) "filename:mcp.json"]))
     = 75
  /\ qr_score (Qualifier.qualifyProspect Examples.now Examples.alice)
     <= qr_score (Qualifier.qualifyProspect Examples.now
                    (Evidence.withMore Examples.alice
                       [Scanner.searchItemToMatchedRepo
                          (Examples2.aliceItem "big-agent" 900) "filename:mcp.json"])).
Proof.
  split; [reflexivity|]. split; [vm_compute; reflexivity|].
  apply (more_repos_never_lower_the_score Examples.now Examples.alice
           [Scanner.searchItemToMatchedRepo
              (Examples2.aliceItem "big-agent" 900) "filename:mcp.json"]).
  repeat constructor. cbn. lia.
Defined.
